(* ===== verification/_CoqProject ===== *)
-Q . S2P
Prelude.v
RustStr.v
RustNet.v
Outside.v
Hickory.v
Metrics.v
ListParsers.v
ListGrammar.v
FilterEngine.v
ExampleCodec.v
Upstream.v
Pipeline.v
ZoneForwarding.v
ZoneAuthority.v
ZoneRegistry.v
ChrootPaths.v
ConfigBootstrap.v
Repositories.v
Schema.v
ConfigDb.v
ServerOperations.v
Daemon.v
Handler.v
Merger.v
HttpApi.v
UpstreamClients.v
Recursive.v
ControlSocket.v
Listeners.v
Mcp.v
Admin.v
CertTime.v
Cloudflare.v
Acme.v
Logging.v
Privileges.v
Cli.v
Startup.v
Routing.v
System.v
Migrations.v
