(* ===== verification/Prelude.v ===== *)
(** * dns-filter: a verification development

    dns-filter is a filtering DNS resolver.  A query runs through a pipeline of stages:
    zones that bypass the filter, the block and allow lists, the policy for ANY queries,
    the other configured zones, the upstream resolvers, and a SERVFAIL fallback.  Lists
    are downloaded, parsed and refreshed in the background; zones are forwarded to other
    servers or answered from JSON documents; upstream answers are cached.  Lists,
    upstream servers and zones live in a database, which is seeded from the configuration
    file, changed through a management API, and read again at every reload.  This library
    models the program as executable functions and proves what each part promises and
    what the parts promise together.

    ** Files and the code they model (paths under [src/src/])

    Foundations:
    - [Prelude]: [Result], early return, state passing, cells, sorting, shared lemmas.
    - [RustStr], [RustNet]: what the code uses of Rust's strings, characters, number
      parsing and of [std::net] address parsing and printing.
    - [Outside]: HTTP, file system, clock and random numbers, as a record of operations.
    - [Hickory]: the DNS message types of hickory-proto and the two interfaces the code
      uses of it, [DnsName] (names) and [DnsCodec] (wire format), with the laws
      [NameLaws] and [CodecLaws].  [ExampleCodec] is an instance that satisfies them.

    Answering queries:
    - [Metrics]: [entities/*.rs] and [frameworks/metrics/mod.rs], the decision and
      strategy types, the bounded query log, the counters and their snapshot.
    - [ListParsers]: [use_cases/filtering/{common,adguard,hosts,rpz,domains,wildcard}.rs]
      and [parse_list_content].
    - [ListGrammar]: the lines of the five list formats and the rules they stand for, as a
      relation to compare the parsers with.
    - [FilterEngine]: [use_cases/filtering/mod.rs].  The lists, the switches and the
      snapshot are one heap ([EngineHeap]) behind a cell; [decide], [blocked_by], the
      switches, the refresh, the persistence and the start-up are functions on it, and
      [step] is the interleaving of their lock-protected sections.
    - [Upstream]: [use_cases/upstream_resolver.rs], the cached, the instrumented and the
      strategy resolver as combinators over [UpstreamResolver].
    - [UpstreamClients]: [frameworks/upstream/{dns,dot,doh,doq}_client.rs], the network
      clients that implement [UpstreamResolver]: endpoint parsing, bootstrap lookups, the
      connection each client keeps.  Sockets, TLS, HTTP/2 and QUIC are the operations of
      [DnsNet] and [SecureNet].
    - [Recursive]: [frameworks/upstream/recursive_resolver.rs], root hints, trust anchors
      and the answers made of hickory's recursion ([RecursorApi]).
    - [Pipeline]: [use_cases/request_pipeline.rs], the stages and response builders.
    - [ZoneForwarding]: [use_cases/zone_forwarding.rs] and the assembly of the pipeline
      in [use_cases/config_bootstrap.rs].
    - [Handler]: [interface_adapters/listeners/handler.rs], from the DNS server's request
      through the pipeline to the one response that is sent.
    - [ZoneAuthority]: [use_cases/zone_authority.rs], JSON zones, answers, refresh.
    - [ZoneRegistry]: [use_cases/zone_registry.rs] and [use_cases/zone_discovery.rs].

    Configuration and state:
    - [Schema]: [frameworks/config/schema.rs], the sections of the configuration and the
      hand-written deserializers.
    - [Merger]: [frameworks/config/merger.rs], the user's file laid over the example.
    - [ChrootPaths]: the path validation of [use_cases/config_bootstrap.rs].
    - [ConfigBootstrap]: its builders, from the configuration to resolvers and zones.
    - [Repositories]: [use_cases/{repository_types,repositories}.rs] and
      [frameworks/database/*_repo.rs] over the tables of [migrations/sqlite].  The
      repository traits are records of operations; the SQL implementations are functions
      on a [Database] cell, statement by statement.
    - [Migrations]: [src/migrations/sqlite], the versions of the schema and the functions
      from one to the next.
    - [ConfigDb]: [use_cases/seed.rs] and [use_cases/config_from_db.rs].
    - [Daemon]: [frameworks/config/loader.rs], [use_cases/reload.rs] and the start-up,
      reload and management wiring of [run_daemon] in [main.rs].

    The process and its servers:
    - [Listeners]: [interface_adapters/listeners/{mod,tls}.rs], addresses, sockets, the
      generated certificate and the TLS configurations.
    - [Admin]: [interface_adapters/listeners/{admin,metrics}.rs] and the servers of
      [http.rs]: the admin router around the API, the redirect, the accept loops.
    - [CertTime]: the certificate reader and the duration parser of
      [frameworks/acme/mod.rs], with the calendar they are compared with.
    - [Cloudflare]: [frameworks/acme/cloudflare.rs], an instance of [TxtProvider].
    - [Acme]: [frameworks/acme/{mod,cert_resolver}.rs] and the set-up in [main.rs].
    - [Logging]: [frameworks/logging/{mod,syslog}.rs].
    - [Privileges]: [frameworks/{privileges,signal_handler}.rs].
    - [Cli]: the command line of [main.rs] and [frameworks/control_client.rs].
    - [Startup]: [run_daemon] and the [spawn_] functions of [main.rs] and
      [frameworks/database/pool.rs]; it puts the components together.
    - [Routing]: [frameworks/upstream/runtime.rs] and the plugin files.
    - [System]: the started daemon as one step relation: the reload channel and task of
      [run_daemon], management, signals and everything that runs beside them.

    Management:
    - [ServerOperations]: [use_cases/server_operations.rs], every operation and every
      validation, over the repository records.
    - [HttpApi]: [interface_adapters/listeners/{auth,http}.rs], the token check, the
      handlers and the router.
    - [ControlSocket]: [frameworks/{control_socket,control_client}.rs].
    - [Mcp]: [interface_adapters/listeners/mcp.rs], every tool over [ServerOperations], the
      conversion of its parameters, the tables it renders, the settings of its server.

    The client of an interface is proved against the interface: [ServerOperations] and
    [ConfigDb] use the repository records and meet the SQL implementations only in their
    theorems, the pipeline sees resolvers and the filter as records, [Daemon] sees the
    builders through [Builders], which [ConfigBootstrap] implements, [Acme] sees the DNS
    provider through the class [TxtProvider], for which [cloudflare_txt_provider] is the
    instance, [Startup] sees the kernel through [LinuxCredentials], and [HttpApi] gets its
    laws from the lemmas of [ServerOperations].

    ** How the code is modelled

    Strings are lists of Unicode scalar values, bytes and unsigned integers are [N],
    signed integers [Z], durations nanoseconds in [N].  A fallible function returns
    [result]; an [anyhow] error is the list of its messages, outermost first.  Code that
    touches shared state is a function [M W A] of a world [W]; each [Arc], lock or atomic
    is a [Cell] of the world, and components that share an [Arc] share the cell.  An
    awaited operation of another component may change the world, which is how other tasks
    interfere; the theorems say which cells they need to be left alone.  The database is
    such a cell; a SQL statement is atomic, an operation of several statements is not a
    transaction.  A hash map is a [gmap]; where the code depends on its iteration order
    the order is a parameter constrained to be a permutation of the entries.  Arithmetic
    that can overflow is written with its wrap-around (the release profile does not
    check).  Log output is left out.

    ** What the theorems show

    - Lists (C4, C8): suffix matching is exact; a file whose lines are rules of its format,
      by a grammar written apart from the parsers, gives exactly the domains these rules
      block and except and the number of entries that cannot be applied at DNS level;
      results are in normal form.
    - Filter engine (C2, C9, C10, C28): under every interleaving in which no switch is
      stored during a rebuild, the settled snapshot is current, decisions are those the
      lists call for, and [blocked_by] explains them; refresh, switches and restart
      behave as announced.  Without the restriction a switch can be lost
      ([disable_can_be_lost]).
    - Pipeline and handler (C1, C5-C7): blocked queries never reach a resolver, bypass
      zones come first, the most specific zone is used (up to the root, which counts as one
      letter), ANY follows the policy, and every request is answered once, with its own
      identifier and the records, code and flags of the pipeline's answer.
    - Upstream (C3, C16, C19, C21, C22, C30, C40): the cache only replays answers, ages them,
      and is bounded in time and size; each strategy is failover over a rotation; a kept
      connection is one that answered and a stale one never fails a query, also when the
      queries of a client overlap; the recursive resolver answers the client's query on
      every branch; endpoints are well formed.  Answers are complete
      ([answers_are_complete]), and routed sockets carry their mark and source
      ([routed_sockets_carry_route]).
    - Zones (C23, C24, C29): documents load completely or not at all, answers are right on
      every branch, a refresh never loses a good zone; discovery cannot break start-up or
      shadow a configured zone ([zone_entries_survive_discovery]).
    - Configuration (C13, C14, C18, C25): merging is exact path by path, seeding and
      loading are a round trip for what the tables can hold, accepted paths stay in the chroot,
      validation is exact, the resolver built is the configured one
      ([upstream_resolver_follows_config]).
    - Database (C17): an upgrade keeps the configuration, and fails exactly on a repeated
      element; the tables stay consistent under every sequence of statements
      ([database_stays_consistent]), updates read back as written.
    - Management (C11, C15, C31, C36, C37, C39): lists and upstream servers are maps
      ([upstream_servers_refine_map]), zone changes are exact on success and on failure,
      the API serves exactly the authorized requests and reports exactly what happened, the
      admin server serves the same API under the same token, the tools of the MCP server do
      what the API does ([mcp_agrees_with_api]) and its table of servers tells everything but
      the credentials.
    - The daemon (C12, C20, C26, C27, C38): dropping privileges leaves none of root's, and
      all but the configuration and the log is opened after it
      ([started_with_dropped_privileges]); control commands find the socket of the daemon, a
      reload is all or nothing, under every interleaving a daemon at rest serves what its
      database says, and the control loop ends exactly on a stop or a cancellation.  After a
      reload the management switches still act on the engine of start-up
      ([switches_act_on_first_engine]).
    - Certificates (C32-C35): an order removes its challenge records, but for one whose
      creation was answered with an error; the renewal task serves the former certificate or
      one that an order gave, and its back-off is exact; the expiry read from a certificate is
      the one written in it, and a generated certificate names exactly the machine.

    Each file also proves the smaller facts these rest on, among them some that were not
    expected: an interval that overflows, a zero interval that stops refreshing, an IPv6
    literal in a DoH address.

    ** Fuel and bounds

    Five functions use fuel: [replace] ([Admin]) the length of the text, of which every
    round consumes at least one character ([replace_fuel_enough]); [trim_start_matches] ([RustStr]) the length of the text, of
    which every round consumes at least one character ([trim_start_matches_done] shows
    that it is enough); [from_utf8_lossy] ([RustStr]) the number of bytes, one at least
    per round ([from_utf8_lossy_fuel_enough]); the decimal printer ([RustStr]) one round per binary digit of the number;
    and the IPv6 group reader ([RustNet]) the number of groups of an address.  All other
    recursion is structural.  The accept loops of the control socket and of the TLS and
    metrics servers are functions of the sequence of events they receive; the renewal task
    and the syslog sender, which run for ever, are functions of a number of rounds, and
    their theorems hold for every number.

    ** Not modelled

    What third-party crates do: the wire codec, the DNS server loops and the recursion of
    hickory, JSON, YAML, URL, PEM and command-line parsers, rustls, rcgen, instant-acme,
    axum and hyper, sqlx and its migrator, the databases other than SQLite, the syslog
    and tracing crates, the fuzzy matcher, and the kernel.  They are parameters; where a
    theorem needs something of them it is a class with an instance.  The text of the admin
    page, the OpenAPI document and the log messages are data.  The tasks of the running
    daemon are interleaved in the filter engine and in [System]; elsewhere another task
    shows as a change of the world by an awaited operation.  In [System] a call that fails
    after it has changed the database asks for no reload ([half_done]); its theorem holds once
    a later reload has begun.  The CORS layer of the API server is a parameter of which only
    its answer to a preflight request is used. *)

From Stdlib Require Export ZifyBool Ascii.
From stdpp Require Export base gmap strings list numbers sorting.

(** ** Results and the early-return operator

    [result A E] is Rust's [Result<A, E>]; [let? x := e in k] is [e?]. *)

Inductive result (A E : Type) : Type :=
| Ok (a : A)
| Err (e : E).
Arguments Ok {A E} _.
Arguments Err {A E} _.

Declare Scope rust_scope.
Delimit Scope rust_scope with rust.

Notation "'let?' x ':=' e 'in' k" :=
  (match e with Ok x => k | Err err_ => Err err_ end)
  (at level 10, x pattern, e at level 100, k at level 200) : rust_scope.

Notation "'let?o' x ':=' e 'in' k" :=
  (match e with Some x => k | None => None end)
  (at level 10, x pattern, e at level 100, k at level 200) : rust_scope.

Open Scope rust_scope.

Definition is_ok {A E} (r : result A E) : bool :=
  match r with Ok _ => true | Err _ => false end.

Definition ok_or {A E} (o : option A) (e : E) : result A E :=
  match o with Some a => Ok a | None => Err e end.

Definition map_err {A E F} (f : E -> F) (r : result A E) : result A F :=
  match r with Ok a => Ok a | Err e => Err (f e) end.

(** [Iterator::collect::<Result<Vec<_>, _>>()]: the first error wins. *)
Fixpoint collect_results {A E} (l : list (result A E)) : result (list A) E :=
  match l with
  | [] => Ok []
  | r :: rest =>
      let? x := r in
      let? xs := collect_results rest in
      Ok (x :: xs)
  end.

(** [Option<Result<_>>::transpose()]. *)
Definition transpose {A E} (o : option (result A E)) : result (option A) E :=
  match o with
  | None => Ok None
  | Some (Ok a) => Ok (Some a)
  | Some (Err e) => Err e
  end.

(** ** State passing

    Code that reads or writes state shared behind [Arc], locks or atomics is a
    function of a world [W].  A call returns its value and the next world. *)

Definition M (W A : Type) : Type := W -> A * W.

Definition mret {W A} (a : A) : M W A := fun w => (a, w).

Definition mbind {W A B} (m : M W A) (k : A -> M W B) : M W B :=
  fun w => let '(a, w') := m w in k a w'.

Notation "x '<<-' m ';;' k" := (mbind m (fun x => k))
  (at level 100, m at next level, right associativity) : rust_scope.
Notation "m ';;;' k" := (mbind m (fun _ => k))
  (at level 100, k at level 200, right associativity) : rust_scope.

(** [m.await?]: the next call runs only when [m] returned [Ok]. *)
Definition tbind {W A B E} (m : M W (result A E)) (k : A -> M W (result B E)) : M W (result B E) :=
  fun w => match m w with
           | (Ok a, w') => k a w'
           | (Err e, w') => (Err e, w')
           end.

Notation "x '<?-' m ';;' k" := (tbind m (fun x => k))
  (at level 100, m at next level, right associativity) : rust_scope.
Notation "m '?;;' k" := (tbind m (fun _ => k))
  (at level 100, k at level 200, right associativity) : rust_scope.

(** A pure fallible computation followed by [?]. *)
Definition mlift {W A E} (r : result A E) : M W (result A E) := mret r.

(** [m.await.map_err(f)]. *)
Definition mmap_err {W A E F} (f : E -> F) (m : M W (result A E)) : M W (result A F) :=
  fun w => let '(r, w') := m w in (map_err f r, w').

(** A [for] loop whose body can return early. *)
Fixpoint for_each {W A E} (body : A -> M W (result unit E)) (l : list A) : M W (result unit E) :=
  match l with
  | [] => mret (Ok tt)
  | a :: rest => body a ?;; for_each body rest
  end.

(** A [for] loop that pushes one value per round. *)
Fixpoint map_each {W A B E} (body : A -> M W (result B E)) (l : list A) : M W (result (list B) E) :=
  match l with
  | [] => mret (Ok [])
  | a :: rest => b <?- body a ;; bs <?- map_each body rest ;; mret (Ok (b :: bs))
  end.

(** [iter().enumerate()]. *)
Definition enumerate {A} (l : list A) : list (nat * A) := imap pair l.

(** A [Cell W S] is one mutable location of type [S] inside the world: an
    [Arc<RwLock<S>>], an [Arc<Mutex<S>>] or an atomic.  Two components that hold
    clones of the same [Arc] hold the same cell. *)
Record Cell (W S : Type) : Type := {
  cget : W -> S;
  cput : S -> W -> W
}.
Arguments cget {W S} _ _.
Arguments cput {W S} _ _ _.

Class CellLaws {W S : Type} (c : Cell W S) : Prop := {
  cget_cput : forall s w, cget c (cput c s w) = s;
  cput_cget : forall w, cput c (cget c w) w = w;
  cput_cput : forall s s' w, cput c s' (cput c s w) = cput c s' w
}.

(** Writing [c1] does not change what [c2] reads. *)
Definition cell_frame {W S T : Type} (c1 : Cell W S) (c2 : Cell W T) : Prop :=
  forall s w, cget c2 (cput c1 s w) = cget c2 w.

Definition cread {W S} (c : Cell W S) : M W S := fun w => (cget c w, w).
Definition cwrite {W S} (c : Cell W S) (s : S) : M W unit := fun w => (tt, cput c s w).
Definition cmodify {W S} (c : Cell W S) (f : S -> S) : M W unit :=
  fun w => (tt, cput c (f (cget c w)) w).

(** ** Machine integers

    Unsigned machine integers are [N]; arithmetic that can leave the width is
    written with its wrap-around (the release profile does not check overflow). *)

Definition u16_max : N := 2 ^ 16 - 1.
Definition u32_max : N := 2 ^ 32 - 1.
Definition u64_modulus : N := 2 ^ 64.
Definition wrapping_mul_u64 (a b : N) : N := ((a * b) mod u64_modulus)%N.
Definition wrapping_add_u64 (a b : N) : N := ((a + b) mod u64_modulus)%N.

(** The casts [as i32], [as u8], [as u32] and [as i64]. *)
Definition as_i32 (z : Z) : Z := ((z + 2 ^ 31) mod 2 ^ 32 - 2 ^ 31)%Z.
Definition as_u8 (z : Z) : N := Z.to_N (z mod 2 ^ 8).
Definition as_u32 (z : Z) : N := Z.to_N (z mod 2 ^ 32).
Definition as_i64 (z : Z) : Z := ((z + 2 ^ 63) mod 2 ^ 64 - 2 ^ 63)%Z.

(** ** Stable sorting by an integer key

    [slice::sort_by_key] is stable: elements with equal keys keep their order. *)

Fixpoint insert_by_key {A} (key : A -> Z) (x : A) (l : list A) : list A :=
  match l with
  | [] => [x]
  | y :: ys => if (key x <=? key y)%Z then x :: y :: ys else y :: insert_by_key key x ys
  end.

Definition sort_by_key {A} (key : A -> Z) (l : list A) : list A :=
  foldr (insert_by_key key) [] l.

(** ** Automation *)

Create HintDb rust.

(** Destruct the scrutinee of the outermost match of the goal or of a hypothesis. *)
Ltac case_goal :=
  match goal with
  | |- context [match ?x with _ => _ end] => destruct x eqn:?
  end.

Ltac case_hyp H :=
  match type of H with
  | context [match ?x with _ => _ end] => destruct x eqn:?
  end.

Ltac crush := repeat (simplify_eq/=; try done; try case_goal); eauto with rust.

(** ** Shared lemmas *)

Lemma collect_results_ok {A E} (l : list (result A E)) (xs : list A) :
  collect_results l = Ok xs <-> l = Ok <$> xs.
Proof.
  revert xs. induction l as [|r l IH]; intros xs; simpl.
  - split; [by intros [= <-]|]. by destruct xs.
  - destruct r as [a|e]; simpl.
    + destruct (collect_results l) as [ys|e] eqn:Hc.
      * split.
        -- intros [= <-]. simpl. f_equal. by apply IH.
        -- destruct xs as [|x xs]; simpl; [done|]. intros [= -> Hl].
           apply IH in Hl. by simplify_eq.
      * split; [done|]. destruct xs as [|x xs]; simpl; [done|].
        intros [= -> Hl]. apply IH in Hl. done.
    + split; [done|]. by destruct xs.
Qed.

(** An operation that succeeded: each of its steps did. *)
Lemma tbind_ok {W A B E} (m : M W (result A E)) (k : A -> M W (result B E)) w b w' :
  tbind m k w = (Ok b, w') -> exists a w1, m w = (Ok a, w1) /\ k a w1 = (Ok b, w').
Proof. unfold tbind. destruct (m w) as [[a|e] w1]; [|done]. intros Hk. by exists a, w1. Qed.

(** [m] does not change what [f] reads of the world. *)
Definition keeps {W A T} (f : W -> T) (m : M W A) : Prop := forall w, f (snd (m w)) = f w.

Lemma keeps_mret {W A T} (f : W -> T) (a : A) : keeps f (mret a).
Proof. done. Qed.

Lemma keeps_mlift {W A E T} (f : W -> T) (r : result A E) : keeps f (mlift r).
Proof. done. Qed.

Lemma keeps_mbind {W A B T} (f : W -> T) (m : M W A) (k : A -> M W B) :
  keeps f m -> (forall a, keeps f (k a)) -> keeps f (mbind m k).
Proof.
  intros Hm Hk w. unfold mbind. specialize (Hm w). destruct (m w) as [a w1]. by rewrite Hk.
Qed.

Lemma keeps_tbind {W A B E T} (f : W -> T) (m : M W (result A E)) (k : A -> M W (result B E)) :
  keeps f m -> (forall a, keeps f (k a)) -> keeps f (tbind m k).
Proof.
  intros Hm Hk w. unfold tbind. specialize (Hm w). destruct (m w) as [[a|e] w1]; [|done]. by rewrite Hk.
Qed.

Lemma keeps_mmap_err {W A E F T} (f : W -> T) (g : E -> F) (m : M W (result A E)) :
  keeps f m -> keeps f (mmap_err g m).
Proof. intros Hm w. unfold mmap_err. specialize (Hm w). by destruct (m w). Qed.

Lemma keeps_for_each {W A E T} (f : W -> T) (body : A -> M W (result unit E)) l :
  (forall a, keeps f (body a)) -> keeps f (for_each body l).
Proof. intros Hb. induction l; [apply keeps_mret|]. by apply keeps_tbind. Qed.

Create HintDb keeps.
#[export] Hint Resolve keeps_mret keeps_mlift keeps_mbind keeps_tbind keeps_mmap_err keeps_for_each : keeps.

Lemma tail_drop {A} n (l : list A) : tail (drop n l) = drop (S n) l.
Proof. revert l. induction n as [|n IH]; intros [|x l]; try done. apply IH. Qed.

Lemma filter_all {A} (P : A -> Prop) `{forall x, Decision (P x)} (l : list A) :
  Forall P l -> filter P l = l.
Proof. induction 1 as [|x l Hx Hl IH]; [done|]. by rewrite filter_cons_True, IH. Qed.

Lemma filter_none {A} (P : A -> Prop) `{forall x, Decision (P x)} (l : list A) :
  Forall (fun x => ~ P x) l -> filter P l = [].
Proof. induction 1 as [|x l Hx Hl IH]; [done|]. by rewrite filter_cons_False, IH. Qed.

Lemma fmap_zip_with {A B C D} (f : A -> B -> C) (g : C -> D) (l : list A) (k : list B) :
  g <$> zip_with f l k = zip_with (fun x y => g (f x y)) l k.
Proof. revert k. induction l as [|x l IH]; intros [|y k]; try done. simpl. f_equal. apply IH. Qed.

Lemma strongly_sorted_impl {A} (R S : A -> A -> Prop) l :
  (forall x y, R x y -> S x y) -> StronglySorted R l -> StronglySorted S l.
Proof.
  intros Himp. induction 1 as [|x l Hs IH Hall]; constructor; [done|].
  eapply Forall_impl; [exact Hall|]. eauto.
Qed.

Lemma strongly_sorted_app {A} (R : A -> A -> Prop) l k :
  StronglySorted R (l ++ k) ->
  StronglySorted R l /\ forall x y, x ∈ l -> y ∈ k -> R x y.
Proof.
  induction l as [|a l IH]; simpl.
  { intros _. split; [constructor|]. by intros x y ?%not_elem_of_nil. }
  intros Hs. apply StronglySorted_inv in Hs as [Hs Hall]. destruct (IH Hs) as [Hl Hc].
  apply Forall_app in Hall as [Ha Hk]. rewrite Forall_forall in Hk.
  split; [by constructor|]. intros x y [->|Hx]%elem_of_cons Hy; auto.
Qed.

Section sorting.
Context {A : Type} (key : A -> Z).

Lemma insert_by_key_perm x l : insert_by_key key x l ≡ₚ x :: l.
Proof.
  induction l as [|y l IH]; simpl; [done|].
  case_match; [done|]. rewrite IH. by apply Permutation_swap.
Qed.

Lemma sort_by_key_perm l : sort_by_key key l ≡ₚ l.
Proof.
  induction l as [|x l IH]; simpl; [done|]. by rewrite insert_by_key_perm, IH.
Qed.

Lemma elem_of_sort_by_key x l : x ∈ sort_by_key key l <-> x ∈ l.
Proof. by rewrite sort_by_key_perm. Qed.

Lemma length_sort_by_key l : length (sort_by_key key l) = length l.
Proof. by rewrite sort_by_key_perm. Qed.

Definition key_le (x y : A) : Prop := (key x <= key y)%Z.

Lemma insert_by_key_sorted x l :
  StronglySorted key_le l -> StronglySorted key_le (insert_by_key key x l).
Proof.
  induction 1 as [|y l Hs IH Hall]; simpl.
  - repeat constructor.
  - destruct (Z.leb_spec (key x) (key y)) as [Hle|Hlt].
    + constructor; [by constructor|]. constructor; [done|].
      eapply Forall_impl; [exact Hall|]. unfold key_le. intros z; simpl. lia.
    + constructor; [done|]. rewrite insert_by_key_perm.
      constructor; [unfold key_le; lia|done].
Qed.

Lemma sort_by_key_sorted l : StronglySorted key_le (sort_by_key key l).
Proof. induction l; simpl; [constructor|by apply insert_by_key_sorted]. Qed.

(** Stability: the elements with one given key keep their relative order. *)
Lemma insert_by_key_filter_key (k : Z) x l :
  StronglySorted key_le l ->
  filter (fun y => key y = k) (insert_by_key key x l) = filter (fun y => key y = k) (x :: l).
Proof.
  induction 1 as [|y l Hs IH Hall]; simpl; [done|].
  destruct (Z.leb_spec (key x) (key y)) as [Hle|Hlt]; [done|].
  rewrite !filter_cons in IH |- *. rewrite IH.
  repeat case_decide; rewrite !filter_cons; repeat case_decide;
    first [done | exfalso; lia].
Qed.

Lemma sort_by_key_stable (k : Z) l :
  filter (fun y => key y = k) (sort_by_key key l) = filter (fun y => key y = k) l.
Proof.
  induction l as [|x l IH]; [done|]. simpl.
  rewrite insert_by_key_filter_key by apply sort_by_key_sorted.
  rewrite !filter_cons. by rewrite IH.
Qed.
End sorting.

#[export] Hint Resolve sort_by_key_sorted : rust.
