(* ===== verification/RustStr.v ===== *)
(** * Rust strings

    The part of Rust's [str] and [char] API that dns-filter uses.  A [char] is
    its Unicode scalar value, an [N]; a [str] is the list of its chars.  [len] is
    the UTF-8 byte length.  [trim] and [split_whitespace] use the Unicode
    White_Space property, the [ascii] operations touch ASCII letters only. *)

From S2P Require Import Prelude.

Abbreviation rchar := N.
Abbreviation rstr := (list N).

(** String and character literals. *)
Definition lit (s : string) : rstr := Ascii.N_of_ascii <$> String.list_ascii_of_string s.
Definition ch (a : Ascii.ascii) : rchar := Ascii.N_of_ascii a.
Arguments lit s%_string_scope : simpl never.
Arguments ch a%_char_scope : simpl never.

(** ** Characters *)

Definition in_range (lo hi c : N) : bool := ((lo <=? c) && (c <=? hi))%N.

(** [char::is_whitespace]. *)
Definition is_whitespace (c : rchar) : bool :=
  (in_range 9 13 c || (c =? 32) || (c =? 133) || (c =? 160) || (c =? 5760)
   || in_range 8192 8202 c || (c =? 8232) || (c =? 8233) || (c =? 8239)
   || (c =? 8287) || (c =? 12288))%N.

Definition is_ascii_digit (c : rchar) : bool := in_range 48 57 c.
Definition is_ascii_uppercase (c : rchar) : bool := in_range 65 90 c.
Definition is_ascii_lowercase (c : rchar) : bool := in_range 97 122 c.
Definition is_ascii_alphanumeric (c : rchar) : bool :=
  is_ascii_digit c || is_ascii_uppercase c || is_ascii_lowercase c.

Definition char_to_ascii_lowercase (c : rchar) : rchar :=
  if is_ascii_uppercase c then (c + 32)%N else c.
Definition char_to_ascii_uppercase (c : rchar) : rchar :=
  if is_ascii_lowercase c then (c - 32)%N else c.

(** [char::len_utf8]. *)
Definition len_utf8 (c : rchar) : nat :=
  if (c <? 128)%N then 1 else if (c <? 2048)%N then 2 else if (c <? 65536)%N then 3 else 4.

(** [char::to_digit]. *)
Definition to_digit (radix : N) (c : rchar) : option N :=
  let d := (if is_ascii_digit c then c - 48
            else if is_ascii_lowercase c then c - 87
            else if is_ascii_uppercase c then c - 55 else radix)%N in
  if (d <? radix)%N then Some d else None.

(** ** Strings *)

Definition str_eqb (a b : rstr) : bool := bool_decide (a = b).
Definition is_empty {A} (s : list A) : bool := match s with [] => true | _ => false end.
Definition str_len (s : rstr) : nat := sum_list (len_utf8 <$> s).

Definition to_ascii_lowercase (s : rstr) : rstr := char_to_ascii_lowercase <$> s.
Definition to_ascii_uppercase (s : rstr) : rstr := char_to_ascii_uppercase <$> s.
Definition eq_ignore_ascii_case (a b : rstr) : bool :=
  str_eqb (to_ascii_lowercase a) (to_ascii_lowercase b).

Fixpoint drop_while {A} (p : A -> bool) (s : list A) : list A :=
  match s with
  | [] => []
  | c :: rest => if p c then drop_while p rest else s
  end.

Definition trim_start_by (p : rchar -> bool) (s : rstr) : rstr := drop_while p s.
Definition trim_end_by (p : rchar -> bool) (s : rstr) : rstr := reverse (drop_while p (reverse s)).
Definition trim (s : rstr) : rstr := trim_end_by is_whitespace (trim_start_by is_whitespace s).
Definition trim_end_matches_char (c : rchar) (s : rstr) : rstr := trim_end_by (fun x => x =? c)%N s.
Definition trim_start_matches_char (c : rchar) (s : rstr) : rstr := trim_start_by (fun x => x =? c)%N s.

Fixpoint strip_prefix (pat s : rstr) : option rstr :=
  match pat, s with
  | [], _ => Some s
  | p :: pat', c :: s' => if (p =? c)%N then strip_prefix pat' s' else None
  | _ :: _, [] => None
  end.

Definition strip_suffix (pat s : rstr) : option rstr :=
  match strip_prefix (reverse pat) (reverse s) with
  | Some rest => Some (reverse rest)
  | None => None
  end.

Definition starts_with (pat s : rstr) : bool :=
  match strip_prefix pat s with Some _ => true | None => false end.
Definition ends_with (pat s : rstr) : bool :=
  match strip_suffix pat s with Some _ => true | None => false end.

(** [str::trim_start_matches] with a string pattern; one round of fuel per char. *)
Fixpoint trim_start_matches_fuel (fuel : nat) (pat s : rstr) : rstr :=
  match fuel with
  | O => s
  | S n => match strip_prefix pat s with
           | Some rest => trim_start_matches_fuel n pat rest
           | None => s
           end
  end.
Definition trim_start_matches (pat s : rstr) : rstr := trim_start_matches_fuel (length s) pat s.

(** [str::contains] with a string pattern. *)
Fixpoint contains (pat s : rstr) : bool :=
  starts_with pat s || match s with [] => false | _ :: s' => contains pat s' end.
Definition contains_char (c : rchar) (s : rstr) : bool := existsb (fun x => x =? c)%N s.

(** [str::split] with a char: always at least one piece. *)
Fixpoint split (c : rchar) (s : rstr) : list rstr :=
  match s with
  | [] => [[]]
  | x :: s' =>
      if (x =? c)%N then [] :: split c s'
      else match split c s' with
           | piece :: rest => (x :: piece) :: rest
           | [] => [[x]]
           end
  end.

(** [<[&str]>::join] with a one-char separator. *)
Fixpoint join (c : rchar) (pieces : list rstr) : rstr :=
  match pieces with
  | [] => []
  | [p] => p
  | p :: rest => p ++ c :: join c rest
  end.

(** [str::split_once] and [str::rsplit_once] with a char. *)
Fixpoint split_once (c : rchar) (s : rstr) : option (rstr * rstr) :=
  match s with
  | [] => None
  | x :: s' =>
      if (x =? c)%N then Some ([], s')
      else match split_once c s' with
           | Some (a, b) => Some (x :: a, b)
           | None => None
           end
  end.
Definition rsplit_once (c : rchar) (s : rstr) : option (rstr * rstr) :=
  match split_once c (reverse s) with
  | Some (a, b) => Some (reverse b, reverse a)
  | None => None
  end.

(** [str::split_whitespace]: the maximal whitespace-free runs. *)
Fixpoint split_whitespace_aux (cur : rstr) (s : rstr) : list rstr :=
  match s with
  | [] => if is_empty cur then [] else [reverse cur]
  | c :: s' =>
      if is_whitespace c
      then if is_empty cur then split_whitespace_aux [] s'
           else reverse cur :: split_whitespace_aux [] s'
      else split_whitespace_aux (c :: cur) s'
  end.
Definition split_whitespace (s : rstr) : list rstr := split_whitespace_aux [] s.

(** [str::lines]: pieces ended by a line feed; one carriage return before the
    line feed is dropped; text after the last line feed is a line of its own. *)
Fixpoint lines_aux (cur : rstr) (s : rstr) : list rstr :=
  match s with
  | [] => if is_empty cur then [] else [reverse cur]
  | c :: s' =>
      if (c =? 10)%N
      then reverse (match cur with 13%N :: cur' => cur' | _ => cur end) :: lines_aux [] s'
      else lines_aux (c :: cur) s'
  end.
Definition lines (s : rstr) : list rstr := lines_aux [] s.

(** ** Numbers *)

Fixpoint digits_value (radix acc : N) (s : rstr) : option N :=
  match s with
  | [] => Some acc
  | c :: s' => match to_digit radix c with
               | Some d => digits_value radix (acc * radix + d)%N s'
               | None => None
               end
  end.

(** [u64::from_str_radix] and its kin: an optional [+], then at least one digit,
    and the value must fit. *)
Definition parse_unsigned (radix max : N) (s : rstr) : option N :=
  let body := match s with 43%N :: rest => rest | _ => s end in
  if is_empty body then None
  else match digits_value radix 0 body with
       | Some v => if (v <=? max)%N then Some v else None
       | None => None
       end.
Definition parse_u64 (s : rstr) : option N := parse_unsigned 10 (2 ^ 64 - 1) s.
Definition parse_u32 (s : rstr) : option N := parse_unsigned 10 (2 ^ 32 - 1) s.
Definition parse_u16 (s : rstr) : option N := parse_unsigned 10 (2 ^ 16 - 1) s.

(** [i64::from_str]: a sign is optional. *)
Definition parse_i64 (s : rstr) : option Z :=
  match s with
  | 45%N :: rest =>
      if is_empty rest then None
      else match digits_value 10 0 rest with
           | Some v => if (v <=? 2 ^ 63)%N then Some (- Z.of_N v)%Z else None
           | None => None
           end
  | _ => Z.of_N <$> parse_unsigned 10 (2 ^ 63 - 1) s
  end.

(** [Display] of an unsigned integer. *)
Fixpoint dec_digits (fuel : nat) (n : N) : rstr :=
  match fuel with
  | O => []
  | S f => (if (n <? 10)%N then [] else dec_digits f (n / 10)%N) ++ [(48 + n mod 10)%N]
  end.
Definition display_N (n : N) : rstr := dec_digits (S (N.to_nat (N.size n))) n.
Definition display_Z (z : Z) : rstr :=
  if (z <? 0)%Z then 45%N :: display_N (Z.to_N (- z)) else display_N (Z.to_N z).

Lemma str_eqb_spec a b : reflect (a = b) (str_eqb a b).
Proof. apply bool_decide_reflect. Qed.

(** ** Splitting and joining *)

Lemma str_eqb_refl a : str_eqb a a = true.
Proof. by apply bool_decide_eq_true. Qed.

Lemma split_not_nil c s : split c s <> [].
Proof. destruct s; simpl; [done|]. repeat case_match; done. Qed.

Lemma join_split c s : join c (split c s) = s.
Proof.
  induction s as [|x s IH]; simpl; [done|].
  pose proof (split_not_nil c s) as Hne.
  destruct (N.eqb_spec x c) as [->|Hx].
  - destruct (split c s) as [|p ps] eqn:Hs; [done|]. by rewrite <- IH.
  - destruct (split c s) as [|p ps] eqn:Hs; [done|].
    rewrite <- IH. by destruct ps.
Qed.

Lemma split_app_char c p s : split c (p ++ c :: s) = split c p ++ split c s.
Proof.
  induction p as [|x p IH]; simpl; [by rewrite N.eqb_refl|]. rewrite IH.
  destruct (x =? c)%N; [done|]. by destruct (split c p) eqn:Hp; [destruct (split_not_nil c p)|].
Qed.

Lemma split_no_char c s : contains_char c s = false -> split c s = [s].
Proof.
  induction s as [|x s IH]; simpl; [done|]. intros [Hx Hs]%orb_false_iff. by rewrite Hx, IH.
Qed.

Lemma Forall_join (P : rchar -> Prop) c pieces : P c -> Forall (Forall P) pieces -> Forall P (join c pieces).
Proof.
  intros Hc. induction 1 as [|p ps Hp _ IH]; simpl; [by constructor|].
  destruct ps as [|q ps]; [done|]. apply Forall_app. by split; [|constructor].
Qed.

(** Only a text without [c] at the end has a last piece that is not empty. *)
Lemma split_snoc c s : [] ∉ split c s -> exists q d, s = q ++ [d] /\ d <> c.
Proof.
  destruct s as [|d q _] using rev_ind; intros Hs; simpl in *; [set_solver|].
  exists q, d. split; [done|]. intros ->. apply Hs. rewrite split_app_char. set_solver.
Qed.

Lemma split_no_sep c s : c ∉ s -> split c s = [s].
Proof.
  induction s as [|x s IH]; simpl; [done|]. rewrite not_elem_of_cons. intros [Hx Hn].
  rewrite IH by done. by destruct (N.eqb_spec x c) as [->|].
Qed.

Lemma split_pieces_no_sep c s p : p ∈ split c s -> c ∉ p.
Proof.
  revert p. induction s as [|x s IH]; intros p; simpl.
  - intros ->%list_elem_of_singleton. apply not_elem_of_nil.
  - destruct (N.eqb_spec x c) as [->|Hx].
    + intros [->|Hp]%elem_of_cons; [apply not_elem_of_nil|eauto].
    + destruct (split c s) as [|q qs] eqn:Hs; [by apply split_not_nil in Hs|].
      intros [->|Hp]%elem_of_cons.
      * apply not_elem_of_cons. split; [done|]. apply IH, elem_of_cons. by left.
      * apply IH, elem_of_cons. by right.
Qed.

Lemma join_app c l k :
  l <> [] -> k <> [] -> join c (l ++ k) = join c l ++ c :: join c k.
Proof.
  intros Hl Hk. induction l as [|p l IH]; [done|].
  destruct l as [|q l]; simpl in *.
  - by destruct k.
  - rewrite IH by done. by rewrite <- app_assoc.
Qed.

Lemma split_join c ps :
  ps <> [] -> Forall (fun p => c ∉ p) ps -> split c (join c ps) = ps.
Proof.
  intros Hne Hall. induction Hall as [|p ps Hp Hps IH]; [done|].
  destruct ps as [|q ps]; simpl in *; [by apply split_no_sep|].
  rewrite split_app_char, split_no_sep by done. by rewrite IH.
Qed.

(** The strings obtained by dropping leading labels of [s] are [s] itself and
    what follows each separator. *)
Lemma join_drop_split c s t :
  (exists i, i < length (split c s) /\ join c (drop i (split c s)) = t)
  <-> s = t \/ exists p, s = p ++ c :: t.
Proof.
  split.
  - intros (i & Hi & <-). destruct i as [|i].
    + left. by rewrite drop_0, join_split.
    + right. exists (join c (take (S i) (split c s))).
      rewrite <- (join_split c s) at 1.
      rewrite <- (take_drop (S i) (split c s)) at 1.
      apply join_app.
      * intros H. apply (f_equal length) in H. rewrite length_take, length_nil in H. lia.
      * intros H. apply (f_equal length) in H. rewrite length_drop, length_nil in H. lia.
  - intros [->|[p ->]].
    + exists 0. pose proof (split_not_nil c t). rewrite drop_0, join_split.
      destruct (split c t); simpl; [done|]. split; [lia|done].
    + exists (length (split c p)). rewrite split_app_char, length_app, drop_app_length, join_split.
      pose proof (split_not_nil c t). destruct (split c t); simpl; [done|].
      split; [lia|done].
Qed.

(** ** Prefixes, suffixes and trimming *)

Lemma strip_prefix_Some pat s r : strip_prefix pat s = Some r <-> s = pat ++ r.
Proof.
  revert s. induction pat as [|p pat IH]; intros s; simpl.
  - split; [by intros [= ->]|by intros ->].
  - destruct s as [|c s]; [done|].
    destruct (N.eqb_spec p c) as [->|Hne].
    + rewrite IH. split; [by intros ->|by intros [= ->]].
    + split; [done|by intros [= -> _]].
Qed.

Lemma strip_prefix_app pat r : strip_prefix pat (pat ++ r) = Some r.
Proof. by apply strip_prefix_Some. Qed.

Lemma strip_suffix_Some pat s r : strip_suffix pat s = Some r <-> s = r ++ pat.
Proof.
  unfold strip_suffix. split.
  - intros H. case_match eqn:Hp; [|done]. simplify_eq.
    apply strip_prefix_Some in Hp.
    by rewrite <- (reverse_involutive s), Hp, reverse_app, reverse_involutive.
  - intros ->. by rewrite reverse_app, strip_prefix_app, reverse_involutive.
Qed.

Lemma strip_suffix_app pat r : strip_suffix pat (r ++ pat) = Some r.
Proof. by apply strip_suffix_Some. Qed.

Lemma starts_with_iff pat s : starts_with pat s = true <-> exists r, s = pat ++ r.
Proof.
  unfold starts_with. case_match eqn:Hp.
  - apply strip_prefix_Some in Hp. naive_solver.
  - split; [done|]. intros [r ->]. by rewrite strip_prefix_app in Hp.
Qed.

Lemma ends_with_iff pat s : ends_with pat s = true <-> exists r, s = r ++ pat.
Proof.
  unfold ends_with. case_match eqn:Hp.
  - apply strip_suffix_Some in Hp. naive_solver.
  - split; [done|]. intros [r ->]. by rewrite strip_suffix_app in Hp.
Qed.

Lemma drop_while_suffix {A} (p : A -> bool) s : exists t, s = t ++ drop_while p s /\ Forall p t.
Proof.
  induction s as [|c s [t [Ht Hall]]]; simpl; [by exists []|].
  destruct (p c) eqn:Hp.
  - exists (c :: t). simpl. rewrite <- Ht. split; [done|].
    constructor; [by rewrite Hp|done].
  - by exists [].
Qed.

Lemma drop_while_head {A} (p : A -> bool) s c r : drop_while p s = c :: r -> p c = false.
Proof.
  induction s as [|x s IH]; simpl; [done|].
  destruct (p x) eqn:Hp; [done|]. by intros [= -> _].
Qed.

Lemma drop_while_none {A} (p : A -> bool) s : Forall (fun c => p c = false) s -> drop_while p s = s.
Proof. destruct 1 as [|x s Hx _]; simpl; [done|]. by rewrite Hx. Qed.

Lemma drop_while_idem {A} (p : A -> bool) s : drop_while p (drop_while p s) = drop_while p s.
Proof.
  destruct (drop_while p s) as [|c r] eqn:H; simpl; [done|].
  apply drop_while_head in H. by rewrite H.
Qed.

Lemma Forall_reverse {A} (P : A -> Prop) l : Forall P (reverse l) <-> Forall P l.
Proof. by rewrite reverse_Permutation. Qed.

Lemma trim_end_by_prefix p s : exists t, s = trim_end_by p s ++ t /\ Forall p t.
Proof.
  unfold trim_end_by. destruct (drop_while_suffix p (reverse s)) as (t & Ht & Hall).
  exists (reverse t). rewrite <- reverse_app, <- Ht, reverse_involutive.
  by rewrite Forall_reverse.
Qed.

Lemma trim_end_by_none p s : Forall (fun c => p c = false) s -> trim_end_by p s = s.
Proof.
  intros H. unfold trim_end_by. rewrite drop_while_none by by apply Forall_reverse.
  apply reverse_involutive.
Qed.

Lemma trim_end_by_last p s r c : trim_end_by p s = r ++ [c] -> p c = false.
Proof.
  unfold trim_end_by. intros H. apply (f_equal reverse) in H.
  rewrite reverse_involutive, reverse_app in H. simpl in H.
  by apply drop_while_head in H.
Qed.

(** A string whose last char does not satisfy [p] is left alone. *)
Lemma trim_end_by_id_last p r c : p c = false -> trim_end_by p (r ++ [c]) = r ++ [c].
Proof.
  intros Hc. unfold trim_end_by. rewrite reverse_app. simpl. rewrite Hc.
  by rewrite <- (reverse_involutive (r ++ [c])), reverse_app.
Qed.

Lemma trim_end_by_idem p s : trim_end_by p (trim_end_by p s) = trim_end_by p s.
Proof. unfold trim_end_by. by rewrite reverse_involutive, drop_while_idem. Qed.

Definition no_whitespace (s : rstr) : Prop := Forall (fun c => is_whitespace c = false) s.

Lemma trim_no_whitespace s : no_whitespace s -> trim s = s.
Proof.
  intros H. unfold trim, trim_start_by.
  by rewrite drop_while_none, trim_end_by_none.
Qed.

Lemma trim_id_cons_snoc c r q d :
  is_whitespace c = false -> is_whitespace d = false -> c :: r = q ++ [d] -> trim (c :: r) = c :: r.
Proof.
  intros Hc Hd Heq. unfold trim, trim_start_by. simpl. rewrite Hc, Heq.
  by apply trim_end_by_id_last.
Qed.

Lemma Forall_app_l {A} (P : A -> Prop) l k : Forall P (l ++ k) -> Forall P l.
Proof. by intros [??]%Forall_app. Qed.
Lemma Forall_app_r {A} (P : A -> Prop) l k : Forall P (l ++ k) -> Forall P k.
Proof. by intros [??]%Forall_app. Qed.

Lemma Forall_trim_end_by (P : rchar -> Prop) p s : Forall P s -> Forall P (trim_end_by p s).
Proof.
  destruct (trim_end_by_prefix p s) as (t & Ht & _). rewrite Ht at 1.
  apply Forall_app_l.
Qed.

Lemma trim_start_matches_fuel_suffix n pat s :
  exists t, s = t ++ trim_start_matches_fuel n pat s.
Proof.
  revert s. induction n as [|n IH]; intros s; simpl; [by exists []|].
  case_match eqn:Hp; [|by exists []].
  apply strip_prefix_Some in Hp as ->.
  match goal with |- context [trim_start_matches_fuel n pat ?r] => destruct (IH r) as [t Ht] end.
  exists (pat ++ t). rewrite <- app_assoc. by rewrite <- Ht.
Qed.

(** The fuel is enough: what is left no longer starts with the pattern. *)
Lemma trim_start_matches_fuel_done n pat s :
  pat <> [] -> length s <= n -> strip_prefix pat (trim_start_matches_fuel n pat s) = None.
Proof.
  intros Hpat. revert s. induction n as [|n IH]; intros s Hn; simpl.
  - destruct s; simpl in *; [|lia]. by destruct pat.
  - case_match eqn:Hp; [|done]. apply IH.
    apply strip_prefix_Some in Hp as ->. rewrite length_app in Hn.
    destruct pat; simpl in *; [done|lia].
Qed.

Lemma trim_start_matches_done pat s :
  pat <> [] -> strip_prefix pat (trim_start_matches pat s) = None.
Proof. intros H. by apply trim_start_matches_fuel_done. Qed.

Lemma trim_start_matches_fixed n pat s :
  strip_prefix pat s = None -> trim_start_matches_fuel n pat s = s.
Proof. destruct n; simpl; [done|]. by intros ->. Qed.

(** ** ASCII case *)

Lemma char_lowercase_idem c :
  char_to_ascii_lowercase (char_to_ascii_lowercase c) = char_to_ascii_lowercase c.
Proof.
  unfold char_to_ascii_lowercase, is_ascii_uppercase, in_range.
  repeat case_match; try done; lia.
Qed.

Lemma lowercase_idem s : to_ascii_lowercase (to_ascii_lowercase s) = to_ascii_lowercase s.
Proof.
  unfold to_ascii_lowercase. rewrite <- list_fmap_compose.
  apply list_fmap_ext. intros _ c _. apply char_lowercase_idem.
Qed.

Lemma char_lowercase_fixed c : is_ascii_uppercase c = false -> char_to_ascii_lowercase c = c.
Proof. unfold char_to_ascii_lowercase. by intros ->. Qed.

Lemma char_lowercase_eq_low c k :
  (k < 65)%N -> char_to_ascii_lowercase c = k -> c = k.
Proof.
  unfold char_to_ascii_lowercase, is_ascii_uppercase, in_range.
  case_match; intros; lia.
Qed.

Lemma whitespace_lowercase c : is_whitespace (char_to_ascii_lowercase c) = is_whitespace c.
Proof.
  unfold char_to_ascii_lowercase, is_ascii_uppercase, is_whitespace, in_range.
  case_match; [|done].
  destruct (is_whitespace c) eqn:?; unfold is_whitespace, in_range in *; lia.
Qed.

(** ** Tokens *)

Lemma split_whitespace_aux_tokens cur s t :
  no_whitespace cur -> t ∈ split_whitespace_aux cur s -> t <> [] /\ no_whitespace t.
Proof.
  revert cur. induction s as [|c s IH]; intros cur Hcur; simpl.
  - destruct cur as [|x cur]; simpl; [by intros ?%not_elem_of_nil|].
    intros ->%list_elem_of_singleton. split.
    + intros H. apply (f_equal length) in H. by rewrite length_reverse in H.
    + by apply Forall_reverse.
  - destruct (is_whitespace c) eqn:Hc.
    + destruct cur as [|x cur]; simpl.
      * apply IH. constructor.
      * intros [->|Ht]%elem_of_cons.
        -- split.
           ++ intros H. apply (f_equal length) in H. by rewrite length_reverse in H.
           ++ by apply Forall_reverse.
        -- eapply (IH []); [constructor|done].
    + apply IH. by constructor.
Qed.

Lemma split_whitespace_tokens s t : t ∈ split_whitespace s -> t <> [] /\ no_whitespace t.
Proof. apply split_whitespace_aux_tokens. constructor. Qed.

Lemma split_whitespace_single_aux cur s :
  no_whitespace s -> cur <> [] \/ s <> [] ->
  split_whitespace_aux cur s = [reverse cur ++ s].
Proof.
  intros Hs. revert cur. induction Hs as [|c s Hc Hs IH]; intros cur Hne; simpl.
  - destruct cur; simpl; [by destruct Hne|]. by rewrite app_nil_r.
  - rewrite Hc, IH by (left; done). by rewrite reverse_cons, <- app_assoc.
Qed.

Lemma split_whitespace_single s : no_whitespace s -> s <> [] -> split_whitespace s = [s].
Proof. intros Hs Hne. unfold split_whitespace. by rewrite split_whitespace_single_aux by auto. Qed.

Lemma split_whitespace_app_aux cur s sp rest :
  no_whitespace s -> cur <> [] \/ s <> [] -> is_whitespace sp = true ->
  split_whitespace_aux cur (s ++ sp :: rest) = (reverse cur ++ s) :: split_whitespace_aux [] rest.
Proof.
  intros Hs Hne Hsp. revert cur Hne. induction Hs as [|c s Hc Hs IH]; intros cur Hne; simpl.
  - rewrite Hsp. destruct cur; simpl; [by destruct Hne|]. by rewrite app_nil_r.
  - rewrite Hc, IH by (left; done). by rewrite reverse_cons, <- app_assoc.
Qed.

Lemma split_whitespace_app s sp rest :
  no_whitespace s -> s <> [] -> is_whitespace sp = true ->
  split_whitespace (s ++ sp :: rest) = s :: split_whitespace rest.
Proof.
  intros Hs Hne Hsp. unfold split_whitespace. by rewrite split_whitespace_app_aux by auto.
Qed.

(** ** Decimal numbers *)

Lemma to_digit_dec d : (d < 10)%N -> to_digit 10 (48 + d) = Some d.
Proof.
  intros Hd. unfold to_digit, is_ascii_digit, in_range.
  repeat case_match; try lia. f_equal. lia.
Qed.

Lemma digits_value_app radix acc a b :
  digits_value radix acc (a ++ b) = digits_value radix acc a ≫= fun v => digits_value radix v b.
Proof.
  revert acc. induction a as [|c a IH]; intros acc; simpl; [done|]. case_match; [apply IH|done].
Qed.

Lemma dec_digits_value f n :
  (n < 2 ^ N.of_nat f)%N -> (0 < f)%nat -> digits_value 10 0 (dec_digits f n) = Some n.
Proof.
  revert n. induction f as [|f IH]; intros n Hn Hf; [lia|]. simpl.
  rewrite digits_value_app. destruct (N.ltb_spec n 10) as [Hlt|Hge]; simpl.
  - rewrite to_digit_dec by (apply N.mod_lt; lia). simpl. rewrite N.mod_small by lia. done.
  - assert (n / 10 < 2 ^ N.of_nat f)%N as Hdiv.
    { apply N.Div0.div_lt_upper_bound.
      rewrite Nat2N.inj_succ, N.pow_succ_r' in Hn. lia. }
    destruct f as [|f]; [simpl in Hn; lia|].
    rewrite IH by (done || lia). simpl.
    rewrite to_digit_dec by (apply N.mod_lt; lia). simpl. f_equal.
    pose proof (N.div_mod' n 10). lia.
Qed.

Lemma is_ascii_digit_mod m : is_ascii_digit (48 + m mod 10) = true.
Proof.
  assert (m mod 10 < 10)%N as Hm by (apply N.mod_lt; lia).
  revert Hm. generalize (m mod 10)%N. intros d Hd.
  unfold is_ascii_digit, in_range. lia.
Qed.

Lemma dec_digits_head f n : exists c r, dec_digits (S f) n = c :: r /\ is_ascii_digit c = true.
Proof.
  pose proof is_ascii_digit_mod as Hd.
  revert n. induction f as [|f IH]; intros n.
  - simpl. exists (48 + n mod 10)%N, []. split; [|done]. by case_match.
  - destruct (IH (n / 10)%N) as (c & r & Hr & Hc).
    change (dec_digits (S (S f)) n) with
      ((if (n <? 10)%N then [] else dec_digits (S f) (n / 10)%N) ++ [(48 + n mod 10)%N]).
    destruct (n <? 10)%N; [by eexists _, _|]. rewrite Hr. by eexists _, _.
Qed.

Lemma dec_digits_all_digits f n : Forall (fun c => is_ascii_digit c = true) (dec_digits f n).
Proof.
  revert n. induction f as [|f IH]; intros n; simpl; [constructor|].
  apply Forall_app. split; [case_match; [constructor|apply IH]|].
  repeat constructor. apply is_ascii_digit_mod.
Qed.

Lemma display_N_digits n : Forall (fun c => is_ascii_digit c = true) (display_N n).
Proof. apply dec_digits_all_digits. Qed.

Lemma display_N_not_nil n : display_N n <> [].
Proof.
  unfold display_N. destruct (dec_digits_head (N.to_nat (N.size n)) n) as (c & r & -> & _). done.
Qed.

Lemma digit_not_whitespace c : is_ascii_digit c = true -> is_whitespace c = false.
Proof. unfold is_ascii_digit, is_whitespace, in_range. lia. Qed.

Lemma display_N_no_whitespace n : no_whitespace (display_N n).
Proof.
  eapply Forall_impl; [apply display_N_digits|]. exact digit_not_whitespace.
Qed.

Lemma display_N_value n : digits_value 10 0 (display_N n) = Some n.
Proof.
  apply dec_digits_value; [|apply Nat.lt_0_succ].
  rewrite Nat2N.inj_succ, N2Nat.id, N.pow_succ_r'.
  destruct (decide (n = 0%N)) as [->|Hn]; [done|].
  pose proof (N.size_gt n). lia.
Qed.

Lemma parse_unsigned_range radix max s v : parse_unsigned radix max s = Some v -> (v <= max)%N.
Proof.
  unfold parse_unsigned. destruct (is_empty _); [done|]. destruct (digits_value _ _ _) as [n|]; [|done].
  destruct (N.leb_spec n max); [|done]. by intros [= <-].
Qed.

(** Printing and parsing an unsigned number is the identity. *)
Lemma parse_display_N max n : (n <= max)%N -> parse_unsigned 10 max (display_N n) = Some n.
Proof.
  intros Hn. unfold parse_unsigned.
  destruct (dec_digits_head (N.to_nat (N.size n)) n) as (c & r & Hr & Hc).
  assert (display_N n = c :: r) as Hd by exact Hr.
  assert (match display_N n with 43%N :: rest => rest | _ => display_N n end = display_N n) as ->.
  { rewrite Hd. unfold is_ascii_digit, in_range in Hc.
    destruct c as [|c]; [done|]. do 6 (destruct c as [c|c|]; try done). }
  rewrite display_N_value.
  rewrite Hd. simpl. by rewrite (proj2 (N.leb_le _ _) Hn).
Qed.

(** ** Order and bytes *)

(** [Ord] for [str]: the lexicographic order of the UTF-8 bytes, which is the
    lexicographic order of the scalar values. *)
Fixpoint str_leb (a b : rstr) : bool :=
  match a, b with
  | [], _ => true
  | _ :: _, [] => false
  | x :: a', y :: b' => if (x <? y)%N then true else if (y <? x)%N then false else str_leb a' b'
  end.

Definition str_le (a b : rstr) : Prop := str_leb a b = true.
#[export] Instance str_le_dec : RelDecision str_le.
Proof. intros a b. unfold str_le. apply _. Defined.

#[export] Instance str_le_total : Total str_le.
Proof.
  unfold str_le. intros a. induction a as [|x a IH]; intros b; simpl; [by left|].
  destruct b as [|y b]; simpl; [by right|].
  destruct (N.ltb_spec x y); [by left|]. destruct (N.ltb_spec y x); [by right|]. apply IH.
Qed.

#[export] Instance str_le_trans : Transitive str_le.
Proof.
  unfold str_le. intros a. induction a as [|x a IH]; intros b c; simpl; [done|].
  destruct b as [|y b]; simpl; [done|]. destruct c as [|z c]; simpl.
  { by repeat case_match. }
  destruct (N.ltb_spec x y), (N.ltb_spec y x), (N.ltb_spec y z), (N.ltb_spec z y),
    (N.ltb_spec x z), (N.ltb_spec z x); intros; try done; try lia.
  by eapply IH.
Qed.

#[export] Instance str_le_antisymm : AntiSymm (=) str_le.
Proof.
  unfold str_le. intros a. induction a as [|x a IH]; intros [|y b]; simpl; try done.
  destruct (N.ltb_spec x y), (N.ltb_spec y x); intros H1 H2; try done; try lia.
  f_equal; [lia|by apply IH].
Qed.

(** [Vec<String>::sort]. *)
Definition sort_strs (l : list rstr) : list rstr := merge_sort str_le l.

Lemma sort_strs_perm l : sort_strs l ≡ₚ l.
Proof. apply merge_sort_Permutation. Qed.

(** [char::encode_utf8] and [str::as_bytes]. *)
Definition utf8_char (c : rchar) : list N :=
  if (c <? 128)%N then [c]
  else if (c <? 2048)%N then [192 + c / 64; 128 + c mod 64]%N
  else if (c <? 65536)%N then [224 + c / 4096; 128 + (c / 64) mod 64; 128 + c mod 64]%N
  else [240 + c / 262144; 128 + (c / 4096) mod 64; 128 + (c / 64) mod 64; 128 + c mod 64]%N.
Definition as_bytes (s : rstr) : list N := s ≫= utf8_char.

Definition ascii (s : rstr) : Prop := Forall (fun c => (c < 128)%N) s.

Lemma as_bytes_ascii s : ascii s -> as_bytes s = s.
Proof.
  induction 1 as [|c s Hc _ IH]; [done|].
  change (as_bytes (c :: s)) with (utf8_char c ++ as_bytes s). rewrite IH.
  unfold utf8_char. by rewrite (proj2 (N.ltb_lt c 128) Hc).
Qed.

Lemma length_as_bytes s : length (as_bytes s) = str_len s.
Proof.
  induction s as [|c s IH]; [done|].
  change (as_bytes (c :: s)) with (utf8_char c ++ as_bytes s).
  rewrite length_app, IH. unfold str_len. simpl. f_equal.
  unfold utf8_char, len_utf8. by repeat case_match.
Qed.

(** ** Searching *)

Lemma contains_iff pat s : contains pat s = true <-> exists a b, s = a ++ pat ++ b.
Proof.
  induction s as [|c s IH]; simpl; rewrite orb_true_iff, starts_with_iff.
  - split.
    + intros [[r Hr]|?]; [|done]. by exists [], r.
    + intros (a & b & Hab). left. destruct a; [|done]. by exists b.
  - rewrite IH. split.
    + intros [[r Hr]|(a & b & ->)]; [by exists [], r|by exists (c :: a), b].
    + intros (a & b & Hab). destruct a as [|x a]; [left; by exists b|].
      simplify_eq/=. right. by exists a, b.
Qed.

Lemma contains_elem pat s c : contains pat s = true -> c ∈ pat -> c ∈ s.
Proof. intros (a & b & ->)%contains_iff Hc. rewrite !elem_of_app. auto. Qed.

Lemma split_once_app c a b : c ∉ a -> split_once c (a ++ c :: b) = Some (a, b).
Proof.
  induction a as [|x a IH]; simpl; [by rewrite N.eqb_refl|].
  rewrite not_elem_of_cons. intros [Hx Ha]. rewrite IH by done.
  by destruct (N.eqb_spec x c) as [->|].
Qed.

Lemma split_once_None c s : c ∉ s -> split_once c s = None.
Proof.
  induction s as [|x s IH]; simpl; [done|]. rewrite not_elem_of_cons. intros [Hx Hs].
  rewrite IH by done. by destruct (N.eqb_spec x c) as [->|].
Qed.

Lemma split_once_Some c s a b : split_once c s = Some (a, b) -> s = a ++ c :: b /\ c ∉ a.
Proof.
  revert a. induction s as [|x s IH]; intros a; simpl; [done|].
  destruct (N.eqb_spec x c) as [->|Hx].
  - intros [= <- <-]. split; [done|]. apply not_elem_of_nil.
  - destruct (split_once c s) as [[a' b']|]; [|done]. intros [= <- <-].
    destruct (IH a') as [-> Ha]; [done|]. split; [done|]. by apply not_elem_of_cons.
Qed.

(** Characters of a host name in lower case. *)
Definition is_ldh (c : rchar) : bool :=
  is_ascii_digit c || is_ascii_lowercase c || (c =? 45)%N || (c =? 46)%N || (c =? 95)%N.

Lemma ldh_not_whitespace c : is_ldh c = true -> is_whitespace c = false.
Proof. unfold is_ldh, is_ascii_digit, is_ascii_lowercase, is_whitespace, in_range. lia. Qed.

Lemma ldh_lowercase c : is_ldh c = true -> char_to_ascii_lowercase c = c.
Proof.
  unfold is_ldh, char_to_ascii_lowercase, is_ascii_digit, is_ascii_lowercase,
    is_ascii_uppercase, in_range.
  case_match; lia.
Qed.

Lemma ldh_not_elem c s :
  is_ldh c = false -> Forall (fun x => is_ldh x = true) s -> c ∉ s.
Proof. intros Hc Hs Hin. rewrite Forall_forall in Hs. apply Hs in Hin. congruence. Qed.

Lemma is_ldh_star : is_ldh 42 = false.
Proof. done. Qed.

(** A text that starts and ends with characters that are not blank is trimmed. *)
Definition solid (s : rstr) : Prop :=
  (exists c r, s = c :: r /\ is_whitespace c = false)
  /\ (exists q d, s = q ++ [d] /\ is_whitespace d = false).

Lemma trim_solid s : solid s -> trim s = s.
Proof.
  intros [(c & r & -> & Hc) (q & d & Hq & Hd)]. by eapply trim_id_cons_snoc.
Qed.

Lemma solid_no_whitespace s : no_whitespace s -> s <> [] -> solid s.
Proof.
  intros Hs Hne. split.
  - destruct Hs as [|c r Hc Hr]; [done|]. by exists c, r.
  - destruct (exists_last Hne) as [q [d ->]]. exists q, d. split; [done|].
    unfold no_whitespace in Hs. rewrite Forall_app, Forall_singleton in Hs. by destruct Hs.
Qed.

Lemma solid_app a b : solid a -> solid b -> solid (a ++ b).
Proof.
  intros [(c & r & -> & Hc) _] [_ (q & d & -> & Hd)]. split.
  - eexists c, _. by split.
  - exists ((c :: r) ++ q), d. by rewrite app_assoc.
Qed.

Lemma solid_wrap a m b : solid a -> solid b -> solid (a ++ m ++ b).
Proof.
  intros [(c & r & -> & Hc) _] [_ (q & d & -> & Hd)]. split.
  - eexists c, _. by split.
  - exists ((c :: r) ++ m ++ q), d. by rewrite <- !app_assoc.
Qed.

(** ** Lower case and trimming commute *)

Lemma drop_while_fmap {A B} (p : A -> bool) (q : B -> bool) (f : A -> B) s :
  (forall x, q (f x) = p x) -> drop_while q (f <$> s) = f <$> drop_while p s.
Proof.
  intros Hpq. induction s as [|c s IH]; csimpl; [done|]. rewrite Hpq. by destruct (p c).
Qed.

Lemma trim_end_by_lowercase p s :
  (forall c, p (char_to_ascii_lowercase c) = p c) ->
  trim_end_by p (to_ascii_lowercase s) = to_ascii_lowercase (trim_end_by p s).
Proof.
  intros Hp. unfold trim_end_by, to_ascii_lowercase.
  by rewrite <- fmap_reverse, (drop_while_fmap p), fmap_reverse.
Qed.

Lemma trim_lowercase s : trim (to_ascii_lowercase s) = to_ascii_lowercase (trim s).
Proof.
  unfold trim. rewrite <- trim_end_by_lowercase by apply whitespace_lowercase. f_equal.
  unfold trim_start_by, to_ascii_lowercase. by rewrite (drop_while_fmap is_whitespace)
    by apply whitespace_lowercase.
Qed.

Lemma char_lowercase_eqb_low k c :
  (k < 65)%N -> (char_to_ascii_lowercase c =? k)%N = (c =? k)%N.
Proof.
  intros Hk. unfold char_to_ascii_lowercase, is_ascii_uppercase, in_range. case_match; lia.
Qed.

Lemma trim_end_by_snoc p s c : p c = true -> trim_end_by p (s ++ [c]) = trim_end_by p s.
Proof. intros Hp. unfold trim_end_by. rewrite reverse_app. simpl. by rewrite Hp. Qed.

Lemma sort_strs_set (s : gset rstr) : list_to_set (sort_strs (elements s)) = s.
Proof.
  apply set_eq. intros x. by rewrite elem_of_list_to_set, sort_strs_perm, elem_of_elements.
Qed.

(** ** Decoding UTF-8 *)

Definition is_cont (b : N) : bool := in_range 128 191 b.

(** The second bytes that may follow a first byte of a longer sequence. *)
Definition second_ok (b0 b1 : N) : bool :=
  if (b0 =? 224)%N then in_range 160 191 b1
  else if (b0 =? 237)%N then in_range 128 159 b1
  else if (b0 =? 240)%N then in_range 144 191 b1
  else if (b0 =? 244)%N then in_range 128 143 b1
  else is_cont b1.

Definition replacement_char : rchar := 65533.

(** [String::from_utf8_lossy]: a maximal ill-formed prefix becomes one U+FFFD.  Each
    round consumes at least one byte, so the length is enough fuel. *)
Fixpoint from_utf8_lossy_fuel (fuel : nat) (b : list N) : rstr :=
  match fuel with
  | O => []
  | S n =>
      match b with
      | [] => []
      | b0 :: r0 =>
          if (b0 <? 128)%N then b0 :: from_utf8_lossy_fuel n r0
          else
            match r0 with
            | b1 :: r1 =>
                if in_range 194 223 b0 && is_cont b1
                then ((b0 - 192) * 64 + (b1 - 128))%N :: from_utf8_lossy_fuel n r1
                else if in_range 224 239 b0 && second_ok b0 b1 then
                  match r1 with
                  | b2 :: r2 =>
                      if is_cont b2
                      then ((b0 - 224) * 4096 + (b1 - 128) * 64 + (b2 - 128))%N
                             :: from_utf8_lossy_fuel n r2
                      else replacement_char :: from_utf8_lossy_fuel n r1
                  | [] => replacement_char :: from_utf8_lossy_fuel n r1
                  end
                else if in_range 240 244 b0 && second_ok b0 b1 then
                  match r1 with
                  | b2 :: r2 =>
                      if is_cont b2 then
                        match r2 with
                        | b3 :: r3 =>
                            if is_cont b3
                            then ((b0 - 240) * 262144 + (b1 - 128) * 4096 + (b2 - 128) * 64
                                  + (b3 - 128))%N :: from_utf8_lossy_fuel n r3
                            else replacement_char :: from_utf8_lossy_fuel n r2
                        | [] => replacement_char :: from_utf8_lossy_fuel n r2
                        end
                      else replacement_char :: from_utf8_lossy_fuel n r1
                  | [] => replacement_char :: from_utf8_lossy_fuel n r1
                  end
                else replacement_char :: from_utf8_lossy_fuel n r0
            | [] => replacement_char :: from_utf8_lossy_fuel n r0
            end
      end
  end.
Definition from_utf8_lossy (b : list N) : rstr := from_utf8_lossy_fuel (length b) b.

(** More fuel than bytes changes nothing. *)
Lemma from_utf8_lossy_fuel_enough (n : nat) (b : list N) :
  length b <= n -> from_utf8_lossy_fuel n b = from_utf8_lossy b.
Proof.
  unfold from_utf8_lossy. remember (length b) as k eqn:Hk. assert (Hle : length b <= k) by lia.
  clear Hk. revert n b Hle. induction k as [|k IH]; intros n b Hle Hn.
  { destruct b; simpl in *; [by destruct n|lia]. }
  destruct n as [|n]; [lia|]. destruct b as [|b0 r0]; [done|]. cbn [from_utf8_lossy_fuel].
  repeat (case_match; simplify_eq/=); f_equal; apply IH; simpl in *; lia.
Qed.

(** [slice::join] with a string separator. *)
Fixpoint join_str (sep : rstr) (pieces : list rstr) : rstr :=
  match pieces with
  | [] => []
  | [p] => p
  | p :: rest => p ++ sep ++ join_str sep rest
  end.

(** [{e}] and [{e:#}] of an [anyhow] error, which is its messages, the outermost first. *)
Definition display_outer (e : list rstr) : rstr := match e with [] => [] | m :: _ => m end.
Definition display_chain (e : list rstr) : rstr := join_str (lit ": ") e.
