(* ===== verification/RustNet.v ===== *)
(** * IP and socket addresses

    The textual grammar of [std::net]: [Ipv4Addr], [Ipv6Addr], [IpAddr] and
    [SocketAddr] with their [FromStr].  A parser takes the remaining characters
    and returns a value with what is left; failure consumes nothing, as
    [read_atomically] does in the standard library. *)

From S2P Require Import Prelude.
From S2P Require Import RustStr.

(** Four octets, eight 16-bit groups. *)
Abbreviation Ipv4Addr := (N * N * N * N)%type.
Abbreviation Ipv6Addr := (list N).

Inductive IpAddr : Type :=
| IpV4 (a : Ipv4Addr)
| IpV6 (a : Ipv6Addr).

Record SocketAddr : Type := { sa_ip : IpAddr; sa_scope : N; sa_port : N }.

#[export] Instance IpAddr_eq_dec : EqDecision IpAddr.
Proof. solve_decision. Defined.
#[export] Instance SocketAddr_eq_dec : EqDecision SocketAddr.
Proof. solve_decision. Defined.

Definition parser (A : Type) : Type := rstr -> option (A * rstr).

Definition read_given_char (c : rchar) : parser unit :=
  fun s => match s with
           | x :: rest => if (x =? c)%N then Some (tt, rest) else None
           | [] => None
           end.

(** The longest run of digits, with their value and their count. *)
Fixpoint read_digits (radix acc : N) (count : nat) (s : rstr) : N * nat * rstr :=
  match s with
  | [] => (acc, count, [])
  | c :: rest =>
      match to_digit radix c with
      | Some d => read_digits radix (acc * radix + d)%N (S count) rest
      | None => (acc, count, s)
      end
  end.

Definition read_number (radix : N) (max_digits : option nat) (allow_zero_prefix : bool)
    (max : N) : parser N :=
  fun s =>
    let '(v, count, rest) := read_digits radix 0 0 s in
    let has_leading_zero := match s with c :: _ => (c =? 48)%N | [] => false end in
    if (count =? 0)%nat then None
    else if match max_digits with Some m => (m <? count)%nat | None => false end then None
    else if negb allow_zero_prefix && has_leading_zero && (1 <? count)%nat then None
    else if (v <=? max)%N then Some (v, rest) else None.

Definition read_separator {A} (sep : rchar) (index : nat) (inner : parser A) : parser A :=
  fun s =>
    if (index =? 0)%nat then inner s
    else let?o (_, s') := read_given_char sep s in inner s'.

Definition read_octet (index : nat) : parser N :=
  read_separator (ch ".") index (read_number 10 (Some 3) false 255).

Definition read_ipv4_addr : parser Ipv4Addr :=
  fun s =>
    let?o (a, s) := read_octet 0 s in
    let?o (b, s) := read_octet 1 s in
    let?o (c, s) := read_octet 2 s in
    let?o (d, s) := read_octet 3 s in
    Some ((a, b, c, d), s).

(** [read_groups]: up to [limit] groups, a trailing dotted quad counting for two.
    Returns the groups read, whether they end in a dotted quad, and the rest. *)
Fixpoint read_groups (fuel : nat) (i limit : nat) (s : rstr) : list N * bool * rstr :=
  match fuel with
  | O => ([], false, s)
  | S fuel' =>
      match (if (i <? limit - 1)%nat then read_separator (ch ":") i read_ipv4_addr s else None) with
      | Some ((a, b, c, d), s') => ([a * 256 + b; c * 256 + d]%N, true, s')
      | None =>
          match read_separator (ch ":") i (read_number 16 (Some 4) true 65535) s with
          | Some (g, s') =>
              let '(gs, v4, s'') := read_groups fuel' (S i) limit s' in (g :: gs, v4, s'')
          | None => ([], false, s)
          end
      end
  end.

Definition read_ipv6_addr : parser Ipv6Addr :=
  fun s =>
    let '(head, head_ipv4, s1) := read_groups 8 0 8 s in
    if (length head =? 8)%nat then Some (head, s1)
    else if (head_ipv4 : bool) then None
    else
      let?o (_, s2) := read_given_char (ch ":") s1 in
      let?o (_, s3) := read_given_char (ch ":") s2 in
      let limit := 8 - (length head + 1) in
      let '(tail, _, s4) := read_groups limit 0 limit s3 in
      Some (head ++ replicate (8 - length head - length tail) 0%N ++ tail, s4).

Definition read_port : parser N :=
  fun s =>
    let?o (_, s) := read_given_char (ch ":") s in
    read_number 10 None true u16_max s.

Definition read_scope_id : parser N :=
  fun s =>
    let?o (_, s) := read_given_char (ch "%") s in
    read_number 10 None true u32_max s.

Definition read_socket_addr_v4 : parser SocketAddr :=
  fun s =>
    let?o (ip, s) := read_ipv4_addr s in
    let?o (port, s) := read_port s in
    Some ({| sa_ip := IpV4 ip; sa_scope := 0; sa_port := port |}, s).

Definition read_socket_addr_v6 : parser SocketAddr :=
  fun s =>
    let?o (_, s) := read_given_char (ch "[") s in
    let?o (ip, s) := read_ipv6_addr s in
    let '(scope, s) := match read_scope_id s with Some (v, s') => (v, s') | None => (0%N, s) end in
    let?o (_, s) := read_given_char (ch "]") s in
    let?o (port, s) := read_port s in
    Some ({| sa_ip := IpV6 ip; sa_scope := scope; sa_port := port |}, s).

(** [parse_with]: the whole text must be consumed. *)
Definition parse_with {A} (p : parser A) (s : rstr) : option A :=
  match p s with Some (a, []) => Some a | _ => None end.

Definition parse_ipv4 (s : rstr) : option Ipv4Addr :=
  if (15 <? str_len s)%nat then None else parse_with read_ipv4_addr s.
Definition parse_ipv6 (s : rstr) : option Ipv6Addr := parse_with read_ipv6_addr s.

Definition parse_ip (s : rstr) : option IpAddr :=
  parse_with (fun s => match read_ipv4_addr s with
                       | Some (a, s') => Some (IpV4 a, s')
                       | None => match read_ipv6_addr s with
                                 | Some (a, s') => Some (IpV6 a, s')
                                 | None => None
                                 end
                       end) s.

Definition parse_socket_addr (s : rstr) : option SocketAddr :=
  parse_with (fun s => match read_socket_addr_v4 s with
                       | Some r => Some r
                       | None => read_socket_addr_v6 s
                       end) s.

(** [Display] of an IPv4 address. *)
Definition display_ipv4 (a : Ipv4Addr) : rstr :=
  let '(a, b, c, d) := a in
  join (ch ".") (display_N <$> [a; b; c; d]).

Definition ipv4_in_range (a : Ipv4Addr) : Prop :=
  let '(a, b, c, d) := a in (a <= 255 /\ b <= 255 /\ c <= 255 /\ d <= 255)%N.

(** ** Ranges of the parsed values *)

Lemma read_number_range radix md az max s v r :
  read_number radix md az max s = Some (v, r) -> (v <= max)%N.
Proof.
  unfold read_number. destruct (read_digits radix 0 0 s) as [[v' n] r'].
  repeat (case_match; try done); intros [= <- <-]; by apply N.leb_le.
Qed.

Lemma read_octet_range i s v r : read_octet i s = Some (v, r) -> (v <= 255)%N.
Proof.
  unfold read_octet, read_separator. intros H.
  destruct (i =? 0)%nat; [by eapply read_number_range|].
  destruct (read_given_char _ s) as [[? ?]|]; [|done]. by eapply read_number_range.
Qed.

(** Whatever text [Ipv4Addr::from_str] accepts, the octets fit in a byte. *)
Lemma parse_ipv4_range s a : parse_ipv4 s = Some a -> ipv4_in_range a.
Proof.
  unfold parse_ipv4, parse_with, read_ipv4_addr. intros H.
  repeat (case_match; simplify_eq; try done).
  repeat match goal with
  | Hr : read_octet _ _ = Some _ |- _ => apply read_octet_range in Hr
  end. done.
Qed.

Example parse_ipv4_examples :
  parse_ipv4 (lit "127.0.0.1") = Some (127, 0, 0, 1)%N
  /\ parse_ipv4 (lit "127.0.0.01") = None
  /\ parse_ipv4 (lit "256.0.0.1") = None
  /\ parse_ipv4 (lit "1.2.3") = None.
Proof. vm_compute. done. Qed.

Example parse_ipv6_examples :
  parse_ipv6 (lit "::") = Some [0; 0; 0; 0; 0; 0; 0; 0]%N
  /\ parse_ipv6 (lit "fe80::1") = Some [65152; 0; 0; 0; 0; 0; 0; 1]%N
  /\ parse_ipv6 (lit "::ffff:1.2.3.4") = Some [0; 0; 0; 0; 0; 65535; 258; 772]%N
  /\ parse_ipv6 (lit "1:2:3:4:5:6:7:8:9") = None
  /\ parse_socket_addr (lit "[::1]:53")
     = Some {| sa_ip := IpV6 [0; 0; 0; 0; 0; 0; 0; 1]%N; sa_scope := 0; sa_port := 53 |}.
Proof. vm_compute. done. Qed.

(** ** Display of IPv6 addresses *)

Definition hex_digit (d : N) : rchar := (if d <? 10 then 48 + d else 87 + d)%N.

(** [{:x}]: at most four digits for a 16-bit group, no leading zeros. *)
Definition display_hex16 (g : N) : rstr :=
  let ds := [g / 4096; (g / 256) mod 16; (g / 16) mod 16]%N in
  (hex_digit <$> drop_while (fun d => d =? 0)%N ds) ++ [hex_digit (g mod 16)%N].

(** The first longest run of zero groups: its start and its length. *)
Fixpoint longest_zero_run (i : nat) (cur best : nat * nat) (gs : list N) : nat * nat :=
  match gs with
  | [] => best
  | g :: rest =>
      if (g =? 0)%N then
        let cur := if (cur.2 =? 0)%nat then (i, 1) else (cur.1, S cur.2) in
        longest_zero_run (S i) cur (if (best.2 <? cur.2)%nat then cur else best) rest
      else longest_zero_run (S i) (0, 0) best rest
  end.

Definition display_groups (gs : list N) : rstr := join (ch ":") (display_hex16 <$> gs).

Definition display_ipv6 (a : Ipv6Addr) : rstr :=
  match a with
  | [0; 0; 0; 0; 0; 65535; g; h]%N =>
      lit "::ffff:" ++ display_ipv4 (g / 256, g mod 256, h / 256, h mod 256)%N
  | _ =>
      let '(start, len) := longest_zero_run 0 (0, 0) (0, 0) a in
      if (1 <? len)%nat
      then display_groups (take start a) ++ lit "::" ++ display_groups (drop (start + len) a)
      else display_groups a
  end.

Example display_ipv6_examples :
  display_ipv6 [8193; 3512; 0; 0; 1; 0; 0; 1]%N = lit "2001:db8::1:0:0:1"
  /\ display_ipv6 [0; 0; 0; 0; 0; 0; 0; 0]%N = lit "::"
  /\ display_ipv6 [0; 0; 0; 0; 0; 65535; 258; 772]%N = lit "::ffff:1.2.3.4"
  /\ display_ipv6 [65152; 0; 0; 0; 0; 0; 0; 42]%N = lit "fe80::2a".
Proof. vm_compute. done. Qed.
