(* ===== verification/Outside.v ===== *)
(** * The outside of the process

    The HTTP client (reqwest), the file system, the clock and the random generator
    are not part of the repository.  A component that uses them takes an
    [Outside W]: each operation may change the world, which is also how other tasks
    interfere while an operation is awaited. *)

From S2P Require Import Prelude RustStr.

(** Credentials sent with a request ([ZoneSourceAuth]). *)
Inductive ZoneSourceAuth : Type :=
| Bearer (token : rstr)
| Basic (username password : rstr).
#[export] Instance ZoneSourceAuth_eq_dec : EqDecision ZoneSourceAuth.
Proof. solve_decision. Defined.

(** A response: whether its status is a success, the announced length, and the
    body ([None] when reading it fails). *)
Record HttpResponse : Type := {
  resp_success : bool;
  resp_content_length : option N;
  resp_text : option rstr
}.

Record Outside (W : Type) : Type := {
  http_get : rstr -> option ZoneSourceAuth -> M W (option HttpResponse);
  fs_read_to_string : rstr -> M W (option rstr);
  (** [Instant::now], in nanoseconds. *)
  now : M W N;
  (** [gen_range(0..n)]. *)
  gen_range : nat -> M W nat
}.
Arguments http_get {W} _ _ _.
Arguments fs_read_to_string {W} _ _.
Arguments now {W} _.
Arguments gen_range {W} _ _.
