(* ===== verification/Hickory.v ===== *)
(** * DNS messages

    The data of hickory-proto that dns-filter reads and writes: [Name],
    [RecordType], [RData], [Record], [Query], [Message].  The library itself is
    not part of the repository, so its name parser and its wire codec are fields of
    the classes [DnsName] and [DnsCodec]; the records below have the public fields
    the source accesses.  What is known of the codec is stated by [CodecLaws],
    which a theorem assumes only when it needs it. *)

From S2P Require Import Prelude RustStr RustNet.

Abbreviation bytes := (list N).

(** ** Names *)

(** [Name::from_ascii] fails with a printable error; [name_to_ascii] is
    [Name::to_ascii], [name_display] its [Display]. *)
Class DnsName : Type := {
  Name : Type;
  #[global] Name_eq_dec :: EqDecision Name;
  name_from_ascii : rstr -> result Name rstr;
  name_to_ascii : Name -> rstr;
  name_display : Name -> rstr
}.

(** ** Record types, response codes and header enums *)

Inductive RecordType : Type :=
| RT_A | RT_AAAA | RT_NS | RT_CNAME | RT_PTR | RT_MX | RT_TXT | RT_SOA | RT_SRV
| RT_CAA | RT_TLSA | RT_NAPTR | RT_ANY
| RT_Other (code : N).

Inductive ResponseCode : Type :=
| NoError | ServFail | NXDomain | NotImp | Refused
| RC_Other (code : N).

Inductive MessageType : Type := MT_Query | MT_Response.
Inductive OpCode : Type := OC_Query | OC_Other (code : N).

#[export] Instance RecordType_eq_dec : EqDecision RecordType.
Proof. solve_decision. Defined.
#[export] Instance ResponseCode_eq_dec : EqDecision ResponseCode.
Proof. solve_decision. Defined.
#[export] Instance MessageType_eq_dec : EqDecision MessageType.
Proof. solve_decision. Defined.
#[export] Instance OpCode_eq_dec : EqDecision OpCode.
Proof. solve_decision. Defined.

Section message.
Context `{DnsName}.

(** ** Records *)

Record SoaData : Type := {
  soa_mname : Name; soa_rname : Name; soa_serial : N;
  soa_refresh : Z; soa_retry : Z; soa_expire : Z; soa_minimum : N
}.

(** The value of a CAA record: its tag with its argument. *)
Inductive CaaValue : Type :=
| CaaIssue (issuer : option Name)
| CaaIssueWild (issuer : option Name)
| CaaIodef (url : rstr)
| CaaOther (data : bytes).

Inductive RData : Type :=
| RD_A (a : Ipv4Addr)
| RD_AAAA (a : Ipv6Addr)
| RD_NS (n : Name)
| RD_CNAME (n : Name)
| RD_PTR (n : Name)
| RD_MX (preference : N) (exchange : Name)
| RD_TXT (txt_data : list bytes)
| RD_SOA (soa : SoaData)
| RD_SRV (priority weight port : N) (target : Name)
| RD_CAA (issuer_critical : bool) (value : CaaValue)
| RD_TLSA (usage selector matching : N) (cert_data : bytes)
| RD_NAPTR (order preference : N) (flags service regexp : bytes) (replacement : Name)
| RD_Other (rt : RecordType) (data : bytes).

Record DnsRecord : Type := { rec_name : Name; rec_ttl : N; rec_data : RData }.

Record Query : Type := { q_name : Name; q_type : RecordType; q_class : N }.

(** [Record::record_type]: the type of the record's data. *)
Definition record_type (r : DnsRecord) : RecordType :=
  match rec_data r with
  | RD_A _ => RT_A
  | RD_AAAA _ => RT_AAAA
  | RD_NS _ => RT_NS
  | RD_CNAME _ => RT_CNAME
  | RD_PTR _ => RT_PTR
  | RD_MX _ _ => RT_MX
  | RD_TXT _ => RT_TXT
  | RD_SOA _ => RT_SOA
  | RD_SRV _ _ _ _ => RT_SRV
  | RD_CAA _ _ => RT_CAA
  | RD_TLSA _ _ _ _ => RT_TLSA
  | RD_NAPTR _ _ _ _ _ _ => RT_NAPTR
  | RD_Other rt _ => rt
  end.

#[export] Instance SoaData_eq_dec : EqDecision SoaData.
Proof. solve_decision. Defined.
#[export] Instance CaaValue_eq_dec : EqDecision CaaValue.
Proof. solve_decision. Defined.
#[export] Instance RData_eq_dec : EqDecision RData.
Proof. solve_decision. Defined.
#[export] Instance DnsRecord_eq_dec : EqDecision DnsRecord.
Proof. solve_decision. Defined.
#[export] Instance Query_eq_dec : EqDecision Query.
Proof. solve_decision. Defined.

(** ** Messages

    [msg_edns] and [msg_signature] hold the parts of a message the source never
    looks into. *)
Record Message : Type := {
  msg_id : N;
  msg_type : MessageType;
  msg_op_code : OpCode;
  msg_authoritative : bool;
  msg_truncated : bool;
  msg_recursion_desired : bool;
  msg_recursion_available : bool;
  msg_authentic_data : bool;
  msg_checking_disabled : bool;
  msg_response_code : ResponseCode;
  msg_queries : list Query;
  msg_answers : list DnsRecord;
  msg_authorities : list DnsRecord;
  msg_additionals : list DnsRecord;
  msg_edns : option bytes;
  msg_signature : list bytes
}.

#[export] Instance Message_eq_dec : EqDecision Message.
Proof. solve_decision. Defined.

(** [Message::new]. *)
Definition message_new (id : N) (mt : MessageType) (oc : OpCode) : Message :=
  {| msg_id := id; msg_type := mt; msg_op_code := oc;
     msg_authoritative := false; msg_truncated := false;
     msg_recursion_desired := false; msg_recursion_available := false;
     msg_authentic_data := false; msg_checking_disabled := false;
     msg_response_code := NoError;
     msg_queries := []; msg_answers := []; msg_authorities := []; msg_additionals := [];
     msg_edns := None; msg_signature := [] |}.

Definition set_id (id : N) (m : Message) : Message :=
  {| msg_id := id; msg_type := msg_type m; msg_op_code := msg_op_code m;
     msg_authoritative := msg_authoritative m; msg_truncated := msg_truncated m;
     msg_recursion_desired := msg_recursion_desired m;
     msg_recursion_available := msg_recursion_available m;
     msg_authentic_data := msg_authentic_data m;
     msg_checking_disabled := msg_checking_disabled m;
     msg_response_code := msg_response_code m;
     msg_queries := msg_queries m; msg_answers := msg_answers m;
     msg_authorities := msg_authorities m; msg_additionals := msg_additionals m;
     msg_edns := msg_edns m; msg_signature := msg_signature m |}.

Definition set_flags (aa rd ra : bool) (rc : ResponseCode) (m : Message) : Message :=
  {| msg_id := msg_id m; msg_type := msg_type m; msg_op_code := msg_op_code m;
     msg_authoritative := aa; msg_truncated := msg_truncated m;
     msg_recursion_desired := rd; msg_recursion_available := ra;
     msg_authentic_data := msg_authentic_data m;
     msg_checking_disabled := msg_checking_disabled m;
     msg_response_code := rc;
     msg_queries := msg_queries m; msg_answers := msg_answers m;
     msg_authorities := msg_authorities m; msg_additionals := msg_additionals m;
     msg_edns := msg_edns m; msg_signature := msg_signature m |}.

Definition set_sections (qs : list Query) (an au ad : list DnsRecord) (m : Message) : Message :=
  {| msg_id := msg_id m; msg_type := msg_type m; msg_op_code := msg_op_code m;
     msg_authoritative := msg_authoritative m; msg_truncated := msg_truncated m;
     msg_recursion_desired := msg_recursion_desired m;
     msg_recursion_available := msg_recursion_available m;
     msg_authentic_data := msg_authentic_data m;
     msg_checking_disabled := msg_checking_disabled m;
     msg_response_code := msg_response_code m;
     msg_queries := qs; msg_answers := an; msg_authorities := au; msg_additionals := ad;
     msg_edns := msg_edns m; msg_signature := msg_signature m |}.

Definition add_query (q : Query) (m : Message) : Message :=
  set_sections (msg_queries m ++ [q]) (msg_answers m) (msg_authorities m) (msg_additionals m) m.
Definition add_answer (r : DnsRecord) (m : Message) : Message :=
  set_sections (msg_queries m) (msg_answers m ++ [r]) (msg_authorities m) (msg_additionals m) m.
Definition add_authority (r : DnsRecord) (m : Message) : Message :=
  set_sections (msg_queries m) (msg_answers m) (msg_authorities m ++ [r]) (msg_additionals m) m.
Definition add_additional (r : DnsRecord) (m : Message) : Message :=
  set_sections (msg_queries m) (msg_answers m) (msg_authorities m) (msg_additionals m ++ [r]) m.

(** The first question of a message. *)
Definition first_query (m : Message) : option Query := head (msg_queries m).

(** Appending with [add_query] in a loop appends the whole list. *)
Lemma foldl_add_query qs m :
  foldl (fun m q => add_query q m) m qs
  = set_sections (msg_queries m ++ qs) (msg_answers m) (msg_authorities m) (msg_additionals m) m.
Proof.
  revert m. induction qs as [|q qs IH]; intros m; simpl.
  - rewrite app_nil_r. by destruct m.
  - rewrite IH. simpl. by rewrite <- app_assoc.
Qed.

Lemma foldl_add_answer rs m :
  foldl (fun m r => add_answer r m) m rs
  = set_sections (msg_queries m) (msg_answers m ++ rs) (msg_authorities m) (msg_additionals m) m.
Proof.
  revert m. induction rs as [|r rs IH]; intros m; simpl.
  - rewrite app_nil_r. by destruct m.
  - rewrite IH. simpl. by rewrite <- app_assoc.
Qed.

Lemma foldl_add_additional rs m :
  foldl (fun m r => add_additional r m) m rs
  = set_sections (msg_queries m) (msg_answers m) (msg_authorities m) (msg_additionals m ++ rs) m.
Proof.
  revert m. induction rs as [|r rs IH]; intros m; simpl.
  - rewrite app_nil_r. by destruct m.
  - rewrite IH. simpl. by rewrite <- app_assoc.
Qed.
End message.

(** ** Codec *)

(** [Message::from_vec] and [Message::to_vec]. *)
Class DnsCodec `{DnsName} : Type := {
  message_from_vec : bytes -> result Message rstr;
  message_to_vec : Message -> result bytes rstr
}.

(** What the wire format of RFC 1035 gives: an encoded message starts with its
    identifier, most significant byte first; the TC flag is bit 1 of the third
    byte; decoding what was encoded gives the message back. *)
Class CodecLaws `{DnsCodec} : Prop := {
  wire_encode_id : forall m b, message_to_vec m = Ok b -> (msg_id m < 65536)%N ->
    exists rest, b = (msg_id m / 256)%N :: (msg_id m mod 256)%N :: rest;
  wire_encode_tc : forall m b, message_to_vec m = Ok b ->
    exists flags, b !! 2 = Some flags /\ N.testbit flags 1 = msg_truncated m;
  wire_decode_encode : forall m b, message_to_vec m = Ok b -> message_from_vec b = Ok m;
  wire_decode_id : forall m b, message_from_vec b = Ok m ->
    exists hi lo rest, b = hi :: lo :: rest /\ msg_id m = (hi * 256 + lo)%N;
  wire_decode_tc : forall m b, message_from_vec b = Ok m ->
    exists flags, b !! 2 = Some flags /\ N.testbit flags 1 = msg_truncated m
}.

(** What the list parsers rely on: [Name::from_ascii] refuses white space. *)
Class NameLaws `{DnsName} : Prop := {
  from_ascii_no_whitespace : forall s n, name_from_ascii s = Ok n -> no_whitespace s
}.

(** A concrete name type for examples: host names kept as their text. *)
Definition text_name_char (c : rchar) : bool :=
  is_ascii_alphanumeric c || (c =? 45)%N || (c =? 46)%N || (c =? 95)%N || (c =? 42)%N.

Definition text_names : DnsName :=
  {| Name := rstr;
     name_from_ascii s := if forallb text_name_char s then Ok s else Err (lit "unrecognized char");
     name_to_ascii n := n;
     name_display n := n |}.

Lemma text_names_laws : @NameLaws text_names.
Proof.
  constructor. intros s n. simpl. destruct (forallb text_name_char s) eqn:Hs; [|done]. intros _.
  rewrite List.forallb_forall in Hs. apply Forall_forall. intros c Hc%list_elem_of_In%Hs.
  unfold text_name_char, is_ascii_alphanumeric, is_ascii_digit, is_ascii_uppercase,
    is_ascii_lowercase, in_range, is_whitespace, in_range in *. lia.
Qed.
