(* ===== verification/Metrics.v ===== *)
(** * Entities and metrics

    [entities/] (filter decisions, the bounded query log, upstream strategies) and
    [frameworks/metrics]: the process-wide counters behind [OnceLock].  Counters are
    exact naturals (the source keeps them in [f64], exact up to 2^53); a latency is
    its number of nanoseconds. *)

From S2P Require Import Prelude RustStr.

(** ** Entities *)

Inductive FilterDecision : Type := FD_Allow | FD_Block | FD_Neutral.
#[export] Instance FilterDecision_eq_dec : EqDecision FilterDecision.
Proof. solve_decision. Defined.

Inductive QueryDecision : Type := Allowed | Blocked | Passthrough.
#[export] Instance QueryDecision_eq_dec : EqDecision QueryDecision.
Proof. solve_decision. Defined.

Definition query_decision_from (d : FilterDecision) : QueryDecision :=
  match d with
  | FD_Allow => Allowed
  | FD_Block => Blocked
  | FD_Neutral => Passthrough
  end.

Inductive UpstreamStrategy : Type := RoundRobin | Random | Failover.
#[export] Instance UpstreamStrategy_eq_dec : EqDecision UpstreamStrategy.
Proof. solve_decision. Defined.

Inductive UpstreamProtocol : Type := UP_Dns | UP_Dot | UP_Doh | UP_Doq.
#[export] Instance UpstreamProtocol_eq_dec : EqDecision UpstreamProtocol.
Proof. solve_decision. Defined.

Definition upstream_strategy_from_str (value : rstr) : result UpstreamStrategy unit :=
  if str_eqb value (lit "random") then Ok Random
  else if str_eqb value (lit "failover") then Ok Failover
  else if str_eqb value (lit "round_robin") then Ok RoundRobin
  else Err tt.

(** ** Query log *)

Record QueryLogEntry : Type := {
  qle_timestamp : N; qle_domain : rstr; qle_qtype : rstr; qle_decision : QueryDecision;
  qle_source_ip : rstr; qle_response_time_ms : N; qle_blocked_by : option (list rstr)
}.

Record QueryLog : Type := { ql_entries : list QueryLogEntry; ql_max_entries : nat }.

Definition query_log_new (max_entries : nat) : QueryLog :=
  {| ql_entries := []; ql_max_entries := max_entries |}.

(** [VecDeque::pop_front] on an empty queue does nothing. *)
Definition query_log_push (entry : QueryLogEntry) (log : QueryLog) : QueryLog :=
  let entries := if (ql_max_entries log <=? length (ql_entries log))%nat
                 then tail (ql_entries log) else ql_entries log in
  {| ql_entries := entries ++ [entry]; ql_max_entries := ql_max_entries log |}.

Definition query_log_len (log : QueryLog) : nat := length (ql_entries log).

(** ** Metrics *)

Record MetricsState : Type := {
  dns_queries_total : N;
  dns_queries_blocked : N;
  dns_queries_allowed : N;
  dns_queries_passthrough : N;
  blocklist_hits_total : gmap rstr N;
  cache_hits_total : N;
  cache_misses_total : N;
  upstream_request_duration : gmap rstr (N * N);
  upstream_errors_total : gmap (rstr * rstr) N
}.

Definition metrics_state_new : MetricsState :=
  {| dns_queries_total := 0; dns_queries_blocked := 0; dns_queries_allowed := 0;
     dns_queries_passthrough := 0; blocklist_hits_total := ∅;
     cache_hits_total := 0; cache_misses_total := 0;
     upstream_request_duration := ∅; upstream_errors_total := ∅ |}.

(** The global [OnceLock]: [None] until [init_prometheus_metrics]. *)
Abbreviation MetricsGlobal := (option MetricsState).

Definition init_prometheus_metrics (g : MetricsGlobal) : MetricsGlobal :=
  match g with Some _ => g | None => Some metrics_state_new end.

Definition inc_label {K} `{Countable K} (k : K) (m : gmap K N) : gmap K N :=
  <[k := (default 0 (m !! k) + 1)%N]> m.

Definition record_dns_query (decision : QueryDecision) (g : MetricsGlobal) : MetricsGlobal :=
  let?o m := g in
  Some {| dns_queries_total := dns_queries_total m + 1;
          dns_queries_blocked :=
            match decision with Blocked => dns_queries_blocked m + 1 | _ => dns_queries_blocked m end;
          dns_queries_allowed :=
            match decision with Allowed => dns_queries_allowed m + 1 | _ => dns_queries_allowed m end;
          dns_queries_passthrough :=
            match decision with
            | Passthrough => dns_queries_passthrough m + 1 | _ => dns_queries_passthrough m end;
          blocklist_hits_total := blocklist_hits_total m;
          cache_hits_total := cache_hits_total m;
          cache_misses_total := cache_misses_total m;
          upstream_request_duration := upstream_request_duration m;
          upstream_errors_total := upstream_errors_total m |}%N.

Definition record_blocklist_hit (list_names : list rstr) (g : MetricsGlobal) : MetricsGlobal :=
  let?o m := g in
  let names := if is_empty list_names then [lit "unknown"] else list_names in
  Some {| dns_queries_total := dns_queries_total m;
          dns_queries_blocked := dns_queries_blocked m;
          dns_queries_allowed := dns_queries_allowed m;
          dns_queries_passthrough := dns_queries_passthrough m;
          blocklist_hits_total := foldl (fun acc n => inc_label n acc) (blocklist_hits_total m) names;
          cache_hits_total := cache_hits_total m;
          cache_misses_total := cache_misses_total m;
          upstream_request_duration := upstream_request_duration m;
          upstream_errors_total := upstream_errors_total m |}.

Definition record_cache_operation (hit : bool) (g : MetricsGlobal) : MetricsGlobal :=
  let?o m := g in
  Some {| dns_queries_total := dns_queries_total m;
          dns_queries_blocked := dns_queries_blocked m;
          dns_queries_allowed := dns_queries_allowed m;
          dns_queries_passthrough := dns_queries_passthrough m;
          blocklist_hits_total := blocklist_hits_total m;
          cache_hits_total := if hit then cache_hits_total m + 1 else cache_hits_total m;
          cache_misses_total := if hit then cache_misses_total m else cache_misses_total m + 1;
          upstream_request_duration := upstream_request_duration m;
          upstream_errors_total := upstream_errors_total m |}%N.

Definition record_upstream_request (upstream : rstr) (duration : N) (error : option rstr)
    (g : MetricsGlobal) : MetricsGlobal :=
  let?o m := g in
  let '(count, sum) := default (0, 0)%N (upstream_request_duration m !! upstream) in
  Some {| dns_queries_total := dns_queries_total m;
          dns_queries_blocked := dns_queries_blocked m;
          dns_queries_allowed := dns_queries_allowed m;
          dns_queries_passthrough := dns_queries_passthrough m;
          blocklist_hits_total := blocklist_hits_total m;
          cache_hits_total := cache_hits_total m;
          cache_misses_total := cache_misses_total m;
          upstream_request_duration :=
            <[upstream := (count + 1, sum + duration)%N]> (upstream_request_duration m);
          upstream_errors_total :=
            match error with
            | Some e => inc_label (upstream, e) (upstream_errors_total m)
            | None => upstream_errors_total m
            end |}.

(** *** Snapshot *)

Record UpstreamSnapshot : Type := {
  us_upstream : rstr; us_requests_total : N; us_errors_total : N;
  us_latency_count : N; us_latency_sum : N
}.

Record MetricsSnapshot : Type := {
  ms_queries_total : N; ms_queries_blocked : N; ms_queries_allowed : N;
  ms_queries_passthrough : N; ms_blocklist_hits_total : N; ms_cache_hits_total : N;
  ms_cache_misses_total : N; ms_upstreams : list UpstreamSnapshot
}.

Definition metrics_snapshot_default : MetricsSnapshot :=
  {| ms_queries_total := 0; ms_queries_blocked := 0; ms_queries_allowed := 0;
     ms_queries_passthrough := 0; ms_blocklist_hits_total := 0; ms_cache_hits_total := 0;
     ms_cache_misses_total := 0; ms_upstreams := [] |}.

(** The latency histogram first, then the error counters on top of it. *)
Definition upstreams_from_histogram (m : MetricsState) : gmap rstr UpstreamSnapshot :=
  map_imap (fun label '(count, sum) =>
    Some {| us_upstream := label; us_requests_total := count; us_errors_total := 0;
            us_latency_count := count; us_latency_sum := sum |}) (upstream_request_duration m).

Definition add_error (acc : gmap rstr UpstreamSnapshot) (entry : (rstr * rstr) * N) :
    gmap rstr UpstreamSnapshot :=
  let '((label, _), value) := entry in
  let e := default {| us_upstream := []; us_requests_total := 0; us_errors_total := 0;
                      us_latency_count := 0; us_latency_sum := 0 |} (acc !! label) in
  <[label := {| us_upstream := if is_empty (us_upstream e) then label else us_upstream e;
                us_requests_total := us_requests_total e;
                us_errors_total := us_errors_total e + value;
                us_latency_count := us_latency_count e;
                us_latency_sum := us_latency_sum e |}%N]> acc.

Definition metrics_snapshot (g : MetricsGlobal) : MetricsSnapshot :=
  match g with
  | None => metrics_snapshot_default
  | Some m =>
      let upstreams :=
        foldl add_error (upstreams_from_histogram m) (map_to_list (upstream_errors_total m)) in
      let labels := sort_strs (map_to_list upstreams).*1 in
      {| ms_queries_total := dns_queries_total m;
         ms_queries_blocked := dns_queries_blocked m;
         ms_queries_allowed := dns_queries_allowed m;
         ms_queries_passthrough := dns_queries_passthrough m;
         ms_blocklist_hits_total :=
           foldr N.add 0%N (map_to_list (blocklist_hits_total m)).*2;
         ms_cache_hits_total := cache_hits_total m;
         ms_cache_misses_total := cache_misses_total m;
         ms_upstreams := omap (fun l => upstreams !! l) labels |}
  end.

(** ** Properties of the query log *)

Definition query_log_pushes (es : list QueryLogEntry) (log : QueryLog) : QueryLog :=
  foldl (fun log e => query_log_push e log) log es.

Lemma query_log_push_max e log : ql_max_entries (query_log_push e log) = ql_max_entries log.
Proof. done. Qed.

(** One push on a log that holds the last entries keeps it that way. *)
Lemma query_log_push_suffix n all e :
  ql_entries (query_log_push e
    {| ql_entries := drop (length all - (n `max` 1)) all; ql_max_entries := n |})
  = drop (length (all ++ [e]) - (n `max` 1)) (all ++ [e]).
Proof.
  unfold query_log_push. simpl. rewrite length_drop, length_app. simpl.
  destruct all as [|a all].
  { destruct n as [|n]; simpl; [done|]. by replace (1 - S (n `max` 0)) with 0 by lia. }
  remember (a :: all) as l eqn:Hl. assert (0 < length l) by (subst; simpl; lia).
  destruct (Nat.leb_spec n (length l - (length l - n `max` 1))) as [Hfull|Hroom].
  - rewrite tail_drop, drop_app_le by lia. do 2 f_equal. lia.
  - rewrite drop_app_le by lia. do 2 f_equal. lia.
Qed.

Lemma query_log_pushes_max es log : ql_max_entries (query_log_pushes es log) = ql_max_entries log.
Proof. unfold query_log_pushes. revert log. induction es; intros log; simpl; auto. by rewrite IHes. Qed.

(** The query log keeps exactly the most recent [max 1 max_entries] entries,
    oldest first, whatever was pushed on it. *)
Theorem query_log_keeps_latest (n : nat) (es : list QueryLogEntry) :
  ql_entries (query_log_pushes es (query_log_new n)) = drop (length es - (n `max` 1)) es.
Proof.
  induction es as [|e es IH] using rev_ind; [done|].
  unfold query_log_pushes. rewrite foldl_app. simpl.
  rewrite <- query_log_push_suffix, <- IH. f_equal. f_equal.
  pose proof (query_log_pushes_max es (query_log_new n)) as Hm.
  unfold query_log_pushes in *. by destruct (foldl _ _ _); simpl in *; subst.
Qed.

(** ** Properties of the counters *)

(** What the recording functions are called with. *)
Inductive MetricEvent : Type :=
| EvQuery (d : QueryDecision)
| EvBlocklistHit (names : list rstr)
| EvCache (hit : bool)
| EvUpstream (upstream : rstr) (duration : N) (error : option rstr).

Definition record_event (e : MetricEvent) (g : MetricsGlobal) : MetricsGlobal :=
  match e with
  | EvQuery d => record_dns_query d g
  | EvBlocklistHit names => record_blocklist_hit names g
  | EvCache hit => record_cache_operation hit g
  | EvUpstream u t err => record_upstream_request u t err g
  end.

Definition record_events (es : list MetricEvent) (g : MetricsGlobal) : MetricsGlobal :=
  foldl (fun g e => record_event e g) g es.

(** Number of events that satisfy [p]; weight of the events under [f]. *)
Definition weight (f : MetricEvent -> N) (es : list MetricEvent) : N :=
  foldr (fun e acc => (f e + acc)%N) 0%N es.

Definition is_query (d : option QueryDecision) (e : MetricEvent) : N :=
  match e with
  | EvQuery d' => match d with None => 1 | Some d => if decide (d = d') then 1 else 0 end
  | _ => 0
  end.
Definition hits_of (e : MetricEvent) : N :=
  match e with EvBlocklistHit names => N.of_nat (1 `max` length names) | _ => 0 end.
Definition is_cache (hit : bool) (e : MetricEvent) : N :=
  match e with EvCache h => if decide (h = hit) then 1 else 0 | _ => 0 end.
Definition request_to (u : rstr) (e : MetricEvent) : N :=
  match e with EvUpstream u' _ _ => if decide (u' = u) then 1 else 0 | _ => 0 end.
Definition latency_of (u : rstr) (e : MetricEvent) : N :=
  match e with EvUpstream u' t _ => if decide (u' = u) then t else 0 | _ => 0 end.
Definition error_from (u : rstr) (e : MetricEvent) : N :=
  match e with EvUpstream u' _ (Some _) => if decide (u' = u) then 1 else 0 | _ => 0 end.

Lemma weight_app f es es' : weight f (es ++ es') = (weight f es + weight f es')%N.
Proof. induction es; simpl; lia. Qed.

(** The sum of the values of a finite map. *)
Definition map_sum {K} `{Countable K} (m : gmap K N) : N :=
  foldr N.add 0%N (map_to_list m).*2.

Lemma foldr_add_perm (l k : list N) : l ≡ₚ k -> foldr N.add 0%N l = foldr N.add 0%N k.
Proof. induction 1; simpl; lia. Qed.

Lemma map_sum_insert {K} `{Countable K} (m : gmap K N) k v :
  (map_sum (<[k := v]> m) + default 0 (m !! k) = map_sum m + v)%N.
Proof.
  unfold map_sum. destruct (m !! k) as [old|] eqn:Hk; simpl.
  - rewrite <- (insert_delete_id m k old) at 2 by done.
    rewrite <- (insert_delete_eq m k v).
    rewrite !(foldr_add_perm _ _ (fmap_Permutation snd _ _ (map_to_list_insert _ k _ (lookup_delete_eq m k)))).
    csimpl. lia.
  - rewrite (foldr_add_perm _ _ (fmap_Permutation snd _ _ (map_to_list_insert _ k v Hk))).
    csimpl. lia.
Qed.

Lemma map_sum_inc {K} `{Countable K} (m : gmap K N) k : map_sum (inc_label k m) = (map_sum m + 1)%N.
Proof. unfold inc_label. pose proof (map_sum_insert m k (default 0 (m !! k) + 1)%N). lia. Qed.

Lemma map_sum_incs {K} `{Countable K} (ks : list K) (m : gmap K N) :
  map_sum (foldl (fun acc n => inc_label n acc) m ks) = (map_sum m + N.of_nat (length ks))%N.
Proof.
  revert m. induction ks as [|k ks IH]; intros m; simpl; [lia|]. rewrite IH, map_sum_inc. lia.
Qed.

(** The scalar counters of a state are the counts of the recorded events. *)
Definition counters_of (es : list MetricEvent) (m : MetricsState) : Prop :=
  dns_queries_total m = weight (is_query None) es
  /\ dns_queries_blocked m = weight (is_query (Some Blocked)) es
  /\ dns_queries_allowed m = weight (is_query (Some Allowed)) es
  /\ dns_queries_passthrough m = weight (is_query (Some Passthrough)) es
  /\ map_sum (blocklist_hits_total m) = weight hits_of es
  /\ cache_hits_total m = weight (is_cache true) es
  /\ cache_misses_total m = weight (is_cache false) es.

Lemma record_event_counters es m e :
  counters_of es m -> exists m', record_event e (Some m) = Some m' /\ counters_of (es ++ [e]) m'.
Proof.
  unfold counters_of. intros (H1 & H2 & H3 & H4 & H5 & H6 & H7).
  rewrite !weight_app, <- H1, <- H2, <- H3, <- H4, <- H5, <- H6, <- H7.
  destruct e as [d|names|hit|u t err]; simpl.
  - eexists; split; [done|]. destruct d; simpl; repeat split; lia.
  - eexists; split; [done|]. simpl. rewrite map_sum_incs.
    destruct names as [|n names]; simpl; repeat split; lia.
  - eexists; split; [done|]. destruct hit; simpl; repeat split; lia.
  - destruct (default _ _) as [count sum]. eexists; split; [done|]. simpl. repeat split; lia.
Qed.

Lemma weight_query_split es :
  weight (is_query None) es
  = (weight (is_query (Some Blocked)) es + weight (is_query (Some Allowed)) es
     + weight (is_query (Some Passthrough)) es)%N.
Proof. induction es as [|[[]| | |] es IH]; simpl in *; lia. Qed.

(** *** Per-upstream figures *)

(** The errors of upstream [u] in a list of error counters. *)
Definition errors_in (u : rstr) (l : list ((rstr * rstr) * N)) : N :=
  foldr (fun entry acc => ((if decide (entry.1.1 = u) then entry.2 else 0) + acc)%N) 0%N l.

Lemma errors_in_perm u l k : l ≡ₚ k -> errors_in u l = errors_in u k.
Proof. unfold errors_in. induction 1; simpl in *; lia. Qed.

Lemma errors_in_inc (u u' e : rstr) (m : gmap (rstr * rstr) N) :
  errors_in u (map_to_list (inc_label (u', e) m))
  = (errors_in u (map_to_list m) + if decide (u' = u) then 1 else 0)%N.
Proof.
  unfold inc_label. destruct (m !! (u', e)) as [old|] eqn:Hk; simpl.
  - rewrite <- (insert_delete_id m (u', e) old) at 2 by done.
    rewrite <- (insert_delete_eq m (u', e) (old + 1)%N).
    rewrite !(errors_in_perm _ _ _ (map_to_list_insert _ (u', e) _ (lookup_delete_eq m (u', e)))).
    unfold errors_in; simpl. case_decide; lia.
  - rewrite (errors_in_perm _ _ _ (map_to_list_insert _ (u', e) _ Hk)).
    unfold errors_in; simpl. case_decide; lia.
Qed.

Definition add_errors (n : N) (x : UpstreamSnapshot) : UpstreamSnapshot :=
  {| us_upstream := us_upstream x; us_requests_total := us_requests_total x;
     us_errors_total := us_errors_total x + n; us_latency_count := us_latency_count x;
     us_latency_sum := us_latency_sum x |}%N.

(** Every entry of the table carries its key as its name. *)
Definition labelled (acc : gmap rstr UpstreamSnapshot) : Prop :=
  map_Forall (fun u x => us_upstream x = u) acc.

Lemma add_error_known acc u e v x :
  labelled acc -> acc !! u = Some x -> add_error acc ((u, e), v) = <[u := add_errors v x]> acc.
Proof.
  intros Hl Hu. unfold add_error, add_errors. rewrite Hu. simpl. rewrite (Hl _ _ Hu).
  by destruct (is_empty u).
Qed.

Lemma foldl_add_error acc l :
  labelled acc -> Forall (fun entry => is_Some (acc !! entry.1.1)) l ->
  forall u, foldl add_error acc l !! u = add_errors (errors_in u l) <$> acc !! u.
Proof.
  revert acc. induction l as [|[[u' e] v] l IH]; intros acc Hl Hall u.
  { simpl. destruct (acc !! u) as [[]|]; [|done]. simpl. unfold add_errors. simpl. by rewrite N.add_0_r. }
  apply Forall_cons in Hall as [[x Hx] Hall]. simpl in Hx.
  cbn [foldl]. rewrite (add_error_known acc u' e v x Hl Hx). rewrite IH.
  - unfold errors_in at 2. cbn [foldr fst snd]. fold (errors_in u l).
    destruct (decide (u' = u)) as [->|Hne].
    + rewrite lookup_insert_eq, Hx. simpl. unfold add_errors. simpl. do 2 f_equal. lia.
    + by rewrite lookup_insert_ne.
  - intros u'' y Hy. apply lookup_insert_Some in Hy as [[<- <-]|[_ Hy]]; [exact (Hl _ _ Hx)|by apply Hl].
  - eapply Forall_impl; [exact Hall|]. intros [[u'' e'] v'] [y Hy]. simpl in *.
    destruct (decide (u' = u'')) as [->|]; [by rewrite lookup_insert_eq; eexists|].
    rewrite lookup_insert_ne by done. by eexists.
Qed.

(** What the state holds of the upstream requests among the recorded events. *)
Definition upstreams_of (es : list MetricEvent) (m : MetricsState) : Prop :=
  (forall u, upstream_request_duration m !! u
     = if decide (weight (request_to u) es = 0%N) then None
       else Some (weight (request_to u) es, weight (latency_of u) es))
  /\ (forall u, errors_in u (map_to_list (upstream_errors_total m)) = weight (error_from u) es)
  /\ (forall u e, is_Some (upstream_errors_total m !! (u, e)) -> is_Some (upstream_request_duration m !! u)).

Lemma latency_zero u es : weight (request_to u) es = 0%N -> weight (latency_of u) es = 0%N.
Proof. induction es as [|[| | |u' t err] es IH]; simpl; try done. case_decide; lia. Qed.

Lemma record_event_upstreams es m e :
  upstreams_of es m -> exists m', record_event e (Some m) = Some m' /\ upstreams_of (es ++ [e]) m'.
Proof.
  intros (Hd & He & Hk). destruct e as [d|names|hit|u t err]; simpl.
  1-3: eexists; split; [done|]; split_and!; simpl; [intros u|intros u|done];
    rewrite !weight_app; simpl; rewrite !N.add_0_r; auto.
  set (old := default (0, 0)%N (upstream_request_duration m !! u)).
  assert (old = (weight (request_to u) es, weight (latency_of u) es)) as Hold.
  { unfold old. rewrite Hd. case_decide as Hz; [|done]. by rewrite Hz, (latency_zero u es Hz). }
  rewrite Hold. eexists. split; [done|]. split_and!; simpl.
  - intros u'. rewrite !weight_app. simpl. destruct (decide (u = u')) as [->|Hne].
    + rewrite lookup_insert_eq. case_decide; [lia|]. do 2 f_equal; lia.
    + rewrite lookup_insert_ne, Hd by done. by rewrite !N.add_0_r.
  - intros u'. rewrite weight_app, <- He. destruct err as [e|]; simpl; [|lia].
    rewrite errors_in_inc. lia.
  - intros u' e' Hs. destruct (decide (u = u')) as [->|Hne]; [by rewrite lookup_insert_eq; eexists|].
    rewrite lookup_insert_ne by done. apply (Hk u' e'). destruct err as [e|]; [|done].
    unfold inc_label in Hs. rewrite lookup_insert_ne in Hs by congruence. done.
Qed.

Lemma record_events_state es :
  exists m, record_events es (Some metrics_state_new) = Some m /\ counters_of es m /\ upstreams_of es m.
Proof.
  induction es as [|e es (m & Hm & Hc & Hu)] using rev_ind.
  - exists metrics_state_new. split; [done|]. split; [by repeat split|].
    split_and!; intros u; [done|done|]. intros e [x Hx]. done.
  - unfold record_events in *. rewrite foldl_app, Hm.
    destruct (record_event_counters es m e Hc) as (m1 & Hm1 & Hc1).
    destruct (record_event_upstreams es m e Hu) as (m2 & Hm2 & Hu2).
    simpl. rewrite Hm1 in Hm2. simplify_eq. eauto.
Qed.

(** The table the snapshot is made of. *)
Lemma snapshot_table es m u :
  upstreams_of es m ->
  foldl add_error (upstreams_from_histogram m) (map_to_list (upstream_errors_total m)) !! u
  = if decide (weight (request_to u) es = 0%N) then None
    else Some {| us_upstream := u; us_requests_total := weight (request_to u) es;
                 us_errors_total := weight (error_from u) es;
                 us_latency_count := weight (request_to u) es;
                 us_latency_sum := weight (latency_of u) es |}.
Proof.
  intros (Hd & He & Hk). rewrite foldl_add_error.
  - rewrite He. unfold upstreams_from_histogram. rewrite map_lookup_imap, Hd. by case_decide.
  - intros u' x Hx. unfold upstreams_from_histogram in Hx. rewrite map_lookup_imap in Hx.
    destruct (upstream_request_duration m !! u') as [[]|]; by simplify_eq/=.
  - apply Forall_forall. intros [[u' e] v] Hin. apply elem_of_map_to_list in Hin. simpl.
    destruct (Hk u' e) as [[c l] Hcl]; [by eexists|].
    unfold upstreams_from_histogram. rewrite map_lookup_imap, Hcl. by eexists.
Qed.

Lemma snapshot_upstreams es m x :
  upstreams_of es m ->
  x ∈ ms_upstreams (metrics_snapshot (Some m)) <->
  weight (request_to (us_upstream x)) es <> 0%N
  /\ us_requests_total x = weight (request_to (us_upstream x)) es
  /\ us_errors_total x = weight (error_from (us_upstream x)) es
  /\ us_latency_count x = weight (request_to (us_upstream x)) es
  /\ us_latency_sum x = weight (latency_of (us_upstream x)) es.
Proof.
  intros Hu. simpl. rewrite list_elem_of_omap. split.
  - intros (u & _ & Hx). rewrite (snapshot_table es m u Hu) in Hx. case_decide; by simplify_eq/=.
  - intros (Hz & H1 & H2 & H3 & H4). exists (us_upstream x).
    assert (foldl add_error (upstreams_from_histogram m) (map_to_list (upstream_errors_total m))
      !! us_upstream x = Some x) as Hx.
    { rewrite (snapshot_table es m _ Hu). case_decide; [done|]. destruct x; simpl in *. by subst. }
    split; [|done]. rewrite sort_strs_perm. apply list_elem_of_fmap. exists (us_upstream x, x).
    split; [done|]. by apply elem_of_map_to_list.
Qed.

(** The exported snapshot counts the recorded events exactly: queries per
    decision, cache hits and misses and one hit per matching list ([unknown] when no
    list is named); the decisions always add up to the total; and it lists exactly the
    upstreams that were asked, each with its number of requests and of errors and the
    sum of its latencies. *)
Theorem metrics_snapshot_counts (es : list MetricEvent) :
  let s := metrics_snapshot (record_events es (init_prometheus_metrics None)) in
  ms_queries_total s = weight (is_query None) es
  /\ ms_queries_blocked s = weight (is_query (Some Blocked)) es
  /\ ms_queries_allowed s = weight (is_query (Some Allowed)) es
  /\ ms_queries_passthrough s = weight (is_query (Some Passthrough)) es
  /\ ms_blocklist_hits_total s = weight hits_of es
  /\ ms_cache_hits_total s = weight (is_cache true) es
  /\ ms_cache_misses_total s = weight (is_cache false) es
  /\ ms_queries_total s
     = (ms_queries_blocked s + ms_queries_allowed s + ms_queries_passthrough s)%N
  /\ forall x, x ∈ ms_upstreams s <->
       weight (request_to (us_upstream x)) es <> 0%N
       /\ us_requests_total x = weight (request_to (us_upstream x)) es
       /\ us_errors_total x = weight (error_from (us_upstream x)) es
       /\ us_latency_count x = weight (request_to (us_upstream x)) es
       /\ us_latency_sum x = weight (latency_of (us_upstream x)) es.
Proof.
  destruct (record_events_state es) as (m & Hm & (H1 & H2 & H3 & H4 & H5 & H6 & H7) & Hu).
  cbv zeta. cbn [init_prometheus_metrics]. rewrite Hm.
  split_and!; try done; [|intros x; by apply snapshot_upstreams].
  simpl. rewrite H1, H2, H3, H4. apply weight_query_split.
Qed.
