(* ===== verification/ListParsers.v ===== *)
(** * Filter-list parsers

    [use_cases/filtering/{common,adguard,hosts,rpz,domains,wildcard}.rs]: one parser
    per list format, the domain normalisation they share and the suffix match that
    decides whether a domain is covered by a set of list entries. *)

From S2P Require Import Prelude RustStr RustNet Hickory.

(** ** common.rs *)

Inductive ParsedLine : Type :=
| PL_Block (d : rstr)
| PL_Allow (d : rstr).

Inductive ParseDomainLineResult : Type :=
| Parsed (p : ParsedLine)
| Skipped.

Inductive ListFormat : Type := LF_Adguard | LF_Hosts | LF_Rpz | LF_Domains | LF_Wildcard.

#[export] Instance ParsedLine_eq_dec : EqDecision ParsedLine.
Proof. solve_decision. Defined.
#[export] Instance ParseDomainLineResult_eq_dec : EqDecision ParseDomainLineResult.
Proof. solve_decision. Defined.
#[export] Instance ListFormat_eq_dec : EqDecision ListFormat.
Proof. solve_decision. Defined.

Definition list_format_from_option (input : option rstr) : result ListFormat rstr :=
  let s := default (lit "adguard") input in
  if str_eqb s (lit "adguard") then Ok LF_Adguard
  else if str_eqb s (lit "hosts") then Ok LF_Hosts
  else if str_eqb s (lit "rpz") then Ok LF_Rpz
  else if str_eqb s (lit "domains") then Ok LF_Domains
  else if str_eqb s (lit "wildcard") then Ok LF_Wildcard
  else Err (lit "unsupported list_type '" ++ s
            ++ lit "'; valid values are: adguard, hosts, rpz, domains, wildcard").

Definition list_format_as_str (f : ListFormat) : rstr :=
  match f with
  | LF_Adguard => lit "adguard"
  | LF_Hosts => lit "hosts"
  | LF_Rpz => lit "rpz"
  | LF_Domains => lit "domains"
  | LF_Wildcard => lit "wildcard"
  end.

Definition normalize_domain (input : rstr) : rstr :=
  trim_start_matches (lit "*.") (to_ascii_lowercase (trim_end_matches_char (ch ".") (trim input))).

Definition is_ip_like (value : rstr) : bool :=
  bool_decide (is_Some (parse_ipv4 value)) || bool_decide (is_Some (parse_ipv6 value)).

(** The loop over [idx in 0..labels.len()] with its early return. *)
Fixpoint matches_any_from (set : gset rstr) (labels : list rstr) : bool :=
  match labels with
  | [] => false
  | _ :: rest =>
      if bool_decide (join (ch ".") labels ∈ set) then true else matches_any_from set rest
  end.
Definition matches_any (set : gset rstr) (domain : rstr) : bool :=
  matches_any_from set (split (ch ".") domain).

Definition skip_comment_line (line : rstr) : option rstr :=
  let trimmed := trim line in
  if is_empty trimmed || starts_with (lit "#") trimmed || starts_with (lit "!") trimmed
  then None else Some trimmed.

(** [trimmed.split('#').next().unwrap_or(trimmed).trim()]. *)
Definition without_comment (trimmed : rstr) : rstr :=
  trim (default trimmed (head (split (ch "#") trimmed))).

Section parsers.
Context `{DnsName}.

Definition normalize_domain_opt (input : rstr) : option rstr :=
  let normalized := normalize_domain input in
  if is_empty normalized then None
  else match name_from_ascii normalized with
       | Ok _ => Some normalized
       | Err _ => None
       end.

(** [normalize_domain_opt(x).map(k).or(Some(Skipped))]. *)
Definition parsed_or_skipped (k : rstr -> ParsedLine) (o : option rstr) : ParseDomainLineResult :=
  match o with Some d => Parsed (k d) | None => Skipped end.

(** ** adguard.rs *)

Definition COSMETIC_MARKERS : list rstr :=
  [lit "#@$?#"; lit "#$?#"; lit "#@?#"; lit "#?#"; lit "#@$#"; lit "#@%#"; lit "#@#"; lit "##";
   lit "#$#"; lit "#%#"; lit "$@$"; lit "$$"].

(** [find('^')] followed by the two slices is [split_once]. *)
Definition split_domain_and_modifiers (stripped : rstr) : rstr * rstr :=
  match split_once (ch "^") stripped with
  | Some (domain, after_caret) => (domain, default [] (strip_prefix (lit "$") after_caret))
  | None =>
      match split_once (ch "$") stripped with
      | Some (domain, modifiers) => (domain, modifiers)
      | None => (stripped, [])
      end
  end.

(** The key of one modifier: [~] signs and the value after [=] dropped. *)
Definition modifier_key (m : rstr) : rstr :=
  trim (default [] (head (split (ch "=") (trim_start_matches_char (ch "~") m)))).

Definition dns_safe_key (key : rstr) : bool :=
  str_eqb key (lit "important") || str_eqb key (lit "match-case") || str_eqb key (lit "all")
  || (negb (is_empty key) && forallb (fun c => c =? ch "_")%N key)
  || is_empty key.

Fixpoint restricting_modifier_in (raws : list rstr) : option rstr :=
  match raws with
  | [] => None
  | raw :: rest =>
      let m := trim raw in
      if is_empty m then restricting_modifier_in rest
      else let key := modifier_key m in
           if dns_safe_key key then restricting_modifier_in rest else Some key
  end.
Definition restricting_modifier (modifiers : rstr) : option rstr :=
  restricting_modifier_in (split (ch ",") modifiers).

Definition parse_adguard_line (line : rstr) : option ParseDomainLineResult :=
  let?o trimmed := skip_comment_line line in
  if existsb (fun m => contains m trimmed) COSMETIC_MARKERS then Some Skipped
  else
    let '(is_exception, rule) :=
      match strip_prefix (lit "@@") trimmed with
      | Some rest => (true, rest)
      | None => (false, trimmed)
      end in
    match strip_prefix (lit "||") rule with
    | Some stripped =>
        let '(domain_part, modifiers) := split_domain_and_modifiers stripped in
        match restricting_modifier modifiers with
        | Some _ => Some Skipped
        | None =>
            Some (parsed_or_skipped (if (is_exception : bool) then PL_Allow else PL_Block)
                    (normalize_domain_opt domain_part))
        end
    | None =>
        if (is_exception : bool) then Some Skipped
        else
          let wc := without_comment trimmed in
          if is_empty wc then None
          else
            match split_whitespace wc with
            | [] => None
            | first :: rest =>
                let domain := match rest with
                              | d :: _ => if is_ip_like first then d else first
                              | [] => first
                              end in
                Some (parsed_or_skipped PL_Block (normalize_domain_opt domain))
            end
    end.

(** ** hosts.rs *)

Definition parse_hosts_line (line : rstr) : list ParseDomainLineResult :=
  let trimmed := trim line in
  if is_empty trimmed || starts_with (lit "#") trimmed || starts_with (lit "!") trimmed then []
  else
    let wc := without_comment trimmed in
    if is_empty wc then []
    else
      match split_whitespace wc with
      | [] => []
      | first :: parts =>
          let block token := parsed_or_skipped PL_Block (normalize_domain_opt token) in
          if is_ip_like first
          then let results := block <$> parts in
               if is_empty results then [Skipped] else results
          else block first :: (block <$> parts)
      end.

(** ** rpz.rs *)

Definition is_class (t : rstr) : bool :=
  eq_ignore_ascii_case t (lit "IN") || eq_ignore_ascii_case t (lit "CH")
  || eq_ignore_ascii_case t (lit "HS").

(** The loop over [tokens.iter().enumerate().skip(1)]. *)
Fixpoint find_rtype_from (idx : nat) (ts : list rstr) : option nat :=
  match ts with
  | [] => None
  | t :: rest =>
      if forallb is_ascii_digit t then find_rtype_from (S idx) rest
      else if is_class t then find_rtype_from (S idx) rest
      else Some idx
  end.

(** [tokens[0]] panics on an empty slice; the caller passes at least two tokens. *)
Definition find_rtype_index (tokens : list rstr) : option (rstr * nat) :=
  match tokens with
  | [] => None
  | owner :: rest =>
      if str_eqb owner (lit "@") then None
      else let?o idx := find_rtype_from 1 rest in Some (owner, idx)
  end.

Definition parse_rpz_line (line : rstr) : option ParseDomainLineResult :=
  let trimmed := trim line in
  if is_empty trimmed || starts_with (lit ";") trimmed then None
  else if starts_with (lit "$TTL") trimmed || starts_with (lit "$ORIGIN") trimmed
          || starts_with (lit "$INCLUDE") trimmed then None
  else
    let tokens := split_whitespace trimmed in
    if (length tokens <? 2)%nat then Some Skipped
    else
      let?o (owner, rtype_idx) := find_rtype_index tokens in
      let?o rtoken := tokens !! rtype_idx in
      let rtype := to_ascii_uppercase rtoken in
      if str_eqb rtype (lit "SOA") || str_eqb rtype (lit "NS") then None
      else if str_eqb rtype (lit "CNAME") then
        match trim_end_matches_char (ch ".") <$> tokens !! (rtype_idx + 1) with
        | Some target =>
            if str_eqb target [] || str_eqb target (lit ".") || str_eqb target (lit "*")
            then Some (parsed_or_skipped PL_Block (normalize_domain_opt owner))
            else if eq_ignore_ascii_case target (lit "rpz-passthru")
            then Some (parsed_or_skipped PL_Allow (normalize_domain_opt owner))
            else Some (parsed_or_skipped PL_Block (normalize_domain_opt owner))
        | None => Some Skipped
        end
      else if str_eqb rtype (lit "A") || str_eqb rtype (lit "AAAA")
      then Some (parsed_or_skipped PL_Block (normalize_domain_opt owner))
      else Some Skipped.

(** ** domains.rs and wildcard.rs *)

Definition parse_domain_list_line (line : rstr) : option ParseDomainLineResult :=
  let?o trimmed := skip_comment_line line in
  let wc := without_comment trimmed in
  if is_empty wc then None
  else let?o domain := head (split_whitespace wc) in
       Some (parsed_or_skipped PL_Block (normalize_domain_opt domain)).

Definition parse_wildcard_line (line : rstr) : option ParseDomainLineResult :=
  let?o trimmed := skip_comment_line line in
  let wc := without_comment trimmed in
  if is_empty wc then None
  else let?o entry := head (split_whitespace wc) in
       Some (parsed_or_skipped PL_Block (normalize_domain_opt entry)).

(** ** The content of a list: [parse_list_content] of filtering/mod.rs *)

Definition ListAcc : Type := gset rstr * gset rstr * nat.

Definition collect (acc : ListAcc) (r : ParseDomainLineResult) : ListAcc :=
  let '(blocks, exceptions, skipped) := acc in
  match r with
  | Parsed (PL_Block d) => ({[d]} ∪ blocks, exceptions, skipped)
  | Parsed (PL_Allow d) => (blocks, {[d]} ∪ exceptions, skipped)
  | Skipped => (blocks, exceptions, S skipped)
  end.

(** What one line contributes under a format. *)
Definition parse_line (format : ListFormat) (line : rstr) : list ParseDomainLineResult :=
  match format with
  | LF_Adguard => option_list (parse_adguard_line line)
  | LF_Hosts => parse_hosts_line line
  | LF_Rpz => option_list (parse_rpz_line line)
  | LF_Domains => option_list (parse_domain_list_line line)
  | LF_Wildcard => option_list (parse_wildcard_line line)
  end.

Definition parse_list_content (content : rstr) (format : ListFormat) : ListAcc :=
  foldl collect (∅, ∅, 0) (lines content ≫= parse_line format).
End parsers.

(** ** The suffix match *)

(** [entry] covers [domain]: they are equal or [domain] is below [entry]. *)
Definition covers (entry domain : rstr) : Prop :=
  domain = entry \/ exists p, domain = p ++ ch "." :: entry.

Lemma matches_any_from_iff set labels :
  matches_any_from set labels = true
  <-> exists i, i < length labels /\ join (ch ".") (drop i labels) ∈ set.
Proof.
  induction labels as [|l labels IH]; simpl matches_any_from.
  - split; [done|]. intros (i & Hi & _). simpl in Hi. lia.
  - case_bool_decide as Hin.
    + split; [|done]. intros _. exists 0. split; [simpl; lia|done].
    + rewrite IH. split.
      * intros (i & Hi & Hj). exists (S i). simpl. split; [lia|done].
      * intros ([|i] & Hi & Hj); [done|]. exists i. simpl in *. split; [lia|done].
Qed.

Lemma matches_any_covered set domain e :
  e ∈ set -> covers e domain -> matches_any set domain = true.
Proof.
  intros He Hc. unfold matches_any. apply matches_any_from_iff.
  destruct (proj2 (join_drop_split (ch ".") domain e)) as (i & Hi & <-); eauto.
Qed.

Lemma matches_any_inv set domain :
  matches_any set domain = true -> exists e, e ∈ set /\ covers e domain.
Proof.
  unfold matches_any. intros (i & Hi & Hin)%matches_any_from_iff.
  eexists. split; [exact Hin|].
  destruct (proj1 (join_drop_split (ch ".") domain _) (ex_intro _ i (conj Hi eq_refl)))
    as [Heq|[p Hp]]; [by left|right; by exists p].
Qed.

(** C8. The label loop of [matches_any] decides exactly whether some entry of the
    set is the domain itself or one of its parent domains, on label boundaries. *)
Theorem matches_any_iff_covered (set : gset rstr) (domain : rstr) :
  matches_any set domain = true <-> exists e, e ∈ set /\ covers e domain.
Proof.
  split; [apply matches_any_inv|]. intros (e & He & Hc). by eapply matches_any_covered.
Qed.

Lemma matches_any_union s1 s2 domain :
  matches_any (s1 ∪ s2) domain = matches_any s1 domain || matches_any s2 domain.
Proof.
  apply eq_bool_prop_intro. rewrite orb_True. split.
  - intros H%Is_true_true. apply matches_any_inv in H as (e & [He|He]%elem_of_union & Hc);
      [left|right]; apply Is_true_true; eauto using matches_any_covered.
  - intros [H|H]; apply Is_true_true in H; apply Is_true_true;
      apply matches_any_inv in H as (e & He & Hc);
      (eapply matches_any_covered; [|exact Hc]); set_solver.
Qed.

(** ** Normalisation *)

Lemma normalize_domain_suffix s :
  exists t, to_ascii_lowercase (trim_end_matches_char (ch ".") (trim s)) = t ++ normalize_domain s.
Proof. apply trim_start_matches_fuel_suffix. Qed.

Lemma lowercase_app a b : to_ascii_lowercase (a ++ b) = to_ascii_lowercase a ++ to_ascii_lowercase b.
Proof. apply fmap_app. Qed.

Lemma app_suffix_last {A} (t r : list A) x q : t ++ r = q ++ [x] -> r <> [] -> exists r', r = r' ++ [x].
Proof.
  intros Heq Hr. destruct (exists_last Hr) as [r' [y ->]].
  rewrite app_assoc in Heq. apply app_inj_tail in Heq as [_ ->]. by exists r'.
Qed.

(** The last char of a trimmed string is not a dot, and lower case keeps that. *)
Lemma lowercase_last_not_dot s q :
  to_ascii_lowercase (trim_end_matches_char (ch ".") s) <> q ++ [ch "."].
Proof.
  intros Heq. unfold to_ascii_lowercase in Heq.
  apply fmap_app_inv in Heq as (l1 & l2 & Hl1 & Hl2 & Heq).
  destruct l2 as [|x [|]]; try done. simpl in Hl2. simplify_eq.
  pose proof (char_lowercase_eq_low x 46) as Hx. unfold ch in *. simpl in *.
  rewrite Hx in Heq by (lia || congruence).
  apply trim_end_by_last in Heq. done.
Qed.

Lemma normalize_domain_last_not_dot s q : normalize_domain s <> q ++ [ch "."].
Proof.
  intros Hq. destruct (normalize_domain_suffix s) as [t Ht].
  rewrite Hq, app_assoc in Ht. by apply lowercase_last_not_dot in Ht.
Qed.

Lemma normalize_domain_lowercase s : to_ascii_lowercase (normalize_domain s) = normalize_domain s.
Proof.
  destruct (normalize_domain_suffix s) as [t Ht].
  pose proof (f_equal to_ascii_lowercase Ht) as H2.
  rewrite lowercase_idem, Ht, lowercase_app in H2.
  apply app_inj_1 in H2 as [_ ?]; [done|]. unfold to_ascii_lowercase. by rewrite length_fmap.
Qed.

Lemma normalize_domain_no_star s : strip_prefix (lit "*.") (normalize_domain s) = None.
Proof. by apply trim_start_matches_done. Qed.

Lemma trim_end_matches_fixed c s :
  (forall q, s <> q ++ [c]) -> trim_end_matches_char c s = s.
Proof.
  intros H. destruct s as [|x s] using rev_ind; [done|].
  apply trim_end_by_id_last. apply N.eqb_neq. intros ->. by apply (H s).
Qed.

(** A string without blanks, in lower case, that neither ends in a dot nor starts
    with a wildcard label is its own normal form. *)
Lemma normalize_domain_fixed s :
  no_whitespace s -> to_ascii_lowercase s = s -> (forall q, s <> q ++ [ch "."]) ->
  strip_prefix (lit "*.") s = None -> normalize_domain s = s.
Proof.
  intros Hws Hlc Hdot Hstar. unfold normalize_domain.
  rewrite trim_no_whitespace, trim_end_matches_fixed, Hlc by done.
  by apply trim_start_matches_fixed.
Qed.

Lemma normalize_domain_idem s :
  no_whitespace (normalize_domain s) -> normalize_domain (normalize_domain s) = normalize_domain s.
Proof.
  intros Hws. apply normalize_domain_fixed; [done| | |].
  - apply normalize_domain_lowercase.
  - apply normalize_domain_last_not_dot.
  - apply normalize_domain_no_star.
Qed.

(** ** What the parsers produce *)

Section parser_facts.
Context `{DnsName}.

(** The texts that end up in a filter list: normal forms of valid names. *)
Definition listed (d : rstr) : Prop :=
  d <> [] /\ normalize_domain d = d /\ no_whitespace d /\ is_ok (name_from_ascii d) = true.

Definition line_domain (r : ParseDomainLineResult) : option rstr :=
  match r with
  | Parsed (PL_Block d) | Parsed (PL_Allow d) => Some d
  | Skipped => None
  end.

Lemma normalize_domain_opt_listed `{!NameLaws} input d :
  normalize_domain_opt input = Some d -> listed d.
Proof.
  unfold normalize_domain_opt. destruct (is_empty _) eqn:He; [done|].
  destruct (name_from_ascii _) as [n|] eqn:Hn; [|done]. intros [= <-].
  assert (no_whitespace (normalize_domain input)) by by eapply from_ascii_no_whitespace.
  split; [by destruct (normalize_domain input)|].
  split; [by apply normalize_domain_idem|]. split; [done|]. by rewrite Hn.
Qed.

(** Every result of a line is either a skip or the outcome of the normalisation. *)
Definition from_normalize (r : ParseDomainLineResult) : Prop :=
  r = Skipped \/ exists k x, (k = PL_Block \/ k = PL_Allow)
                             /\ r = parsed_or_skipped k (normalize_domain_opt x).

Lemma from_normalize_skipped : from_normalize Skipped.
Proof. by left. Qed.
Lemma from_normalize_block x : from_normalize (parsed_or_skipped PL_Block (normalize_domain_opt x)).
Proof. right. eauto. Qed.
Lemma from_normalize_allow x : from_normalize (parsed_or_skipped PL_Allow (normalize_domain_opt x)).
Proof. right. eauto. Qed.
#[local] Hint Resolve from_normalize_skipped from_normalize_block from_normalize_allow : rust.

Lemma parse_adguard_line_from line r : parse_adguard_line line = Some r -> from_normalize r.
Proof.
  unfold parse_adguard_line. intros Hr.
  repeat (case_match; simplify_eq; auto with rust).
Qed.

Lemma parse_rpz_line_from line r : parse_rpz_line line = Some r -> from_normalize r.
Proof.
  unfold parse_rpz_line. intros Hr. repeat (case_match; simplify_eq; auto with rust).
Qed.

Lemma parse_domain_list_line_from line r : parse_domain_list_line line = Some r -> from_normalize r.
Proof.
  unfold parse_domain_list_line. intros Hr. repeat (case_match; simplify_eq; auto with rust).
Qed.

Lemma parse_hosts_line_from line : Forall from_normalize (parse_hosts_line line).
Proof.
  assert (forall l, Forall from_normalize
    ((fun t => parsed_or_skipped PL_Block (normalize_domain_opt t)) <$> l)) as Hb.
  { intros l. apply Forall_fmap, Forall_true. intros. apply from_normalize_block. }
  unfold parse_hosts_line. repeat case_match;
    repeat first [apply Hb | apply Forall_nil_2 | apply Forall_cons_2]; auto with rust.
Qed.

Lemma parse_line_from format line : Forall from_normalize (parse_line format line).
Proof.
  assert (forall o : option ParseDomainLineResult,
    (forall r, o = Some r -> from_normalize r) -> Forall from_normalize (option_list o)) as Ho.
  { intros [r|] Hr; simpl; [|done]. apply Forall_singleton. by apply Hr. }
  destruct format; simpl; try apply Ho.
  - apply parse_adguard_line_from.
  - apply parse_hosts_line_from.
  - apply parse_rpz_line_from.
  - apply parse_domain_list_line_from.
  - apply parse_domain_list_line_from.
Qed.

(** Whatever line is fed to whichever list format, each domain it contributes is
    a non-empty valid name in normal form: lower case, no blank, no trailing dot, no
    leading wildcard label. *)
Theorem parsed_domains_are_listed `{!NameLaws} (format : ListFormat) (line : rstr)
    (r : ParseDomainLineResult) (d : rstr) :
  r ∈ parse_line format line -> line_domain r = Some d -> listed d.
Proof.
  intros Hr Hd. pose proof (parse_line_from format line) as Hall.
  rewrite Forall_forall in Hall. destruct (Hall r Hr) as [->|(k & x & Hk & ->)]; [done|].
  destruct (normalize_domain_opt x) as [d'|] eqn:Hx; [|done].
  assert (d' = d) as -> by (destruct Hk; by simplify_eq/=).
  by eapply normalize_domain_opt_listed.
Qed.

(** ** The content of a list *)

Definition blocks_of (rs : list ParseDomainLineResult) : gset rstr :=
  list_to_set (omap (fun r => match r with Parsed (PL_Block d) => Some d | _ => None end) rs).
Definition exceptions_of (rs : list ParseDomainLineResult) : gset rstr :=
  list_to_set (omap (fun r => match r with Parsed (PL_Allow d) => Some d | _ => None end) rs).
Definition skips_of (rs : list ParseDomainLineResult) : nat :=
  length (omap (fun r => match r with Skipped => Some tt | _ => None end) rs).

Lemma foldl_collect rs blocks exceptions skipped :
  foldl collect (blocks, exceptions, skipped) rs
  = (blocks_of rs ∪ blocks, exceptions_of rs ∪ exceptions, skips_of rs + skipped).
Proof.
  revert blocks exceptions skipped.
  induction rs as [|[[d|d]|] rs IH]; intros b e n; simpl; rewrite ?IH;
    unfold blocks_of, exceptions_of, skips_of; simpl;
    apply (f_equal3 (fun a b c => (a, b, c))); first [lia | set_solver].
Qed.

Lemma elem_of_blocks_of d rs : d ∈ blocks_of rs <-> Parsed (PL_Block d) ∈ rs.
Proof.
  unfold blocks_of. rewrite elem_of_list_to_set, list_elem_of_omap. split.
  - intros ([[|]|] & Hx & Heq); by simplify_eq.
  - intros Hx. by exists (Parsed (PL_Block d)).
Qed.

Lemma elem_of_exceptions_of d rs : d ∈ exceptions_of rs <-> Parsed (PL_Allow d) ∈ rs.
Proof.
  unfold exceptions_of. rewrite elem_of_list_to_set, list_elem_of_omap. split.
  - intros ([[|]|] & Hx & Heq); by simplify_eq.
  - intros Hx. by exists (Parsed (PL_Allow d)).
Qed.

End parser_facts.

(** ** Witnesses *)

Lemma parsed_domains_are_listed_witness : listed (H := text_names) (lit "ads.example.com").
Proof.
  apply (@parsed_domains_are_listed text_names text_names_laws LF_Hosts
    (lit "0.0.0.0 ADS.Example.com. # tracker") (Parsed (PL_Block (lit "ads.example.com")))).
  - vm_compute. apply list_elem_of_singleton. reflexivity.
  - reflexivity.
Defined.
