(* ===== verification/ListGrammar.v ===== *)
(** * The grammar of filter lists

    What a list is meant to say, written down independently of the parsers of
    [use_cases/filtering/]: the spellings of a domain, the lines of each format with
    the rules they stand for, and the document a list of lines makes. The theorem of
    this file is that [parse_list_content] reads such a document exactly. *)

From S2P Require Import Prelude RustStr RustNet Hickory ListParsers.

(** ** Texts *)

Lemma drop_while_keeps {A} (p : A -> bool) l c k :
  p c = false -> exists l', drop_while p (l ++ c :: k) = l' ++ c :: k.
Proof.
  intros Hc. induction l as [|x l IH]; cbn [drop_while app].
  - exists []. by rewrite Hc.
  - destruct (p x); [exact IH|]. by exists (x :: l).
Qed.

(** Trimming keeps everything up to a character that is not blank. *)
Lemma trim_keeps c0 r c t :
  is_whitespace c0 = false -> is_whitespace c = false ->
  exists t', trim (c0 :: r ++ c :: t) = c0 :: r ++ c :: t'.
Proof.
  intros H0 Hc. unfold trim, trim_start_by. cbn [drop_while]. rewrite H0. unfold trim_end_by.
  assert (reverse (c0 :: r ++ c :: t) = reverse t ++ c :: reverse (c0 :: r)) as ->.
  { by rewrite app_comm_cons, reverse_app, reverse_cons, <- app_assoc. }
  destruct (drop_while_keeps is_whitespace (reverse t) c (reverse (c0 :: r)) Hc) as [l' ->].
  exists (reverse l'). by rewrite reverse_app, reverse_cons, reverse_involutive, <- app_assoc.
Qed.

Lemma trim_head c t : is_whitespace c = false -> exists t', trim (c :: t) = c :: t'.
Proof.
  intros Hc. unfold trim, trim_start_by. cbn [drop_while]. rewrite Hc. unfold trim_end_by.
  rewrite reverse_cons. destruct (drop_while_keeps is_whitespace (reverse t) c [] Hc) as [l' ->].
  exists (reverse l'). by rewrite reverse_app.
Qed.

Lemma starts_with_head p s c r : s = c :: r -> p <> c -> forall rest, starts_with (p :: rest) s = false.
Proof.
  intros -> Hne rest. unfold starts_with. cbn [strip_prefix]. by destruct (N.eqb_spec p c).
Qed.

Lemma split_whitespace_join ds :
  Forall (fun d => no_whitespace d /\ d <> []) ds -> split_whitespace (join (ch " ") ds) = ds.
Proof.
  induction 1 as [|d ds [Hw Hne] Hds IH]; [done|]. destruct ds as [|d' ds].
  - by apply split_whitespace_single.
  - change (join (ch " ") (d :: d' :: ds)) with (d ++ ch " " :: join (ch " ") (d' :: ds)).
    rewrite split_whitespace_app by done. by rewrite IH.
Qed.

Lemma join_solid ds : ds <> [] -> Forall solid ds -> solid (join (ch " ") ds).
Proof.
  intros Hne Hall. induction Hall as [|d ds Hd Hds IH]; [done|]. destruct ds as [|d' ds]; [done|].
  change (join (ch " ") (d :: d' :: ds)) with (d ++ [ch " "] ++ join (ch " ") (d' :: ds)).
  apply solid_wrap; [done|by apply IH].
Qed.

Lemma join_not_elem c sep ds : c <> sep -> Forall (fun d => c ∉ d) ds -> c ∉ join sep ds.
Proof.
  intros Hc Hall. induction Hall as [|d ds Hd Hds IH]; [apply not_elem_of_nil|].
  destruct ds as [|d' ds]; [done|].
  change (join sep (d :: d' :: ds)) with (d ++ sep :: join sep (d' :: ds)).
  rewrite not_elem_of_app, not_elem_of_cons. auto.
Qed.

Lemma join_cons sep p ps : exists t, join sep (p :: ps) = p ++ t.
Proof. destruct ps as [|q ps]; [exists []; by rewrite app_nil_r|]. by eexists. Qed.

(** ** Documents *)

(** A text that is one line of a file. *)
Definition single_line (l : rstr) : Prop := 10%N ∉ l /\ forall q, l <> q ++ [13%N].

(** The file with the given lines, each ended by a line feed or by CR LF. *)
Definition document (crlf : bool) (ls : list rstr) : rstr :=
  ls ≫= fun l => l ++ (if crlf then [13%N; 10%N] else [10%N]).

Lemma lines_aux_line cur l rest :
  10%N ∉ l ->
  lines_aux cur (l ++ 10%N :: rest)
  = reverse (match reverse l ++ cur with 13%N :: cur' => cur' | _ => reverse l ++ cur end)
    :: lines_aux [] rest.
Proof.
  revert cur. induction l as [|c l IH]; intros cur Hl; [done|].
  apply not_elem_of_cons in Hl as [Hc Hl]. cbn [lines_aux app].
  destruct (N.eqb_spec c 10) as [->|_]; [done|]. rewrite IH by done.
  by rewrite reverse_cons, <- app_assoc.
Qed.

Lemma lines_document crlf ls : Forall single_line ls -> lines (document crlf ls) = ls.
Proof.
  unfold lines, document. induction 1 as [|l ls [Hn Hr] Hls IH]; [done|].
  rewrite bind_cons, <- app_assoc. destruct crlf.
  - change ([13%N; 10%N] ++ ?r) with ([13%N] ++ 10%N :: r). rewrite app_assoc, lines_aux_line.
    + rewrite app_nil_r, reverse_app. change (reverse [13%N]) with [13%N]. cbn [app].
      by rewrite reverse_involutive, IH.
    + rewrite not_elem_of_app, list_elem_of_singleton. done.
  - cbn [app]. rewrite lines_aux_line, app_nil_r by done. rewrite IH. f_equal.
    destruct (reverse l) as [|c q] eqn:Heq; [by rewrite <- (reverse_involutive l), Heq|].
    assert (l = reverse q ++ [c]) as -> by (by rewrite <- reverse_cons, <- Heq, reverse_involutive).
    assert (c <> 13%N) by (intros ->; by apply (Hr (reverse q))).
    rewrite <- reverse_cons. repeat (case_match; try done).
Qed.

(** ** Domains and their spellings *)

Section grammar.
Context `{DnsName}.

(** A host name in lower case that the name parser accepts. *)
Definition host (d : rstr) : Prop :=
  d <> [] /\ Forall (fun c => is_ldh c = true) d /\ (forall q, d <> q ++ [ch "."])
  /\ is_ok (name_from_ascii d) = true.

(** [s] is a way to write the host [d] in a list: in any case, with or without a
    final dot, with or without a wildcard label in front. *)
Definition spells (s d : rstr) : Prop :=
  host d /\ exists star u dot, s = star ++ u ++ dot /\ to_ascii_lowercase u = d
                               /\ (star = [] \/ star = lit "*.") /\ (dot = [] \/ dot = lit ".").

(** The characters of such a text. *)
Definition name_char (c : rchar) : bool := is_ldh c || is_ascii_uppercase c || (c =? ch "*")%N.

Lemma name_char_not_whitespace c : name_char c = true -> is_whitespace c = false.
Proof.
  unfold name_char, is_ldh, is_ascii_digit, is_ascii_lowercase, is_ascii_uppercase, is_whitespace, in_range.
  change (ch "*") with 42%N. lia.
Qed.

Lemma lowercase_name_char u : Forall (fun c => is_ldh c = true) (to_ascii_lowercase u) ->
  Forall (fun c => name_char c = true) u.
Proof.
  unfold to_ascii_lowercase. rewrite Forall_fmap. intros Hu. eapply Forall_impl; [exact Hu|]. intros c.
  unfold compose, name_char, char_to_ascii_lowercase. by destruct (is_ascii_uppercase c) eqn:Hc;
    rewrite ?orb_true_r; [|intros ->].
Qed.

Lemma spells_chars s d : spells s d -> s <> [] /\ Forall (fun c => name_char c = true) s.
Proof.
  intros [(Hne & Hl & _) (star & u & dot & -> & <- & Hs & Hd)]. split.
  - destruct u; [done|]. by destruct Hs as [->| ->].
  - rewrite !Forall_app. split_and!; [|by apply lowercase_name_char|].
    + destruct Hs as [->| ->]; by repeat constructor.
    + destruct Hd as [->| ->]; by repeat constructor.
Qed.

Lemma spells_not_elem c s d : spells s d -> name_char c = false -> c ∉ s.
Proof.
  intros [_ Hall]%spells_chars Hc Hin. rewrite Forall_forall in Hall. apply Hall in Hin. congruence.
Qed.

Lemma spells_cons s d : spells s d -> exists c r, s = c :: r /\ name_char c = true.
Proof. intros [Hne Hall]%spells_chars. destruct Hall as [|c r]; [done|]. by exists c, r. Qed.

Lemma spells_token s d : spells s d -> no_whitespace s /\ s <> [].
Proof.
  intros [Hne Hall]%spells_chars. split; [|done]. eapply Forall_impl; [exact Hall|].
  apply name_char_not_whitespace.
Qed.

Lemma spells_solid s d : spells s d -> solid s.
Proof. intros [??]%spells_token. by apply solid_no_whitespace. Qed.

Lemma host_no_star d : host d -> strip_prefix (lit "*.") d = None.
Proof.
  intros (_ & Hl & _). destruct (strip_prefix _ d) as [r|] eqn:Hr; [|done].
  apply strip_prefix_Some in Hr. exfalso.
  apply (ldh_not_elem 42 d is_ldh_star Hl). rewrite Hr. apply list_elem_of_here.
Qed.

(** The final dot of a spelling is trimmed, and nothing else. *)
Lemma spells_trim_end star u dot d :
  host d -> to_ascii_lowercase u = d -> dot = [] \/ dot = lit "." ->
  trim_end_matches_char (ch ".") (star ++ u ++ dot) = star ++ u.
Proof.
  intros (Hne & _ & Hend & _) Hu Hdot.
  assert (trim_end_matches_char (ch ".") (star ++ u) = star ++ u) as Hfix.
  { destruct u as [|c u _] using rev_ind; [by subst d|]. rewrite app_assoc.
    apply trim_end_by_id_last, N.eqb_neq. intros ->. apply (Hend (to_ascii_lowercase u)).
    by rewrite <- Hu, lowercase_app. }
  destruct Hdot as [->| ->]; [by rewrite app_nil_r|]. change (lit ".") with [ch "."].
  rewrite app_assoc. unfold trim_end_matches_char in *. by rewrite trim_end_by_snoc.
Qed.

Lemma spells_normalize s d : spells s d -> normalize_domain_opt s = Some d.
Proof.
  intros Hs. assert (normalize_domain s = d) as Hn.
  { unfold normalize_domain. rewrite trim_solid by (by eapply spells_solid).
    destruct Hs as [Hd (star & u & dot & -> & Hu & Hstar & Hdot)].
    rewrite (spells_trim_end star u dot d Hd Hu Hdot), lowercase_app, Hu.
    unfold trim_start_matches. destruct Hstar as [->| ->].
    - change (to_ascii_lowercase [] ++ d) with d. by apply trim_start_matches_fixed, host_no_star.
    - change (to_ascii_lowercase (lit "*.")) with (lit "*.").
      change (length (lit "*." ++ d)) with (S (S (length d))).
      cbn [trim_start_matches_fuel]. by rewrite strip_prefix_app, (host_no_star d Hd). }
  unfold normalize_domain_opt. rewrite Hn. destruct Hs as [(Hne & _ & _ & Hok) _].
  destruct d; [done|]. simpl. by destruct (name_from_ascii _).
Qed.

(** ** Lines with an inline comment *)

(** What may follow an entry: nothing, or a comment. *)
Inductive remark : rstr -> Prop :=
| remark_none : remark []
| remark_text text : remark (lit " #" ++ text).

Lemma without_comment_remark s tail :
  ch "#" ∉ s -> solid s -> remark tail ->
  exists c r, s = c :: r /\ is_whitespace c = false
              /\ exists r', trim (s ++ tail) = c :: r' /\ without_comment (trim (s ++ tail)) = s.
Proof.
  intros Hc Hs Hr. pose proof Hs as [(c & r & -> & Hw) _]. exists c, r. split_and!; [done..|].
  destruct Hr as [|text].
  - rewrite app_nil_r, trim_solid by done. exists r. split; [done|].
    unfold without_comment. rewrite split_no_sep by done. by apply trim_solid.
  - change ((c :: r) ++ lit " #" ++ text) with (c :: r ++ ch " " :: ch "#" :: text).
    change (c :: r ++ ch " " :: ch "#" :: text) with (c :: r ++ [ch " "] ++ ch "#" :: text).
    rewrite app_assoc. destruct (trim_keeps c (r ++ [ch " "]) (ch "#") text Hw eq_refl) as [t' ->].
    eexists. split; [done|]. unfold without_comment.
    rewrite app_comm_cons, split_app_char, split_no_sep.
    + cbn [app head default from_option]. unfold id, trim, trim_start_by.
      cbn [drop_while app]. rewrite Hw, app_comm_cons, trim_end_by_snoc by done.
      destruct Hs as [_ (q & d & -> & Hd)]. by apply trim_end_by_id_last.
    + rewrite app_comm_cons, not_elem_of_app, list_elem_of_singleton. done.
Qed.

(** A line whose entries are followed by an optional comment. *)
Lemma skip_comment_entry toks tail c r :
  toks = c :: r -> ch "#" ∉ toks -> c <> ch "!" -> solid toks -> remark tail ->
  exists t, skip_comment_line (toks ++ tail) = Some t /\ t = trim (toks ++ tail)
            /\ without_comment t = toks.
Proof.
  intros Heq Hh Hb Hs Hr.
  destruct (without_comment_remark toks tail Hh Hs Hr) as (c' & r0 & Heq' & Hw & r' & Ht & Hwc).
  rewrite Heq in Heq'. injection Heq' as <- <-. exists (trim (toks ++ tail)). split_and!; [|done..].
  unfold skip_comment_line. rewrite Ht. change (lit "#") with [ch "#"]. change (lit "!") with [ch "!"].
  rewrite !(starts_with_head _ _ c r') by (try done; intros <-; apply Hh; rewrite Heq; left).
  done.
Qed.

Lemma name_char_head c : name_char c = true -> c <> ch "!" /\ c <> ch "#" /\ c <> ch ";" /\ c <> ch "$"
  /\ c <> ch "@" /\ c <> ch "|".
Proof. intros Hc. split_and!; by intros ->. Qed.

Lemma domain_list_entry s d tail :
  spells s d -> remark tail -> parse_domain_list_line (s ++ tail) = Some (Parsed (PL_Block d)).
Proof.
  intros Hs Hr. destruct (spells_cons s d Hs) as (c & r & Heq & Hc%name_char_head).
  destruct (skip_comment_entry s tail c r Heq) as (t & Hsk & _ & Hwc);
    [by eapply spells_not_elem|by destruct Hc|by eapply spells_solid|done|].
  unfold parse_domain_list_line. rewrite Hsk. cbn. rewrite Hwc.
  assert (is_empty s = false) as -> by by rewrite Heq.
  destruct (spells_token s d Hs). rewrite split_whitespace_single by done. cbn [head base.mbind option_bind].
  by rewrite (spells_normalize s d Hs).
Qed.

Lemma wildcard_entry s d tail :
  spells s d -> remark tail -> parse_wildcard_line (s ++ tail) = Some (Parsed (PL_Block d)).
Proof. apply domain_list_entry. Qed.

(** ** Hosts files *)

(** The addresses blocklists of this format give. *)
Definition sink_addresses : list rstr :=
  [lit "0.0.0.0"; lit "127.0.0.1"; lit "::"; lit "::1"].

Lemma sink_address ip :
  ip ∈ sink_addresses -> is_ip_like ip = true /\ no_whitespace ip /\ ip <> [] /\ ch "#" ∉ ip
  /\ exists c r, ip = c :: r /\ c <> ch "!" /\ c <> ch "#" /\ c <> ch "@" /\ c <> ch "|".
Proof.
  unfold sink_addresses. rewrite !elem_of_cons. intros Hip.
  repeat destruct Hip as [->|Hip]; try (by apply not_elem_of_nil in Hip);
    (split_and!; [done|by repeat constructor|done|vm_compute; set_solver|by eexists _, _]).
Qed.

Lemma hosts_tokens first parts tail :
  Forall (fun t => no_whitespace t /\ t <> [] /\ ch "#" ∉ t) (first :: parts) ->
  (forall r, first <> ch "!" :: r) -> remark tail ->
  parse_hosts_line (join (ch " ") (first :: parts) ++ tail)
  = (let block token := parsed_or_skipped PL_Block (normalize_domain_opt token) in
     if is_ip_like first
     then let results := block <$> parts in if is_empty results then [Skipped] else results
     else block first :: (block <$> parts)).
Proof.
  intros Hall Hb Hr. set (toks := first :: parts) in *.
  assert (solid (join (ch " ") toks)) as Hs.
  { apply join_solid; [done|]. eapply Forall_impl; [exact Hall|]. intros t (? & ? & _). by apply solid_no_whitespace. }
  assert (ch "#" ∉ join (ch " ") toks) as Hh.
  { apply join_not_elem; [done|]. eapply Forall_impl; [exact Hall|]. by intros t (_ & _ & ?). }
  destruct (join_cons (ch " ") first parts) as [jt Hjt]. fold toks in Hjt.
  destruct (without_comment_remark _ tail Hh Hs Hr) as (c & r & Heq & Hw & r' & Ht & Hwc).
  unfold parse_hosts_line. rewrite Hwc, Ht.
  change (lit "#") with [ch "#"]. change (lit "!") with [ch "!"].
  rewrite !(starts_with_head _ _ c r'); [|done| |done|].
  - cbn [is_empty orb]. rewrite Heq at 1. cbn [is_empty].
    rewrite split_whitespace_join; [done|]. eapply Forall_impl; [exact Hall|]. by intros t (? & ? & _).
  - intros <-. apply (Forall_inv) in Hall as (_ & Hf & _). destruct first as [|c1 f1]; [done|].
    rewrite Hjt in Heq. injection Heq as -> _. by apply (Hb f1).
  - intros <-. apply Hh. rewrite Heq. left.
Qed.

Lemma spells_hosts_token s d : spells s d -> no_whitespace s /\ s <> [] /\ ch "#" ∉ s.
Proof. intros Hs. destruct (spells_token s d Hs). split_and!; [done..|]. by eapply spells_not_elem. Qed.

Lemma spell_tokens ss ds :
  Forall2 spells ss ds -> Forall (fun t => no_whitespace t /\ t <> [] /\ ch "#" ∉ t) ss.
Proof. induction 1; constructor; [by eapply spells_hosts_token|done]. Qed.

Lemma spells_blocks ss ds :
  Forall2 spells ss ds ->
  (fun t => parsed_or_skipped PL_Block (normalize_domain_opt t)) <$> ss
  = (fun d => Parsed (PL_Block d)) <$> ds.
Proof. induction 1 as [|s d ss ds Hs Hss IH]; [done|]. csimpl. by rewrite (spells_normalize s d Hs), IH. Qed.

(** Every name after the address is blocked, not only the first. *)
Lemma hosts_entry ip ss ds tail :
  ip ∈ sink_addresses -> Forall2 spells ss ds -> remark tail ->
  parse_hosts_line (join (ch " ") (ip :: ss) ++ tail)
  = match ds with [] => [Skipped] | _ => (fun d => Parsed (PL_Block d)) <$> ds end.
Proof.
  intros Hip Hss Hr. destruct (sink_address ip Hip) as (Hi & Hw & Hne & Hh & c & r & Heq & Hb & _).
  rewrite hosts_tokens; [|constructor; [done|by eapply spell_tokens]|intros r' Hr'; by simplify_eq|done].
  cbv zeta. rewrite Hi, (spells_blocks ss ds Hss). by destruct ds.
Qed.

Lemma hosts_names ss ds s d tail :
  spells s d -> is_ip_like s = false -> Forall2 spells ss ds -> remark tail ->
  parse_hosts_line (join (ch " ") (s :: ss) ++ tail) = (fun d => Parsed (PL_Block d)) <$> d :: ds.
Proof.
  intros Hs Hi Hss Hr. rewrite hosts_tokens; [| |intros r' ->|done].
  - cbv zeta. rewrite Hi, (spells_blocks ss ds Hss), (spells_normalize s d Hs). done.
  - constructor; [by eapply spells_hosts_token|by eapply spell_tokens].
  - destruct (spells_cons _ _ Hs) as (c & r & [= <- _] & Hc). by destruct (name_char_head _ Hc).
Qed.

(** ** AdGuard rules *)

(** A modifier as it is written: a key, inverted by a tilde or not, with an optional
    value. *)
Record Modifier : Type := { md_inverted : bool; md_key : rstr; md_value : option rstr }.

Definition modifier_text (m : Modifier) : rstr :=
  (if md_inverted m then lit "~" else []) ++ md_key m
  ++ match md_value m with Some v => lit "=" ++ v | None => [] end.

Definition modifier_wf (m : Modifier) : Prop :=
  md_key m <> [] /\ Forall (fun c => is_ldh c = true) (md_key m)
  /\ Forall (fun c => is_ldh c = true) (default [] (md_value m)).

(** Modifiers that do not narrow a rule for DNS: [important], [match-case], [all]
    and the no-op modifier made of underscores. *)
Definition dns_safe (m : Modifier) : bool :=
  bool_decide (md_key m ∈ [lit "important"; lit "match-case"; lit "all"]
               \/ Forall (fun c => c = ch "_") (md_key m)).

Definition network_rule (exception caret : bool) (s : rstr) (mods : list Modifier) : rstr :=
  (if exception then lit "@@" else []) ++ lit "||" ++ s ++ (if caret then lit "^" else [])
  ++ match mods with [] => [] | _ => lit "$" ++ join (ch ",") (modifier_text <$> mods) end.

Lemma modifier_text_chars m c :
  modifier_wf m -> is_ldh c = false -> c <> ch "~" -> c <> ch "=" -> c ∉ modifier_text m.
Proof.
  intros (_ & Hk & Hv) Hc Ht He. unfold modifier_text. rewrite !not_elem_of_app. split_and!.
  - destruct (md_inverted m); [by apply not_elem_of_cons; split; [|apply not_elem_of_nil]|apply not_elem_of_nil].
  - by eapply ldh_not_elem.
  - destruct (md_value m) as [v|]; [|apply not_elem_of_nil]. apply not_elem_of_cons.
    split; [done|]. by eapply ldh_not_elem.
Qed.

Lemma modifier_text_no_whitespace m : modifier_wf m -> no_whitespace (modifier_text m) /\ modifier_text m <> [].
Proof.
  intros Hm. pose proof Hm as (Hne & _). split.
  - apply Forall_forall. intros c Hc. destruct (is_whitespace c) eqn:Hw; [|done]. exfalso.
    apply (modifier_text_chars m c Hm); [|by intros ->..|done].
    destruct (is_ldh c) eqn:Hl; [|done]. apply ldh_not_whitespace in Hl. congruence.
  - unfold modifier_text. intros Hnil. destruct (md_key m); [done|]. by destruct (md_inverted m).
Qed.

Lemma modifier_key_text m : modifier_wf m -> modifier_key (modifier_text m) = md_key m.
Proof.
  intros (Hne & Hk & Hv). unfold modifier_key, modifier_text. destruct m as [inv k v]. simpl in *.
  assert (forall rest, trim_start_matches_char (ch "~") ((if inv then lit "~" else []) ++ k ++ rest) = k ++ rest) as ->.
  { intros rest. destruct Hk as [|c k Hc Hk]; [done|].
    assert ((c =? ch "~")%N = false) as Hct by (apply N.eqb_neq; by intros ->).
    destruct inv; unfold trim_start_matches_char, trim_start_by; cbn [app drop_while];
      [change (lit "~" ++ ?l) with (ch "~" :: l); cbn [drop_while]; rewrite N.eqb_refl|];
      by rewrite Hct. }
  assert (trim k = k) as Htrim.
  { apply trim_no_whitespace. eapply Forall_impl; [exact Hk|]. apply ldh_not_whitespace. }
  assert (ch "=" ∉ k) by by eapply ldh_not_elem.
  destruct v as [v|]; [change (lit "=" ++ v) with (ch "=" :: v); rewrite split_app_char|rewrite app_nil_r];
    rewrite (split_no_sep _ k) by done; exact Htrim.
Qed.

Lemma dns_safe_key_text m : modifier_wf m -> dns_safe_key (md_key m) = dns_safe m.
Proof.
  intros (Hne & _). apply eq_bool_prop_intro. unfold dns_safe, dns_safe_key, str_eqb.
  rewrite bool_decide_spec, !orb_True, andb_True, negb_True, !bool_decide_spec, !elem_of_cons.
  assert (Is_true (forallb (fun c => c =? ch "_")%N (md_key m)) <-> Forall (fun c => c = ch "_") (md_key m)) as ->.
  { rewrite Is_true_true, List.forallb_forall, Forall_forall.
    setoid_rewrite N.eqb_eq. by setoid_rewrite list_elem_of_In. }
  assert (~ Is_true (is_empty (md_key m))) by (by destruct (md_key m); [|intros []]).
  pose proof (not_elem_of_nil (md_key m)). tauto.
Qed.

Definition modifiers_text (mods : list Modifier) : rstr := join (ch ",") (modifier_text <$> mods).

Lemma modifiers_text_chars mods c :
  Forall modifier_wf mods -> is_ldh c = false -> c <> ch "~" -> c <> ch "=" -> c <> ch "," ->
  c ∉ modifiers_text mods.
Proof.
  intros Hm Hc Ht He Hcomma. apply join_not_elem; [done|]. apply Forall_fmap.
  eapply Forall_impl; [exact Hm|]. intros m Hwf. by apply modifier_text_chars.
Qed.

(** The code's scan of the modifiers stops exactly at one that is not DNS-safe. *)
Lemma restricting_modifiers_text mods :
  Forall modifier_wf mods ->
  restricting_modifier (modifiers_text mods) = None <-> forallb dns_safe mods = true.
Proof.
  intros Hm. unfold restricting_modifier, modifiers_text. destruct mods as [|m0 mods0]; [done|].
  remember (m0 :: mods0) as mods eqn:Hmods. rewrite split_join; [clear Hmods|by subst|].
  - induction Hm as [|m mods Hwf Hm IH]; [done|]. csimpl.
    destruct (modifier_text_no_whitespace m Hwf) as [Hw Hne]. rewrite trim_no_whitespace by done.
    assert (is_empty (modifier_text m) = false) as -> by by destruct (modifier_text m).
    rewrite modifier_key_text, dns_safe_key_text by done. by destruct (dns_safe m).
  - apply Forall_fmap. eapply Forall_impl; [exact Hm|]. intros m Hwf. by apply modifier_text_chars.
Qed.

Lemma split_network_rule caret s d mods :
  spells s d -> Forall modifier_wf mods ->
  split_domain_and_modifiers (s ++ (if caret : bool then lit "^" else [])
    ++ match mods with [] => [] | _ => lit "$" ++ modifiers_text mods end) = (s, modifiers_text mods).
Proof.
  intros Hs Hm. unfold split_domain_and_modifiers.
  assert (ch "^" ∉ s) by by eapply spells_not_elem. assert (ch "$" ∉ s) by by eapply spells_not_elem.
  destruct caret.
  - change (lit "^" ++ ?l) with (ch "^" :: l). rewrite split_once_app by done.
    destruct mods; [done|]. by rewrite strip_prefix_app.
  - cbn [app]. destruct mods as [|m mods]; [by rewrite app_nil_r, !split_once_None by done|].
    change (lit "$" ++ ?l) with (ch "$" :: l). rewrite split_once_None.
    + by rewrite split_once_app by done.
    + apply not_elem_of_app. split; [done|]. apply not_elem_of_cons. split; [done|].
      by apply modifiers_text_chars.
Qed.

(** No cosmetic marker occurs in a text with no hash and at most one dollar sign. *)
Lemma no_cosmetic_marker s :
  ch "#" ∉ s -> length (split (ch "$") s) <= 2 ->
  existsb (fun m => contains m s) COSMETIC_MARKERS = false.
Proof.
  intros Hh Hd. apply not_true_is_false. rewrite List.existsb_exists.
  intros (m & Hm%list_elem_of_In & Hc).
  assert (Forall (fun m => ch "#" ∈ m \/ exists k, m = ch "$" :: k ++ [ch "$"]) COSMETIC_MARKERS) as Hall.
  { repeat (apply Forall_cons_2; [first [left; vm_compute; set_solver
      | right; by exists [] | right; by exists (lit "@")]|]). constructor. }
  rewrite Forall_forall in Hall. destruct (Hall m Hm) as [Hin|[k ->]]; [by eauto using contains_elem|].
  apply contains_iff in Hc as (a & b & ->).
  change (a ++ (ch "$" :: k ++ [ch "$"]) ++ b) with (a ++ ch "$" :: (k ++ [ch "$"]) ++ b) in Hd.
  rewrite <- (app_assoc k) in Hd. change ([ch "$"] ++ b) with (ch "$" :: b) in Hd.
  rewrite !split_app_char, !length_app in Hd.
  pose proof (split_not_nil (ch "$") a). pose proof (split_not_nil (ch "$") k).
  pose proof (split_not_nil (ch "$") b).
  destruct (split _ a), (split _ k), (split _ b); simpl in Hd; try done; lia.
Qed.

Lemma network_rule_chars ex caret s d mods c :
  spells s d -> Forall modifier_wf mods -> name_char c = false ->
  c ∉ lit "@|^$~=," -> c ∉ network_rule ex caret s mods.
Proof.
  intros Hs Hm Hc Hl. assert (is_ldh c = false).
  { unfold name_char in Hc. by destruct (is_ldh c). }
  assert (forall x, x ∈ lit "@|^$~=," -> c <> x) as Hx by (by intros x Hx ->).
  assert (forall l, Forall (fun x => x ∈ lit "@|^$~=,") l -> c ∉ l) as Hlit.
  { intros l Hall Hin. rewrite Forall_forall in Hall. by apply (Hx c); [apply Hall|]. }
  unfold network_rule. fold (modifiers_text mods). rewrite !not_elem_of_app. split_and!.
  - destruct ex; apply Hlit; vm_compute; repeat (constructor; [set_solver|]); constructor.
  - apply Hlit; vm_compute; repeat (constructor; [set_solver|]); constructor.
  - by eapply spells_not_elem.
  - destruct caret; apply Hlit; vm_compute; repeat (constructor; [set_solver|]); constructor.
  - destruct mods as [|m mods]; [apply not_elem_of_nil|]. rewrite not_elem_of_app. split.
    + apply Hlit; vm_compute; repeat (constructor; [set_solver|]); constructor.
    + apply modifiers_text_chars; try done; apply Hx; vm_compute; set_solver.
Qed.

Lemma network_rule_no_whitespace ex caret s d mods :
  spells s d -> Forall modifier_wf mods -> no_whitespace (network_rule ex caret s mods).
Proof.
  intros Hs Hm. apply Forall_forall. intros c Hc. destruct (is_whitespace c) eqn:Hw; [|done]. exfalso.
  apply (network_rule_chars ex caret s d mods c); [done..| | |done].
  - destruct (name_char c) eqn:Hn; [|done]. apply name_char_not_whitespace in Hn. congruence.
  - intros Hin. assert (forallb (fun x => negb (is_whitespace x)) (lit "@|^$~=,") = true) as Hall by done.
    rewrite List.forallb_forall in Hall. apply list_elem_of_In, Hall in Hin. by rewrite Hw in Hin.
Qed.

Lemma network_rule_one_dollar ex caret s d mods :
  spells s d -> Forall modifier_wf mods -> length (split (ch "$") (network_rule ex caret s mods)) <= 2.
Proof.
  intros Hs Hm. unfold network_rule. fold (modifiers_text mods).
  assert (ch "$" ∉ (if ex then lit "@@" else []) ++ lit "||" ++ s ++ (if caret then lit "^" else [])) as Hpre.
  { rewrite !not_elem_of_app. split_and!; [destruct ex; vm_compute; set_solver|vm_compute; set_solver| |
      destruct caret; vm_compute; set_solver]. by eapply spells_not_elem. }
  rewrite !app_assoc in *. destruct mods as [|m mods]; [by rewrite app_nil_r, split_no_sep by done; simpl; lia|].
  change (lit "$" ++ ?l) with (ch "$" :: l).
  rewrite split_app_char, split_no_sep, split_no_sep; [simpl; lia|by apply modifiers_text_chars|done].
Qed.

(** A line that starts with neither a comment sign nor a blank is read as it is. *)
Lemma skip_comment_solid s c r :
  solid s -> s = c :: r -> c <> ch "#" -> c <> ch "!" -> skip_comment_line s = Some s.
Proof.
  intros Hs Heq Hh Hb. unfold skip_comment_line. rewrite trim_solid by done.
  change (lit "#") with [ch "#"]. change (lit "!") with [ch "!"].
  rewrite !(starts_with_head _ s c r) by done. by rewrite Heq.
Qed.

(** A rule blocks (or excepts) its domain unless one of its modifiers narrows it. *)
Lemma adguard_rule (ex caret : bool) s d mods :
  spells s d -> Forall modifier_wf mods ->
  parse_adguard_line (network_rule ex caret s mods)
  = Some (if forallb dns_safe mods then Parsed ((if ex then PL_Allow else PL_Block) d) else Skipped).
Proof.
  intros Hs Hm. set (line := network_rule ex caret s mods). unfold parse_adguard_line.
  assert (skip_comment_line line = Some line) as ->.
  { destruct ex; (eapply skip_comment_solid; [|done|done|done]);
      apply solid_no_whitespace; try done; by eapply network_rule_no_whitespace. }
  cbn [base.mbind option_bind]. rewrite no_cosmetic_marker;
    [|apply (network_rule_chars _ _ _ d); [done..|vm_compute; set_solver]|by eapply network_rule_one_dollar].
  subst line. unfold network_rule. fold (modifiers_text mods).
  assert (forall x, (if forallb dns_safe mods then x else Skipped)
    = match restricting_modifier (modifiers_text mods) with Some _ => Skipped | None => x end) as ->.
  { intros x. pose proof (restricting_modifiers_text mods Hm) as [H1 H2].
    destruct (restricting_modifier _), (forallb _ mods); try done.
    - by specialize (H2 eq_refl).
    - by specialize (H1 eq_refl). }
  destruct ex.
  - rewrite !strip_prefix_app, (split_network_rule caret s d mods Hs Hm), (spells_normalize s d Hs).
    by destruct (restricting_modifier _).
  - rewrite app_nil_l. assert (forall l, strip_prefix (lit "@@") (lit "||" ++ l) = None) as -> by done.
    rewrite strip_prefix_app, (split_network_rule caret s d mods Hs Hm), (spells_normalize s d Hs).
    by destruct (restricting_modifier _).
Qed.

Lemma strip_prefix_head p q s c r : s = c :: r -> p <> c -> strip_prefix (p :: q) s = None.
Proof. intros -> Hne. cbn [strip_prefix]. by destruct (N.eqb_spec p c). Qed.

(** The fallback of the AdGuard format: a plain domain, or a hosts line of one name. *)
Lemma adguard_plain first rest s d :
  spells s d -> match rest with [] => first = s | t :: _ => first ∈ sink_addresses /\ t = s end ->
  length rest <= 1 -> parse_adguard_line (join (ch " ") (first :: rest)) = Some (Parsed (PL_Block d)).
Proof.
  intros Hs Hfirst Hlen. set (toks := first :: rest).
  assert (Forall (fun t => (no_whitespace t /\ t <> []) /\ ch "#" ∉ t) toks
          /\ exists c r, first = c :: r /\ c <> ch "!" /\ c <> ch "#" /\ c <> ch "@" /\ c <> ch "|")
    as [Hall (c & r & Hc & H1 & H2 & H3 & H4)].
  { subst toks. destruct (spells_cons s d Hs) as (c & r & Hc & Hn%name_char_head).
    destruct (spells_hosts_token s d Hs) as (? & ? & ?). destruct rest as [|t [|]]; [| |simpl in *; lia].
    - subst first. split; [by repeat constructor|]. exists c, r. naive_solver.
    - destruct Hfirst as [Hip ->]. destruct (sink_address first Hip) as (_ & ? & ? & ? & ?).
      split; [by repeat constructor|done]. }
  destruct (join_cons (ch " ") first rest) as [jt Hjt]. fold toks in Hjt. rewrite Hc in Hjt.
  assert (solid (join (ch " ") toks)) as Hsol.
  { apply join_solid; [done|]. eapply Forall_impl; [exact Hall|]. intros t [[??] _]. by apply solid_no_whitespace. }
  assert (ch "#" ∉ join (ch " ") toks) as Hh.
  { apply join_not_elem; [done|]. eapply Forall_impl; [exact Hall|]. by intros t [_ ?]. }
  assert (ch "$" ∉ join (ch " ") toks) as Hd.
  { apply join_not_elem; [done|]. subst toks. pose proof (spells_not_elem (ch "$") s d Hs eq_refl).
    destruct rest as [|t [|]]; [by subst; repeat constructor| |simpl in *; lia].
    destruct Hfirst as [Hip ->]. constructor; [|by repeat constructor]. clear -Hip. unfold sink_addresses in Hip.
    rewrite !elem_of_cons in Hip. repeat destruct Hip as [->|Hip]; try (vm_compute; set_solver). }
  unfold parse_adguard_line. rewrite (skip_comment_solid _ c (r ++ jt)) by done. cbn [base.mbind option_bind].
  rewrite no_cosmetic_marker by (try done; rewrite split_no_sep by done; simpl; lia).
  change (lit "@@") with (ch "@" :: lit "@"). change (lit "||") with (ch "|" :: lit "|").
  rewrite !(strip_prefix_head _ _ _ c (r ++ jt)) by done.
  assert (without_comment (join (ch " ") toks) = join (ch " ") toks) as ->.
  { unfold without_comment. rewrite split_no_sep by done. by apply trim_solid. }
  rewrite Hjt at 1. cbn [is_empty app]. rewrite split_whitespace_join.
  2: { eapply Forall_impl; [exact Hall|]. by intros t [? _]. }
  subst toks. destruct rest as [|t rest]; [subst first; by rewrite (spells_normalize s d Hs)|].
  destruct Hfirst as [Hip ->]. destruct (sink_address first Hip) as (-> & _). by rewrite (spells_normalize s d Hs).
Qed.

(** Element hiding ([domain##selector]) says nothing to a DNS filter. *)
Lemma adguard_cosmetic s d selector :
  spells s d -> parse_adguard_line (s ++ lit "##" ++ selector) = Some Skipped.
Proof.
  intros Hs. destruct (spells_cons s d Hs) as (c & r & -> & Hn).
  destruct (name_char_head c Hn) as (H1 & H2 & _).
  change ((c :: r) ++ lit "##" ++ selector) with (c :: r ++ [ch "#"] ++ ch "#" :: selector).
  rewrite (app_assoc r). destruct (trim_keeps c (r ++ [ch "#"]) (ch "#") selector) as [t' Ht];
    [by apply name_char_not_whitespace|done|].
  unfold parse_adguard_line, skip_comment_line. rewrite Ht.
  change (lit "#") with [ch "#"]. change (lit "!") with [ch "!"].
  rewrite !(starts_with_head _ (c :: _) c _ eq_refl) by done. cbn [is_empty orb base.mbind option_bind].
  assert (existsb (fun m => contains m (c :: (r ++ [ch "#"]) ++ ch "#" :: t')) COSMETIC_MARKERS = true) as ->; [|done].
  apply List.existsb_exists. exists (lit "##"). split.
  - apply list_elem_of_In. vm_compute. set_solver.
  - apply contains_iff. exists (c :: r), t'. by rewrite <- app_assoc.
Qed.

(** An exception without the [||] anchor is not applied. *)
Lemma adguard_loose_exception s d : spells s d -> parse_adguard_line (lit "@@" ++ s) = Some Skipped.
Proof.
  intros Hs. destruct (spells_cons s d Hs) as (c & r & Heq & Hn).
  destruct (name_char_head c Hn) as (_ & _ & _ & _ & _ & H4). unfold parse_adguard_line.
  rewrite (skip_comment_solid _ (ch "@") (ch "@" :: s)); [|apply solid_app|done..];
    [|split; [by eexists _, _|by exists (lit "@"), 64%N]|by eapply spells_solid].
  cbn [base.mbind option_bind]. rewrite no_cosmetic_marker.
  - rewrite strip_prefix_app. change (lit "||") with (ch "|" :: lit "|"). by rewrite (strip_prefix_head _ _ _ c r).
  - rewrite not_elem_of_app. split; [vm_compute; set_solver|by eapply spells_not_elem].
  - rewrite split_no_sep; [simpl; lia|]. rewrite not_elem_of_app.
    split; [vm_compute; set_solver|by eapply spells_not_elem].
Qed.

(** ** Comments and blank lines *)

Definition comment_sign (format : ListFormat) (c : rchar) : Prop :=
  match format with
  | LF_Rpz => c = ch ";"
  | _ => c = ch "#" \/ c = ch "!"
  end.

Lemma comment_line format c text : comment_sign format c -> parse_line format (c :: text) = [].
Proof.
  intros Hc. assert (is_whitespace c = false) as Hw 
    by (destruct format; cbn [comment_sign] in Hc; by intuition subst).
  destruct (trim_head c text Hw) as [t' Ht].
  assert (starts_with [c] (c :: t') = true) as Hst.
  { unfold starts_with. cbn [strip_prefix]. by rewrite N.eqb_refl. }
  destruct format; simpl parse_line;
    unfold parse_adguard_line, parse_hosts_line, parse_rpz_line, parse_domain_list_line,
      parse_wildcard_line, skip_comment_line; rewrite Ht; cbn [is_empty orb];
    change (lit "#") with [ch "#"]; change (lit "!") with [ch "!"]; change (lit ";") with [ch ";"];
    cbn [comment_sign] in Hc; destruct_or? Hc; subst c; by rewrite Hst, ?orb_true_r.
Qed.

Lemma blank_line format line : Forall (fun c => is_whitespace c = true) line -> parse_line format line = [].
Proof.
  intros Hw. assert (trim line = []) as Ht.
  { unfold trim, trim_start_by. replace (drop_while is_whitespace line) with (@nil N); [done|].
    induction Hw as [|c line Hc Hw IH]; [done|]. cbn [drop_while]. by rewrite Hc. }
  destruct format; simpl parse_line;
    unfold parse_adguard_line, parse_hosts_line, parse_rpz_line, parse_domain_list_line,
      parse_wildcard_line, skip_comment_line; by rewrite Ht.
Qed.

(** ** Response policy zones *)

Definition token (t : rstr) : Prop := no_whitespace t /\ t <> [].

(** The optional fields between the owner and the type: a TTL and a class. *)
Definition rr_field (t : rstr) : Prop :=
  (exists n, t = display_N n) \/ to_ascii_uppercase t ∈ [lit "IN"; lit "CH"; lit "HS"].

Definition record_types : list rstr :=
  [lit "CNAME"; lit "A"; lit "AAAA"; lit "SOA"; lit "NS"; lit "TXT"].

Lemma uppercase_fold t w :
  to_ascii_uppercase t = w -> eq_ignore_ascii_case t w = str_eqb (to_ascii_lowercase w) (to_ascii_lowercase w).
Proof.
  intros <-. unfold eq_ignore_ascii_case. f_equal. unfold to_ascii_lowercase, to_ascii_uppercase.
  rewrite <- list_fmap_compose. apply list_fmap_ext. intros _ c _.
  unfold compose, char_to_ascii_lowercase, char_to_ascii_uppercase, is_ascii_uppercase, is_ascii_lowercase, in_range.
  repeat case_match; lia.
Qed.

Lemma rr_field_skipped t : rr_field t -> forallb is_ascii_digit t || is_class t = true.
Proof.
  intros [[n ->]|Hin].
  - apply orb_true_iff. left. apply List.forallb_forall. intros c Hc%list_elem_of_In.
    pose proof (display_N_digits n) as Hall. rewrite Forall_forall in Hall. by apply Hall.
  - apply orb_true_iff. right. unfold is_class. rewrite !elem_of_cons in Hin.
    destruct Hin as [Hin|[Hin|[Hin|[]%not_elem_of_nil]]];
      apply uppercase_fold in Hin; rewrite Hin, str_eqb_refl; by rewrite ?orb_true_r.
Qed.

Lemma record_type_found ty :
  ty ∈ record_types -> forallb is_ascii_digit ty = false /\ is_class ty = false /\ to_ascii_uppercase ty = ty
  /\ token ty.
Proof.
  unfold record_types. rewrite !elem_of_cons. intros Hin.
  repeat destruct Hin as [->|Hin]; try (by apply not_elem_of_nil in Hin);
    (split_and!; [done..|split; [by repeat constructor|done]]).
Qed.

Lemma find_rtype_skips idx fields ty rest :
  Forall rr_field fields -> ty ∈ record_types ->
  find_rtype_from idx (fields ++ ty :: rest) = Some (idx + length fields).
Proof.
  intros Hf Hty. destruct (record_type_found ty Hty) as (Hd & Hc & _). revert idx.
  induction Hf as [|t fields Ht Hf IH]; intros idx; cbn [app find_rtype_from length].
  - by rewrite Hd, Hc, Nat.add_0_r.
  - apply rr_field_skipped, orb_true_iff in Ht. rewrite IH, Nat.add_succ_r.
    destruct Ht as [-> | ->]; [done|]. by destruct (forallb _ t).
Qed.

Lemma rr_field_token t : rr_field t -> token t.
Proof.
  intros [[n ->]|Hin]; [split; [apply display_N_no_whitespace|apply display_N_not_nil]|]. split.
  - assert (Forall (fun c => is_whitespace c = false) (to_ascii_uppercase t)) as Hu.
    { rewrite !elem_of_cons in Hin. destruct Hin as [->|[->|[->|[]%not_elem_of_nil]]]; by repeat constructor. }
    unfold to_ascii_uppercase in Hu. rewrite Forall_fmap in Hu. eapply Forall_impl; [exact Hu|].
    intros c. unfold compose, char_to_ascii_uppercase, is_whitespace, is_ascii_lowercase, in_range.
    case_match; lia.
  - intros ->. vm_compute in Hin. set_solver.
Qed.

(** How a record line is taken apart. *)
Lemma rpz_tokens s d fields ty rest :
  spells s d -> Forall rr_field fields -> ty ∈ record_types -> Forall token rest ->
  parse_rpz_line (join (ch " ") (s :: fields ++ ty :: rest))
  = if str_eqb ty (lit "SOA") || str_eqb ty (lit "NS") then None
    else if str_eqb ty (lit "CNAME") then
      match trim_end_matches_char (ch ".") <$> head rest with
      | Some target => Some (Parsed (if eq_ignore_ascii_case target (lit "rpz-passthru")
                                     then PL_Allow d else PL_Block d))
      | None => Some Skipped
      end
    else if str_eqb ty (lit "A") || str_eqb ty (lit "AAAA") then Some (Parsed (PL_Block d))
    else Some Skipped.
Proof.
  intros Hs Hf Hty Hrest. destruct (record_type_found ty Hty) as (_ & _ & Hup & Htok).
  set (toks := s :: fields ++ ty :: rest).
  assert (Forall (fun t => no_whitespace t /\ t <> []) toks) as Hall.
  { constructor; [by eapply spells_token|]. apply Forall_app. split; [|by constructor].
    eapply Forall_impl; [exact Hf|]. apply rr_field_token. }
  destruct (spells_cons s d Hs) as (c & r & Heq & Hn). destruct (name_char_head c Hn) as (_ & _ & H3 & H4 & H5 & _).
  destruct (join_cons (ch " ") s (fields ++ ty :: rest)) as [jt Hjt]. fold toks in Hjt. rewrite Heq in Hjt.
  unfold parse_rpz_line. rewrite trim_solid.
  2: { apply join_solid; [done|]. eapply Forall_impl; [exact Hall|]. intros t [??]. by apply solid_no_whitespace. }
  change (lit ";") with [ch ";"]. change (lit "$TTL") with (ch "$" :: lit "TTL").
  change (lit "$ORIGIN") with (ch "$" :: lit "ORIGIN"). change (lit "$INCLUDE") with (ch "$" :: lit "INCLUDE").
  rewrite !(starts_with_head _ _ c (r ++ jt) Hjt) by done. rewrite split_whitespace_join by done.
  rewrite Hjt. cbn [is_empty orb app].
  assert ((length toks <? 2) = false) as ->.
  { apply Nat.ltb_ge. subst toks. simpl. rewrite length_app. simpl. lia. }
  assert (find_rtype_index toks = Some (s, 1 + length fields)) as ->.
  { subst toks. unfold find_rtype_index. rewrite find_rtype_skips by done. unfold str_eqb.
    case_bool_decide as Hat; [|done]. subst s. by injection Hat as ->. }
  assert (toks !! (1 + length fields) = Some ty /\ toks !! (1 + length fields + 1) = head rest) as [Hty' Hrd].
  { subst toks. split; [by apply (list_lookup_middle (s :: fields))|].
    rewrite (app_comm_cons fields). change (1 + length fields + 1) with (length (s :: fields) + 1).
    rewrite lookup_app_r, Nat.add_comm, Nat.add_sub by lia. by rewrite head_lookup. }
  clearbody toks. cbn [base.mbind option_bind]. rewrite Hty'. cbn [base.mbind option_bind].
  rewrite Hrd, Hup, (spells_normalize s d Hs). cbn [parsed_or_skipped].
  destruct (_ || _); [done|]. destruct (str_eqb ty (lit "CNAME")); [|done].
  destruct (trim_end_matches_char (ch ".") <$> head rest) as [target|]; [|done].
  destruct (str_eqb target [] || _ || _) eqn:Ht; [|by case_match].
  rewrite !orb_true_iff in Ht. unfold str_eqb in Ht. rewrite !bool_decide_eq_true in Ht.
  by destruct Ht as [[->| ->]| ->].
Qed.

Lemma rpz_origin toks : toks <> [] -> Forall token toks -> parse_rpz_line (join (ch " ") (lit "@" :: toks)) = None.
Proof.
  intros Hne Htoks. destruct (join_cons (ch " ") (lit "@") toks) as [jt Hjt].
  assert (Forall token (lit "@" :: toks)) as Hall by (constructor; [split; [by repeat constructor|done]|done]).
  unfold parse_rpz_line. rewrite trim_solid.
  2: { apply join_solid; [done|]. eapply Forall_impl; [exact Hall|]. intros t [??]. by apply solid_no_whitespace. }
  rewrite split_whitespace_join by done. rewrite Hjt.
  change (lit ";") with [ch ";"]. change (lit "$TTL") with (ch "$" :: lit "TTL").
  change (lit "$ORIGIN") with (ch "$" :: lit "ORIGIN"). change (lit "$INCLUDE") with (ch "$" :: lit "INCLUDE").
  rewrite !(starts_with_head _ _ (ch "@") jt eq_refl) by done. cbn [is_empty orb]. by destruct toks.
Qed.

Definition directives : list rstr := [lit "$TTL"; lit "$ORIGIN"; lit "$INCLUDE"].

Lemma rpz_directive dir text : dir ∈ directives -> parse_rpz_line (dir ++ text) = None.
Proof.
  intros Hdir. assert (exists t', trim (dir ++ text) = dir ++ t') as [t' Ht].
  { unfold directives in Hdir. rewrite !elem_of_cons in Hdir.
    destruct Hdir as [->|[->|[->|[]%not_elem_of_nil]]].
    - apply (trim_keeps (ch "$") (lit "TT") (ch "L")); done.
    - apply (trim_keeps (ch "$") (lit "ORIGI") (ch "N")); done.
    - apply (trim_keeps (ch "$") (lit "INCLUD") (ch "E")); done. }
  unfold parse_rpz_line. rewrite Ht.
  assert (starts_with dir (dir ++ t') = true) as Hst by (apply starts_with_iff; by exists t').
  unfold directives in Hdir. rewrite !elem_of_cons in Hdir.
  destruct Hdir as [->|[->|[->|[]%not_elem_of_nil]]]; rewrite Hst, ?orb_true_r; by case_match.
Qed.

(** ** The grammar *)

Lemma skips_of_filter rs : skips_of rs = length (filter (.= Skipped) rs).
Proof.
  induction rs as [|[p|] rs IH]; [done|rewrite filter_cons_False by done; exact IH|].
  rewrite filter_cons_True by done. exact (f_equal S IH).
Qed.

(** The policy of a record: block its owner, let it pass, ignore the record. *)
Inductive rpz_policy (d : rstr) : rstr -> list rstr -> list ParseDomainLineResult -> Prop :=
| rpz_nxdomain : rpz_policy d (lit "CNAME") [lit "."] [Parsed (PL_Block d)]
| rpz_nodata : rpz_policy d (lit "CNAME") [lit "*."] [Parsed (PL_Block d)]
| rpz_passthru t : t = lit "rpz-passthru" \/ t = lit "rpz-passthru." ->
    rpz_policy d (lit "CNAME") [t] [Parsed (PL_Allow d)]
| rpz_garden t h : spells t h -> Forall (fun c => c <> ch "*") t -> h <> lit "rpz-passthru" ->
    rpz_policy d (lit "CNAME") [t] [Parsed (PL_Block d)]
| rpz_garden_v4 ip : token ip -> rpz_policy d (lit "A") [ip] [Parsed (PL_Block d)]
| rpz_garden_v6 ip : token ip -> rpz_policy d (lit "AAAA") [ip] [Parsed (PL_Block d)]
| rpz_soa rdata : Forall token rdata -> rpz_policy d (lit "SOA") rdata []
| rpz_ns rdata : Forall token rdata -> rpz_policy d (lit "NS") rdata []
| rpz_txt rdata : Forall token rdata -> rpz_policy d (lit "TXT") rdata [Skipped].

(** [rule_line format line rules]: in a list of this format the line stands for the
    rules; [Skipped] counts an entry the filter cannot apply. *)
Inductive rule_line : ListFormat -> rstr -> list ParseDomainLineResult -> Prop :=
| rl_blank format line : Forall (fun c => is_whitespace c = true) line -> rule_line format line []
| rl_comment format c text : comment_sign format c -> rule_line format (c :: text) []
| rl_adguard_rule exception caret s d mods : spells s d -> Forall modifier_wf mods ->
    rule_line LF_Adguard (network_rule exception caret s mods)
      [if forallb dns_safe mods then Parsed (if exception then PL_Allow d else PL_Block d) else Skipped]
| rl_adguard_domain s d : spells s d -> rule_line LF_Adguard s [Parsed (PL_Block d)]
| rl_adguard_hosts ip s d : ip ∈ sink_addresses -> spells s d ->
    rule_line LF_Adguard (ip ++ lit " " ++ s) [Parsed (PL_Block d)]
| rl_adguard_cosmetic s d selector : spells s d -> rule_line LF_Adguard (s ++ lit "##" ++ selector) [Skipped]
| rl_adguard_loose s d : spells s d -> rule_line LF_Adguard (lit "@@" ++ s) [Skipped]
| rl_hosts ip s d ss ds tail : ip ∈ sink_addresses -> Forall2 spells (s :: ss) (d :: ds) -> remark tail ->
    rule_line LF_Hosts (join (ch " ") (ip :: s :: ss) ++ tail) ((fun d => Parsed (PL_Block d)) <$> d :: ds)
| rl_hosts_names s d ss ds tail : is_ip_like s = false -> Forall2 spells (s :: ss) (d :: ds) -> remark tail ->
    rule_line LF_Hosts (join (ch " ") (s :: ss) ++ tail) ((fun d => Parsed (PL_Block d)) <$> d :: ds)
| rl_hosts_address ip tail : ip ∈ sink_addresses -> remark tail -> rule_line LF_Hosts (ip ++ tail) [Skipped]
| rl_rpz_record s d fields ty rdata rules : spells s d -> Forall rr_field fields -> rpz_policy d ty rdata rules ->
    rule_line LF_Rpz (join (ch " ") (s :: fields ++ ty :: rdata)) rules
| rl_rpz_origin toks : toks <> [] -> Forall token toks ->
    rule_line LF_Rpz (join (ch " ") (lit "@" :: toks)) []
| rl_rpz_directive dir text : dir ∈ directives -> rule_line LF_Rpz (dir ++ text) []
| rl_domain s d tail : spells s d -> remark tail -> rule_line LF_Domains (s ++ tail) [Parsed (PL_Block d)]
| rl_wildcard s d tail : spells s d -> remark tail -> rule_line LF_Wildcard (s ++ tail) [Parsed (PL_Block d)].

Lemma garden_target t h :
  spells t h -> Forall (fun c => c <> ch "*") t -> h <> lit "rpz-passthru" ->
  eq_ignore_ascii_case (trim_end_matches_char (ch ".") t) (lit "rpz-passthru") = false.
Proof.
  intros [Hh (star & u & dot & -> & Hu & Hstar & Hdot)] Hno Hne.
  rewrite (spells_trim_end star u dot h Hh Hu Hdot).
  destruct Hstar as [->| ->]; [|by apply Forall_inv in Hno].
  unfold eq_ignore_ascii_case, str_eqb. apply bool_decide_eq_false. by rewrite app_nil_l, Hu.
Qed.

Lemma rpz_record_rules s d fields ty rdata rules :
  spells s d -> Forall rr_field fields -> rpz_policy d ty rdata rules ->
  option_list (parse_rpz_line (join (ch " ") (s :: fields ++ ty :: rdata))) = rules.
Proof.
  intros Hs Hf Hp. assert (ty ∈ record_types) as Hty by (destruct Hp; vm_compute; set_solver).
  assert (Forall token rdata) as Hr.
  { destruct Hp as [| |t [->| ->]|t h Ht|? Hip|? Hip| | |]; try done; repeat constructor; try done;
      first [by eapply spells_token|by destruct Hip]. }
  rewrite (rpz_tokens s d fields ty rdata Hs Hf Hty Hr).
  destruct Hp as [| |t [->| ->]|t h Ht Hno Hne| | | | |]; try done.
  pose proof (garden_target t h Ht Hno Hne) as Hg.
  change (option_list (Some (Parsed (if eq_ignore_ascii_case (trim_end_matches_char (ch ".") t) (lit "rpz-passthru")
    then PL_Allow d else PL_Block d))) = [Parsed (PL_Block d)]). by rewrite Hg.
Qed.

(** Every parser reads the lines of its grammar. *)
Lemma parse_line_rules format line rules : rule_line format line rules -> parse_line format line = rules.
Proof.
  destruct 1 as [format line Hw|format c text Hc|ex caret s d mods Hs Hm|s d Hs|ip s d Hip Hs|s d sel Hs|s d Hs
    |ip s d ss ds tail Hip Hss Hr|s d ss ds tail Hi Hss Hr|ip tail Hip Hr|s d fields ty rdata rules Hs Hf Hp
    |toks Hne Ht|dir text Hd|s d tail Hs Hr|s d tail Hs Hr]; unfold parse_line.
  - by apply blank_line.
  - by apply comment_line.
  - rewrite (adguard_rule ex caret s d mods Hs Hm). by destruct ex.
  - exact (f_equal option_list (adguard_plain s [] s d Hs eq_refl (Nat.le_0_l _))).
  - exact (f_equal option_list (adguard_plain ip [s] s d Hs (conj Hip eq_refl) (le_n _))).
  - by rewrite (adguard_cosmetic s d sel Hs).
  - by rewrite (adguard_loose_exception s d Hs).
  - by rewrite (hosts_entry ip (s :: ss) (d :: ds) tail Hip Hss Hr).
  - inversion Hss; subst. by apply hosts_names.
  - exact (hosts_entry ip [] [] tail Hip (Forall2_nil_2 _ _ _) Hr).
  - by eapply rpz_record_rules.
  - by rewrite rpz_origin.
  - by rewrite rpz_directive.
  - by rewrite (domain_list_entry s d tail).
  - by rewrite (wildcard_entry s d tail).
Qed.

(** C4. [parse_list_content] reads a list exactly. Take any file, with LF or CR LF line
    ends, whose lines are rules of its format: AdGuard network rules with their
    exceptions and modifiers, hosts lines with any number of names, RPZ records with
    optional TTL and class, plain and wildcard domains, in any case and with or without
    a final dot, with comments and blank lines. The block set is the set of the domains
    these rules block, the exception set the set of those they except, and the skip
    counter the number of the entries that a DNS filter cannot apply. *)
Theorem parse_list_content_exact (format : ListFormat) (crlf : bool) (ls : list rstr)
    (rules : list (list ParseDomainLineResult)) :
  Forall single_line ls -> Forall2 (rule_line format) ls rules ->
  let '(blocks, exceptions, skipped) := parse_list_content (document crlf ls) format in
  (forall d, d ∈ blocks <-> exists rs, rs ∈ rules /\ Parsed (PL_Block d) ∈ rs)
  /\ (forall d, d ∈ exceptions <-> exists rs, rs ∈ rules /\ Parsed (PL_Allow d) ∈ rs)
  /\ skipped = length (filter (.= Skipped) (mjoin rules)).
Proof.
  intros Hl Hr. unfold parse_list_content.
  rewrite foldl_collect, !(right_id_L ∅ (∪)), Nat.add_0_r, lines_document by done.
  assert (ls ≫= parse_line format = mjoin rules) as ->.
  { clear Hl. induction Hr as [|l rs ls rules Hlr Hr IH]; [done|].
    rewrite bind_cons, (parse_line_rules _ _ _ Hlr), IH. done. }
  split; [|split]; [intros d|intros d|apply skips_of_filter].
  - rewrite elem_of_blocks_of, list_elem_of_join. naive_solver.
  - rewrite elem_of_exceptions_of, list_elem_of_join. naive_solver.
Qed.
End grammar.

(** ** Witness *)

Lemma host_example : host (H := text_names) (lit "ads.example.com").
Proof.
  split; [done|]. split; [by repeat constructor|]. split; [|done].
  intros q Hq. apply (f_equal reverse) in Hq. rewrite reverse_app in Hq. by vm_compute in Hq.
Qed.

Lemma spells_example s :
  s = lit "ads.example.com" \/ s = lit "ADS.Example.com." -> spells (H := text_names) s (lit "ads.example.com").
Proof.
  intros [->| ->]; (split; [exact host_example|]).
  - exists [], (lit "ads.example.com"), []. split_and!; [done..|by left|by left].
  - exists [], (lit "ADS.Example.com"), (lit "."). split_and!; [done..|by left|by right].
Qed.

(** A list with a block rule, an exception, a rule narrowed to third parties and a comment. *)
Definition ex_list : list rstr :=
  [lit "! title"; lit "||ads.example.com^"; lit "@@||ADS.Example.com.^$important";
   lit "||ads.example.com^$third-party"].

Definition ex_rules : list (list ParseDomainLineResult) :=
  [[]; [Parsed (PL_Block (lit "ads.example.com"))]; [Parsed (PL_Allow (lit "ads.example.com"))]; [Skipped]].

Lemma ex_list_rules : Forall2 (rule_line (H := text_names) LF_Adguard) ex_list ex_rules.
Proof.
  unfold ex_list, ex_rules. repeat apply Forall2_cons_2; [..|constructor].
  - apply rl_comment. by right.
  - apply (rl_adguard_rule (H := text_names) false true (lit "ads.example.com") (lit "ads.example.com") []);
      [apply spells_example; by left|constructor].
  - apply (rl_adguard_rule (H := text_names) true true (lit "ADS.Example.com.") (lit "ads.example.com")
      [{| md_inverted := false; md_key := lit "important"; md_value := None |}]);
      [apply spells_example; by right|by repeat constructor].
  - apply (rl_adguard_rule (H := text_names) false true (lit "ads.example.com") (lit "ads.example.com")
      [{| md_inverted := false; md_key := lit "third-party"; md_value := None |}]);
      [apply spells_example; by left|by repeat constructor].
Qed.

Lemma ex_list_lines : Forall single_line ex_list.
Proof.
  repeat (apply Forall_cons_2; [split;
    [vm_compute; set_solver|intros q Hq; apply (f_equal reverse) in Hq; rewrite reverse_app in Hq; by vm_compute in Hq]|]).
  constructor.
Qed.

Lemma parse_list_content_exact_witness :
  let '(blocks, exceptions, skipped) := parse_list_content (H := text_names) (document true ex_list) LF_Adguard in
  lit "ads.example.com" ∈ blocks /\ lit "ads.example.com" ∈ exceptions /\ skipped = 1.
Proof.
  pose proof (@parse_list_content_exact text_names LF_Adguard true ex_list ex_rules ex_list_lines ex_list_rules)
    as Hexact.
  destruct (parse_list_content _ _) as [[blocks exceptions] skipped].
  destruct Hexact as (Hb & He & Hs). split_and!; [apply Hb|apply He|exact Hs].
  - exists [Parsed (PL_Block (lit "ads.example.com"))]. split; [right; left|left].
  - exists [Parsed (PL_Allow (lit "ads.example.com"))]. split; [right; right; left|left].
Defined.
