(* ===== verification/FilterEngine.v ===== *)
(** * The filter engine

    [use_cases/filtering/mod.rs]: the lists an engine knows, the snapshot of blocked
    and allowed domains derived from them, the runtime switches per list, refresh,
    the persisted document cache and the decision taken for a query.

    An engine and the refresh handles cloned from it share three kinds of locations:
    the list map, the snapshot, and one [AtomicBool] per list.  They form the
    [EngineHeap]; a [ListRuntime] holds the location of its switch.  An [anyhow]
    error is the chain of its messages, outermost first. *)

From S2P Require Import Prelude RustStr RustNet Outside Hickory Metrics ListParsers.

Abbreviation Error := (list rstr).

Definition with_context {A} (c : rstr) (r : result A Error) : result A Error :=
  map_err (fun e => c :: e) r.

(** ** Configuration *)

Record NamedList : Type := {
  nl_name : rstr; nl_url : rstr; nl_interval : option rstr;
  nl_enabled : option bool; nl_list_type : option rstr
}.

(** The parts of the configuration the engine reads. *)
Record FilteringCacheConfig : Type := { fcc_mode : option rstr; fcc_document_path : option rstr }.
Record FilteringConfig : Type := {
  fc_sinkhole_ipv4 : option rstr; fc_sinkhole_ipv6 : option rstr;
  fc_any_query_policy : option rstr; fc_cache : option FilteringCacheConfig
}.
Record FilterConfig : Type := {
  cfg_blocklists : list NamedList; cfg_allowlists : list NamedList;
  cfg_filtering : option FilteringConfig
}.

Definition DEFAULT_LIST_INTERVAL_SECS : N := 12 * 60 * 60.

(** [parse_interval]: the arithmetic on seconds is [u64] and wraps. *)
Definition parse_interval (input : rstr) : result N Error :=
  let trimmed := trim input in
  if is_empty trimmed then Err [lit "interval cannot be empty"]
  else
    match last trimmed with
    | None => Err [lit "interval cannot be empty"]
    | Some unit =>
        let value_text := take (length trimmed - 1) trimmed in
        if is_empty value_text then Err [lit "interval is missing its numeric value"]
        else
          let? value := ok_or (parse_u64 value_text)
                          [lit "invalid interval number: " ++ value_text] in
          if (unit =? ch "s")%N then Ok value
          else if (unit =? ch "m")%N then Ok (wrapping_mul_u64 value 60)
          else if (unit =? ch "h")%N then Ok (wrapping_mul_u64 (wrapping_mul_u64 value 60) 60)
          else if (unit =? ch "d")%N
          then Ok (wrapping_mul_u64 (wrapping_mul_u64 (wrapping_mul_u64 value 24) 60) 60)
          else Err [lit "unsupported interval suffix '" ++ [unit] ++ lit "'; use one of: s, m, h, d"]
    end.

(** ** Data *)

Inductive ListKind : Type := LK_Block | LK_Allow.
#[export] Instance ListKind_eq_dec : EqDecision ListKind.
Proof. solve_decision. Defined.

Record ListRuntime : Type := {
  rt_key : rstr; rt_name : rstr; rt_url : rstr; rt_interval : N;
  rt_kind : ListKind; rt_format : ListFormat; rt_disabled : nat
}.

Record ListDomains : Type := {
  ld_kind : ListKind; ld_domains : gset rstr; ld_exceptions : gset rstr
}.

Record FilterSnapshot : Type := { snap_blocked : gset rstr; snap_allowed : gset rstr }.
Definition snapshot_default : FilterSnapshot := {| snap_blocked := ∅; snap_allowed := ∅ |}.

Record EngineHeap : Type := {
  h_lists : gmap rstr ListDomains;
  h_snapshot : FilterSnapshot;
  h_flags : gmap nat bool
}.

(** The persisted form of a list; [CachedListKind] has the constructors of
    [ListKind] and [CachedListKind::from] is the identity on them. *)
Record CachedListDocument : Type := {
  cd_kind : ListKind; cd_domains : list rstr; cd_exceptions : list rstr
}.

(** [FilterCacheRepository]: documents by key. *)
Record FilterCacheRepository (W : Type) : Type := {
  fcr_load : rstr -> M W (result (option rstr) Error);
  fcr_store : rstr -> rstr -> M W (result unit Error)
}.
Arguments fcr_load {W} _ _.
Arguments fcr_store {W} _ _ _.

Record ListFilterEngine (W : Type) : Type := {
  e_sinkhole_v4 : Ipv4Addr; e_sinkhole_v6 : Ipv6Addr;
  e_runtimes : list ListRuntime;
  e_cache_repo : option (FilterCacheRepository W)
}.
Arguments e_sinkhole_v4 {W} _.
Arguments e_sinkhole_v6 {W} _.
Arguments e_runtimes {W} _.
Arguments e_cache_repo {W} _.

Record ListInfo : Type := {
  li_name : rstr; li_url : rstr; li_kind : rstr; li_list_type : rstr;
  li_enabled : bool; li_interval_secs : N; li_domain_count : nat; li_exception_count : nat
}.

(** ** Building the runtimes *)

(** The switches are allocated at [loc], [loc + 1], ... *)
Definition build_runtime (kind : ListKind) (loc : nat) (l : NamedList) : result ListRuntime Error :=
  let? interval :=
    match nl_interval l with
    | Some value =>
        with_context (lit "invalid interval for list '" ++ nl_name l ++ lit "': '" ++ value ++ lit "'")
          (parse_interval value)
    | None => Ok DEFAULT_LIST_INTERVAL_SECS
    end in
  let? format :=
    map_err (fun e => [lit "invalid list_type for list '" ++ nl_name l ++ lit "': " ++ e])
      (list_format_from_option (nl_list_type l)) in
  Ok {| rt_key := match kind with
                  | LK_Block => lit "block:" ++ nl_name l
                  | LK_Allow => lit "allow:" ++ nl_name l
                  end;
        rt_name := nl_name l; rt_url := nl_url l; rt_interval := interval;
        rt_kind := kind; rt_format := format; rt_disabled := loc |}.

Definition list_enabled (l : NamedList) : bool := default true (nl_enabled l).

Definition build_runtimes (lists : list NamedList) (kind : ListKind) (loc : nat) :
    result (list ListRuntime) Error :=
  collect_results (imap (fun i l => build_runtime kind (loc + i) l)
                     (filter (fun l => list_enabled l = true) lists)).

Definition parse_sinkhole_addrs (config : FilterConfig) : result (Ipv4Addr * Ipv6Addr) Error :=
  let v4 := default (lit "0.0.0.0") (cfg_filtering config ≫= fc_sinkhole_ipv4) in
  let v6 := default (lit "::") (cfg_filtering config ≫= fc_sinkhole_ipv6) in
  let? sinkhole_v4 := ok_or (parse_ipv4 v4) [lit "invalid filtering.sinkhole_ipv4"] in
  let? sinkhole_v6 := ok_or (parse_ipv6 v6) [lit "invalid filtering.sinkhole_ipv6"] in
  Ok (sinkhole_v4, sinkhole_v6).

(** Both configured list families, the switches numbered through. *)
Definition config_runtimes (config : FilterConfig) : result (list ListRuntime) Error :=
  let? block := build_runtimes (cfg_blocklists config) LK_Block 0 in
  let? allow := build_runtimes (cfg_allowlists config) LK_Allow (length block) in
  Ok (block ++ allow).

(** ** The snapshot *)

Definition is_disabled (flags : gmap nat bool) (rt : ListRuntime) : bool :=
  default false (flags !! rt_disabled rt).

Definition disabled_keys (rts : list ListRuntime) (flags : gmap nat bool) : gset rstr :=
  list_to_set (rt_key <$> filter (fun rt => is_disabled flags rt = true) rts).

(** One iteration of the loop over the list map. *)
Definition add_list (disabled : gset rstr) (acc : FilterSnapshot) (entry : rstr * ListDomains) :
    FilterSnapshot :=
  let '(key, l) := entry in
  if bool_decide (key ∈ disabled) then acc
  else {| snap_blocked := match ld_kind l with
                          | LK_Block => snap_blocked acc ∪ ld_domains l
                          | LK_Allow => snap_blocked acc
                          end;
          snap_allowed := match ld_kind l with
                          | LK_Block => snap_allowed acc
                          | LK_Allow => snap_allowed acc ∪ ld_domains l
                          end ∪ ld_exceptions l |}.

Definition build_snapshot (lists : gmap rstr ListDomains) (disabled : gset rstr) : FilterSnapshot :=
  foldl (add_list disabled) snapshot_default (map_to_list lists).

Definition rebuild_snapshot (rts : list ListRuntime) (h : EngineHeap) : EngineHeap :=
  {| h_lists := h_lists h;
     h_snapshot := build_snapshot (h_lists h) (disabled_keys rts (h_flags h));
     h_flags := h_flags h |}.

Definition insert_list (key : rstr) (l : ListDomains) (h : EngineHeap) : EngineHeap :=
  {| h_lists := <[key := l]> (h_lists h); h_snapshot := h_snapshot h; h_flags := h_flags h |}.

Definition store_flag (loc : nat) (b : bool) (h : EngineHeap) : EngineHeap :=
  {| h_lists := h_lists h; h_snapshot := h_snapshot h; h_flags := <[loc := b]> (h_flags h) |}.

(** ** Decisions *)

Definition decide_domain (h : EngineHeap) (domain : rstr) : FilterDecision :=
  let normalized := normalize_domain domain in
  if is_empty normalized then FD_Neutral
  else if matches_any (snap_allowed (h_snapshot h)) normalized then FD_Allow
  else if matches_any (snap_blocked (h_snapshot h)) normalized then FD_Block
  else FD_Neutral.

Definition blocked_by (rts : list ListRuntime) (h : EngineHeap) (domain : rstr) : list rstr :=
  let normalized := normalize_domain domain in
  if is_empty normalized then []
  else
    let disabled := disabled_keys rts (h_flags h) in
    omap (fun rt =>
      if bool_decide (rt_kind rt = LK_Block) then
        if bool_decide (rt_key rt ∈ disabled) then None
        else match h_lists h !! rt_key rt with
             | Some l => if matches_any (ld_domains l) normalized then Some (rt_name rt) else None
             | None => None
             end
      else None) rts.

Definition list_names (rts : list ListRuntime) (h : EngineHeap) : list ListInfo :=
  (fun rt =>
    let '(dc, ec) := match h_lists h !! rt_key rt with
                     | Some l => (size (ld_domains l), size (ld_exceptions l))
                     | None => (0, 0)
                     end in
    {| li_name := rt_name rt; li_url := rt_url rt;
       li_kind := match rt_kind rt with
                  | LK_Block => lit "blocklist" | LK_Allow => lit "allowlist" end;
       li_list_type := list_format_as_str (rt_format rt);
       li_enabled := negb (is_disabled (h_flags h) rt);
       li_interval_secs := rt_interval rt;
       li_domain_count := dc; li_exception_count := ec |}) <$> rts.

(** [runtimes.iter().find(|rt| rt.name == name)]. *)
Definition find_runtime (rts : list ListRuntime) (name : rstr) : option ListRuntime :=
  snd <$> list_find (fun rt => rt_name rt = name) rts.

(** [disable_list] and [enable_list] differ in the value stored in the switch. *)
Definition set_list_disabled (b : bool) (rts : list ListRuntime) (name : rstr) (h : EngineHeap) :
    bool * EngineHeap :=
  match find_runtime rts name with
  | Some rt => (true, rebuild_snapshot rts (store_flag (rt_disabled rt) b h))
  | None => (false, h)
  end.
Definition disable_list := set_list_disabled true.
Definition enable_list := set_list_disabled false.

(** [refresh_list] and [refresh_all_lists] spawn refresh tasks: the result and the
    runtimes whose refresh is started. *)
Definition refresh_list (rts : list ListRuntime) (name : rstr) : bool * list ListRuntime :=
  match find_runtime rts name with
  | Some rt => (true, [rt])
  | None => (false, [])
  end.
Definition refresh_all_lists (rts : list ListRuntime) : list rstr * list ListRuntime :=
  (rt_name <$> rts, rts).

(** [tokio::time::interval] panics, and so ends the task that calls it, when its period
    is zero; otherwise it ticks at once and then once per period. *)
Definition ticker_start (period : N) : option N := if (period =? 0)%N then None else Some period.

(** [start_background_refresh]: one task per runtime; the refresh loops that run, each
    with its period.  Every tick of a loop is a [refresh_single_list]. *)
Definition start_background_refresh (rts : list ListRuntime) : list (ListRuntime * N) :=
  omap (fun rt => (fun period => (rt, period)) <$> ticker_start (rt_interval rt)) rts.

(** ** Refresh, persistence and start-up *)

Section engine.
Context `{DnsName} {W : Type}.
Context (outside : Outside W) (heap : Cell W EngineHeap) (metrics : Cell W MetricsGlobal).
(** [serde_json] on [CachedListDocument]. *)
Context (doc_to_json : CachedListDocument -> result rstr Error)
        (doc_from_json : rstr -> result CachedListDocument Error).

Definition fetch_list_content (source : rstr) : M W (result rstr Error) :=
  if starts_with (lit "http://") source || starts_with (lit "https://") source then
    response <<- http_get outside source None ;;
    mret match response with
         | None => Err [lit "failed to download list from " ++ source]
         | Some r =>
             if resp_success r
             then ok_or (resp_text r) [lit "failed to read list body from " ++ source]
             else Err [lit "list source returned non-success status: " ++ source]
         end
  else
    content <<- fs_read_to_string outside source ;;
    mret (ok_or content [lit "failed to read list file " ++ source]).

Definition persist_list_document (e : ListFilterEngine W) (rt : ListRuntime)
    (domains exceptions : gset rstr) : M W (result unit Error) :=
  match e_cache_repo e with
  | None => mret (Ok tt)
  | Some repo =>
      let doc := {| cd_kind := rt_kind rt; cd_domains := sort_strs (elements domains);
                    cd_exceptions := sort_strs (elements exceptions) |} in
      match with_context (lit "failed to serialize cached document '" ++ rt_key rt ++ lit "'")
              (doc_to_json doc) with
      | Err err => mret (Err err)
      | Ok payload =>
          r <<- fcr_store repo (rt_key rt) payload ;;
          mret (with_context (lit "failed to store cached list document") r)
      end
  end.

(** The lock on the lists, the one on the snapshot and the store are taken one
    after the other; errors are logged and dropped. *)
Definition refresh_single_list (e : ListFilterEngine W) (rt : ListRuntime) : M W unit :=
  fetched <<- fetch_list_content (rt_url rt) ;;
  match fetched with
  | Ok content =>
      let '(domains, exceptions, _) := parse_list_content content (rt_format rt) in
      cmodify heap (insert_list (rt_key rt)
        {| ld_kind := rt_kind rt; ld_domains := domains; ld_exceptions := exceptions |}) ;;;
      (cmodify heap (rebuild_snapshot (e_runtimes e)) ;;;
       (persist_list_document e rt domains exceptions ;;; mret tt))
  | Err _ => mret tt
  end.

(** One iteration of the restore loop: whether a list was restored. *)
Definition restore_one (repo : FilterCacheRepository W) (rt : ListRuntime) : M W bool :=
  loaded <<- fcr_load repo (rt_key rt) ;;
  match loaded with
  | Ok (Some value) =>
      cmodify metrics (record_cache_operation true) ;;;
      match doc_from_json value with
      | Err _ => mret false
      | Ok doc =>
          if bool_decide (rt_kind rt = cd_kind doc) then
            cmodify heap (insert_list (rt_key rt)
              {| ld_kind := rt_kind rt; ld_domains := list_to_set (cd_domains doc);
                 ld_exceptions := list_to_set (cd_exceptions doc) |}) ;;;
            mret true
          else mret false
      end
  | Ok None | Err _ => cmodify metrics (record_cache_operation false) ;;; mret false
  end.

Fixpoint restore_all (repo : FilterCacheRepository W) (rts : list ListRuntime) : M W nat :=
  match rts with
  | [] => mret 0
  | rt :: rest =>
      b <<- restore_one repo rt ;;
      n <<- restore_all repo rest ;;
      mret ((if (b : bool) then 1 else 0) + n)
  end.

Definition try_restore_document_cache (e : ListFilterEngine W) : M W unit :=
  match e_cache_repo e with
  | None => mret tt
  | Some repo =>
      restored <<- restore_all repo (e_runtimes e) ;;
      if (0 <? restored)%nat then cmodify heap (rebuild_snapshot (e_runtimes e)) else mret tt
  end.

(** The locations of a new engine: no list, the empty snapshot, all switches off. *)
Definition fresh_heap (rts : list ListRuntime) : EngineHeap :=
  {| h_lists := ∅; h_snapshot := snapshot_default;
     h_flags := list_to_map ((fun rt => (rt_disabled rt, false)) <$> rts) |}.

Definition from_config_with_cache (config : FilterConfig)
    (cache_repo : option (FilterCacheRepository W)) : M W (result (ListFilterEngine W) Error) :=
  match (let? addrs := parse_sinkhole_addrs config in
         let? runtimes := config_runtimes config in
         Ok (addrs, runtimes)) with
  | Err err => mret (Err err)
  | Ok ((v4, v6), runtimes) =>
      let e := {| e_sinkhole_v4 := v4; e_sinkhole_v6 := v6; e_runtimes := runtimes;
                  e_cache_repo := cache_repo |} in
      cwrite heap (fresh_heap runtimes) ;;;
      (try_restore_document_cache e ;;; mret (Ok e))
  end.
End engine.

(** ** Intervals *)

Lemma last_snoc_take {A} (l : list A) x :
  last (l ++ [x]) = Some x /\ take (length (l ++ [x]) - 1) (l ++ [x]) = l.
Proof.
  split; [apply last_snoc|]. rewrite length_app. simpl.
  rewrite Nat.add_sub. apply take_app_length.
Qed.

Definition unit_seconds (u : rchar) : option N :=
  if (u =? ch "s")%N then Some 1%N
  else if (u =? ch "m")%N then Some 60%N
  else if (u =? ch "h")%N then Some 3600%N
  else if (u =? ch "d")%N then Some 86400%N
  else None.

Lemma wrapping_mul_u64_assoc a b c :
  wrapping_mul_u64 (wrapping_mul_u64 a b) c = wrapping_mul_u64 a (b * c)%N.
Proof. unfold wrapping_mul_u64. by rewrite N.Div0.mul_mod_idemp_l, N.mul_assoc. Qed.

Lemma unit_seconds_not_whitespace u k : unit_seconds u = Some k -> is_whitespace u = false.
Proof.
  unfold unit_seconds.
  destruct (N.eqb_spec u (ch "s")) as [->|]; [done|].
  destruct (N.eqb_spec u (ch "m")) as [->|]; [done|].
  destruct (N.eqb_spec u (ch "h")) as [->|]; [done|].
  by destruct (N.eqb_spec u (ch "d")) as [->|].
Qed.

(** A number followed by one of the units s, m, h, d is read as that many
    seconds, modulo 2^64: the value is exact whenever it fits in 64 bits. *)
Theorem parse_interval_value (n u k : N) :
  (n < u64_modulus)%N -> unit_seconds u = Some k ->
  parse_interval (display_N n ++ [u]) = Ok ((n * k) mod u64_modulus)%N
  /\ ((n * k < u64_modulus)%N -> parse_interval (display_N n ++ [u]) = Ok (n * k)%N).
Proof.
  intros Hn Hu.
  assert (parse_interval (display_N n ++ [u]) = Ok ((n * k) mod u64_modulus)%N) as Hp.
  { unfold parse_interval. rewrite trim_no_whitespace.
    2: { apply Forall_app. split; [apply display_N_no_whitespace|].
         apply Forall_singleton. by eapply unit_seconds_not_whitespace. }
    assert (is_empty (display_N n ++ [u]) = false) as -> by by destruct (display_N n).
    destruct (last_snoc_take (display_N n) u) as [-> ->].
    assert (is_empty (display_N n) = false) as ->
      by (pose proof (display_N_not_nil n); by destruct (display_N n)).
    unfold parse_u64. rewrite parse_display_N by (unfold u64_modulus in Hn; lia). simpl.
    unfold unit_seconds in Hu. rewrite !wrapping_mul_u64_assoc.
    repeat case_match; simplify_eq; try done. by rewrite N.mul_1_r, N.mod_small. }
  split; [done|]. intros Hlt. by rewrite Hp, N.mod_small.
Qed.

Lemma parse_interval_value_witness : parse_interval (lit "15m") = Ok 900%N.
Proof. apply (parse_interval_value 15 (ch "m") 60); vm_compute; reflexivity. Defined.

(** An interval whose value in seconds does not fit in 64 bits is not rejected:
    it wraps around, here to 44 seconds. *)
Theorem parse_interval_overflow_wraps : parse_interval (lit "307445734561825861m") = Ok 44%N.
Proof. vm_compute. reflexivity. Qed.

(** A zero interval is accepted, and the list then has no refresh loop. *)
Theorem zero_interval_never_refreshes kind loc l format rts :
  nl_interval l = Some (lit "0s") -> list_format_from_option (nl_list_type l) = Ok format ->
  exists rt, build_runtime kind loc l = Ok rt
    /\ forall period, (rt, period) ∉ start_background_refresh rts.
Proof.
  intros Hi Hf. unfold build_runtime. rewrite Hi, Hf.
  replace (parse_interval (lit "0s")) with (Ok (E := Error) 0%N) by (by vm_compute). simpl.
  eexists. split; [done|]. intros period Hin. unfold start_background_refresh in Hin.
  apply list_elem_of_omap in Hin as (rt & _ & Hrt).
  unfold ticker_start in Hrt. destruct (N.eqb_spec (rt_interval rt) 0) as [|Hz]; [done|].
  simpl in Hrt. by simplify_eq/=.
Qed.

(** ** What a snapshot contains *)

(** A list that is not switched off contributes [d] as blocked, or as allowed. *)
Definition blocks_entry (l : ListDomains) (d : rstr) : Prop :=
  ld_kind l = LK_Block /\ d ∈ ld_domains l.
Definition allows_entry (l : ListDomains) (d : rstr) : Prop :=
  (ld_kind l = LK_Allow /\ d ∈ ld_domains l) \/ d ∈ ld_exceptions l.

Lemma add_list_blocked disabled acc key l d :
  d ∈ snap_blocked (add_list disabled acc (key, l))
  <-> d ∈ snap_blocked acc \/ (key ∉ disabled /\ blocks_entry l d).
Proof.
  unfold add_list, blocks_entry. case_bool_decide; simpl; [tauto|].
  destruct (ld_kind l); rewrite ?elem_of_union; intuition congruence.
Qed.

Lemma add_list_allowed disabled acc key l d :
  d ∈ snap_allowed (add_list disabled acc (key, l))
  <-> d ∈ snap_allowed acc \/ (key ∉ disabled /\ allows_entry l d).
Proof.
  unfold add_list, allows_entry. case_bool_decide; simpl; [tauto|].
  destruct (ld_kind l); rewrite ?elem_of_union; intuition congruence.
Qed.

Lemma foldl_add_list disabled entries acc d :
  let s := foldl (add_list disabled) acc entries in
  (d ∈ snap_blocked s <-> d ∈ snap_blocked acc
     \/ exists key l, (key, l) ∈ entries /\ key ∉ disabled /\ blocks_entry l d)
  /\ (d ∈ snap_allowed s <-> d ∈ snap_allowed acc
     \/ exists key l, (key, l) ∈ entries /\ key ∉ disabled /\ allows_entry l d).
Proof.
  revert acc. induction entries as [|[key l] entries IH]; intros acc.
  { simpl. split; (split; [by left|]); intros [?|(? & ? & ?%not_elem_of_nil & _)]; done. }
  cbn [foldl]. destruct (IH (add_list disabled acc (key, l))) as [IHb IHa]. cbv zeta in *.
  rewrite IHb, IHa, add_list_blocked, add_list_allowed. setoid_rewrite elem_of_cons.
  split; (split; [intros [[?|[? ?]]|(k & l' & ? & ? & ?)] | intros [?|(k & l' & [?|?] & ? & ?)]]);
    simplify_eq; eauto 10.
Qed.

Lemma elem_of_snapshot_blocked lists disabled d :
  d ∈ snap_blocked (build_snapshot lists disabled)
  <-> exists key l, lists !! key = Some l /\ key ∉ disabled /\ blocks_entry l d.
Proof.
  unfold build_snapshot. rewrite (proj1 (foldl_add_list disabled _ _ d)). simpl.
  setoid_rewrite elem_of_map_to_list. set_solver.
Qed.

Lemma elem_of_snapshot_allowed lists disabled d :
  d ∈ snap_allowed (build_snapshot lists disabled)
  <-> exists key l, lists !! key = Some l /\ key ∉ disabled /\ allows_entry l d.
Proof.
  unfold build_snapshot. rewrite (proj2 (foldl_add_list disabled _ _ d)). simpl.
  setoid_rewrite elem_of_map_to_list. set_solver.
Qed.

(** ** Concurrent operation

    Refresh tasks and switch changes run concurrently on the shared heap.  A task is
    at one of these points; [T_Scan] and [T_Publish] hold the read lock on the list
    map, which keeps [T_Insert] (a writer) out.  The switches are read one at a time.
    Publishing takes the write lock of the snapshot. *)

Inductive Task : Type :=
| T_Insert (rt : ListRuntime) (l : ListDomains)
| T_Flag (loc : nat) (b : bool)
| T_Start
| T_Scan (todo : list ListRuntime) (disabled : gset rstr)
| T_Publish (s : FilterSnapshot).

Definition holds_lists (t : Task) : bool :=
  match t with T_Scan _ _ | T_Publish _ => true | _ => false end.
Definition rebuilding (t : Task) : bool :=
  match t with T_Start | T_Scan _ _ | T_Publish _ => true | _ => false end.

Definition set_snapshot (s : FilterSnapshot) (h : EngineHeap) : EngineHeap :=
  {| h_lists := h_lists h; h_snapshot := s; h_flags := h_flags h |}.

Section concurrent.
Context (rts : list ListRuntime).

(** [overlap = false] restricts a switch to be stored while no rebuild is reading. *)
Inductive step (overlap : bool) : EngineHeap * list Task -> EngineHeap * list Task -> Prop :=
| step_spawn_refresh h ts rt domains exceptions :
    rt ∈ rts ->
    step overlap (h, ts)
      (h, T_Insert rt {| ld_kind := rt_kind rt; ld_domains := domains; ld_exceptions := exceptions |} :: ts)
| step_spawn_switch h ts name rt b :
    find_runtime rts name = Some rt ->
    step overlap (h, ts) (h, T_Flag (rt_disabled rt) b :: ts)
| step_insert h ts1 ts2 rt l :
    forallb (fun t => negb (holds_lists t)) (ts1 ++ ts2) = true ->
    step overlap (h, ts1 ++ T_Insert rt l :: ts2) (insert_list (rt_key rt) l h, ts1 ++ T_Start :: ts2)
| step_flag h ts1 ts2 loc b :
    overlap = true \/ forallb (fun t => negb (holds_lists t)) (ts1 ++ ts2) = true ->
    step overlap (h, ts1 ++ T_Flag loc b :: ts2) (store_flag loc b h, ts1 ++ T_Start :: ts2)
| step_start h ts1 ts2 :
    step overlap (h, ts1 ++ T_Start :: ts2) (h, ts1 ++ T_Scan rts ∅ :: ts2)
| step_scan h ts1 ts2 rt todo disabled :
    step overlap (h, ts1 ++ T_Scan (rt :: todo) disabled :: ts2)
      (h, ts1 ++ T_Scan todo (if is_disabled (h_flags h) rt then {[rt_key rt]} ∪ disabled
                              else disabled) :: ts2)
| step_scanned h ts1 ts2 disabled :
    step overlap (h, ts1 ++ T_Scan [] disabled :: ts2)
      (h, ts1 ++ T_Publish (build_snapshot (h_lists h) disabled) :: ts2)
| step_publish h ts1 ts2 s :
    step overlap (h, ts1 ++ T_Publish s :: ts2) (set_snapshot s h, ts1 ++ ts2).

Definition reachable (overlap : bool) (h : EngineHeap) (ts : list Task) : Prop :=
  rtc (step overlap) (fresh_heap rts, []) (h, ts).

(** *** Invariant *)

Definition set_ok (overlap : bool) (h : EngineHeap) (done : list ListRuntime) (disabled : gset rstr) : Prop :=
  overlap = false -> disabled = disabled_keys done (h_flags h).

Definition task_ok (overlap : bool) (h : EngineHeap) (t : Task) : Prop :=
  match t with
  | T_Insert rt l => rt ∈ rts /\ ld_kind l = rt_kind rt
  | T_Flag _ _ | T_Start => True
  | T_Scan todo disabled => exists done, rts = done ++ todo /\ set_ok overlap h done disabled
  | T_Publish s => exists disabled, set_ok overlap h rts disabled
                                    /\ s = build_snapshot (h_lists h) disabled
  end.

(** Every list belongs to a runtime of its kind. *)
Definition lists_ok (h : EngineHeap) : Prop :=
  forall key l, h_lists h !! key = Some l ->
    exists rt, rt ∈ rts /\ rt_key rt = key /\ rt_kind rt = ld_kind l.

Definition engine_inv (overlap : bool) (c : EngineHeap * list Task) : Prop :=
  let '(h, ts) := c in
  Forall (task_ok overlap h) ts /\ lists_ok h
  /\ ((exists disabled, set_ok overlap h rts disabled
                        /\ h_snapshot h = build_snapshot (h_lists h) disabled)
      \/ exists t, t ∈ ts /\ rebuilding t = true).

Lemma disabled_keys_snoc done rt flags :
  disabled_keys (done ++ [rt]) flags
  = (if is_disabled flags rt then {[rt_key rt]} ∪ disabled_keys done flags
     else disabled_keys done flags).
Proof.
  unfold disabled_keys. rewrite filter_app, filter_cons, fmap_app, list_to_set_app_L.
  destruct (is_disabled flags rt) eqn:Hd; case_decide; simpl; try congruence; set_solver.
Qed.

(** A task that does not hold the read lock is not affected by a heap change. *)
Lemma task_ok_not_holding overlap h h' t :
  holds_lists t = false -> task_ok overlap h t -> task_ok overlap h' t.
Proof. by destruct t. Qed.

Lemma tasks_ok_not_holding overlap h h' ts :
  forallb (fun t => negb (holds_lists t)) ts = true ->
  Forall (task_ok overlap h) ts -> Forall (task_ok overlap h') ts.
Proof.
  rewrite List.forallb_forall. intros Hf Hall. rewrite Forall_forall in *. intros t Ht.
  eapply task_ok_not_holding; [|by apply Hall].
  apply negb_true_iff, Hf. by apply list_elem_of_In.
Qed.

(** Storing a switch keeps the tasks that do not record what they read. *)
Lemma task_ok_store_flag h loc b t : task_ok true h t -> task_ok true (store_flag loc b h) t.
Proof.
  destruct t; simpl; try done.
  - intros (done & ? & _). exists done. by split; [|intros ?].
  - intros (disabled & _ & ?). exists disabled. by split; [intros ?|].
Qed.

Lemma task_ok_set_snapshot overlap h s t :
  task_ok overlap h t -> task_ok overlap (set_snapshot s h) t.
Proof. by destruct t. Qed.

Lemma rebuilding_middle ts1 t ts2 : rebuilding t = true ->
  exists t', t' ∈ ts1 ++ t :: ts2 /\ rebuilding t' = true.
Proof. intros Ht. exists t. split; [|done]. rewrite elem_of_app, elem_of_cons. auto. Qed.

Lemma lists_ok_insert h rt l :
  lists_ok h -> rt ∈ rts -> ld_kind l = rt_kind rt -> lists_ok (insert_list (rt_key rt) l h).
Proof.
  intros Hl Hrt Hk key l'. simpl. destruct (decide (key = rt_key rt)) as [->|Hne].
  - rewrite lookup_insert_eq. intros [= <-]. eauto.
  - rewrite lookup_insert_ne by done. apply Hl.
Qed.

Lemma step_preserves_inv overlap c c' : step overlap c c' -> engine_inv overlap c -> engine_inv overlap c'.
Proof.
  destruct 1 as [h ts rt ds es Hrt|h ts name rt b Hf|h ts1 ts2 rt l Hno|h ts1 ts2 loc b Hno
    |h ts1 ts2|h ts1 ts2 rt todo D|h ts1 ts2 D|h ts1 ts2 s]; intros (Hts & Hl & Hsnap).
  - split; [by constructor|]. split; [done|]. destruct Hsnap as [?|(t & ? & ?)]; [by left|right].
    exists t. rewrite elem_of_cons. auto.
  - split; [by constructor|]. split; [done|]. destruct Hsnap as [?|(t & ? & ?)]; [by left|right].
    exists t. rewrite elem_of_cons. auto.
  - apply Forall_app in Hts as [H1 [[Hrt Hk] H2]%Forall_cons]. split; [|split].
    + rewrite forallb_app in Hno. apply andb_true_iff in Hno as [Hn1 Hn2].
      apply Forall_app; split; [|constructor; [done|]]; by eapply tasks_ok_not_holding.
    + by apply lists_ok_insert.
    + right. by apply rebuilding_middle.
  - apply Forall_app in Hts as [H1 [_ H2]%Forall_cons]. split; [|split; [done|right; by apply rebuilding_middle]].
    apply Forall_app. rewrite Forall_cons. destruct Hno as [->|Hno].
    + split; [|split; [done|]]; eapply Forall_impl; eauto using task_ok_store_flag.
    + rewrite forallb_app in Hno. apply andb_true_iff in Hno as [Hn1 Hn2].
      split; [|split; [done|]]; by eapply tasks_ok_not_holding.
  - apply Forall_app in Hts as [H1 [_ H2]%Forall_cons]. split; [|split; [done|right; by apply rebuilding_middle]].
    apply Forall_app. rewrite Forall_cons. split; [done|split; [|done]]. by exists [].
  - apply Forall_app in Hts as [H1 [(done & Hd & Hs) H2]%Forall_cons].
    split; [|split; [done|right; by apply rebuilding_middle]].
    apply Forall_app. rewrite Forall_cons. split; [done|split; [|done]].
    exists (done ++ [rt]). rewrite <- app_assoc. split; [done|].
    intros Ho. rewrite disabled_keys_snoc, (Hs Ho). done.
  - apply Forall_app in Hts as [H1 [(done & Hd & Hs) H2]%Forall_cons].
    split; [|split; [done|right; by apply rebuilding_middle]].
    apply Forall_app. rewrite Forall_cons. split; [done|split; [|done]].
    exists D. rewrite app_nil_r in Hd. subst. done.
  - apply Forall_app in Hts as [H1 [(D & HD & ->) H2]%Forall_cons].
    split; [|split; [done|left; by exists D]].
    apply Forall_app; split; eapply Forall_impl; eauto using task_ok_set_snapshot.
Qed.

Lemma build_snapshot_empty disabled : build_snapshot ∅ disabled = snapshot_default.
Proof. unfold build_snapshot. by rewrite map_to_list_empty. Qed.

Lemma reachable_inv overlap h ts : reachable overlap h ts -> engine_inv overlap (h, ts).
Proof.
  unfold reachable. intros Hr.
  assert (engine_inv overlap (fresh_heap rts, [])) as Hinit.
  { split; [done|]. split; [intros key l Hx; simpl in Hx; by rewrite lookup_empty in Hx|]. left.
    exists (disabled_keys rts (h_flags (fresh_heap rts))). split; [done|].
    by rewrite build_snapshot_empty. }
  revert Hinit. generalize (fresh_heap rts, @nil Task) Hr. clear Hr.
  intros c Hr. remember (h, ts) as c' eqn:Hc. clear Hc.
  induction Hr as [|c1 c2 c3 Hst _ IH]; [done|]. intros Hi. apply IH. by eapply step_preserves_inv.
Qed.

(** The snapshot agrees with the lists and the switches. *)
Definition fresh (h : EngineHeap) : Prop :=
  h_snapshot h = build_snapshot (h_lists h) (disabled_keys rts (h_flags h)).

(** C9. However refreshes and switch changes interleave, once all tasks are done the
    published snapshot is built from the current lists, each taken as a whole or left
    out as disabled: no stale or torn list is in force.  If moreover no switch was
    stored while a rebuild was reading, exactly the lists that are switched off are
    left out. *)
Theorem quiescent_snapshot_current (overlap : bool) (h : EngineHeap) :
  reachable overlap h [] ->
  (exists disabled, h_snapshot h = build_snapshot (h_lists h) disabled)
  /\ (overlap = false -> fresh h).
Proof.
  intros (_ & _ & [(D & HD & Hs)|(t & Ht%not_elem_of_nil & _)])%reachable_inv; [|done].
  split; [by exists D|]. intros Ho. unfold fresh. by rewrite Hs, (HD Ho).
Qed.
End concurrent.

(** Without that restriction a switch can be lost: a rebuild that read the old
    value of the switch may publish after the one that disabled the list, and the
    engine settles on a snapshot that still blocks the disabled list's domains. *)
Theorem disable_can_be_lost :
  exists (rt : ListRuntime) (h : EngineHeap),
    reachable [rt] true h []
    /\ is_disabled (h_flags h) rt = true
    /\ decide_domain h (lit "ads.example.com") = FD_Block.
Proof.
  set (rt := {| rt_key := lit "block:a"; rt_name := lit "a"; rt_url := lit "/a"; rt_interval := 1;
                rt_kind := LK_Block; rt_format := LF_Domains; rt_disabled := 0 |}).
  set (ld := {| ld_kind := LK_Block; ld_domains := {[lit "ads.example.com"]}; ld_exceptions := ∅ |}).
  exists rt. eexists. split; [|split; cycle 1].
  - unfold reachable.
    (* the refresh inserts its list and reads the switch *)
    eapply rtc_l; [apply (step_spawn_refresh [rt] true _ _ rt (ld_domains ld) ∅); by constructor|].
    eapply rtc_l; [by apply (step_insert [rt] true _ [] [])|].
    eapply rtc_l; [apply (step_start [rt] true _ [] [])|].
    eapply rtc_l; [apply (step_scan [rt] true _ [] [])|].
    eapply rtc_l; [apply (step_scanned [rt] true _ [] [])|].
    (* the switch is stored, its rebuild runs to the end *)
    eapply rtc_l; [apply (step_spawn_switch [rt] true _ _ (lit "a") rt true); done|].
    eapply rtc_l; [apply (step_flag [rt] true _ []); by left|].
    eapply rtc_l; [apply (step_start [rt] true _ [])|].
    eapply rtc_l; [apply (step_scan [rt] true _ [])|].
    eapply rtc_l; [apply (step_scanned [rt] true _ [])|].
    eapply rtc_l; [apply (step_publish [rt] true _ [])|].
    (* then the refresh publishes what it had computed *)
    eapply rtc_l; [apply (step_publish [rt] true _ [] [])|].
    apply rtc_refl.
  - vm_compute. reflexivity.
  - vm_compute. reflexivity.
Qed.

(** ** Decisions from the lists *)

(** Some list that is not switched off has an entry that covers [domain]. *)
Definition list_allows (rts : list ListRuntime) (h : EngineHeap) (domain : rstr) : Prop :=
  exists key l e, h_lists h !! key = Some l /\ key ∉ disabled_keys rts (h_flags h)
                  /\ allows_entry l e /\ covers e domain.
Definition list_blocks (rts : list ListRuntime) (h : EngineHeap) (domain : rstr) : Prop :=
  exists key l e, h_lists h !! key = Some l /\ key ∉ disabled_keys rts (h_flags h)
                  /\ blocks_entry l e /\ covers e domain.

Lemma snapshot_allowed_iff rts h d : fresh rts h ->
  matches_any (snap_allowed (h_snapshot h)) d = true <-> list_allows rts h d.
Proof.
  intros ->. split.
  - intros (e & (key & l & ? & ? & ?)%elem_of_snapshot_allowed & Hc)%matches_any_inv.
    by exists key, l, e.
  - intros (key & l & e & ? & ? & ? & Hc). eapply matches_any_covered; [|exact Hc].
    apply elem_of_snapshot_allowed. eauto.
Qed.

Lemma snapshot_blocked_iff rts h d : fresh rts h ->
  matches_any (snap_blocked (h_snapshot h)) d = true <-> list_blocks rts h d.
Proof.
  intros ->. split.
  - intros (e & (key & l & ? & ? & ?)%elem_of_snapshot_blocked & Hc)%matches_any_inv.
    by exists key, l, e.
  - intros (key & l & e & ? & ? & ? & Hc). eapply matches_any_covered; [|exact Hc].
    apply elem_of_snapshot_blocked. eauto.
Qed.

Lemma decide_domain_fresh rts h domain : fresh rts h ->
  let d := normalize_domain domain in
  (decide_domain h domain = FD_Allow <-> d <> [] /\ list_allows rts h d)
  /\ (decide_domain h domain = FD_Block <-> d <> [] /\ ~ list_allows rts h d /\ list_blocks rts h d).
Proof.
  intros Hf d. unfold decide_domain. fold d.
  pose proof (snapshot_allowed_iff rts h d Hf) as Ha. pose proof (snapshot_blocked_iff rts h d Hf) as Hb.
  destruct (is_empty d) eqn:He; [destruct d; naive_solver|].
  assert (d <> []) by by destruct d.
  destruct (matches_any (snap_allowed _) d), (matches_any (snap_blocked _) d); naive_solver.
Qed.

Lemma fresh_rebuild rts h : fresh rts (rebuild_snapshot rts h).
Proof. done. Qed.

Lemma elem_of_blocked_by rts h domain name :
  name ∈ blocked_by rts h domain <->
  normalize_domain domain <> []
  /\ exists rt l, rt ∈ rts /\ rt_name rt = name /\ rt_kind rt = LK_Block
       /\ rt_key rt ∉ disabled_keys rts (h_flags h) /\ h_lists h !! rt_key rt = Some l
       /\ matches_any (ld_domains l) (normalize_domain domain) = true.
Proof.
  unfold blocked_by. destruct (is_empty (normalize_domain domain)) eqn:He.
  { split; [by intros ?%not_elem_of_nil|]. intros [Hne _]. by destruct (normalize_domain domain). }
  rewrite list_elem_of_omap. split.
  - intros (rt & Hrt & Hn). split; [by destruct (normalize_domain domain)|].
    repeat case_bool_decide; try done. destruct (h_lists h !! rt_key rt) as [l|] eqn:Hl; [|done].
    destruct (matches_any _ _) eqn:Hm; [|done]. simplify_eq. by exists rt, l.
  - intros (_ & rt & l & Hrt & <- & Hk & Hd & Hl & Hm). exists rt. split; [done|].
    rewrite bool_decide_true, bool_decide_false, Hl, Hm by done. done.
Qed.

(** C2. In every settled engine state (refreshes and switches in any order, no switch
    stored during a rebuild) the decision is the one the lists call for: allowed iff
    an entry of an active allowlist, or an exception of any active list, covers the
    domain; blocked iff none does and an entry of an active blocklist covers it. *)
Theorem decide_matches_lists (rts : list ListRuntime) (h : EngineHeap) (domain : rstr) :
  reachable rts false h [] ->
  let d := normalize_domain domain in
  (decide_domain h domain = FD_Allow <-> d <> [] /\ list_allows rts h d)
  /\ (decide_domain h domain = FD_Block <-> d <> [] /\ ~ list_allows rts h d /\ list_blocks rts h d).
Proof.
  intros (_ & _ & [(D & HD & Hs)|(t & Ht%not_elem_of_nil & _)])%reachable_inv; [|done].
  apply decide_domain_fresh. unfold fresh. by rewrite Hs, HD.
Qed.

(** *** The runtimes of a configuration *)

Definition kind_prefix (k : ListKind) : rstr :=
  match k with LK_Block => lit "block:" | LK_Allow => lit "allow:" end.
Definition runtime_tagged (rt : ListRuntime) : Prop :=
  rt_key rt = kind_prefix (rt_kind rt) ++ rt_name rt.

Lemma build_runtime_tagged kind loc l rt : build_runtime kind loc l = Ok rt ->
  runtime_tagged rt /\ rt_kind rt = kind /\ rt_disabled rt = loc /\ rt_name rt = nl_name l
  /\ rt_url rt = nl_url l.
Proof.
  unfold build_runtime. intros Hr. repeat (case_match; try done); by simplify_eq/=.
Qed.

Lemma build_runtimes_tagged lists kind loc rts :
  build_runtimes lists kind loc = Ok rts -> Forall (fun rt => runtime_tagged rt /\ rt_kind rt = kind) rts.
Proof.
  unfold build_runtimes. intros Hr%collect_results_ok.
  apply Forall_forall. intros rt (i & Hi)%list_elem_of_lookup.
  assert (imap (fun i l => build_runtime kind (loc + i) l)
            (filter (fun l => list_enabled l = true) lists) !! i = Some (Ok rt)) as Hlk.
  { rewrite Hr, list_lookup_fmap, Hi. done. }
  rewrite list_lookup_imap, fmap_Some in Hlk. destruct Hlk as (l & _ & Hb).
  symmetry in Hb. apply build_runtime_tagged in Hb. naive_solver.
Qed.

Lemma config_runtimes_tagged config rts :
  config_runtimes config = Ok rts -> Forall runtime_tagged rts.
Proof.
  unfold config_runtimes. intros Hr.
  destruct (build_runtimes (cfg_blocklists config) LK_Block 0) as [b|] eqn:Hb; [|done].
  destruct (build_runtimes (cfg_allowlists config) LK_Allow (length b)) as [a|] eqn:Ha; [|done].
  simplify_eq. apply build_runtimes_tagged in Hb, Ha. apply Forall_app.
  split; (eapply Forall_impl; [eassumption|]); naive_solver.
Qed.

Lemma tagged_key_kind rt rt' :
  runtime_tagged rt -> runtime_tagged rt' -> rt_key rt = rt_key rt' -> rt_kind rt = rt_kind rt'.
Proof. unfold runtime_tagged. intros -> ->. by destruct (rt_kind rt), (rt_kind rt'). Qed.

(** C10. A blocked domain always has a culprit, and a culprit blocks: in a settled
    state of an engine built from a configuration (refreshes and switches in any order,
    no switch stored during a rebuild), a domain that is not allowed is blocked iff
    [blocked_by] names a list. *)
Theorem blocked_iff_blocked_by (config : FilterConfig) (rts : list ListRuntime) (h : EngineHeap)
    (domain : rstr) :
  config_runtimes config = Ok rts -> reachable rts false h [] ->
  decide_domain h domain <> FD_Allow ->
  decide_domain h domain = FD_Block <-> blocked_by rts h domain <> [].
Proof.
  intros Htag%config_runtimes_tagged Hr Hna. rewrite Forall_forall in Htag.
  apply reachable_inv in Hr as (_ & Hl & [(D & HD & Hs)|(t & Ht%not_elem_of_nil & _)]); [|done].
  assert (fresh rts h) as Hf by (unfold fresh; by rewrite Hs, HD).
  destruct (decide_domain_fresh rts h domain Hf) as [Ha Hb]. split.
  - intros (Hne & _ & key & l & e & Hk & Hd & [Hkind He] & Hc)%Hb Hnil.
    destruct (Hl key l Hk) as (rt & Hrt & <- & Hrk).
    apply (not_elem_of_nil (rt_name rt)). rewrite <- Hnil. apply elem_of_blocked_by.
    split; [done|]. exists rt, l. rewrite Hrk. eauto 10 using matches_any_covered.
  - intros Hne. apply Hb. destruct (blocked_by rts h domain) as [|name names] eqn:Heq; [done|].
    destruct (proj1 (elem_of_blocked_by rts h domain name)) as (Hd & rt & l & Hrt & _ & Hk & Hdis & Hlk & Hm).
    { rewrite Heq. apply list_elem_of_here. }
    split; [done|]. split; [intros Hall; apply Hna, Ha; done|].
    apply matches_any_inv in Hm as (e & He & Hc).
    destruct (Hl _ _ Hlk) as (rt' & Hrt' & Hkey & Hkind).
    exists (rt_key rt), l, e. repeat split; try done.
    rewrite <- Hkind. rewrite <- Hk. by apply tagged_key_kind; [apply Htag|apply Htag|].
Qed.

(** ** Spelling of the queried name *)

Lemma normalize_domain_lower q : normalize_domain (to_ascii_lowercase q) = normalize_domain q.
Proof.
  unfold normalize_domain. rewrite trim_lowercase. unfold trim_end_matches_char.
  rewrite trim_end_by_lowercase by (intros c; by apply char_lowercase_eqb_low).
  by rewrite lowercase_idem.
Qed.

Lemma normalize_domain_root_dot q :
  no_whitespace q -> normalize_domain (q ++ [ch "."]) = normalize_domain q.
Proof.
  intros Hq. unfold normalize_domain. rewrite !trim_no_whitespace; [|done|].
  - unfold trim_end_matches_char. by rewrite trim_end_by_snoc by apply N.eqb_refl.
  - apply Forall_app. split; [done|]. by apply Forall_singleton.
Qed.

(** The decision does not depend on how a name is written: names equal up to ASCII
    case get the same decision, and a trailing root dot changes nothing. *)
Theorem decide_ignores_spelling (h : EngineHeap) (q q' : rstr) :
  no_whitespace q -> eq_ignore_ascii_case q q' = true ->
  decide_domain h q = decide_domain h q' /\ decide_domain h (q ++ [ch "."]) = decide_domain h q.
Proof.
  intros Hw Heq. unfold eq_ignore_ascii_case, str_eqb in Heq. apply bool_decide_eq_true in Heq.
  unfold decide_domain. rewrite normalize_domain_root_dot by done.
  by rewrite <- (normalize_domain_lower q), Heq, normalize_domain_lower.
Qed.

Lemma decide_ignores_spelling_witness :
  decide_domain {| h_lists := ∅; h_flags := ∅;
                   h_snapshot := {| snap_blocked := {[lit "example.com"]}; snap_allowed := ∅ |} |}
    (lit "Ads.EXAMPLE.com") = FD_Block.
Proof.
  rewrite (proj1 (decide_ignores_spelling _ (lit "Ads.EXAMPLE.com") (lit "ads.example.com")
    ltac:(by repeat constructor) ltac:(vm_compute; reflexivity))).
  vm_compute. reflexivity.
Defined.

(** ** Switching a list off and on *)

Lemma find_runtime_Some rts name rt :
  find_runtime rts name = Some rt -> rt ∈ rts /\ rt_name rt = name.
Proof.
  unfold find_runtime. rewrite fmap_Some. intros ([i rt'] & Hf & ->). simpl.
  apply list_find_Some in Hf as (Hi & Hn & _). split; [|done]. by eapply list_elem_of_lookup_2.
Qed.

Lemma store_flag_disabled_keys rts rt h :
  rt ∈ rts -> rt_key rt ∈ disabled_keys rts (h_flags (store_flag (rt_disabled rt) true h)).
Proof.
  intros Hrt. unfold disabled_keys. apply elem_of_list_to_set, list_elem_of_fmap.
  exists rt. split; [done|]. apply list_elem_of_filter. split; [|done].
  unfold is_disabled. simpl. by rewrite lookup_insert_eq.
Qed.

(** Disabling a known list takes effect at once: the call answers [true], the lists
    are kept, whatever is still blocked is blocked by a list under another key, and
    enabling it again restores the previous state exactly; an unknown name changes
    nothing. *)
Theorem disable_enable_list (rts : list ListRuntime) (name : rstr) (h : EngineHeap) :
  fresh rts h ->
  match find_runtime rts name with
  | None => disable_list rts name h = (false, h)
  | Some rt =>
      let '(ok, h') := disable_list rts name h in
      ok = true /\ h_lists h' = h_lists h
      /\ (forall domain, decide_domain h' domain = FD_Block ->
            exists key l e, key <> rt_key rt /\ h_lists h !! key = Some l
                            /\ blocks_entry l e /\ covers e (normalize_domain domain))
      /\ (h_flags h !! rt_disabled rt = Some false -> enable_list rts name h' = (true, h))
  end.
Proof.
  intros Hf. destruct (find_runtime rts name) as [rt|] eqn:Hrt.
  2: { unfold disable_list, set_list_disabled. by rewrite Hrt. }
  destruct (find_runtime_Some _ _ _ Hrt) as [Hin Hn].
  unfold disable_list, enable_list, set_list_disabled. rewrite Hrt.
  split; [done|]. split; [done|]. split.
  - intros domain Hb. apply (decide_domain_fresh rts) in Hb; [|apply fresh_rebuild].
    destruct Hb as (_ & _ & key & l & e & Hk & Hd & He & Hc). exists key, l, e.
    split; [|done]. intros ->. apply Hd. by apply store_flag_disabled_keys.
  - intros Hflag. f_equal. destruct h as [ls sn fl]. unfold rebuild_snapshot, store_flag. simpl in *.
    rewrite insert_insert_eq, insert_id by done. f_equal. symmetry. exact Hf.
Qed.

(** ** Refreshing a list *)

Section engine_facts.
Context `{DnsName} {W : Type}.
Context (outside : Outside W) (heap : Cell W EngineHeap) (metrics : Cell W MetricsGlobal).
Context (doc_to_json : CachedListDocument -> result rstr Error)
        (doc_from_json : rstr -> result CachedListDocument Error).
Context `{!CellLaws heap}.

(** Storing a document does not touch the engine's own locations. *)
Definition store_frame (repo : FilterCacheRepository W) : Prop :=
  forall key v w, cget heap (fcr_store repo key v w).2 = cget heap w.

Lemma persist_frame e rt ds es w :
  (forall repo, e_cache_repo e = Some repo -> store_frame repo) ->
  cget heap (persist_list_document doc_to_json e rt ds es w).2 = cget heap w.
Proof.
  intros Hfr. unfold persist_list_document. destruct (e_cache_repo e) as [repo|]; [|done].
  destruct (with_context _ _); [|done]. unfold mbind.
  pose proof (Hfr repo eq_refl (rt_key rt) a w) as Hs.
  by destruct (fcr_store repo (rt_key rt) a w) as [r w'].
Qed.

(** The heap after a refresh whose download succeeded. *)
Lemma refresh_single_list_heap e rt w content w1 ds es n :
  (forall repo, e_cache_repo e = Some repo -> store_frame repo) ->
  fetch_list_content outside (rt_url rt) w = (Ok content, w1) ->
  parse_list_content content (rt_format rt) = (ds, es, n) ->
  cget heap (refresh_single_list outside heap doc_to_json e rt w).2
  = rebuild_snapshot (e_runtimes e) (insert_list (rt_key rt)
      {| ld_kind := rt_kind rt; ld_domains := ds; ld_exceptions := es |} (cget heap w1)).
Proof.
  intros Hfr Hf Hp. unfold refresh_single_list, mbind at 1. rewrite Hf, Hp.
  unfold mbind, cmodify. rewrite !cget_cput.
  match goal with |- context [persist_list_document _ e rt ds es ?x] =>
    pose proof (persist_frame e rt ds es x Hfr) as Hpf;
    destruct (persist_list_document doc_to_json e rt ds es x) end.
  simpl in *. by rewrite Hpf, cget_cput.
Qed.

Lemma parse_line_block_nonempty format line d :
  Parsed (PL_Block d) ∈ parse_line format line -> d <> [].
Proof.
  intros Hr. pose proof (parse_line_from format line) as Hall. rewrite Forall_forall in Hall.
  destruct (Hall _ Hr) as [?|(k & x & Hk & Heq)]; [done|].
  unfold normalize_domain_opt in Heq. destruct (is_empty (normalize_domain x)) eqn:He; [done|].
  destruct (name_from_ascii _); [|done]. destruct Hk; simplify_eq/=; by destruct (normalize_domain x).
Qed.

Lemma covers_nonempty e d : covers e d -> e <> [] -> d <> [].
Proof. intros [->|[p ->]]; [done|]. by destruct p. Qed.

(** C28. After a successful refresh of an enabled blocklist, every rule of the fetched
    document is effective: a query for a listed domain or any name below it is
    blocked, unless some active list allows it. *)
Theorem refresh_makes_rules_effective (e : ListFilterEngine W) (rt : ListRuntime) (w w1 : W)
    (content line d q : rstr) :
  (forall repo, e_cache_repo e = Some repo -> store_frame repo) ->
  fetch_list_content outside (rt_url rt) w = (Ok content, w1) ->
  rt_kind rt = LK_Block ->
  rt_key rt ∉ disabled_keys (e_runtimes e) (h_flags (cget heap w1)) ->
  line ∈ lines content -> Parsed (PL_Block d) ∈ parse_line (rt_format rt) line ->
  covers d (normalize_domain q) ->
  let h' := cget heap (refresh_single_list outside heap doc_to_json e rt w).2 in
  ~ list_allows (e_runtimes e) h' (normalize_domain q) ->
  decide_domain h' q = FD_Block.
Proof.
  intros Hfr Hf Hk Hen Hline Hd Hc h' Hna.
  destruct (parse_list_content content (rt_format rt)) as [[ds es] n] eqn:Hp.
  pose proof (refresh_single_list_heap e rt w content w1 ds es n Hfr Hf Hp) as Hh. fold h' in Hh.
  assert (d ∈ ds) as Hds.
  { unfold parse_list_content in Hp. rewrite foldl_collect in Hp. simplify_eq.
    rewrite elem_of_union, elem_of_blocks_of, list_elem_of_bind. left. eauto. }
  assert (fresh (e_runtimes e) h') as Hfresh by (rewrite Hh; apply fresh_rebuild).
  apply (decide_domain_fresh (e_runtimes e)); [done|].
  split; [eapply covers_nonempty; eauto using parse_line_block_nonempty|]. split; [done|].
  exists (rt_key rt), {| ld_kind := rt_kind rt; ld_domains := ds; ld_exceptions := es |}, d.
  rewrite Hh. simpl. rewrite lookup_insert_eq. by repeat split.
Qed.

(** A list survives a restart: what a refresh persisted is what the next start
    restores under the same key, with the same domains and exceptions. *)
Theorem persisted_list_is_restored (e : ListFilterEngine W) (repo : FilterCacheRepository W)
    (rt : ListRuntime) (domains exceptions : gset rstr) (w w1 : W) :
  e_cache_repo e = Some repo ->
  (forall doc v, doc_to_json doc = Ok v -> doc_from_json v = Ok doc) ->
  (forall key v w w', fcr_store repo key v w = (Ok tt, w') ->
     exists w'', fcr_load repo key w' = (Ok (Some v), w'')) ->
  persist_list_document doc_to_json e rt domains exceptions w = (Ok tt, w1) ->
  exists w2, restore_one heap metrics doc_from_json repo rt w1 = (true, w2)
    /\ h_lists (cget heap w2) !! rt_key rt
       = Some {| ld_kind := rt_kind rt; ld_domains := domains; ld_exceptions := exceptions |}.
Proof.
  intros Hrepo Hjson Hload Hp. unfold persist_list_document in Hp. rewrite Hrepo in Hp.
  destruct (doc_to_json _) as [v|] eqn:Hv; [|done]. simpl in Hp. unfold mbind, mret in Hp.
  destruct (fcr_store repo (rt_key rt) v w) as [[[]|err] w'] eqn:Hs; simpl in Hp; [|done].
  simplify_eq. apply Hload in Hs as [w'' Hs].
  unfold restore_one, mbind at 1. rewrite Hs. unfold mbind at 1, cmodify at 1.
  rewrite (Hjson _ _ Hv). simpl. rewrite bool_decide_true by done.
  unfold mbind, cmodify, mret. eexists. split; [done|]. simpl. rewrite cget_cput. simpl.
  by rewrite lookup_insert_eq, !sort_strs_set.
Qed.
End engine_facts.

(** ** Witnesses *)

Definition ex_list : NamedList :=
  {| nl_name := lit "ads"; nl_url := lit "/lists/ads"; nl_interval := Some (lit "6h");
     nl_enabled := None; nl_list_type := Some (lit "domains") |}.
Definition ex_config : FilterConfig :=
  {| cfg_blocklists := [ex_list]; cfg_allowlists := []; cfg_filtering := None |}.
Definition ex_rt : ListRuntime :=
  {| rt_key := lit "block:ads"; rt_name := lit "ads"; rt_url := lit "/lists/ads";
     rt_interval := 21600; rt_kind := LK_Block; rt_format := LF_Domains; rt_disabled := 0 |}.
Definition ex_domains : ListDomains :=
  {| ld_kind := LK_Block; ld_domains := {[lit "ads.example.com"]}; ld_exceptions := ∅ |}.
Definition ex_heap : EngineHeap :=
  rebuild_snapshot [ex_rt] (insert_list (rt_key ex_rt) ex_domains (fresh_heap [ex_rt])).

Lemma ex_config_runtimes : config_runtimes ex_config = Ok [ex_rt].
Proof. vm_compute. reflexivity. Qed.

Lemma ex_reachable : reachable [ex_rt] false ex_heap [].
Proof.
  unfold reachable.
  eapply rtc_l.
  { apply (step_spawn_refresh [ex_rt] false _ _ ex_rt (ld_domains ex_domains) ∅). by constructor. }
  eapply rtc_l; [by apply (step_insert [ex_rt] false _ [] [])|].
  eapply rtc_l; [apply (step_start [ex_rt] false _ [] [])|].
  eapply rtc_l; [apply (step_scan [ex_rt] false _ [] [])|].
  eapply rtc_l; [apply (step_scanned [ex_rt] false _ [] [])|].
  eapply rtc_l; [apply (step_publish [ex_rt] false _ [] [])|].
  apply rtc_refl.
Qed.

Lemma quiescent_snapshot_current_witness : fresh [ex_rt] ex_heap.
Proof. apply (quiescent_snapshot_current [ex_rt] false ex_heap); [exact ex_reachable|reflexivity]. Defined.

Lemma decide_matches_lists_witness :
  list_blocks [ex_rt] ex_heap (normalize_domain (lit "www.ads.example.com")).
Proof.
  apply (decide_matches_lists [ex_rt] ex_heap (lit "www.ads.example.com") ex_reachable).
  vm_compute. reflexivity.
Defined.

Lemma blocked_iff_blocked_by_witness :
  decide_domain ex_heap (lit "www.ads.example.com") = FD_Block.
Proof.
  apply (blocked_iff_blocked_by ex_config [ex_rt] ex_heap (lit "www.ads.example.com")
    ex_config_runtimes ex_reachable); vm_compute; discriminate.
Defined.

Lemma disable_enable_list_witness :
  enable_list [ex_rt] (lit "ads") (disable_list [ex_rt] (lit "ads") ex_heap).2 = (true, ex_heap).
Proof.
  apply (disable_enable_list [ex_rt] (lit "ads") ex_heap); reflexivity.
Defined.

(** A world for the examples: the heap, the counters, the stored documents. *)
Record ExWorld : Type := {
  xw_heap : EngineHeap; xw_metrics : MetricsGlobal; xw_docs : gmap rstr rstr
}.
Definition xw_heap_cell : Cell ExWorld EngineHeap :=
  {| cget := xw_heap;
     cput h w := {| xw_heap := h; xw_metrics := xw_metrics w; xw_docs := xw_docs w |} |}.
Definition xw_metrics_cell : Cell ExWorld MetricsGlobal :=
  {| cget := xw_metrics;
     cput m w := {| xw_heap := xw_heap w; xw_metrics := m; xw_docs := xw_docs w |} |}.

Lemma xw_heap_cell_laws : CellLaws xw_heap_cell.
Proof. split; [done| |done]. by intros []. Qed.

Definition xw_outside : Outside ExWorld :=
  {| http_get _ _ := mret None;
     fs_read_to_string _ := mret (Some (lit "# ads" ++ [10%N] ++ lit "Ads.example.com"));
     now := mret 0%N; gen_range _ := mret 0 |}.

Definition xw_repo : FilterCacheRepository ExWorld :=
  {| fcr_load key := fun w => (Ok (xw_docs w !! key), w);
     fcr_store key v := fun w =>
       (Ok tt, {| xw_heap := xw_heap w; xw_metrics := xw_metrics w; xw_docs := <[key := v]> (xw_docs w) |}) |}.

#[export] Instance CachedListDocument_eq_dec : EqDecision CachedListDocument.
Proof. solve_decision. Defined.
#[export] Instance ListKind_countable : Countable ListKind.
Proof.
  apply (inj_countable' (fun k => bool_decide (k = LK_Block)) (fun b => if (b : bool) then LK_Block else LK_Allow)).
  by intros [].
Defined.
#[export] Instance CachedListDocument_countable : Countable CachedListDocument.
Proof.
  apply (inj_countable' (fun d => (cd_kind d, cd_domains d, cd_exceptions d))
    (fun '(k, ds, es) => {| cd_kind := k; cd_domains := ds; cd_exceptions := es |})).
  by intros [].
Defined.

(** A document written as one character whose code is the document. *)
Definition ex_doc_to_json (d : CachedListDocument) : result rstr Error := Ok [N.pos (encode d)].
Definition ex_doc_from_json (s : rstr) : result CachedListDocument Error :=
  match s with
  | [N.pos p] => ok_or (decode p) [lit "invalid document"]
  | _ => Err [lit "invalid document"]
  end.

Lemma ex_json_roundtrip d v : ex_doc_to_json d = Ok v -> ex_doc_from_json v = Ok d.
Proof. intros [= <-]. unfold ex_doc_from_json. by rewrite decode_encode. Qed.

Definition ex_engine : ListFilterEngine ExWorld :=
  {| e_sinkhole_v4 := (0, 0, 0, 0)%N; e_sinkhole_v6 := replicate 8 0%N;
     e_runtimes := [ex_rt]; e_cache_repo := Some xw_repo |}.
Definition ex_world : ExWorld :=
  {| xw_heap := fresh_heap [ex_rt]; xw_metrics := None; xw_docs := ∅ |}.

Lemma refresh_makes_rules_effective_witness :
  decide_domain (xw_heap (@refresh_single_list text_names _ xw_outside xw_heap_cell ex_doc_to_json
    ex_engine ex_rt ex_world).2) (lit "www.ADS.example.com") = FD_Block.
Proof.
  apply (@refresh_makes_rules_effective text_names ExWorld xw_outside xw_heap_cell ex_doc_to_json
    xw_heap_cell_laws ex_engine ex_rt ex_world ex_world
    (lit "# ads" ++ [10%N] ++ lit "Ads.example.com") (lit "Ads.example.com")
    (lit "ads.example.com") (lit "www.ADS.example.com")).
  - intros repo [= <-] key v w. reflexivity.
  - reflexivity.
  - reflexivity.
  - apply (bool_decide_eq_false_1 _). vm_compute. reflexivity.
  - vm_compute. apply list_elem_of_further, list_elem_of_here.
  - vm_compute. apply list_elem_of_here.
  - right. exists (lit "www"). vm_compute. reflexivity.
  - intros Ha. apply (snapshot_allowed_iff (e_runtimes ex_engine)) in Ha; [|reflexivity].
    vm_compute in Ha. discriminate.
Defined.

Lemma persisted_list_is_restored_witness :
  exists w2, restore_one xw_heap_cell xw_metrics_cell ex_doc_from_json xw_repo ex_rt
      (@persist_list_document ExWorld ex_doc_to_json ex_engine ex_rt {[lit "ads.example.com"]} ∅ ex_world).2
    = (true, w2)
    /\ h_lists (xw_heap w2) !! rt_key ex_rt = Some ex_domains.
Proof.
  apply (@persisted_list_is_restored ExWorld xw_heap_cell xw_metrics_cell ex_doc_to_json
    ex_doc_from_json xw_heap_cell_laws ex_engine xw_repo ex_rt {[lit "ads.example.com"]} ∅ ex_world).
  - reflexivity.
  - exact ex_json_roundtrip.
  - intros key v w w' [= <-]. eexists. simpl. by rewrite lookup_insert_eq.
  - reflexivity.
Defined.
