(* ===== verification/ExampleCodec.v ===== *)
(** * A concrete codec

    An instance of [DnsCodec] that satisfies [CodecLaws], for the examples that show
    the theorems' hypotheses can be met: a message is its identifier in two bytes, a
    flag byte, and its index in a given table of messages (identifiers set to 0).
    Names are the host names of [text_names]. *)

From S2P Require Import Prelude RustStr RustNet Hickory.

Section table.
#[local] Existing Instance text_names.
Context (table : list Message).

Definition flag_byte (m : Message) : N := if msg_truncated m then 2 else 0.

Definition ex_to_vec (m : Message) : result bytes rstr :=
  match list_find (fun m' => m' = set_id 0 m) table with
  | Some (i, _) => Ok [msg_id m / 256; msg_id m mod 256; flag_byte m; N.of_nat i]%N
  | None => Err (lit "message not in the table")
  end.

Definition ex_from_vec (b : bytes) : result Message rstr :=
  match b with
  | [hi; lo; flags; i] =>
      match table !! N.to_nat i with
      | Some m =>
          if (flags =? flag_byte m)%N then Ok (set_id (hi * 256 + lo) m)
          else Err (lit "inconsistent header")
      | None => Err (lit "invalid body")
      end
  | _ => Err (lit "invalid message")
  end.

Definition ex_codec : @DnsCodec text_names :=
  @Build_DnsCodec text_names ex_from_vec ex_to_vec.

Lemma flag_byte_testbit m : N.testbit (flag_byte m) 1 = msg_truncated m.
Proof. unfold flag_byte. by destruct (msg_truncated m). Qed.

Lemma set_id_id n m : n = msg_id m -> set_id n (set_id 0 m) = m.
Proof. intros ->. by destruct m. Qed.

Lemma ex_to_vec_inv m b : ex_to_vec m = Ok b -> exists i, table !! i = Some (set_id 0 m)
  /\ b = [msg_id m / 256; msg_id m mod 256; flag_byte m; N.of_nat i]%N.
Proof.
  unfold ex_to_vec.
  destruct (list_find _ table) as [[i m']|] eqn:Hf; [|done]. intros [= <-].
  apply list_find_Some in Hf as (Hi & -> & _). by exists i.
Qed.

Lemma ex_from_vec_inv m b : ex_from_vec b = Ok m -> exists hi lo i,
  b = [hi; lo; flag_byte m; i] /\ msg_id m = (hi * 256 + lo)%N.
Proof.
  unfold ex_from_vec. destruct b as [|hi [|lo [|fl [|i [|]]]]]; try done.
  destruct (table !! N.to_nat i) as [m'|]; [|done].
  destruct (N.eqb_spec fl (flag_byte m')) as [->|]; [|done]. intros [= <-]. by exists hi, lo, i.
Qed.

Lemma ex_codec_laws : @CodecLaws text_names ex_codec.
Proof.
  split; simpl.
  - intros m b (i & _ & ->)%ex_to_vec_inv _. by eexists.
  - intros m b (i & _ & ->)%ex_to_vec_inv. exists (flag_byte m).
    split; [done|apply flag_byte_testbit].
  - intros m b (i & Hi & ->)%ex_to_vec_inv. unfold ex_from_vec. rewrite Nat2N.id, Hi.
    change (flag_byte (set_id 0 m)) with (flag_byte m). rewrite N.eqb_refl. f_equal.
    apply set_id_id. rewrite N.mul_comm. symmetry. apply N.div_mod'.
  - intros m b (hi & lo & i & -> & Hid)%ex_from_vec_inv. by eexists _, _, _.
  - intros m b (hi & lo & i & -> & Hid)%ex_from_vec_inv. exists (flag_byte m).
    split; [done|apply flag_byte_testbit].
Qed.

(** Messages of the table can be encoded under any identifier. *)
Lemma ex_to_vec_reencode b m id :
  Forall (fun m => msg_id m = 0%N) table -> ex_from_vec b = Ok m -> is_ok (ex_to_vec (set_id id m)) = true.
Proof.
  intros Hz. unfold ex_from_vec. destruct b as [|hi [|lo [|fl [|i [|]]]]]; try done.
  destruct (table !! N.to_nat i) as [m'|] eqn:Hi; [|done].
  destruct (fl =? flag_byte m')%N; [|done]. intros [= <-]. unfold ex_to_vec.
  destruct (list_find _ table) as [[j m'']|] eqn:Hf; [done|].
  apply list_find_None in Hf. rewrite Forall_forall in Hf, Hz. exfalso.
  apply list_elem_of_lookup_2 in Hi. apply (Hf m' Hi).
  specialize (Hz m' Hi). destruct m'; simpl in *; subst. done.
Qed.
End table.
