(* ===== verification/Upstream.v ===== *)
(** * Upstream resolvers

    [use_cases/upstream_resolver.rs]: the [UpstreamResolver] trait and its three
    decorators, the response cache, the instrumentation and the strategy (round
    robin, random, failover).  A resolver is a record of operations on the world; an
    awaited inner resolution may change any part of it.  [Instant] and [Duration] are
    nanoseconds; [usize] has 64 bits. *)

From S2P Require Import Prelude RustStr RustNet Outside Hickory Metrics ExampleCodec.

Inductive UpstreamResolveError : Type :=
| URE_Io (message : rstr)
| URE_Timeout
| URE_Protocol (message : rstr)
| URE_AllFailed
| URE_WithSource (resolver : rstr) (inner : UpstreamResolveError).

Definition with_source (label : rstr) (e : UpstreamResolveError) : UpstreamResolveError :=
  URE_WithSource label e.

Record UpstreamResolver (W : Type) : Type := {
  resolve : bytes -> M W (result bytes UpstreamResolveError);
  label : rstr
}.
Arguments resolve {W} _ _ _.
Arguments label {W} _.

Definition nanos_per_sec : N := 1000000000.
Definition from_secs (s : N) : N := (s * nanos_per_sec)%N.
Definition as_secs (d : N) : N := (d / nanos_per_sec)%N.

(** ** Cache settings *)

Definition DEFAULT_MAX_CACHE_ENTRIES : nat := Z.to_nat 10000.

Record ResolverCacheSettings : Type := {
  rcs_enabled : bool;
  rcs_min_ttl : option N;
  rcs_max_ttl : option N;
  rcs_max_entries : nat
}.

Definition cache_settings_default : ResolverCacheSettings :=
  {| rcs_enabled := false; rcs_min_ttl := None; rcs_max_ttl := None;
     rcs_max_entries := DEFAULT_MAX_CACHE_ENTRIES |}.

Definition validate (s : ResolverCacheSettings) : result unit rstr :=
  match rcs_min_ttl s, rcs_max_ttl s with
  | Some min_ttl, Some max_ttl =>
      if (max_ttl <? min_ttl)%N
      then Err (lit "resolvers.cache.min_ttl must be less than or equal to resolvers.cache.max_ttl")
      else Ok tt
  | _, _ => Ok tt
  end.

Definition clamp_ttl (s : ResolverCacheSettings) (ttl : N) : option N :=
  let ttl := match rcs_min_ttl s with Some min_ttl => N.max ttl min_ttl | None => ttl end in
  let ttl := match rcs_max_ttl s with Some max_ttl => N.min ttl max_ttl | None => ttl end in
  if (ttl =? 0)%N then None else Some ttl.

(** ** Cached responses *)

Record CachedResponse : Type := {
  cr_response : bytes; cr_stored_at : N; cr_expires_at : N
}.

Definition query_id (query : bytes) : N :=
  match query with hi :: lo :: _ => hi * 256 + lo | _ => 0 end%N.

Definition normalize_cache_key (query : bytes) : bytes :=
  match query with _ :: _ :: rest => 0%N :: 0%N :: rest | _ => query end.

Section cache.
Context `{DnsCodec}.

Definition scrub_response_id (response : bytes) : bytes :=
  match message_from_vec response with
  | Ok message =>
      match message_to_vec (set_id 0 message) with Ok b => b | Err _ => response end
  | Err _ => response
  end.

Definition decrement_record_ttls (age_secs : N) (records : list DnsRecord) : list DnsRecord :=
  (fun r => {| rec_name := rec_name r; rec_ttl := (rec_ttl r - age_secs)%N; rec_data := rec_data r |})
    <$> records.

(** The message of a cache hit: the client's identifier, TTLs reduced by the age. *)
Definition rehydrate_message (age : N) (client_query_id : N) (message : Message) : Message :=
  let age_secs := N.min (as_secs age) u32_max in
  let m := set_id client_query_id message in
  set_sections (msg_queries m)
    (decrement_record_ttls age_secs (msg_answers m))
    (decrement_record_ttls age_secs (msg_authorities m))
    (decrement_record_ttls age_secs (msg_additionals m)) m.

Definition rehydrate_cached_response (response : bytes) (age : N) (client_query_id : N) : bytes :=
  match message_from_vec response with
  | Ok message =>
      match message_to_vec (rehydrate_message age client_query_id message) with
      | Ok b => b
      | Err _ => response
      end
  | Err _ => response
  end.

Definition is_truncated_response (response : bytes) : bool :=
  match response !! 2 with
  | Some flags => negb (N.land flags 2 =? 0)%N
  | None => false
  end.

Fixpoint min_of (l : list N) : option N :=
  match l with
  | [] => None
  | x :: rest => Some match min_of rest with Some y => N.min x y | None => x end
  end.

Definition min_record_ttl (records : list DnsRecord) : option N :=
  min_of ((fun r => from_secs (rec_ttl r)) <$> records).

Fixpoint negative_cache_ttl_in (authorities : list DnsRecord) : option N :=
  match authorities with
  | [] => None
  | r :: rest =>
      match rec_data r with
      | RD_SOA soa => Some (from_secs (N.min (rec_ttl r) (soa_minimum soa)))
      | _ => negative_cache_ttl_in rest
      end
  end.
Definition negative_cache_ttl (message : Message) : option N :=
  negative_cache_ttl_in (msg_authorities message).

Definition cache_ttl (response : bytes) (settings : ResolverCacheSettings) : option N :=
  if is_truncated_response response then None
  else
    match message_from_vec response with
    | Err _ => None
    | Ok message =>
        let?o ttl :=
          match msg_response_code message with
          | NoError =>
              match min_record_ttl (msg_answers message) with
              | Some t => Some t
              | None => negative_cache_ttl message
              end
          | NXDomain => negative_cache_ttl message
          | _ => None
          end in
        clamp_ttl settings ttl
    end.

(** ** [CachedUpstreamResolver] *)

Abbreviation CacheEntries := (gmap (list N) CachedResponse).

(** The order in which a [HashMap] is iterated. *)
Context (iter_order : CacheEntries -> list (bytes * CachedResponse)).

Definition remove_keys (ks : list bytes) (entries : CacheEntries) : CacheEntries :=
  foldl (fun m k => delete k m) entries ks.

Definition retain_unexpired (now : N) (entries : CacheEntries) : CacheEntries :=
  filter (fun kv => (now < cr_expires_at kv.2)%N) entries.

(** [sort_by_key] with [Option<Instant>]: [None] sorts first. *)
Definition expiry_key (entries : CacheEntries) (k : bytes) : Z :=
  match entries !! k with Some v => Z.of_N (cr_expires_at v) | None => -1 end.

Definition evict_closest (max_entries : nat) (entries : CacheEntries) : CacheEntries :=
  let by_expiry := sort_by_key (expiry_key entries) (iter_order entries).*1 in
  let to_remove := size entries - max_entries / 2 in
  remove_keys (take to_remove by_expiry) entries.

Definition make_room (max_entries : nat) (now : N) (entries : CacheEntries) : CacheEntries :=
  let entries := if (max_entries <=? size entries)%nat then retain_unexpired now entries else entries in
  if (max_entries <=? size entries)%nat then evict_closest max_entries entries else entries.

Context {W : Type} (outside : Outside W) (metrics : Cell W MetricsGlobal).

Record CachedUpstreamResolver : Type := {
  cur_inner : UpstreamResolver W;
  cur_settings : ResolverCacheSettings;
  cur_entries : Cell W CacheEntries
}.

Definition cached_resolve (self : CachedUpstreamResolver) (query : bytes) :
    M W (result bytes UpstreamResolveError) :=
  let key := normalize_cache_key query in
  let client_query_id := query_id query in
  let settings := cur_settings self in
  let miss now :=
    cmodify metrics (record_cache_operation false) ;;;
    (answer <<- resolve (cur_inner self) query ;;
     match answer with
     | Err e => mret (Err e)
     | Ok response =>
         match cache_ttl response settings with
         | Some ttl =>
             cmodify (cur_entries self) (fun entries =>
               <[key := {| cr_response := scrub_response_id response; cr_stored_at := now;
                           cr_expires_at := (now + ttl)%N |}]>
                 (make_room (rcs_max_entries settings) now entries)) ;;;
             mret (Ok response)
         | None => mret (Ok response)
         end
     end) in
  t <<- now outside ;;
  entries <<- cread (cur_entries self) ;;
  match entries !! key with
  | Some entry =>
      if (t <? cr_expires_at entry)%N then
        cmodify metrics (record_cache_operation true) ;;;
        (t' <<- now outside ;;
         mret (Ok (rehydrate_cached_response (cr_response entry) (t' - cr_stored_at entry)
                     client_query_id)))
      else miss t
  | None => miss t
  end.

Definition cached_resolver (self : CachedUpstreamResolver) : UpstreamResolver W :=
  {| resolve := cached_resolve self; label := label (cur_inner self) |}.

(** ** [InstrumentedUpstreamResolver] *)

Definition error_kind (e : UpstreamResolveError) : rstr :=
  match e with
  | URE_Io _ => lit "io"
  | URE_Timeout => lit "timeout"
  | URE_Protocol _ => lit "protocol"
  | URE_AllFailed => lit "all_failed"
  | URE_WithSource _ _ => lit "protocol"
  end.

Definition instrumented_resolve (lbl : rstr) (inner : UpstreamResolver W) (query : bytes) :
    M W (result bytes UpstreamResolveError) :=
  started <<- now outside ;;
  answer <<- resolve inner query ;;
  finished <<- now outside ;;
  let error_label := match answer with Ok _ => None | Err e => Some (error_kind e) end in
  cmodify metrics (record_upstream_request lbl (finished - started)%N error_label) ;;;
  mret (map_err (with_source lbl) answer).

Definition instrumented_resolver (lbl : rstr) (inner : UpstreamResolver W) : UpstreamResolver W :=
  {| resolve := instrumented_resolve lbl inner; label := lbl |}.

(** ** [StrategyUpstreamResolver] *)

Record StrategyUpstreamResolver : Type := {
  sur_resolvers : list (UpstreamResolver W);
  sur_strategy : UpstreamStrategy;
  sur_counter : Cell W N
}.

Definition strategy_label (self : StrategyUpstreamResolver) : rstr :=
  lit "strategy:" ++ match sur_strategy self with
                     | RoundRobin => lit "roundrobin"
                     | Random => lit "random"
                     | Failover => lit "failover"
                     end
  ++ lit "[" ++ display_N (N.of_nat (length (sur_resolvers self))) ++ lit "]".

(** The failover loop over a list of resolvers, with the error seen last. *)
Fixpoint try_each (rs : list (UpstreamResolver W)) (query : bytes) (last_err : UpstreamResolveError) :
    M W (result bytes UpstreamResolveError) :=
  match rs with
  | [] => mret (Err last_err)
  | r :: rest =>
      answer <<- resolve r query ;;
      match answer with
      | Ok resp => mret (Ok resp)
      | Err e => try_each rest query e
      end
  end.

(** The loop over [i in 0..len] at index [(start + i) % len]; the index is always in
    range, an index out of range would panic. *)
Fixpoint try_from (rs : list (UpstreamResolver W)) (start : nat) (idxs : list nat) (query : bytes)
    (last_err : UpstreamResolveError) : M W (result bytes UpstreamResolveError) :=
  match idxs with
  | [] => mret (Err last_err)
  | i :: rest =>
      match rs !! ((start + i) `mod` length rs) with
      | None => mret (Err last_err)
      | Some r =>
          answer <<- resolve r query ;;
          match answer with
          | Ok resp => mret (Ok resp)
          | Err e => try_from rs start rest query e
          end
      end
  end.

Definition strategy_resolve (self : StrategyUpstreamResolver) (query : bytes) :
    M W (result bytes UpstreamResolveError) :=
  let rs := sur_resolvers self in
  let n := length rs in
  if is_empty rs then mret (Err URE_AllFailed)
  else
    match sur_strategy self with
    | RoundRobin =>
        c <<- cread (sur_counter self) ;;
        cwrite (sur_counter self) (wrapping_add_u64 c 1) ;;;
        try_from rs (N.to_nat (c `mod` N.of_nat n)) (seq 0 n) query URE_AllFailed
    | Random =>
        start <<- gen_range outside n ;;
        try_from rs start (seq 0 n) query URE_AllFailed
    | Failover => try_each rs query URE_AllFailed
    end.

Definition strategy_resolver (self : StrategyUpstreamResolver) : UpstreamResolver W :=
  {| resolve := strategy_resolve self; label := strategy_label self |}.
End cache.

(** ** Time to live *)

Section ttl_facts.
Context `{DnsCodec}.

Lemma clamp_ttl_bounds s ttl t :
  validate s = Ok tt -> clamp_ttl s ttl = Some t ->
  (0 < t)%N
  /\ (forall m, rcs_min_ttl s = Some m -> (m <= t)%N)
  /\ (forall m, rcs_max_ttl s = Some m -> (t <= m)%N)
  /\ (rcs_min_ttl s = None -> (t <= ttl)%N).
Proof.
  unfold validate, clamp_ttl. intros Hv Hc.
  destruct (N.eqb_spec (match rcs_max_ttl s with
    | Some max_ttl => N.min (match rcs_min_ttl s with Some m => N.max ttl m | None => ttl end) max_ttl
    | None => match rcs_min_ttl s with Some m => N.max ttl m | None => ttl end end) 0) as [|Hne]; [done|].
  destruct (rcs_min_ttl s) as [mn|], (rcs_max_ttl s) as [mx|]; simplify_eq;
    try (destruct (N.ltb_spec mx mn); [done|]); split_and!; intros; simplify_eq; lia.
Qed.

Lemma min_of_le l t x : min_of l = Some t -> x ∈ l -> (t <= x)%N.
Proof.
  revert t. induction l as [|y l IH]; intros t; simpl; [by intros ? ?%not_elem_of_nil|].
  intros Ht [->|Hx]%elem_of_cons; destruct (min_of l) as [z|] eqn:Hm; simplify_eq; try lia.
  - specialize (IH z eq_refl Hx). lia.
  - destruct l; [by apply not_elem_of_nil in Hx|]. simpl in Hm. done.
Qed.

Lemma min_of_Some l : l <> [] -> is_Some (min_of l).
Proof. destruct l; [done|]. intros _. by eexists. Qed.

Lemma is_truncated_testbit b :
  is_truncated_response b = match b !! 2 with Some f => N.testbit f 1 | None => false end.
Proof.
  unfold is_truncated_response. destruct (b !! 2) as [f|]; [|done].
  destruct (N.testbit f 1) eqn:Hb.
  - destruct (N.eqb_spec (N.land f 2) 0) as [Hz|]; [|done].
    assert (N.testbit (N.land f 2) 1 = true) as Ht by by rewrite N.land_spec, Hb.
    by rewrite Hz in Ht.
  - destruct (N.eqb_spec (N.land f 2) 0) as [|Hz]; [done|]. exfalso. apply Hz.
    apply N.bits_inj_0. intros i. rewrite N.land_spec.
    destruct (decide (i = 1%N)) as [->|Hi]; [by rewrite Hb|].
    replace (N.testbit 2 i) with false; [apply andb_false_r|].
    change 2%N with (2 ^ 1)%N. by rewrite N.pow2_bits_false.
Qed.

(** C21. Only a complete answer is cached, and never for too long: a response gets a
    lifetime only if it decodes, is not truncated and is NOERROR or NXDOMAIN; the
    lifetime is positive, within the configured bounds, and, when no minimum is
    configured, no longer than the TTL of any answer record. *)
Theorem cache_ttl_bounds `{!CodecLaws} (response : bytes) (s : ResolverCacheSettings) (t : N) :
  validate s = Ok tt -> cache_ttl response s = Some t ->
  exists m, message_from_vec response = Ok m
    /\ msg_truncated m = false
    /\ (msg_response_code m = NoError \/ msg_response_code m = NXDomain)
    /\ (0 < t)%N
    /\ (forall mn, rcs_min_ttl s = Some mn -> (mn <= t)%N)
    /\ (forall mx, rcs_max_ttl s = Some mx -> (t <= mx)%N)
    /\ (rcs_min_ttl s = None -> msg_response_code m = NoError ->
        forall r, r ∈ msg_answers m -> (t <= from_secs (rec_ttl r))%N).
Proof.
  intros Hv. unfold cache_ttl. rewrite is_truncated_testbit.
  destruct (match response !! 2 with Some f => N.testbit f 1 | None => false end) eqn:Htc; [done|].
  destruct (message_from_vec response) as [m|] eqn:Hm; [|done]. intros Hc. exists m. split; [done|].
  destruct (wire_decode_tc _ _ Hm) as (f & Hf & Hbit). rewrite Hf in Htc.
  split; [congruence|].
  destruct (msg_response_code m) eqn:Hrc; try done.
  - split; [by left|]. destruct (min_record_ttl (msg_answers m)) as [t0|] eqn:Hmin.
    + destruct (clamp_ttl_bounds s t0 t Hv Hc) as (? & ? & ? & Hle). split_and!; try done.
      intros Hnone _ r Hr. etrans; [by apply Hle|]. eapply min_of_le; [exact Hmin|].
      apply list_elem_of_fmap. eauto.
    + destruct (negative_cache_ttl m) as [t0|]; [|done].
      destruct (clamp_ttl_bounds s t0 t Hv Hc) as (? & ? & ? & Hle). split_and!; try done.
      intros _ _ r Hr. unfold min_record_ttl in Hmin.
      destruct (msg_answers m); [by apply not_elem_of_nil in Hr|done].
  - split; [by right|]. destruct (negative_cache_ttl m) as [t0|]; [|done].
    destruct (clamp_ttl_bounds s t0 t Hv Hc) as (? & ? & ? & Hle). by split_and!.
Qed.

(** The record after [age] in the cache. *)
Definition aged_record (age : N) (r r' : DnsRecord) : Prop :=
  rec_name r' = rec_name r /\ rec_data r' = rec_data r
  /\ rec_ttl r' = (rec_ttl r - N.min (as_secs age) u32_max)%N.

Lemma decrement_aged age rs :
  Forall2 (aged_record age) rs (decrement_record_ttls (N.min (as_secs age) u32_max) rs).
Proof. induction rs as [|r rs IH]; [constructor|]. constructor; [by repeat split|exact IH]. Qed.

(** A cache hit is the stored message with the asking client's identifier and, in
    all three record sections, each TTL reduced by the whole seconds it spent in the
    cache, down to zero. *)
Theorem rehydrate_message_exact `{!CodecLaws} (response b0 b1 : bytes) (m : Message) (age id : N) :
  message_from_vec response = Ok m ->
  message_to_vec (set_id 0 m) = Ok b0 ->
  message_to_vec (rehydrate_message age id (set_id 0 m)) = Ok b1 ->
  exists m', message_from_vec (rehydrate_cached_response (scrub_response_id response) age id) = Ok m'
    /\ msg_id m' = id
    /\ msg_response_code m' = msg_response_code m
    /\ msg_queries m' = msg_queries m
    /\ Forall2 (aged_record age) (msg_answers m) (msg_answers m')
    /\ Forall2 (aged_record age) (msg_authorities m) (msg_authorities m')
    /\ Forall2 (aged_record age) (msg_additionals m) (msg_additionals m').
Proof.
  intros Hm Hb0 Hb1. unfold scrub_response_id. rewrite Hm, Hb0.
  unfold rehydrate_cached_response. rewrite (wire_decode_encode _ _ Hb0), Hb1.
  exists (rehydrate_message age id (set_id 0 m)). split; [by apply wire_decode_encode|].
  split_and!; try done; apply decrement_aged.
Qed.
End ttl_facts.

(** ** Eviction *)

Section eviction.
Context (iter_order : gmap (list N) CachedResponse -> list (bytes * CachedResponse)).
Context (Horder : forall m, iter_order m ≡ₚ map_to_list m).

Lemma lookup_remove_keys (ks : list bytes) (m : gmap (list N) CachedResponse) (k : bytes) :
  remove_keys ks m !! k = if decide (k ∈ ks) then None else m !! k.
Proof.
  unfold remove_keys. revert m. induction ks as [|k' ks IH]; intros m; simpl; [done|].
  rewrite IH. destruct (decide (k ∈ ks)), (decide (k ∈ k' :: ks)); try done; try set_solver.
  - assert (k = k') as -> by set_solver. by rewrite lookup_delete_eq.
  - rewrite lookup_delete_ne by set_solver. done.
Qed.

Lemma remove_keys_subseteq (ks : list bytes) (m : gmap (list N) CachedResponse) : remove_keys ks m ⊆ m.
Proof.
  apply map_subseteq_spec. intros k v. rewrite lookup_remove_keys. by case_decide.
Qed.

Lemma size_remove_keys (ks : list bytes) (m : gmap (list N) CachedResponse) :
  NoDup ks -> (forall k, k ∈ ks -> is_Some (m !! k)) ->
  size (remove_keys ks m) = size m - length ks.
Proof.
  unfold remove_keys. revert m. induction ks as [|k ks IH]; intros m Hnd Hin; simpl; [lia|].
  apply NoDup_cons in Hnd as [Hk Hnd].
  rewrite IH; [|done|].
  - rewrite map_size_delete. destruct (Hin k) as [v ->]; [set_solver|]. lia.
  - intros k' Hk'. rewrite lookup_delete_ne by set_solver. apply Hin. set_solver.
Qed.

Lemma by_expiry_perm m :
  sort_by_key (expiry_key m) (iter_order m).*1 ≡ₚ (map_to_list m).*1.
Proof. rewrite sort_by_key_perm. by rewrite Horder. Qed.

Lemma by_expiry_elem m k :
  k ∈ sort_by_key (expiry_key m) (iter_order m).*1 <-> is_Some (m !! k).
Proof.
  rewrite by_expiry_perm, list_elem_of_fmap. split.
  - intros ([k' v] & -> & Hkv%elem_of_map_to_list). by eexists.
  - intros [v Hv]. exists (k, v). split; [done|]. by apply elem_of_map_to_list.
Qed.

Lemma size_evict_closest b m :
  size (evict_closest iter_order b m) = size m - (size m - b / 2).
Proof.
  unfold evict_closest.
  assert (length (sort_by_key (expiry_key m) (iter_order m).*1) = size m) as Hlen.
  { by rewrite by_expiry_perm, length_fmap, length_map_to_list. }
  rewrite size_remove_keys.
  - rewrite length_take, Hlen. lia.
  - eapply sublist_NoDup; [|apply sublist_take]. rewrite by_expiry_perm. apply NoDup_fst_map_to_list.
  - intros k Hk. apply by_expiry_elem. apply elem_of_take in Hk as (i & Hi & _).
    by eapply list_elem_of_lookup_2.
Qed.

Lemma make_room_subseteq b t m : make_room iter_order b t m ⊆ m.
Proof.
  unfold make_room, evict_closest, retain_unexpired.
  repeat case_match; try done; try apply map_filter_subseteq;
    (etrans; [apply remove_keys_subseteq|]); [apply map_filter_subseteq|done].
Qed.

(** Room is made: one more entry keeps the cache within its capacity (at least one). *)
Lemma make_room_size b t m : S (size (make_room iter_order b t m)) <= 1 `max` b.
Proof.
  unfold make_room.
  set (m' := if (b <=? size m)%nat then retain_unexpired t m else m).
  destruct (Nat.leb_spec b (size m')) as [Hle|Hlt]; [|lia].
  rewrite size_evict_closest. destruct (decide (b = 0)) as [->|Hb].
  - change (0 / 2) with 0. lia.
  - pose proof (Nat.div_lt b 2 ltac:(lia) ltac:(lia)). lia.
Qed.
End eviction.

(** ** The cache as a whole *)

Section cache_facts.
Context `{DnsCodec}.
Context (iter_order : gmap (list N) CachedResponse -> list (bytes * CachedResponse)).
Context (Horder : forall m, iter_order m ≡ₚ map_to_list m).
Context {W : Type} (outside : Outside W) (metrics : Cell W MetricsGlobal).
Context (self : CachedUpstreamResolver (W := W)).
Context `{!CellLaws (cur_entries self)}.
Context (Hframe : cell_frame metrics (cur_entries self)).

Abbreviation entries w := (cget (cur_entries self) w).

(** [answered q r] holds of every answer [r] the inner resolver gives for [q]. *)
Definition inner_answers (answered : bytes -> bytes -> Prop) : Prop :=
  forall q w r w', resolve (cur_inner self) q w = (Ok r, w') -> answered q r.

(** [P] holds of the cache across what happens outside: reading the clock and
    waiting for the inner resolver, during which other queries use the cache. *)
Definition stable (P : gmap (list N) CachedResponse -> Prop) : Prop :=
  (forall w, P (entries w) -> P (entries (now outside w).2))
  /\ (forall q w, P (entries w) -> P (entries (resolve (cur_inner self) q w).2)).

(** The entry a miss stores. *)
Definition new_entry (response : bytes) (t ttl : N) : CachedResponse :=
  {| cr_response := scrub_response_id response; cr_stored_at := t; cr_expires_at := (t + ttl)%N |}.

Definition store_answer (query response : bytes) (t ttl : N) (m : gmap (list N) CachedResponse) :=
  <[normalize_cache_key query := new_entry response t ttl]>
    (make_room iter_order (rcs_max_entries (cur_settings self)) t m).

(** The world once a hit is counted. *)
Definition count_hit (w : W) : W := cput metrics (record_cache_operation true (cget metrics w)) w.

(** One resolution: what it returns, and that it keeps any cache property that is
    stable outside and kept when a fresh answer is stored. *)
Lemma cached_resolve_inv (answered : bytes -> bytes -> Prop)
    (P : gmap (list N) CachedResponse -> Prop) query w res w' :
  inner_answers answered -> stable P ->
  (forall m response t ttl, P m -> answered query response ->
     cache_ttl response (cur_settings self) = Some ttl -> P (store_answer query response t ttl m)) ->
  cached_resolve iter_order outside metrics self query w = (res, w') ->
  P (entries w) ->
  P (entries w')
  /\ (forall r, res = Ok r -> answered query r
       \/ exists entry, P (entries (now outside w).2)
            /\ entries (now outside w).2 !! normalize_cache_key query = Some entry
            /\ ((now outside w).1 < cr_expires_at entry)%N
            /\ r = rehydrate_cached_response (cr_response entry)
                     ((now outside (count_hit (now outside w).2)).1 - cr_stored_at entry) (query_id query)).
Proof.
  intros Hanswered [Hnow Hinner] Hstore Hres HP. unfold cached_resolve in Hres.
  pose proof (Hnow w HP) as HP1.
  unfold mbind at 1 in Hres. destruct (now outside w) as [t w1]. simpl in HP1 |- *.
  unfold mbind at 1, cread in Hres.
  assert (forall res w', (cmodify metrics (record_cache_operation false) ;;;
    (answer <<- resolve (cur_inner self) query ;;
     match answer with
     | Err e => mret (Err e)
     | Ok response =>
         match cache_ttl response (cur_settings self) with
         | Some ttl => cmodify (cur_entries self) (store_answer query response t ttl) ;;; mret (Ok response)
         | None => mret (Ok response)
         end
     end)) w1 = (res, w') ->
     P (entries w') /\ (forall r, res = Ok r -> answered query r)) as Hmiss.
  { clear Hres res w'. intros res w' Hres. unfold mbind at 1, cmodify at 1 in Hres.
    unfold mbind at 1 in Hres.
    set (w2 := cput metrics _ w1) in Hres.
    assert (P (entries w2)) as HP2 by (unfold w2; by rewrite Hframe).
    pose proof (Hinner query w2 HP2) as HP3.
    destruct (resolve (cur_inner self) query w2) as [[response|e] w3] eqn:Hans; simpl in HP3.
    - apply Hanswered in Hans.
      destruct (cache_ttl response (cur_settings self)) as [ttl|] eqn:Httl; unfold mbind, cmodify, mret in Hres.
      + simplify_eq. rewrite cget_cput. split; [by apply Hstore|]. by intros r [= <-].
      + simplify_eq. split; [done|]. by intros r [= <-].
    - unfold mret in Hres. by simplify_eq. }
  destruct (entries w1 !! normalize_cache_key query) as [entry|] eqn:Hentry.
  - destruct (N.ltb_spec t (cr_expires_at entry)) as [Hlt|Hge].
    + unfold mbind at 1, cmodify at 1 in Hres. unfold mbind, mret in Hres.
      fold (count_hit w1) in Hres.
      assert (P (entries (count_hit w1))) as HP2 by (unfold count_hit; by rewrite Hframe).
      pose proof (Hnow _ HP2) as HP3. destruct (now outside (count_hit w1)) as [t' w3]. simpl in HP3.
      simplify_eq. split; [done|]. intros r [= <-]. right. exists entry. by split_and!.
    + apply Hmiss in Hres as [? Hr]. split; [done|]. intros r Hok. left. by apply Hr.
  - apply Hmiss in Hres as [? Hr]. split; [done|]. intros r Hok. left. by apply Hr.
Qed.

Definition capacity : nat := 1 `max` rcs_max_entries (cur_settings self).

(** C22. The cache never holds more entries than its configured maximum (at least one):
    a resolution keeps the bound whatever the query and the answer, provided the
    resolutions it waits for do. *)
Theorem cache_size_bounded (query : bytes) (w : W) :
  stable (fun m => size m <= capacity) ->
  size (entries w) <= capacity ->
  size (entries (cached_resolve iter_order outside metrics self query w).2) <= capacity.
Proof.
  intros Hst Hw. destruct (cached_resolve iter_order outside metrics self query w) as [res w'] eqn:Hr.
  eapply (cached_resolve_inv (fun _ _ => True) (fun m => size m <= capacity)); [done|done| |exact Hr|done].
  intros m response t ttl _ _ _. unfold store_answer, capacity.
  pose proof (make_room_size iter_order Horder (rcs_max_entries (cur_settings self)) t m).
  rewrite map_size_insert. case_match; simpl; lia.
Qed.

(** An entry of the cache is a storable answer the inner resolver gave for a query
    that differs from the key in its identifier only. *)
Definition entry_sound (answered : bytes -> bytes -> Prop) (k : bytes) (e : CachedResponse) : Prop :=
  exists q response t ttl, answered q response /\ normalize_cache_key q = k
    /\ cache_ttl response (cur_settings self) = Some ttl /\ e = new_entry response t ttl.
Definition cache_sound (answered : bytes -> bytes -> Prop) (m : gmap (list N) CachedResponse) : Prop :=
  map_Forall (entry_sound answered) m.

(** C3. The cache is transparent: a query is answered either by the inner resolver's
    answer to it, or by that resolver's answer to a query that differs in nothing but
    the identifier, which the cache holds and whose lifetime has not passed when the
    clock is read, aged by the time since it was stored and re-labelled for the client;
    and the cache keeps only such answers. *)
Theorem cache_is_transparent (answered : bytes -> bytes -> Prop) (query : bytes) (w : W)
    (res : result bytes UpstreamResolveError) (w' : W) :
  inner_answers answered -> stable (cache_sound answered) -> cache_sound answered (entries w) ->
  cached_resolve iter_order outside metrics self query w = (res, w') ->
  cache_sound answered (entries w')
  /\ forall r, res = Ok r ->
       answered query r
       \/ exists q response stored ttl,
            answered q response /\ normalize_cache_key q = normalize_cache_key query
            /\ cache_ttl response (cur_settings self) = Some ttl
            /\ entries (now outside w).2 !! normalize_cache_key query = Some (new_entry response stored ttl)
            /\ ((now outside w).1 < stored + ttl)%N
            /\ r = rehydrate_cached_response (scrub_response_id response)
                     ((now outside (count_hit (now outside w).2)).1 - stored) (query_id query).
Proof.
  intros Hin Hst Hw Hr.
  destruct (cached_resolve_inv answered (cache_sound answered) query w res w' Hin Hst)
    as [Hs Hres]; [|done|done|].
  - intros m response t ttl Hm Ha Httl. apply map_Forall_insert_2.
    + by exists query, response, t, ttl.
    + intros k e Hk. apply Hm. eapply lookup_weaken; [exact Hk|by apply make_room_subseteq].
  - split; [done|]. intros r Hok. destruct (Hres r Hok) as [?|(e & Hw1 & He & Ht & ->)]; [by left|].
    right. destruct (Hw1 _ _ He) as (q & response & stored & ttl & Ha & Hk & Httl & ->).
    by exists q, response, stored, ttl.
Qed.
End cache_facts.

(** ** Strategies *)

Section strategy_facts.
Context {W : Type} (outside : Outside W).

Definition rotate_list {A} (start : nat) (l : list A) : list A := drop start l ++ take start l.

(** The indices [(start + i) mod n] walk through the rotated list. *)
Lemma rotate_lookup {A} (l : list A) start i :
  start < length l -> i < length l -> l !! ((start + i) `mod` length l) = rotate_list start l !! i.
Proof.
  intros Hs Hi. unfold rotate_list. destruct (decide (start + i < length l)) as [Hlt|Hge].
  - rewrite Nat.mod_small by done. rewrite lookup_app_l by (rewrite length_drop; lia).
    by rewrite lookup_drop.
  - rewrite lookup_app_r by (rewrite length_drop; lia). rewrite length_drop.
    assert ((start + i) `mod` length l = start + i - length l) as ->.
    { symmetry. apply (Nat.mod_unique _ _ 1); lia. }
    rewrite lookup_take_lt by lia. f_equal. lia.
Qed.

Lemma try_from_suffix (rs : list (UpstreamResolver W)) start k query e w :
  start < length rs -> k <= length rs ->
  try_from rs start (seq k (length rs - k)) query e w
  = try_each (drop k (rotate_list start rs)) query e w.
Proof.
  intros Hs. remember (length rs - k) as n eqn:Hn. revert k e w Hn.
  assert (length (rotate_list start rs) = length rs) as Hlen.
  { unfold rotate_list. rewrite length_app, length_drop, length_take. lia. }
  induction n as [|n IH]; intros k e w Hn Hk; simpl.
  - by rewrite drop_ge by lia.
  - rewrite rotate_lookup by lia.
    destruct (lookup_lt_is_Some_2 (rotate_list start rs) k) as [r Hr]; [lia|].
    rewrite Hr, (drop_S _ _ _ Hr). simpl. unfold mbind.
    destruct (resolve r query w) as [[resp|err] w']; [done|]. apply IH; lia.
Qed.

Lemma try_from_rotate (rs : list (UpstreamResolver W)) start query e w :
  start < length rs ->
  try_from rs start (seq 0 (length rs)) query e w = try_each (rotate_list start rs) query e w.
Proof.
  intros Hs. pose proof (try_from_suffix rs start 0 query e w Hs) as Ht.
  rewrite Nat.sub_0_r, drop_0 in Ht. apply Ht. lia.
Qed.

(** C16. Every strategy is failover over some order of the same resolvers: the given
    order, the one rotated to the drawn index, or the one rotated to the shared
    counter, which advances by one (modulo 2^64) per query. *)
Theorem strategy_is_rotated_failover (self : StrategyUpstreamResolver (W := W)) (query : bytes) (w : W) :
  sur_resolvers self <> [] ->
  (forall n w, 0 < n -> (gen_range outside n w).1 < n) ->
  let rs := sur_resolvers self in
  strategy_resolve outside self query w
  = match sur_strategy self with
    | Failover => try_each rs query URE_AllFailed w
    | Random =>
        let '(start, w1) := gen_range outside (length rs) w in
        try_each (rotate_list start rs) query URE_AllFailed w1
    | RoundRobin =>
        let c := cget (sur_counter self) w in
        try_each (rotate_list (N.to_nat (c mod N.of_nat (length rs))) rs) query URE_AllFailed
          (cput (sur_counter self) (wrapping_add_u64 c 1) w)
    end.
Proof.
  intros Hne Hrng rs. unfold strategy_resolve. fold rs.
  assert (0 < length rs) as Hpos by (subst rs; destruct (sur_resolvers self); simpl; [done|lia]).
  assert (is_empty rs = false) as -> by (unfold rs; by destruct (sur_resolvers self)).
  destruct (sur_strategy self); [| |done].
  - unfold mbind, cread, cwrite. apply try_from_rotate.
    pose proof (N.mod_lt (cget (sur_counter self) w) (N.of_nat (length rs))). lia.
  - unfold mbind. pose proof (Hrng (length rs) w Hpos) as Hlt.
    destruct (gen_range outside (length rs) w) as [start w1]. by apply try_from_rotate.
Qed.

(** All resolvers of a list fail one after the other, the last error being [e]. *)
Inductive all_fail (query : bytes) : list (UpstreamResolver W) -> UpstreamResolveError -> W ->
    UpstreamResolveError -> W -> Prop :=
| all_fail_nil e w : all_fail query [] e w e w
| all_fail_cons r rs e0 w e w1 e' w' :
    resolve r query w = (Err e, w1) -> all_fail query rs e w1 e' w' ->
    all_fail query (r :: rs) e0 w e' w'.

(** Failover asks the resolvers in order, each at most once: it returns the first
    success, all earlier ones having failed; it reports an error only after every
    resolver failed, and then the last one's error. *)
Theorem failover_first_success (rs : list (UpstreamResolver W)) (query : bytes)
    (e0 : UpstreamResolveError) (w : W) :
  match try_each rs query e0 w with
  | (Ok resp, w') =>
      exists pre r post e1 w1, rs = pre ++ r :: post /\ all_fail query pre e0 w e1 w1
        /\ resolve r query w1 = (Ok resp, w')
  | (Err e, w') => all_fail query rs e0 w e w'
  end.
Proof.
  revert e0 w. induction rs as [|r rs IH]; intros e0 w; simpl; [constructor|].
  unfold mbind. destruct (resolve r query w) as [[resp|e] w1] eqn:Hr.
  - exists [], r, rs, e0, w. split; [done|]. split; [constructor|done].
  - specialize (IH e w1). destruct (try_each rs query e w1) as [[resp|e'] w'].
    + destruct IH as (pre & r' & post & e1 & w2 & -> & Hf & Hok).
      exists (r :: pre), r', post, e1, w2. split; [done|]. split; [by econstructor|done].
    + by econstructor.
Qed.

Lemma fmap_lookup_seq {A} (l : list A) : (fun i => l !! i) <$> seq 0 (length l) = Some <$> l.
Proof.
  apply list_eq. intros i. rewrite !list_lookup_fmap.
  destruct (decide (i < length l)) as [Hlt|Hge].
  - rewrite lookup_seq_lt by done. simpl.
    by destruct (lookup_lt_is_Some_2 l i Hlt) as [x ->].
  - rewrite lookup_seq_ge, lookup_ge_None_2 by lia. done.
Qed.

(** Over [n] consecutive values of the counter each resolver is first exactly once. *)
Lemma rotations_fair (rs : list (UpstreamResolver W)) (c : N) :
  rs <> [] ->
  (fun i => head (rotate_list (N.to_nat ((c + N.of_nat i) mod N.of_nat (length rs))) rs))
    <$> seq 0 (length rs) ≡ₚ Some <$> rs.
Proof.
  intros Hne. set (n := length rs). set (s := N.to_nat (c mod N.of_nat n)).
  assert (0 < n) as Hn by (subst n; destruct rs; simpl; [done|lia]).
  assert (s < n) as Hs by (pose proof (N.mod_lt c (N.of_nat n)); lia).
  transitivity (Some <$> rotate_list s rs).
  2: { apply fmap_Permutation. unfold rotate_list. rewrite Permutation_app_comm. by rewrite take_drop. }
  apply Permutation_refl'. etrans; [|apply fmap_lookup_seq].
  assert (length (rotate_list s rs) = n) as ->.
  { unfold rotate_list. rewrite length_app, length_drop, length_take. lia. }
  apply list_fmap_ext. intros j i Hi. apply lookup_seq in Hi as [-> Hj]. simpl.
  rewrite <- rotate_lookup by done. fold n.
  assert (N.to_nat ((c + N.of_nat j) mod N.of_nat n) = (s + j) `mod` n) as ->.
  { subst s. rewrite <- (Nat2N.id j) at 2. rewrite <- N2Nat.inj_add.
    rewrite <- (Nat2N.id n) at 3. rewrite <- N2Nat.inj_mod. f_equal.
    by rewrite N.Div0.add_mod_idemp_l. }
  destruct (lookup_lt_is_Some_2 rs ((s + j) `mod` n)) as [r Hr]; [apply Nat.mod_upper_bound; lia|].
  unfold rotate_list. by rewrite (drop_S _ _ _ Hr), Hr.
Qed.
(** The first choice of each of a sequence of queries handled one after the other. *)
Fixpoint first_choices (self : StrategyUpstreamResolver (W := W)) (queries : list bytes) (w : W) :
    list (option (UpstreamResolver W)) :=
  match queries with
  | [] => []
  | q :: rest =>
      let rs := sur_resolvers self in
      head (rotate_list (N.to_nat (cget (sur_counter self) w mod N.of_nat (length rs))) rs)
      :: first_choices self rest (strategy_resolve outside self q w).2
  end.

Lemma try_each_keeps {S} (cell : Cell W S) rs query e w :
  Forall (fun r => forall q w, cget cell (resolve r q w).2 = cget cell w) rs ->
  cget cell (try_each rs query e w).2 = cget cell w.
Proof.
  intros Hall. revert e w. induction Hall as [|r rs Hr Hall IH]; intros e w; simpl; [done|].
  unfold mbind. specialize (Hr query w). destruct (resolve r query w) as [[resp|err] w1]; [done|].
  by rewrite IH.
Qed.

Lemma first_choices_counter (self : StrategyUpstreamResolver (W := W)) `{!CellLaws (sur_counter self)}
    queries w c :
  sur_strategy self = RoundRobin -> sur_resolvers self <> [] ->
  Forall (fun r => forall q w, cget (sur_counter self) (resolve r q w).2 = cget (sur_counter self) w)
    (sur_resolvers self) ->
  cget (sur_counter self) w = c -> (c + N.of_nat (length queries) <= u64_modulus)%N ->
  let rs := sur_resolvers self in
  first_choices self queries w
  = (fun i => head (rotate_list (N.to_nat ((c + N.of_nat i) mod N.of_nat (length rs))) rs))
      <$> seq 0 (length queries).
Proof.
  intros Hst Hne Hkeep Hc Hb rs. revert w c Hc Hb. induction queries as [|q queries IH]; intros w c Hc Hb; [done|].
  cbn [first_choices length seq]. rewrite fmap_cons, <- fmap_S_seq, <- list_fmap_compose.
  rewrite Hc, N.add_0_r. f_equal.
  destruct queries as [|q' queries]; [done|]. rewrite (IH _ (c + 1)%N).
  - apply list_fmap_ext. intros _ i _. simpl. fold rs. do 4 f_equal. lia.
  - unfold strategy_resolve. rewrite Hst. fold rs.
    assert (0 < length rs) as Hpos by (subst rs; destruct (sur_resolvers self); simpl; [done|lia]).
    assert (is_empty rs = false) as -> by (unfold rs; by destruct (sur_resolvers self)).
    unfold mbind, cread, cwrite. rewrite Hc.
    rewrite try_from_rotate by (pose proof (N.mod_lt c (N.of_nat (length rs))); lia).
    rewrite try_each_keeps.
    + rewrite cget_cput. unfold wrapping_add_u64. apply N.mod_small. simpl in Hb. lia.
    + unfold rotate_list. rewrite Permutation_app_comm, take_drop. exact Hkeep.
  - simpl in *. lia.
Qed.

(** Round robin is fair: while the resolvers leave the counter alone and it does not
    pass its maximum, [n] queries in a row on [n] resolvers ask each of them first
    exactly once, whatever they answer. *)
Theorem round_robin_is_fair (self : StrategyUpstreamResolver (W := W)) `{!CellLaws (sur_counter self)}
    (queries : list bytes) (w : W) :
  sur_strategy self = RoundRobin -> sur_resolvers self <> [] ->
  Forall (fun r => forall q w, cget (sur_counter self) (resolve r q w).2 = cget (sur_counter self) w)
    (sur_resolvers self) ->
  length queries = length (sur_resolvers self) ->
  (cget (sur_counter self) w + N.of_nat (length queries) <= u64_modulus)%N ->
  first_choices self queries w ≡ₚ Some <$> sur_resolvers self.
Proof.
  intros Hst Hne Hkeep Hlen Hb. rewrite (first_choices_counter self queries w _ Hst Hne Hkeep eq_refl Hb).
  rewrite Hlen. by apply rotations_fair.
Qed.
End strategy_facts.

(** ** Witnesses *)

Module Examples.
#[local] Existing Instance text_names.

(** A world with a response cache, the counters and a round-robin position. *)
Record World : Type := {
  w_entries : gmap (list N) CachedResponse; w_metrics : MetricsGlobal; w_counter : N
}.
Definition entries_cell : Cell World (gmap (list N) CachedResponse) :=
  {| cget := w_entries;
     cput e w := {| w_entries := e; w_metrics := w_metrics w; w_counter := w_counter w |} |}.
Definition metrics_cell : Cell World MetricsGlobal :=
  {| cget := w_metrics;
     cput m w := {| w_entries := w_entries w; w_metrics := m; w_counter := w_counter w |} |}.
Definition counter_cell : Cell World N :=
  {| cget := w_counter;
     cput c w := {| w_entries := w_entries w; w_metrics := w_metrics w; w_counter := c |} |}.

#[export] Instance entries_cell_laws : CellLaws entries_cell.
Proof. split; [done| |done]. by intros []. Qed.

Definition world0 : World := {| w_entries := ∅; w_metrics := None; w_counter := 4 |}.
Definition outside0 : Outside World :=
  {| http_get _ _ := mret None; fs_read_to_string _ := mret None;
     now := mret 5%N; gen_range n := mret 0 |}.

Definition answer : Message :=
  set_sections [{| q_name := lit "a.example."; q_type := RT_A; q_class := 1 |}]
    [{| rec_name := lit "a.example."; rec_ttl := 300; rec_data := RD_A (192, 0, 2, 1)%N |}] [] []
    (message_new 7 MT_Response OC_Query).

Definition codec : DnsCodec :=
  ex_codec [set_id 0 answer; set_id 0 (rehydrate_message (from_secs 10) 99 answer)].
#[local] Existing Instance codec.
Lemma codec_laws : CodecLaws.
Proof. apply ex_codec_laws. Qed.

Definition bytes_of (m : Message) : bytes :=
  match message_to_vec m with Ok b => b | Err _ => [] end.

Definition inner : UpstreamResolver World :=
  {| resolve _ := mret (Ok (bytes_of answer)); label := lit "inner" |}.
Definition settings : ResolverCacheSettings :=
  {| rcs_enabled := true; rcs_min_ttl := None; rcs_max_ttl := Some (from_secs 60);
     rcs_max_entries := 2 |}.
Definition cached : CachedUpstreamResolver (W := World) :=
  {| cur_inner := inner; cur_settings := settings; cur_entries := entries_cell |}.

Lemma cache_ttl_bounds_witness : (0 < from_secs 60)%N.
Proof.
  destruct (@cache_ttl_bounds text_names codec codec_laws (bytes_of answer) settings (from_secs 60))
    as (m & _ & _ & _ & Hpos & _); [reflexivity|vm_compute; reflexivity|exact Hpos].
Defined.

Lemma rehydrate_message_exact_witness :
  exists m', message_from_vec
      (rehydrate_cached_response (scrub_response_id (bytes_of answer)) (from_secs 10) 99) = Ok m'
    /\ msg_id m' = 99%N.
Proof.
  destruct (@rehydrate_message_exact text_names codec codec_laws (bytes_of answer)
    (bytes_of (set_id 0 answer)) (bytes_of (rehydrate_message (from_secs 10) 99 (set_id 0 answer)))
    answer (from_secs 10) 99) as (m' & Hm & Hid & _).
  - vm_compute. reflexivity.
  - vm_compute. reflexivity.
  - vm_compute. reflexivity.
  - exists m'. split; [exact Hm|exact Hid].
Defined.

Lemma cache_size_bounded_witness :
  size (w_entries (cached_resolve map_to_list outside0 metrics_cell cached [0; 1; 2]%N world0).2) <= 2.
Proof.
  apply (cache_size_bounded map_to_list (fun m => reflexivity _) outside0 metrics_cell cached
    (fun _ _ => eq_refl) [0; 1; 2]%N world0).
  - split; [intros w Hw|intros q w Hw]; exact Hw.
  - vm_compute. lia.
Defined.

Lemma cache_is_transparent_witness :
  cache_sound cached (fun _ r => r = bytes_of answer)
    (w_entries (cached_resolve map_to_list outside0 metrics_cell cached [0; 1; 2]%N world0).2).
Proof.
  eapply (cache_is_transparent map_to_list (fun m => reflexivity _) outside0 metrics_cell cached (fun _ _ => eq_refl)
    (fun _ r => r = bytes_of answer) [0; 1; 2]%N world0).
  - intros q w r w' [= <- _]. reflexivity.
  - split; [intros w Hw|intros q w Hw]; exact Hw.
  - intros k e He. simpl in He. rewrite lookup_empty in He. discriminate.
  - apply surjective_pairing.
Defined.

Definition pool : StrategyUpstreamResolver (W := World) :=
  {| sur_resolvers := [inner; inner; inner]; sur_strategy := RoundRobin; sur_counter := counter_cell |}.

Lemma strategy_is_rotated_failover_witness :
  strategy_resolve outside0 pool [0; 1]%N world0
  = try_each (rotate_list 1 [inner; inner; inner]) [0; 1]%N URE_AllFailed
      (cput counter_cell 5%N world0).
Proof.
  apply (strategy_is_rotated_failover outside0 pool [0; 1]%N world0).
  - discriminate.
  - intros n w Hn. exact Hn.
Defined.

#[export] Instance counter_cell_laws : CellLaws counter_cell.
Proof. split; [done| |done]. by intros []. Qed.

Lemma round_robin_is_fair_witness :
  first_choices outside0 pool [[0]; [1]; [2]]%N world0 ≡ₚ Some <$> [inner; inner; inner].
Proof.
  apply (round_robin_is_fair outside0 pool [[0]; [1]; [2]]%N world0).
  - reflexivity.
  - discriminate.
  - repeat constructor.
  - reflexivity.
  - vm_compute. discriminate.
Defined.
End Examples.
