(* ===== verification/Pipeline.v ===== *)
(** * The request pipeline

    [use_cases/request_pipeline.rs]: a chain of stages, each of which answers a DNS
    request or passes it on, and the stages for filtering, the ANY policy, upstream
    resolution and the final SERVFAIL.  A stage acts on the world; the switch that
    turns filtering on and off is a cell shared with the control interfaces. *)

From S2P Require Import Prelude RustStr RustNet Outside Hickory Metrics ExampleCodec Upstream.

(** ** Chains of stages *)

(** [PipelineHandler::handle_request]: synchronous stages. *)
Fixpoint pipeline_handle_request {Req Resp} (stages : list (Req -> option Resp)) (request : Req) :
    option Resp :=
  match stages with
  | [] => None
  | stage :: rest =>
      match stage request with
      | Some response => Some response
      | None => pipeline_handle_request rest request
      end
  end.

Definition AsyncRequestStage (W Req Resp E : Type) : Type := Req -> M W (result (option Resp) E).

Record AsyncPipelineHandler (W Req Resp E : Type) : Type := {
  stages : list (AsyncRequestStage W Req Resp E)
}.
Arguments stages {W Req Resp E} _.

Definition pipeline_default {W Req Resp E} : AsyncPipelineHandler W Req Resp E :=
  {| stages := [] |}.

Definition add_stage {W Req Resp E} (stage : AsyncRequestStage W Req Resp E)
    (p : AsyncPipelineHandler W Req Resp E) : AsyncPipelineHandler W Req Resp E :=
  {| stages := stages p ++ [stage] |}.

(** [AsyncPipelineHandler::handle_request]: the first answer wins, an error stops. *)
Fixpoint run_stages {W Req Resp E} (ss : list (AsyncRequestStage W Req Resp E)) (request : Req) :
    M W (result (option Resp) E) :=
  match ss with
  | [] => mret (Ok None)
  | stage :: rest =>
      r <<- stage request ;;
      match r with
      | Err e => mret (Err e)
      | Ok (Some response) => mret (Ok (Some response))
      | Ok None => run_stages rest request
      end
  end.
Definition handle_request {W Req Resp E} (p : AsyncPipelineHandler W Req Resp E) (request : Req) :
    M W (result (option Resp) E) := run_stages (stages p) request.

(** ** Requests and responses *)

Record DnsPipelineRequest : Type := { pr_query : bytes; pr_client_query_id : N }.

Definition pipeline_request_new (query : bytes) : DnsPipelineRequest :=
  {| pr_query := query;
     pr_client_query_id := match query with hi :: lo :: _ => hi * 256 + lo | _ => 0 end%N |}.

Record DnsPipelineResponse : Type := { pipeline_response_bytes : bytes }.

Inductive DnsPipelineError : Type := DPE_Upstream (e : UpstreamResolveError).

Inductive AnyQueryPolicy : Type := AQP_Passthrough | AQP_Refused | AQP_NotImp.
#[export] Instance AnyQueryPolicy_eq_dec : EqDecision AnyQueryPolicy.
Proof. solve_decision. Defined.

(** [DomainFilter]: what the filter stage asks of a filter; it reads the world. *)
Record DomainFilter (W : Type) : Type := {
  df_decide : rstr -> W -> FilterDecision;
  df_blocked_by : rstr -> W -> list rstr;
  df_sinkhole_ipv4 : Ipv4Addr;
  df_sinkhole_ipv6 : Ipv6Addr
}.
Arguments df_decide {W} _ _ _.
Arguments df_blocked_by {W} _ _ _.
Arguments df_sinkhole_ipv4 {W} _.
Arguments df_sinkhole_ipv6 {W} _.

Section responses.
Context `{DnsCodec}.

(** [to_vec().unwrap_or_default()]. *)
Definition encode_or_empty (m : Message) : bytes :=
  match message_to_vec m with Ok b => b | Err _ => [] end.

Definition make_a_record (name : Name) (addr : Ipv4Addr) : DnsRecord :=
  {| rec_name := name; rec_ttl := 60; rec_data := RD_A addr |}.
Definition make_aaaa_record (name : Name) (addr : Ipv6Addr) : DnsRecord :=
  {| rec_name := name; rec_ttl := 60; rec_data := RD_AAAA addr |}.

Definition sinkhole_message (query : Message) (v4 : Ipv4Addr) (v6 : Ipv6Addr) : Message :=
  let response := set_flags false (msg_recursion_desired query) true NoError
                    (message_new (msg_id query) MT_Response OC_Query) in
  let response := foldl (fun m q => add_query q m) response (msg_queries query) in
  match first_query query with
  | Some question =>
      let name := q_name question in
      match q_type question with
      | RT_A => add_answer (make_a_record name v4) response
      | RT_AAAA => add_answer (make_aaaa_record name v6) response
      | RT_ANY => add_answer (make_aaaa_record name v6) (add_answer (make_a_record name v4) response)
      | _ => response
      end
  | None => response
  end.

Definition build_sinkhole_response (query : Message) (v4 : Ipv4Addr) (v6 : Ipv6Addr) : bytes :=
  encode_or_empty (sinkhole_message query v4 v6).

Definition error_message (query_bytes : bytes) (response_code : ResponseCode) : Message :=
  let response := set_flags false false true response_code (message_new 0 MT_Response OC_Query) in
  match message_from_vec query_bytes with
  | Ok query =>
      foldl (fun m q => add_query q m)
        (set_flags false (msg_recursion_desired query) true response_code (set_id (msg_id query) response))
        (msg_queries query)
  | Err _ => response
  end.

Definition build_error_response (query_bytes : bytes) (response_code : ResponseCode) : bytes :=
  encode_or_empty (error_message query_bytes response_code).
Definition build_servfail_response (query_bytes : bytes) : bytes :=
  build_error_response query_bytes ServFail.
Definition build_nodata_response (query_bytes : bytes) : bytes :=
  build_error_response query_bytes NoError.

Fixpoint is_dnssec_nodata_protocol_error (e : UpstreamResolveError) : bool :=
  match e with
  | URE_Protocol message => contains (lit "Dns(Nsec") message || contains (lit "Nsec {") message
  | URE_WithSource _ inner => is_dnssec_nodata_protocol_error inner
  | _ => false
  end.

(** The message with the client's identifier, re-encoded; the bytes as they are if
    they do not decode or the message does not encode. *)
Definition fix_response_id (response : bytes) (client_query_id : N) : bytes :=
  match message_from_vec response with
  | Ok message =>
      match message_to_vec (set_id client_query_id message) with Ok b => b | Err _ => response end
  | Err _ => response
  end.

(** ** Stages *)

Context {W : Type} (metrics : Cell W MetricsGlobal).

Abbreviation DnsStage := (AsyncRequestStage W DnsPipelineRequest DnsPipelineResponse DnsPipelineError).
Abbreviation DnsRequestPipeline :=
  (AsyncPipelineHandler W DnsPipelineRequest DnsPipelineResponse DnsPipelineError).

Definition respond (b : bytes) : M W (result (option DnsPipelineResponse) DnsPipelineError) :=
  mret (Ok (Some {| pipeline_response_bytes := b |})).
Definition pass : M W (result (option DnsPipelineResponse) DnsPipelineError) := mret (Ok None).

Definition filter_stage (domain_filter : DomainFilter W) (filtering_enabled : Cell W bool) : DnsStage :=
  fun request =>
    enabled <<- cread filtering_enabled ;;
    if negb enabled then cmodify metrics (record_dns_query Passthrough) ;;; pass
    else
      match message_from_vec (pr_query request) with
      | Err _ => pass
      | Ok message =>
          match first_query message with
          | None => pass
          | Some q =>
              let domain := name_to_ascii (q_name q) in
              fun w =>
                match df_decide domain_filter domain w with
                | FD_Allow => (cmodify metrics (record_dns_query Allowed) ;;; pass) w
                | FD_Neutral => (cmodify metrics (record_dns_query Passthrough) ;;; pass) w
                | FD_Block =>
                    let blocked_by := df_blocked_by domain_filter domain w in
                    (cmodify metrics (record_dns_query Blocked) ;;;
                     (cmodify metrics (record_blocklist_hit blocked_by) ;;;
                      respond (build_sinkhole_response message
                        (df_sinkhole_ipv4 domain_filter) (df_sinkhole_ipv6 domain_filter)))) w
                end
          end
      end.

Definition upstream_stage (upstream_resolver : UpstreamResolver W) : DnsStage :=
  fun request =>
    answer <<- resolve upstream_resolver (pr_query request) ;;
    match answer with
    | Err e =>
        if is_dnssec_nodata_protocol_error e
        then respond (build_nodata_response (pr_query request))
        else respond (build_servfail_response (pr_query request))
    | Ok response => respond (fix_response_id response (pr_client_query_id request))
    end.

Definition any_query_policy_stage (policy : AnyQueryPolicy) : DnsStage :=
  fun request =>
    if bool_decide (policy = AQP_Passthrough) then pass
    else
      match message_from_vec (pr_query request) with
      | Err _ => pass
      | Ok message =>
          match first_query message with
          | None => pass
          | Some q =>
              if bool_decide (q_type q <> RT_ANY) then pass
              else
                match policy with
                | AQP_Passthrough => pass
                | AQP_Refused => respond (build_error_response (pr_query request) Refused)
                | AQP_NotImp => respond (build_error_response (pr_query request) NotImp)
                end
          end
      end.

Definition servfail_fallback_stage : DnsStage :=
  fun request => respond (build_servfail_response (pr_query request)).
End responses.
