(* ===== verification/ZoneForwarding.v ===== *)
(** * Zone forwarding and the assembled pipeline

    [use_cases/zone_forwarding.rs]: zones with their own resolver, tried longest
    suffix first, before the filter (bypass) or after it; and the pipeline built from
    all stages by [build_dns_request_pipeline_full] of [use_cases/config_bootstrap.rs]. *)

From S2P Require Import Prelude RustStr RustNet Outside Hickory Metrics ListParsers ExampleCodec Upstream Pipeline.

(** ** Records of a zone, as search results show them ([zone_authority.rs]) *)

Record ZoneRecord : Type := {
  zr_name : rstr; zr_record_type : rstr; zr_ttl : N; zr_data : rstr; zr_zone : rstr
}.

(** [ZoneSearchable]: introspection of a zone; it reads the world. *)
Record ZoneSearchable (W : Type) : Type := {
  zs_zone_name : W -> rstr;
  zs_record_count : W -> nat;
  zs_list_records : option rstr -> W -> list ZoneRecord;
  zs_search_records : rstr -> option rstr -> nat -> W -> list (ZoneRecord * Z)
}.
Arguments zs_zone_name {W} _ _.
Arguments zs_record_count {W} _ _.
Arguments zs_list_records {W} _ _ _.
Arguments zs_search_records {W} _ _ _ _ _.

(** ** Zone entries *)

Record ZoneEntry (W : Type) : Type := {
  ze_zone : rstr;
  ze_bypass_filter : bool;
  ze_fallback_to_default_resolvers : bool;
  ze_resolver : UpstreamResolver W;
  ze_searchable : option (ZoneSearchable W)
}.
Arguments ze_zone {W} _.
Arguments ze_bypass_filter {W} _.
Arguments ze_fallback_to_default_resolvers {W} _.
Arguments ze_resolver {W} _.
Arguments ze_searchable {W} _.

Definition normalize_zone (value : rstr) : option rstr :=
  let trimmed := trim_end_matches_char (ch ".") (trim value) in
  if is_empty trimmed then
    if str_eqb (trim value) (lit ".") then Some (lit ".") else None
  else Some (to_ascii_lowercase trimmed).

Definition domain_matches_zone (domain zone : rstr) : bool :=
  if str_eqb zone (lit ".") then true
  else str_eqb domain zone
       || match strip_suffix zone domain with
          | Some prefix => ends_with (lit ".") prefix
          | None => false
          end.

Definition zone_entry_new {W} (zone : rstr) (bypass_filter fallback : bool)
    (resolver : UpstreamResolver W) : result (ZoneEntry W) (list rstr) :=
  let? zone := ok_or (normalize_zone zone) [lit "zone name must not be empty"] in
  Ok {| ze_zone := zone; ze_bypass_filter := bypass_filter;
        ze_fallback_to_default_resolvers := fallback; ze_resolver := resolver;
        ze_searchable := None |}.

Definition with_searchable {W} (searchable : ZoneSearchable W) (e : ZoneEntry W) : ZoneEntry W :=
  {| ze_zone := ze_zone e; ze_bypass_filter := ze_bypass_filter e;
     ze_fallback_to_default_resolvers := ze_fallback_to_default_resolvers e;
     ze_resolver := ze_resolver e; ze_searchable := Some searchable |}.

(** Longest zone first; [Reverse] of the length as a sort key. *)
Definition zone_sort_key {W} (e : ZoneEntry W) : Z := (- Z.of_nat (str_len (ze_zone e)))%Z.
Definition sort_entries {W} (entries : list (ZoneEntry W)) : list (ZoneEntry W) :=
  sort_by_key zone_sort_key entries.

(** The two stages: the entries they keep, sorted. *)
Definition bypass_only {W} (entries : list (ZoneEntry W)) : list (ZoneEntry W) :=
  sort_entries (filter (fun e => ze_bypass_filter e = true) entries).
Definition non_bypass {W} (entries : list (ZoneEntry W)) : list (ZoneEntry W) :=
  sort_entries (filter (fun e => ze_bypass_filter e = false) entries).

Definition matching_entry {W} (entries : list (ZoneEntry W)) (domain : rstr) : option (ZoneEntry W) :=
  let?o normalized_domain := normalize_zone domain in
  List.find (fun e => domain_matches_zone normalized_domain (ze_zone e)) entries.

Section stage.
Context `{DnsCodec} {W : Type}.

Definition extract_query_name (query : bytes) : option rstr :=
  match message_from_vec query with
  | Ok message => let?o q := first_query message in Some (name_to_ascii (q_name q))
  | Err _ => None
  end.

Definition zone_forwarding_stage (entries : list (ZoneEntry W)) :
    AsyncRequestStage W DnsPipelineRequest DnsPipelineResponse DnsPipelineError :=
  fun request =>
    match extract_query_name (pr_query request) with
    | None => pass
    | Some domain =>
        match matching_entry entries domain with
        | None => pass
        | Some entry =>
            answer <<- resolve (ze_resolver entry) (pr_query request) ;;
            match answer with
            | Ok response => respond (fix_response_id response (pr_client_query_id request))
            | Err _ =>
                if ze_fallback_to_default_resolvers entry then pass
                else respond (build_servfail_response (pr_query request))
            end
        end
    end.

(** ** The assembled pipeline *)

(** [filtering_enabled] is the shared switch; without one, the filter stage owns a
    switch that stays on. *)
Definition build_dns_request_pipeline_full (metrics : Cell W MetricsGlobal)
    (resolver : UpstreamResolver W) (domain_filter : DomainFilter W)
    (any_query_policy : AnyQueryPolicy) (zone_entries : list (ZoneEntry W))
    (filtering_enabled : option (Cell W bool)) :
    AsyncPipelineHandler W DnsPipelineRequest DnsPipelineResponse DnsPipelineError :=
  let flag := default {| cget _ := true; cput _ w := w |} filtering_enabled in
  add_stage servfail_fallback_stage
    (add_stage (upstream_stage resolver)
      (add_stage (zone_forwarding_stage (non_bypass zone_entries))
        (add_stage (any_query_policy_stage any_query_policy)
          (add_stage (filter_stage metrics domain_filter flag)
            (add_stage (zone_forwarding_stage (bypass_only zone_entries)) pipeline_default))))).

Definition build_dns_request_pipeline_with_zone_entries metrics resolver domain_filter
    any_query_policy zone_entries :=
  build_dns_request_pipeline_full metrics resolver domain_filter any_query_policy zone_entries None.
Definition build_dns_request_pipeline metrics resolver domain_filter any_query_policy :=
  build_dns_request_pipeline_with_zone_entries metrics resolver domain_filter any_query_policy [].
End stage.

(** ** Which zone a name belongs to *)

Lemma domain_matches_zone_iff d z :
  domain_matches_zone d z = true <-> z = lit "." \/ covers z d.
Proof.
  unfold domain_matches_zone, str_eqb, covers.
  case_bool_decide as Hroot; [by split; [left|]|].
  rewrite orb_true_iff, bool_decide_eq_true. split.
  - intros [?|Hs]; [by right; left|]. right. right.
    destruct (strip_suffix z d) as [prefix|] eqn:Hp; [|done].
    apply strip_suffix_Some in Hp as ->. apply ends_with_iff in Hs as [r ->].
    exists r. by rewrite <- app_assoc.
  - intros [?|[?|[p ->]]]; [done|by left|]. right.
    change (p ++ ch "." :: z) with (p ++ lit "." ++ z). rewrite app_assoc, strip_suffix_app.
    apply ends_with_iff. by exists p.
Qed.

Lemma find_sorted_first {A} (R : A -> A -> Prop) (f : A -> bool) (l : list A) (x : A) :
  StronglySorted R l -> List.find f l = Some x ->
  x ∈ l /\ f x = true /\ forall y, y ∈ l -> f y = true -> y = x \/ R x y.
Proof.
  induction 1 as [|a l Hs IH Hall]; simpl; [done|]. destruct (f a) eqn:Ha.
  - intros [= <-]. split; [apply list_elem_of_here|]. split; [done|].
    intros y [->|Hy]%elem_of_cons _; [by left|right]. rewrite Forall_forall in Hall. auto.
  - intros Hf. destruct (IH Hf) as (Hin & Hx & Hmin). split; [by apply list_elem_of_further|].
    split; [done|]. intros y [->|Hy]%elem_of_cons Hfy; [congruence|auto].
Qed.

Section zones.
Context {W : Type}.

Lemma matching_sorted (p : ZoneEntry W -> bool) (entries : list (ZoneEntry W)) domain d :
  normalize_zone domain = Some d ->
  let es := sort_entries (filter (fun e => p e = true) entries) in
  match matching_entry es domain with
  | Some e =>
      e ∈ entries /\ p e = true /\ (ze_zone e = lit "." \/ covers (ze_zone e) d)
      /\ forall e', e' ∈ entries -> p e' = true -> ze_zone e' = lit "." \/ covers (ze_zone e') d ->
           str_len (ze_zone e') <= str_len (ze_zone e)
  | None => forall e', e' ∈ entries -> p e' = true ->
              ~ (ze_zone e' = lit "." \/ covers (ze_zone e') d)
  end.
Proof.
  intros Hd es. unfold matching_entry. rewrite Hd.
  assert (forall e', e' ∈ es <-> e' ∈ entries /\ p e' = true) as Hin.
  { intros e'. unfold es, sort_entries. rewrite elem_of_sort_by_key, list_elem_of_filter. tauto. }
  destruct (List.find _ es) as [e|] eqn:Hf.
  - apply (find_sorted_first (key_le zone_sort_key)) in Hf as (He & Hm & Hmin);
      [|apply sort_by_key_sorted].
    apply Hin in He as [He Hp]. split; [done|]. split; [done|].
    split; [by apply domain_matches_zone_iff|]. intros e' He' Hp' Hm'.
    destruct (Hmin e') as [->|Hle]; [by apply Hin|by apply domain_matches_zone_iff|done|].
    unfold key_le, zone_sort_key in Hle. lia.
  - intros e' He' Hp' Hm'. eapply List.find_none in Hf; [|apply list_elem_of_In, Hin; eauto].
    apply domain_matches_zone_iff in Hm'. simpl in Hf. congruence.
Qed.

Lemma str_len_app a b : str_len (a ++ b) = str_len a + str_len b.
Proof. unfold str_len. rewrite fmap_app. induction (len_utf8 <$> a) as [|n l IH]; [done|]. simpl. lia. Qed.

Lemma str_len_0 s : str_len s = 0 -> s = [].
Proof. destruct s as [|c s]; [done|]. unfold str_len, len_utf8. simpl. intros Hl. exfalso. repeat case_match; lia. Qed.

(** Two zones that cover a name are nested: the one with the shorter name covers the other. *)
Lemma covers_nested z z' d : covers z d -> covers z' d -> str_len z' <= str_len z -> covers z' z.
Proof.
  assert (forall z d, covers z d -> exists p, d = p ++ z /\ (p = [] \/ exists q, p = q ++ [ch "."])) as Hc.
  { intros z0 d0 [->|[p ->]]; [by exists []; auto|]. exists (p ++ [ch "."]). rewrite <- app_assoc. eauto. }
  intros (p & Hd & _)%Hc (p' & Hd' & Hp')%Hc Hlen. rewrite Hd in Hd'.
  apply app_eq_inv in Hd' as [(k & Hz & Hk)|(k & Hp & Hk)].
  - (* z' = k ++ z *)
    rewrite Hk, str_len_app in Hlen. left. by rewrite Hk, (str_len_0 k) by lia.
  - (* z = k ++ z' *)
    subst z. destruct Hp' as [->|[q ->]].
    + destruct p, k; try done. by left.
    + destruct k as [|c k _] using rev_ind; [by left|]. rewrite app_assoc in Hp.
      apply app_inj_tail in Hp as [_ <-]. right. exists k. by rewrite <- app_assoc.
Qed.

(** C6. The most specific zone wins: among the configured entries of a stage whose
    zone is the queried name, one of its parent domains (on a label boundary) or the
    root, the stage forwards to one whose zone lies in the zone of every other such entry,
    and it passes only if there is none.  The root zone counts as a name of one letter: it
    is only chosen when no zone of two letters or more applies, and in that case it may
    come before a zone whose name is a single letter. *)
Theorem longest_zone_wins (entries : list (ZoneEntry W)) (bypass : bool) (domain d : rstr) :
  normalize_zone domain = Some d ->
  let applies e := e ∈ entries /\ ze_bypass_filter e = bypass
                   /\ (ze_zone e = lit "." \/ covers (ze_zone e) d) in
  match matching_entry (if bypass then bypass_only entries else non_bypass entries) domain with
  | Some e =>
      applies e
      /\ forall e', applies e' ->
           ze_zone e' = lit "." \/ covers (ze_zone e') (ze_zone e)
           \/ (ze_zone e = lit "." /\ str_len (ze_zone e') <= 1)
  | None => forall e', ~ applies e'
  end.
Proof.
  intros Hd applies.
  pose proof (matching_sorted (fun e => bool_decide (ze_bypass_filter e = bypass)) entries domain d Hd) as Hm.
  assert (sort_entries (filter (fun e => bool_decide (ze_bypass_filter e = bypass) = true) entries)
          = if bypass then bypass_only entries else non_bypass entries) as Heq.
  { unfold bypass_only, non_bypass.
    destruct bypass; (f_equal; apply list_filter_iff; intros e; apply bool_decide_eq_true). }
  rewrite <- Heq. cbv zeta in Hm. destruct (matching_entry _ domain) as [e|].
  - destruct Hm as (He & Hb%bool_decide_eq_true & Hc & Hmax). split; [by split_and!|].
    intros e' (He' & Hb' & Hc').
    assert (str_len (ze_zone e') <= str_len (ze_zone e)) as Hlen
      by (apply Hmax; [done|by apply bool_decide_eq_true|done]).
    destruct Hc' as [Hroot'|Hc']; [by left|]. destruct Hc as [Hroot|Hc].
    + right. right. by rewrite Hroot in Hlen |- *.
    + right. left. by eapply covers_nested.
  - intros e' (He' & Hb' & Hc'). eapply Hm; [done|by apply bool_decide_eq_true|done].
Qed.
End zones.

(** ** Running the pipeline *)

Section run.
Context {W Req Resp E : Type}.

(** A property of every answer a chain gives, from the stages'. *)
Lemma run_stages_response (Q : Resp -> Prop) (ss : list (AsyncRequestStage W Req Resp E)) request w r w' :
  Forall (fun s => forall w r w', s request w = (Ok (Some r), w') -> Q r) ss ->
  run_stages ss request w = (Ok (Some r), w') -> Q r.
Proof.
  intros Hall. revert w. induction Hall as [|s ss Hs Hss IH]; intros w; simpl; [done|].
  unfold mbind. destruct (s request w) as [[[r1|]|e] w1] eqn:H1; simpl.
  - intros [= <- <-]. eauto.
  - apply IH.
  - done.
Qed.

(** A chain whose stages do not fail and whose last stage answers, answers. *)
Lemma run_stages_answers (ss : list (AsyncRequestStage W Req Resp E)) last request w :
  Forall (fun s => forall w, exists o w', s request w = (Ok o, w')) ss ->
  (forall w, exists r w', last request w = (Ok (Some r), w')) ->
  exists r w', run_stages (ss ++ [last]) request w = (Ok (Some r), w').
Proof.
  intros Hall Hlast. revert w. induction Hall as [|s ss Hs Hss IH]; intros w; simpl; unfold mbind.
  - destruct (Hlast w) as (r & w' & ->). by eexists _, _.
  - destruct (Hs w) as ([r|] & w1 & ->); [by eexists _, _|apply IH].
Qed.
End run.

Section pipeline_facts.
Context `{DnsCodec} {W : Type} (metrics : Cell W MetricsGlobal).
Context (resolver : UpstreamResolver W) (domain_filter : DomainFilter W) (policy : AnyQueryPolicy)
        (zone_entries : list (ZoneEntry W)) (flag : Cell W bool).

Abbreviation pipeline :=
  (build_dns_request_pipeline_full metrics resolver domain_filter policy zone_entries (Some flag)).

Lemma zone_stage_ok (entries : list (ZoneEntry W)) request w :
  exists o w', zone_forwarding_stage entries request w = (Ok o, w').
Proof.
  unfold zone_forwarding_stage. destruct (extract_query_name _); [|by eexists _, _].
  destruct (matching_entry entries l) as [e|]; [|by eexists _, _]. unfold mbind.
  destruct (resolve _ _ w) as [[r|err] w1]; [by eexists _, _|]. case_match; by eexists _, _.
Qed.

Lemma filter_stage_ok request w :
  exists o w', filter_stage metrics domain_filter flag request w = (Ok o, w').
Proof.
  unfold filter_stage, mbind, cread, cmodify, respond, pass, mret.
  repeat case_match; by eexists _, _.
Qed.

Lemma any_stage_ok request w : exists o w', any_query_policy_stage (W := W) policy request w = (Ok o, w').
Proof. unfold any_query_policy_stage. repeat case_match; by eexists _, _. Qed.

Lemma upstream_stage_answers request w : exists r w', upstream_stage resolver request w = (Ok (Some r), w').
Proof.
  unfold upstream_stage, mbind. destruct (resolve _ _ w) as [[r|err] w1]; [by eexists _, _|].
  case_match; by eexists _, _.
Qed.

Lemma pipeline_answers request w : exists r w', handle_request pipeline request w = (Ok (Some r), w').
Proof.
  unfold handle_request. simpl.
  apply (run_stages_answers [zone_forwarding_stage (bypass_only zone_entries);
    filter_stage metrics domain_filter flag; any_query_policy_stage policy;
    zone_forwarding_stage (non_bypass zone_entries); upstream_stage resolver] servfail_fallback_stage).
  - repeat constructor; intros w1.
    + apply zone_stage_ok.
    + apply filter_stage_ok.
    + apply any_stage_ok.
    + apply zone_stage_ok.
    + destruct (upstream_stage_answers request w1) as (r & w' & ->). by eexists _, _.
  - intros w1. by eexists _, _.
Qed.

(** Every request gets an answer: whatever the bytes received, the configuration,
    the filter and the upstream servers do, the pipeline neither fails nor passes. *)
Theorem pipeline_always_answers (request : DnsPipelineRequest) (w : W) :
  exists r w', handle_request
      (build_dns_request_pipeline_full metrics resolver domain_filter policy zone_entries (Some flag))
      request w = (Ok (Some r), w').
Proof. apply pipeline_answers. Qed.

Lemma zone_stage_pass (entries : list (ZoneEntry W)) request domain w :
  extract_query_name (pr_query request) = Some domain -> matching_entry entries domain = None ->
  zone_forwarding_stage entries request w = (Ok None, w).
Proof. intros Hq Hm. unfold zone_forwarding_stage. by rewrite Hq, Hm. Qed.

Lemma extract_query_name_of query m q :
  message_from_vec query = Ok m -> first_query m = Some q ->
  extract_query_name query = Some (name_to_ascii (q_name q)).
Proof. intros Hm Hq. unfold extract_query_name. by rewrite Hm, Hq. Qed.

(** C1. A blocked query never leaves the server: with filtering on, unless a bypass
    zone claims the name, a query whose name the filter blocks is answered with the
    sinkhole response and the only effect on the world is the recording of the block;
    no resolver is asked. *)
Theorem blocked_query_is_sinkholed (query : bytes) (m : Message) (q : Query) (w : W) :
  message_from_vec query = Ok m -> first_query m = Some q ->
  matching_entry (bypass_only zone_entries) (name_to_ascii (q_name q)) = None ->
  cget flag w = true -> df_decide domain_filter (name_to_ascii (q_name q)) w = FD_Block ->
  handle_request pipeline (pipeline_request_new query) w
  = (Ok (Some {| pipeline_response_bytes :=
        build_sinkhole_response m (df_sinkhole_ipv4 domain_filter) (df_sinkhole_ipv6 domain_filter) |}),
     let names := df_blocked_by domain_filter (name_to_ascii (q_name q)) w in
     let w1 := cput metrics (record_dns_query Blocked (cget metrics w)) w in
     cput metrics (record_blocklist_hit names (cget metrics w1)) w1).
Proof.
  intros Hm Hq Hz Hflag Hblock. unfold handle_request. simpl. unfold mbind at 1.
  rewrite (zone_stage_pass _ _ (name_to_ascii (q_name q))); [|by eapply extract_query_name_of|done].
  unfold mbind at 1.
  assert (filter_stage metrics domain_filter flag (pipeline_request_new query) w
    = (Ok (Some {| pipeline_response_bytes := build_sinkhole_response m
          (df_sinkhole_ipv4 domain_filter) (df_sinkhole_ipv6 domain_filter) |}),
       let w1 := cput metrics (record_dns_query Blocked (cget metrics w)) w in
       cput metrics (record_blocklist_hit
         (df_blocked_by domain_filter (name_to_ascii (q_name q)) w) (cget metrics w1)) w1)) as ->; [|done].
  unfold filter_stage, mbind at 1, cread. rewrite Hflag. simpl. rewrite Hm, Hq. cbv beta. by rewrite Hblock.
Qed.

(** C7. A bypass zone takes precedence over the filter: a query in a bypass zone whose
    resolver answers gets that answer, with the client's identifier, whatever the
    filter, the switch and the other stages say. *)
Theorem bypass_zone_precedes_filter (query response : bytes) (m : Message) (q : Query)
    (e : ZoneEntry W) (w w' : W) :
  message_from_vec query = Ok m -> first_query m = Some q ->
  matching_entry (bypass_only zone_entries) (name_to_ascii (q_name q)) = Some e ->
  resolve (ze_resolver e) query w = (Ok response, w') ->
  handle_request pipeline (pipeline_request_new query) w
  = (Ok (Some {| pipeline_response_bytes := fix_response_id response (query_id query) |}), w').
Proof.
  intros Hm Hq Hz Hr. unfold handle_request. simpl. unfold mbind at 1.
  unfold zone_forwarding_stage at 1. simpl. rewrite (extract_query_name_of query m q) by done.
  rewrite Hz. unfold mbind. by rewrite Hr.
Qed.

(** The ANY policy: an ANY query that is not claimed by a bypass zone and not
    blocked is answered with REFUSED or NOTIMP under those policies, without asking
    any resolver; it only counts as one query. *)
Theorem any_query_is_refused (query : bytes) (m : Message) (q : Query) (w : W) (rc : ResponseCode) :
  message_from_vec query = Ok m -> first_query m = Some q -> q_type q = RT_ANY ->
  matching_entry (bypass_only zone_entries) (name_to_ascii (q_name q)) = None ->
  (cget flag w = true -> df_decide domain_filter (name_to_ascii (q_name q)) w <> FD_Block) ->
  (policy = AQP_Refused /\ rc = Refused) \/ (policy = AQP_NotImp /\ rc = NotImp) ->
  exists d, handle_request pipeline (pipeline_request_new query) w
  = (Ok (Some {| pipeline_response_bytes := build_error_response query rc |}),
     cput metrics (record_dns_query d (cget metrics w)) w).
Proof.
  intros Hm Hq Hany Hz Hnb Hpol. unfold handle_request. simpl. unfold mbind at 1.
  rewrite (zone_stage_pass _ _ (name_to_ascii (q_name q))); [|by eapply extract_query_name_of|done].
  assert (exists d, filter_stage metrics domain_filter flag (pipeline_request_new query) w
    = (Ok None, cput metrics (record_dns_query d (cget metrics w)) w)) as [d Hf].
  { unfold filter_stage, mbind at 1, cread. destruct (cget flag w); simpl; [|by eexists].
    rewrite Hm, Hq. cbv beta. specialize (Hnb eq_refl).
    destruct (df_decide _ _ w); [by eexists|done|by eexists]. }
  exists d. unfold mbind at 1. rewrite Hf. unfold mbind at 1, any_query_policy_stage. simpl.
  rewrite Hm, Hq, Hany. by destruct Hpol as [[-> ->]|[-> ->]].
Qed.

(** *** Identifiers *)

Lemma query_id_decoded `{!CodecLaws} query m :
  message_from_vec query = Ok m -> pr_client_query_id (pipeline_request_new query) = msg_id m.
Proof. intros (hi & lo & rest & -> & ->)%wire_decode_id. done. Qed.

Lemma encode_or_empty_decodes `{!CodecLaws} m m' :
  message_from_vec (encode_or_empty m) = Ok m' -> m' = m.
Proof.
  unfold encode_or_empty. destruct (message_to_vec m) as [b|] eqn:Hb.
  - rewrite (wire_decode_encode _ _ Hb). by intros [= ->].
  - intros Hd. apply wire_decode_id in Hd as (? & ? & ? & ? & _). done.
Qed.

Lemma error_message_id query m rc : message_from_vec query = Ok m ->
  msg_id (error_message query rc) = msg_id m.
Proof. intros Hm. unfold error_message. by rewrite Hm, foldl_add_query. Qed.

Lemma sinkhole_message_id m v4 v6 : msg_id (sinkhole_message m v4 v6) = msg_id m.
Proof.
  unfold sinkhole_message. rewrite foldl_add_query. destruct (first_query m) as [q|]; [|done].
  by destruct (q_type q).
Qed.

(** Decoded messages can be encoded again, whatever identifier they are given. *)
Definition reencodable : Prop :=
  forall b m id, message_from_vec b = Ok m -> is_ok (message_to_vec (set_id id m)) = true.

Lemma fix_response_id_decodes `{!CodecLaws} response id m :
  reencodable -> message_from_vec (fix_response_id response id) = Ok m -> msg_id m = id.
Proof.
  intros Hre. unfold fix_response_id. destruct (message_from_vec response) as [m0|] eqn:Hm0; [|congruence].
  specialize (Hre _ _ id Hm0). destruct (message_to_vec (set_id id m0)) as [b|] eqn:Hb; [|done].
  rewrite (wire_decode_encode _ _ Hb). by intros [= <-].
Qed.

Lemma error_response_id `{!CodecLaws} query m rc m' :
  message_from_vec query = Ok m -> message_from_vec (build_error_response query rc) = Ok m' ->
  msg_id m' = msg_id m.
Proof. intros Hm ->%encode_or_empty_decodes. by apply error_message_id. Qed.

(** The answer carries the client's identifier: whichever stage answers a
    well-formed query, an answer that decodes has the identifier of the query, even if
    the upstream server answered with another one. *)
Theorem pipeline_echoes_identifier `{!CodecLaws} (query : bytes) (m : Message) (w w' : W)
    (r : DnsPipelineResponse) (rm : Message) :
  reencodable -> message_from_vec query = Ok m ->
  handle_request pipeline (pipeline_request_new query) w = (Ok (Some r), w') ->
  message_from_vec (pipeline_response_bytes r) = Ok rm -> msg_id rm = msg_id m.
Proof.
  intros Hre Hm Hrun Hrm. pose proof (query_id_decoded query m Hm) as Hid.
  assert (forall rc m', message_from_vec (build_error_response query rc) = Ok m' -> msg_id m' = msg_id m)
    as Herr by (intros; by eapply error_response_id).
  assert (forall resp m', message_from_vec (fix_response_id resp
    (pr_client_query_id (pipeline_request_new query))) = Ok m' -> msg_id m' = msg_id m) as Hfix.
  { intros resp m' Hd. apply fix_response_id_decodes in Hd; [|done]. by rewrite Hd. }
  assert (forall (es : list (ZoneEntry W)) w r w', zone_forwarding_stage es (pipeline_request_new query) w = (Ok (Some r), w') ->
    forall m', message_from_vec (pipeline_response_bytes r) = Ok m' -> msg_id m' = msg_id m) as Hzone.
  { clear w r w' Hrun Hrm. intros es w r w'. unfold zone_forwarding_stage, mbind, respond, pass, mret.
    intros Hz m' Hd. repeat (case_match; simplify_eq; simpl in *; eauto). }
  revert rm Hrm. pattern r. eapply run_stages_response; [|exact Hrun]. simpl.
  clear w r w' Hrun. repeat apply Forall_cons_2; [eauto| | |eauto| | |apply Forall_nil_2].
  - intros w r w'. unfold filter_stage, mbind, cread, cmodify, respond, pass, mret. simpl. rewrite Hm.
    intros Hf m' Hd. repeat (case_match; simplify_eq; simpl in * );
      apply encode_or_empty_decodes in Hd as ->; apply sinkhole_message_id.
  - intros w r w'. unfold any_query_policy_stage, respond, pass, mret.
    intros Hf m' Hd. repeat (case_match; simplify_eq; simpl in *; eauto).
  - intros w r w'. unfold upstream_stage, mbind, respond, mret.
    intros Hf m' Hd. repeat (case_match; simplify_eq; simpl in *; eauto).
  - intros w r w' [= <- <-] m' Hd. by eapply Herr.
Qed.

(** Error answers are well formed: SERVFAIL, REFUSED, NOTIMP and empty NOERROR
    answers decode to a response with that code, the query's identifier, recursion bit
    and questions, and no record. *)
Theorem error_response_shape `{!CodecLaws} (query : bytes) (m rm : Message) (rc : ResponseCode) :
  message_from_vec query = Ok m ->
  message_from_vec (build_error_response query rc) = Ok rm ->
  msg_type rm = MT_Response /\ msg_id rm = msg_id m /\ msg_response_code rm = rc
  /\ msg_recursion_desired rm = msg_recursion_desired m /\ msg_queries rm = msg_queries m
  /\ msg_answers rm = [] /\ msg_authorities rm = [] /\ msg_additionals rm = [].
Proof.
  intros Hm ->%encode_or_empty_decodes. unfold error_message. rewrite Hm, foldl_add_query. done.
Qed.
End pipeline_facts.

(** ** Witnesses *)

Module PipelineExamples.
#[local] Existing Instance text_names.

(** A world with the counters, the switch and the number of upstream queries. *)
Record World : Type := { w_metrics : MetricsGlobal; w_flag : bool; w_asked : nat }.
Definition metrics_cell : Cell World MetricsGlobal :=
  {| cget := w_metrics;
     cput m w := {| w_metrics := m; w_flag := w_flag w; w_asked := w_asked w |} |}.
Definition flag_cell : Cell World bool :=
  {| cget := w_flag;
     cput b w := {| w_metrics := w_metrics w; w_flag := b; w_asked := w_asked w |} |}.
Definition world0 : World := {| w_metrics := None; w_flag := true; w_asked := 0 |}.

Definition question (t : RecordType) : Query :=
  {| q_name := lit "ads.example."; q_type := t; q_class := 1 |}.
Definition query_message (t : RecordType) : Message :=
  set_sections [question t] [] [] [] (message_new 0 MT_Query OC_Query).
Definition answer : Message :=
  set_sections [question RT_A]
    [{| rec_name := lit "ads.example."; rec_ttl := 300; rec_data := RD_A (192, 0, 2, 1)%N |}] [] []
    (message_new 0 MT_Response OC_Query).
Definition servfail : Message :=
  set_sections [question RT_A] [] [] []
    (set_flags false false true ServFail (message_new 0 MT_Response OC_Query)).

Definition messages : list Message := [query_message RT_A; query_message RT_ANY; answer; servfail].
Definition codec : DnsCodec := ex_codec messages.
#[local] Existing Instance codec.
Lemma pipeline_codec_laws : CodecLaws.
Proof. apply ex_codec_laws. Qed.
Lemma codec_reencodable : reencodable.
Proof. intros b m id Hb. eapply ex_to_vec_reencode; [|exact Hb]. by repeat constructor. Qed.

(** The upstream answers under the identifier 1. *)
Definition upstream : UpstreamResolver World :=
  {| resolve _ := fun w => (Ok [0; 1; 0; 2]%N,
       {| w_metrics := w_metrics w; w_flag := w_flag w; w_asked := S (w_asked w) |});
     label := lit "upstream" |}.
Definition block_all : DomainFilter World :=
  {| df_decide _ _ := FD_Block; df_blocked_by _ _ := [lit "ads"];
     df_sinkhole_ipv4 := (0, 0, 0, 0)%N; df_sinkhole_ipv6 := replicate 8 0%N |}.
Definition block_none : DomainFilter World :=
  {| df_decide _ _ := FD_Neutral; df_blocked_by _ _ := [];
     df_sinkhole_ipv4 := (0, 0, 0, 0)%N; df_sinkhole_ipv6 := replicate 8 0%N |}.
Definition zone (name : rstr) (bypass : bool) : ZoneEntry World :=
  {| ze_zone := name; ze_bypass_filter := bypass; ze_fallback_to_default_resolvers := false;
     ze_resolver := upstream; ze_searchable := None |}.

Definition query_a : bytes := [18; 52; 0; 0]%N.
Definition query_any : bytes := [18; 52; 0; 1]%N.
Definition at_client (m : Message) : Message := set_id 4660 m.

Lemma longest_zone_wins_witness : covers (lit "example") (lit "ads.example").
Proof.
  pose proof (longest_zone_wins [zone (lit "example") true; zone (lit "ads.example") true] true
    (lit "ads.example.") (lit "ads.example") ltac:(vm_compute; reflexivity)) as Hw.
  destruct (matching_entry _ _) as [e|] eqn:He; [|vm_compute in He; discriminate].
  vm_compute in He. injection He as <-.
  destruct (proj2 Hw (zone (lit "example") true)) as [H|[H|[H _]]]; [|discriminate H|exact H|discriminate H].
  repeat split; [apply list_elem_of_here|]. right. right. exists (lit "ads"). reflexivity.
Defined.

Lemma blocked_query_is_sinkholed_witness :
  w_asked (handle_request (build_dns_request_pipeline_full metrics_cell upstream block_all AQP_NotImp []
    (Some flag_cell)) (pipeline_request_new query_a) world0).2 = 0.
Proof.
  rewrite (blocked_query_is_sinkholed metrics_cell upstream block_all AQP_NotImp [] flag_cell query_a
    (at_client (query_message RT_A)) (question RT_A) world0);
    reflexivity.
Defined.

Lemma bypass_zone_precedes_filter_witness :
  (handle_request (build_dns_request_pipeline_full metrics_cell upstream block_all AQP_NotImp
    [zone (lit "example") true] (Some flag_cell)) (pipeline_request_new query_a) world0).1
  = Ok (Some {| pipeline_response_bytes := [18; 52; 0; 2]%N |}).
Proof.
  rewrite (bypass_zone_precedes_filter metrics_cell upstream block_all AQP_NotImp
    [zone (lit "example") true] flag_cell query_a [0; 1; 0; 2]%N (at_client (query_message RT_A))
    (question RT_A) (zone (lit "example") true) world0
    {| w_metrics := None; w_flag := true; w_asked := 1 |}); vm_compute; reflexivity.
Defined.

Lemma any_query_is_refused_witness :
  w_asked (handle_request (build_dns_request_pipeline_full metrics_cell upstream block_none AQP_Refused []
    (Some flag_cell)) (pipeline_request_new query_any) world0).2 = 0.
Proof.
  destruct (any_query_is_refused metrics_cell upstream block_none AQP_Refused [] flag_cell query_any
    (at_client (query_message RT_ANY)) (question RT_ANY) world0 Refused) as [d Hd].
  - reflexivity.
  - reflexivity.
  - reflexivity.
  - reflexivity.
  - intros _. discriminate.
  - left. split; reflexivity.
  - rewrite Hd. reflexivity.
Defined.

Lemma pipeline_echoes_identifier_witness : msg_id (at_client answer) = 4660%N.
Proof.
  apply (pipeline_echoes_identifier metrics_cell upstream block_none AQP_NotImp [] flag_cell (H1 := pipeline_codec_laws)
    query_a (at_client (query_message RT_A)) world0
    {| w_metrics := None; w_flag := true; w_asked := 1 |}
    {| pipeline_response_bytes := [18; 52; 0; 2]%N |} (at_client answer)).
  - exact codec_reencodable.
  - reflexivity.
  - vm_compute. reflexivity.
  - reflexivity.
Defined.

Lemma error_response_shape_witness : msg_response_code (at_client servfail) = ServFail.
Proof.
  apply (error_response_shape (H1 := pipeline_codec_laws) query_a (at_client (query_message RT_A))
    (at_client servfail) ServFail); vm_compute; reflexivity.
Defined.
End PipelineExamples.
