(* ===== verification/ZoneAuthority.v ===== *)
(** * Authoritative zones

    [use_cases/zone_authority.rs]: a zone document (JSON, from a file or a URL) is
    turned into a snapshot of records by owner name; queries are answered from the
    snapshot, and a URL-backed zone is reloaded periodically.  The JSON parser, the
    URL parser and the display of third-party types are parameters. *)

From S2P Require Import Prelude RustStr RustNet Outside Hickory Metrics ListParsers ExampleCodec Upstream Pipeline ZoneForwarding.

Abbreviation Error := (list rstr).

Definition DEFAULT_URL_CHECK_INTERVAL_SECS : N := 15 * 60.
Definition MAX_ZONE_SOURCE_BYTES : N := 2 * 1024 * 1024.

(** ** JSON values ([serde_json::Value]) *)

Inductive JsonNumber : Type :=
| PosInt (n : N)
| NegInt (z : Z)
| Float.

Inductive Value : Type :=
| JNull
| JBool (b : bool)
| JNumber (n : JsonNumber)
| JString (s : rstr)
| JArray (vs : list Value)
| JObject (fields : list (rstr * Value)).

Definition value_get (key : rstr) (v : Value) : option Value :=
  match v with
  | JObject fields => snd <$> List.find (fun f => str_eqb f.1 key) fields
  | _ => None
  end.
Definition as_str (v : Value) : option rstr := match v with JString s => Some s | _ => None end.
Definition as_u64 (v : Value) : option N := match v with JNumber (PosInt n) => Some n | _ => None end.
Definition as_i64 (v : Value) : option Z :=
  match v with
  | JNumber (PosInt n) => if (n <=? 2 ^ 63 - 1)%N then Some (Z.of_N n) else None
  | JNumber (NegInt z) => Some z
  | _ => None
  end.
Definition as_array (v : Value) : option (list Value) := match v with JArray vs => Some vs | _ => None end.

(** ** Documents and sources *)

Record ZoneJsonRecord : Type := {
  zj_name : rstr; zj_record_type : rstr; zj_ttl : option N; zj_data : Value
}.
Record ZoneJsonDocument : Type := {
  zd_zone : rstr; zd_ttl_default : option N; zd_serial : option rstr;
  zd_records : list ZoneJsonRecord
}.

Inductive ZoneSource : Type := ZS_File (path : rstr) | ZS_Url (url : rstr).

Definition parse_zone_source (source : rstr) : result ZoneSource Error :=
  let source := trim source in
  if starts_with (lit "http://") source || starts_with (lit "https://") source
  then Ok (ZS_Url source)
  else match strip_prefix (lit "file://") source with
       | Some path => Ok (ZS_File path)
       | None =>
           if contains (lit "://") source
           then Err [lit "unsupported zone source scheme in '" ++ source
                     ++ lit "'; use file://, http://, or https://"]
           else Ok (ZS_File source)
       end.

Definition source_label (source : ZoneSource) : rstr :=
  match source with ZS_File path => path | ZS_Url url => url end.

(** ** Names *)

Definition normalize_name (value : rstr) : option rstr :=
  let trimmed := trim_end_matches_char (ch ".") (trim value) in
  if is_empty trimmed then None else Some (to_ascii_lowercase trimmed).

Definition resolve_record_name (zone record_label : rstr) : result rstr Error :=
  let l := trim record_label in
  if is_empty l then Err [lit "record name must not be empty"]
  else if str_eqb l (lit "@") then Ok zone
  else if ends_with (lit ".") l
  then ok_or (normalize_name l) [lit "invalid absolute record name '" ++ l ++ lit "'"]
  else ok_or (normalize_name (l ++ lit "." ++ zone)) [lit "invalid record name '" ++ l ++ lit "'"].

(** The zone matching of this file has no special case for the root zone. *)
Definition authority_matches_zone (domain zone : rstr) : bool :=
  str_eqb domain zone
  || match strip_suffix zone domain with
     | Some prefix => ends_with (lit ".") prefix
     | None => false
     end.

(** ** Field access *)

Definition get_str (v : Value) (key : rstr) : result rstr Error :=
  ok_or (value_get key v ≫= as_str) [lit "missing or invalid string field '" ++ key ++ lit "'"].

(** [get_u8], [get_u16] and [get_u32] differ in the type they convert to. *)
Definition get_unsigned (max : N) (type_name : rstr) (v : Value) (key : rstr) : result N Error :=
  let? number := ok_or (value_get key v ≫= as_u64)
                   [lit "missing or invalid integer field '" ++ key ++ lit "'"] in
  if (number <=? max)%N then Ok number
  else Err [lit "field '" ++ key ++ lit "' out of range for " ++ type_name].
Definition get_u16 := get_unsigned u16_max (lit "u16").
Definition get_u8 := get_unsigned 255 (lit "u8").
Definition get_u32 := get_unsigned u32_max (lit "u32").

Definition get_i32 (v : Value) (key : rstr) : result Z Error :=
  let? number := ok_or (value_get key v ≫= as_i64)
                   [lit "missing or invalid integer field '" ++ key ++ lit "'"] in
  if ((- 2 ^ 31 <=? number) && (number <=? 2 ^ 31 - 1))%Z then Ok number
  else Err [lit "field '" ++ key ++ lit "' out of range for i32"].

Definition get_string_array (v : Value) (key : rstr) : result (list rstr) Error :=
  let? values := ok_or (value_get key v ≫= as_array)
                   [lit "missing or invalid array field '" ++ key ++ lit "'"] in
  collect_results ((fun item => ok_or (as_str item)
    [lit "field '" ++ key ++ lit "' must only contain strings"]) <$> values).

(** [u8::from_str_radix(pair, 16)] on two bytes; a pair that is one two-byte
    character is valid UTF-8 but no number. *)
Definition decode_hex_pair (a b : N) : result N Error :=
  if (a <? 128)%N && (b <? 128)%N then
    ok_or (parse_unsigned 16 255 [a; b])
      [lit "hex contains invalid digit pair '" ++ [a; b] ++ lit "'"]
  else if in_range 194 223 a && is_cont b
  then Err [lit "hex contains invalid digit pair '" ++ from_utf8_lossy [a; b] ++ lit "'"]
  else Err [lit "hex contains non-utf8 bytes"].

Fixpoint decode_hex_chunks (b : list N) : result (list N) Error :=
  match b with
  | x :: y :: rest =>
      let? byte := decode_hex_pair x y in
      let? output := decode_hex_chunks rest in
      Ok (byte :: output)
  | _ => Ok []
  end.

Definition decode_hex (value : rstr) : result (list N) Error :=
  let cleaned := trim value in
  if is_empty cleaned then Ok []
  else if Nat.odd (str_len cleaned) then Err [lit "hex value has odd length"]
  else decode_hex_chunks (as_bytes cleaned).

Definition parse_serial_or_default (value : option rstr) (default_value : N) : N :=
  default default_value (value ≫= fun raw => parse_u32 (trim raw)).

Section authority.
Context `{DnsCodec}.
(** [Url::parse], giving the serialised URL. *)
Context (url_parse : rstr -> option rstr).
(** Equality of records as the library defines it. *)
Context (record_eq : DnsRecord -> DnsRecord -> bool).
(** [serde_json::from_str::<ZoneJsonDocument>]. *)
Context (parse_zone_json : rstr -> option ZoneJsonDocument).

Definition fqdn_to_name (value : rstr) : result Name Error :=
  let? normalized := ok_or (normalize_name value) [lit "name must not be empty"] in
  map_err (fun e => [lit "invalid DNS name '" ++ value ++ lit "': " ++ e])
    (name_from_ascii (normalized ++ lit ".")).

Definition parse_issue_issuer_name (value : rstr) : result (option Name) Error :=
  if is_empty value || str_eqb value (lit ";") then Ok None
  else let? n := fqdn_to_name value in Ok (Some n).

Definition get_name (v : Value) (key : rstr) : result Name Error :=
  let? s := get_str v key in fqdn_to_name s.

(** ** Records *)

Definition parse_soa (data : Value) : result RData Error :=
  let? mname := get_name data (lit "mname") in
  let? rname := get_name data (lit "rname") in
  let? serial := get_u32 data (lit "serial") in
  let? refresh := get_i32 data (lit "refresh") in
  let? retry := get_i32 data (lit "retry") in
  let? expire := get_i32 data (lit "expire") in
  let? minimum := get_u32 data (lit "minimum") in
  Ok (RD_SOA {| soa_mname := mname; soa_rname := rname; soa_serial := serial;
                soa_refresh := refresh; soa_retry := retry; soa_expire := expire;
                soa_minimum := minimum |}).

Definition parse_srv (data : Value) : result RData Error :=
  let? priority := get_u16 data (lit "priority") in
  let? weight := get_u16 data (lit "weight") in
  let? port := get_u16 data (lit "port") in
  let? target := get_name data (lit "target") in
  Ok (RD_SRV priority weight port target).

Definition parse_caa (data : Value) : result RData Error :=
  let? flags_raw := get_u8 data (lit "flags") in
  let issuer_critical := N.testbit flags_raw 7 in
  let? tag := get_str data (lit "tag") in
  let tag_raw := to_ascii_lowercase (trim tag) in
  let? value := get_str data (lit "value") in
  let value_raw := trim value in
  if str_eqb tag_raw (lit "issue") then
    let? issuer := parse_issue_issuer_name value_raw in
    Ok (RD_CAA issuer_critical (CaaIssue issuer))
  else if str_eqb tag_raw (lit "issuewild") then
    let? issuer := parse_issue_issuer_name value_raw in
    Ok (RD_CAA issuer_critical (CaaIssueWild issuer))
  else if str_eqb tag_raw (lit "iodef") then
    let? url := ok_or (url_parse value_raw) [lit "invalid CAA iodef URL '" ++ value_raw ++ lit "'"] in
    Ok (RD_CAA issuer_critical (CaaIodef url))
  else Err [lit "unsupported CAA tag '" ++ tag_raw
            ++ lit "'; supported tags are: issue, issuewild, iodef"].

Definition parse_tlsa (entry_name : rstr) (data : Value) : result RData Error :=
  let? usage := get_u8 data (lit "usage") in
  let? selector := get_u8 data (lit "selector") in
  let? matching := get_u8 data (lit "matching_type") in
  let? certificate := get_str data (lit "certificate") in
  let? cert_data :=
    map_err (fun e => (lit "invalid TLSA certificate hex in record '" ++ entry_name ++ lit "'") :: e)
      (decode_hex certificate) in
  Ok (RD_TLSA usage selector matching cert_data).

Definition parse_naptr (data : Value) : result RData Error :=
  let? order := get_u16 data (lit "order") in
  let? preference := get_u16 data (lit "preference") in
  let? flags := get_str data (lit "flags") in
  let? service := get_str data (lit "service") in
  let? regexp := get_str data (lit "regexp") in
  let? replacement := get_name data (lit "replacement") in
  Ok (RD_NAPTR order preference (as_bytes flags) (as_bytes service) (as_bytes regexp) replacement).

Definition parse_rdata (entry : ZoneJsonRecord) : result RData Error :=
  let rtype := to_ascii_uppercase (trim (zj_record_type entry)) in
  let data := zj_data entry in
  if str_eqb rtype (lit "A") then
    let? s := get_str data (lit "address") in
    let? address := ok_or (parse_ipv4 s)
                      [lit "invalid A address in record '" ++ zj_name entry ++ lit "'"] in
    Ok (RD_A address)
  else if str_eqb rtype (lit "AAAA") then
    let? s := get_str data (lit "address") in
    let? address := ok_or (parse_ipv6 s)
                      [lit "invalid AAAA address in record '" ++ zj_name entry ++ lit "'"] in
    Ok (RD_AAAA address)
  else if str_eqb rtype (lit "NS") then
    let? target := get_name data (lit "target") in Ok (RD_NS target)
  else if str_eqb rtype (lit "CNAME") then
    let? target := get_name data (lit "target") in Ok (RD_CNAME target)
  else if str_eqb rtype (lit "PTR") then
    let? target := get_name data (lit "target") in Ok (RD_PTR target)
  else if str_eqb rtype (lit "MX") then
    let? priority := get_u16 data (lit "priority") in
    let? exchange := get_name data (lit "exchange") in
    Ok (RD_MX priority exchange)
  else if str_eqb rtype (lit "TXT") then
    let? values := get_string_array data (lit "values") in
    Ok (RD_TXT (as_bytes <$> values))
  else if str_eqb rtype (lit "SOA") then parse_soa data
  else if str_eqb rtype (lit "SRV") then parse_srv data
  else if str_eqb rtype (lit "CAA") then parse_caa data
  else if str_eqb rtype (lit "TLSA") then parse_tlsa (zj_name entry) data
  else if str_eqb rtype (lit "NAPTR") then parse_naptr data
  else Err [lit "unsupported record type '" ++ rtype ++ lit "'"].

Definition parse_record (entry : ZoneJsonRecord) (name : Name) (ttl : N) : result DnsRecord Error :=
  let? rdata := parse_rdata entry in
  Ok {| rec_name := name; rec_ttl := ttl; rec_data := rdata |}.

(** ** Snapshots *)

Record ZoneSnapshot : Type := {
  zn_zone : rstr;
  zn_records : gmap rstr (list DnsRecord);
  zn_soa : option DnsRecord
}.

(** [entry(key).or_default().push(record)]. *)
Definition push_record (key : rstr) (r : DnsRecord) (m : gmap rstr (list DnsRecord)) :
    gmap rstr (list DnsRecord) :=
  <[key := default [] (m !! key) ++ [r]]> m.

(** The loop over the document's records. *)
Fixpoint load_records (zone : rstr) (ttl_default : N) (entries : list ZoneJsonRecord)
    (m : gmap rstr (list DnsRecord)) (soa : option DnsRecord) :
    result (gmap rstr (list DnsRecord) * option DnsRecord) Error :=
  match entries with
  | [] => Ok (m, soa)
  | entry :: rest =>
      let? name_key := resolve_record_name zone (zj_name entry) in
      let? name := fqdn_to_name name_key in
      let ttl := default ttl_default (zj_ttl entry) in
      let? record := parse_record entry name ttl in
      let soa := if bool_decide (record_type record = RT_SOA) && str_eqb name_key zone
                    && bool_decide (soa = None)
                 then Some record else soa in
      load_records zone ttl_default rest (push_record name_key record m) soa
  end.

Definition ensure_default_apex_ns (zone : rstr) (ttl_default : N) (m : gmap rstr (list DnsRecord)) :
    result (gmap rstr (list DnsRecord)) Error :=
  let has_apex_ns := match m !! zone with
                     | Some records => existsb (fun r => bool_decide (record_type r = RT_NS)) records
                     | None => false
                     end in
  if (has_apex_ns : bool) then Ok m
  else
    let? ns_target := fqdn_to_name (lit "ns1." ++ zone) in
    let? zone_name := fqdn_to_name zone in
    Ok (push_record zone {| rec_name := zone_name; rec_ttl := ttl_default; rec_data := RD_NS ns_target |} m).

Definition build_default_soa_record (document : ZoneJsonDocument) (zone : rstr) (ttl_default : N) :
    result DnsRecord Error :=
  let? zone_name := fqdn_to_name zone in
  let? mname := fqdn_to_name (lit "ns1." ++ zone) in
  let? rname := fqdn_to_name (lit "hostmaster." ++ zone) in
  Ok {| rec_name := zone_name; rec_ttl := ttl_default;
        rec_data := RD_SOA {| soa_mname := mname; soa_rname := rname;
          soa_serial := parse_serial_or_default (zd_serial document) 1;
          soa_refresh := 3600; soa_retry := 900; soa_expire := 604800; soa_minimum := 300 |} |}.

(** [load_snapshot] once the content has been read. *)
Definition build_snapshot (expected_zone : rstr) (document : ZoneJsonDocument) :
    result ZoneSnapshot Error :=
  let? json_zone := ok_or (normalize_name (zd_zone document)) [lit "JSON zone must not be empty"] in
  let? expected := ok_or (normalize_name expected_zone) [lit "configured zone must not be empty"] in
  if str_eqb json_zone expected then
    let ttl_default := default 3600%N (zd_ttl_default document) in
    let? (m, soa) := load_records json_zone ttl_default (zd_records document) ∅ None in
    let? m := ensure_default_apex_ns json_zone ttl_default m in
    match soa with
    | Some _ => Ok {| zn_zone := json_zone; zn_records := m; zn_soa := soa |}
    | None =>
        let? soa_record := build_default_soa_record document json_zone ttl_default in
        Ok {| zn_zone := json_zone; zn_records := push_record json_zone soa_record m;
              zn_soa := Some soa_record |}
    end
  else Err [lit "zone mismatch: config zone '" ++ expected ++ lit "' differs from JSON zone '"
            ++ json_zone ++ lit "'"].

(** ** Answers *)

Definition filter_answers (records : list DnsRecord) (query_type : RecordType) : list DnsRecord :=
  if bool_decide (query_type = RT_ANY) then records
  else filter (fun r => record_type r = query_type) records.

(** The records of one NS target, appended unless already present. *)
Definition add_glue (glue : list DnsRecord) (r : DnsRecord) : list DnsRecord :=
  if bool_decide (record_type r <> RT_A /\ record_type r <> RT_AAAA) then glue
  else if existsb (fun existing => record_eq existing r) glue then glue else glue ++ [r].

Definition glue_of_answer (m : gmap rstr (list DnsRecord)) (glue : list DnsRecord) (answer : DnsRecord) :
    list DnsRecord :=
  match rec_data answer with
  | RD_NS target =>
      match normalize_name (name_to_ascii target) with
      | None => glue
      | Some target_key =>
          match m !! target_key with
          | None => glue
          | Some target_records => foldl add_glue glue target_records
          end
      end
  | _ => glue
  end.

Definition collect_ns_glue_records (answers : list DnsRecord) (m : gmap rstr (list DnsRecord)) :
    list DnsRecord :=
  foldl (glue_of_answer m) [] answers.

(** The response to a request whose first question is [question]. *)
Definition authority_message (snapshot : ZoneSnapshot) (request : Message) (question : Query)
    (query_name : rstr) : Message :=
  let header rc := add_query question
    (set_flags true (msg_recursion_desired request) false rc
       (message_new (msg_id request) MT_Response OC_Query)) in
  let with_soa m := match zn_soa snapshot with Some soa => add_authority soa m | None => m end in
  if negb (authority_matches_zone query_name (zn_zone snapshot)) then header Refused
  else
    match zn_records snapshot !! query_name with
    | Some records =>
        let answers := filter_answers records (q_type question) in
        let answers := if is_empty answers && bool_decide (q_type question <> RT_CNAME)
                       then filter_answers records RT_CNAME else answers in
        if is_empty answers then with_soa (header NoError)
        else
          let ns_glue := collect_ns_glue_records answers (zn_records snapshot) in
          foldl (fun m r => add_additional r m)
            (foldl (fun m r => add_answer r m) (header NoError) answers) ns_glue
    | None => with_soa (header NXDomain)
    end.

Definition authority_answer (snapshot : ZoneSnapshot) (query : bytes) :
    result bytes UpstreamResolveError :=
  let? request := map_err (fun e => URE_Protocol (lit "invalid DNS query: " ++ e)) (message_from_vec query) in
  let? question := ok_or (first_query request) (URE_Protocol (lit "DNS query has no question")) in
  let? query_name := ok_or (normalize_name (name_to_ascii (q_name question)))
                       (URE_Protocol (lit "invalid query name")) in
  map_err (fun e => URE_Protocol
      ((if authority_matches_zone query_name (zn_zone snapshot)
        then lit "failed to encode DNS response: " else lit "failed to encode refused response: ") ++ e))
    (message_to_vec (authority_message snapshot request question query_name)).

(** ** Loading and refreshing *)

Context {W : Type} (outside : Outside W).

Definition load_source_content (source : ZoneSource) (auth : option ZoneSourceAuth) :
    M W (result rstr Error) :=
  match source with
  | ZS_File path =>
      content <<- fs_read_to_string outside path ;;
      mret (ok_or content [lit "failed to read zone_source file " ++ path])
  | ZS_Url url =>
      response <<- http_get outside url auth ;;
      mret match response with
           | None => Err [lit "failed to download zone_source from " ++ url]
           | Some r =>
               if negb (resp_success r)
               then Err [lit "zone_source returned non-success status: " ++ url]
               else
                 let too_large n := Err [lit "zone_source response too large: " ++ display_N n
                   ++ lit " bytes exceeds limit " ++ display_N MAX_ZONE_SOURCE_BYTES] in
                 let body :=
                   let? body := ok_or (resp_text r)
                                  [lit "failed reading zone_source response body from " ++ url] in
                   if (MAX_ZONE_SOURCE_BYTES <? N.of_nat (str_len body))%N
                   then too_large (N.of_nat (str_len body))
                   else Ok body in
                 match resp_content_length r with
                 | Some len => if (MAX_ZONE_SOURCE_BYTES <? len)%N then too_large len else body
                 | None => body
                 end
           end
  end.

Definition load_snapshot (expected_zone : rstr) (source : ZoneSource) (auth : option ZoneSourceAuth) :
    M W (result ZoneSnapshot Error) :=
  content <<- load_source_content source auth ;;
  mret (let? content := content in
        let? document := ok_or (parse_zone_json content)
          [lit "failed to parse JSON zone document from " ++ source_label source] in
        build_snapshot expected_zone document).

(** A resolver holds the cell of its snapshot, shared with its refresh task. *)
Record ZoneAuthorityResolver : Type := { za_snapshot : Cell W ZoneSnapshot; za_label : rstr }.

(** [from_source] with the cell of the new [Arc]; the second component is the
    refresh task that is started, if any: its URL and its interval in seconds. *)
Definition from_source (cell : Cell W ZoneSnapshot) (zone source : rstr) (check_interval : option N)
    (auth : option ZoneSourceAuth) : M W (result (ZoneAuthorityResolver * option (rstr * N)) Error) :=
  match parse_zone_source source with
  | Err e => mret (Err e)
  | Ok src =>
      initial <<- load_snapshot zone src auth ;;
      match initial with
      | Err e => mret (Err e)
      | Ok snapshot =>
          cwrite cell snapshot ;;;
          mret (Ok ({| za_snapshot := cell; za_label := lit "zone:" ++ zone |},
                    match src with
                    | ZS_Url url => Some (url, default DEFAULT_URL_CHECK_INTERVAL_SECS check_interval)
                    | ZS_File _ => None
                    end))
      end
  end.

(** One round of the periodic refresh: a failed load keeps the last snapshot. *)
Definition refresh_tick (self : ZoneAuthorityResolver) (zone url : rstr) (auth : option ZoneSourceAuth) :
    M W unit :=
  loaded <<- load_snapshot zone (ZS_Url url) auth ;;
  match loaded with
  | Ok new_snapshot => cwrite (za_snapshot self) new_snapshot
  | Err _ => mret tt
  end.

Definition authority_resolve (self : ZoneAuthorityResolver) (query : bytes) :
    M W (result bytes UpstreamResolveError) :=
  snapshot <<- cread (za_snapshot self) ;;
  mret (authority_answer snapshot query).

Definition authority_resolver (self : ZoneAuthorityResolver) : UpstreamResolver W :=
  {| resolve := authority_resolve self; label := za_label self |}.

(** ** Listing and searching records *)

(** [str::to_uppercase], on the characters whose upper case is an ASCII letter; the
    others cannot make a text equal to a record type. *)
Definition char_to_uppercase (c : rchar) : rchar :=
  if (c =? 383)%N then 83%N else if (c =? 305)%N then 73%N else char_to_ascii_uppercase c.

Definition record_type_names : list (rstr * RecordType) :=
  [(lit "A", RT_A); (lit "AAAA", RT_AAAA); (lit "NS", RT_NS); (lit "CNAME", RT_CNAME);
   (lit "PTR", RT_PTR); (lit "MX", RT_MX); (lit "TXT", RT_TXT); (lit "SOA", RT_SOA);
   (lit "SRV", RT_SRV); (lit "CAA", RT_CAA); (lit "TLSA", RT_TLSA); (lit "NAPTR", RT_NAPTR)].

Definition parse_record_type_filter (s : rstr) : option RecordType :=
  snd <$> List.find (fun p => str_eqb p.1 (char_to_uppercase <$> s)) record_type_names.

(** [RecordType]'s [Display], the [Debug] of record data, the fuzzy matcher and the
    order in which a [HashMap] is iterated. *)
Context (record_type_display : RecordType -> rstr) (rdata_debug : RData -> rstr)
        (fuzzy_match : rstr -> rstr -> option Z)
        (iter_records : gmap rstr (list DnsRecord) -> list (rstr * list DnsRecord)).

Definition spaced (parts : list rstr) : rstr := join (ch " ") parts.

Definition rdata_display (rdata : RData) : rstr :=
  match rdata with
  | RD_A a => display_ipv4 a
  | RD_AAAA a => display_ipv6 a
  | RD_NS n | RD_CNAME n | RD_PTR n => name_display n
  | RD_MX preference exchange => spaced [display_N preference; name_display exchange]
  | RD_TXT txt_data => from_utf8_lossy (mjoin txt_data)
  | RD_SOA soa =>
      spaced [name_display (soa_mname soa); name_display (soa_rname soa); display_N (soa_serial soa);
              display_Z (soa_refresh soa); display_Z (soa_retry soa); display_Z (soa_expire soa);
              display_N (soa_minimum soa)]
  | RD_SRV priority weight port target =>
      spaced [display_N priority; display_N weight; display_N port; name_display target]
  | _ => rdata_debug rdata
  end.

Definition record_to_zone_record (record : DnsRecord) (name zone : rstr) : ZoneRecord :=
  {| zr_name := name; zr_record_type := record_type_display (record_type record);
     zr_ttl := rec_ttl record; zr_data := rdata_display (rec_data record); zr_zone := zone |}.

Definition type_matches (type_filter : option RecordType) (r : DnsRecord) : bool :=
  match type_filter with Some rt => bool_decide (record_type r = rt) | None => true end.

Definition snapshot_to_zone_records (snapshot : ZoneSnapshot) (type_filter : option RecordType) :
    list ZoneRecord :=
  iter_records (zn_records snapshot) ≫= fun '(name, records) =>
    (fun r => record_to_zone_record r name (zn_zone snapshot))
      <$> filter (fun r => type_matches type_filter r = true) records.

Definition record_count (snapshot : ZoneSnapshot) : nat :=
  sum_list ((fun kv => length kv.2) <$> iter_records (zn_records snapshot)).

(** Highest score first, at most [limit] results. *)
Definition top_by_score {A} (score : A -> Z) (limit : nat) (l : list A) : list A :=
  take limit (sort_by_key (fun x => (- score x)%Z) l).

Definition search_snapshot (snapshot : ZoneSnapshot) (query : rstr) (rt : option rstr) (limit : nat) :
    list (ZoneRecord * Z) :=
  let type_filter := rt ≫= parse_record_type_filter in
  let scored :=
    iter_records (zn_records snapshot) ≫= fun '(name, records) =>
      let score := fuzzy_match name query in
      omap (fun r => (fun s => (record_to_zone_record r name (zn_zone snapshot), s)) <$> score)
        (filter (fun r => type_matches type_filter r = true) records) in
  top_by_score snd limit scored.

Definition authority_searchable (self : ZoneAuthorityResolver) : ZoneSearchable W :=
  {| zs_zone_name w := zn_zone (cget (za_snapshot self) w);
     zs_record_count w := record_count (cget (za_snapshot self) w);
     zs_list_records rt w :=
       snapshot_to_zone_records (cget (za_snapshot self) w) (rt ≫= parse_record_type_filter);
     zs_search_records query rt limit w := search_snapshot (cget (za_snapshot self) w) query rt limit |}.
End authority.

(** ** Hexadecimal data *)

Definition hex_byte (b : N) : rstr := [hex_digit (b / 16); hex_digit (b mod 16)]%N.

Lemma hex_digit_small d : (d < 16)%N ->
  to_digit 16 (hex_digit d) = Some d /\ (hex_digit d < 128)%N /\ hex_digit d <> 43%N
  /\ is_whitespace (hex_digit d) = false.
Proof.
  intros Hd. unfold hex_digit. destruct (N.ltb_spec d 10).
  - unfold to_digit, is_ascii_digit, is_whitespace, in_range. split; [|lia].
    repeat case_match; try lia. f_equal. lia.
  - unfold to_digit, is_ascii_digit, is_ascii_lowercase, is_whitespace, in_range. split; [|lia].
    repeat case_match; try lia. f_equal. lia.
Qed.

Lemma parse_hex_pair x y a b :
  to_digit 16 x = Some a -> to_digit 16 y = Some b -> x <> 43%N -> (a * 16 + b <= 255)%N ->
  parse_unsigned 16 255 [x; y] = Some (a * 16 + b)%N.
Proof.
  intros Hx Hy Hne Hle. unfold parse_unsigned.
  assert (match [x; y] with 43%N :: rest => rest | _ => [x; y] end = [x; y]) as ->.
  { destruct x as [|x]; [done|]. do 6 (destruct x as [x|x|]; try done). }
  cbn [is_empty digits_value]. rewrite Hx, Hy, N.mul_0_l, N.add_0_l.
  by rewrite (proj2 (N.leb_le _ _) Hle).
Qed.

Lemma decode_hex_pair_byte b : (b < 256)%N ->
  decode_hex_pair (hex_digit (b / 16)) (hex_digit (b mod 16)) = Ok b.
Proof.
  intros Hb. assert (b / 16 < 16)%N as H1 by (apply N.Div0.div_lt_upper_bound; lia).
  assert (b mod 16 < 16)%N as H2 by (apply N.mod_lt; lia).
  destruct (hex_digit_small _ H1) as (D1 & L1 & P1 & _), (hex_digit_small _ H2) as (D2 & L2 & _ & _).
  assert (b / 16 * 16 + b mod 16 = b)%N as Hbm by (rewrite N.mul_comm; symmetry; apply N.div_mod').
  unfold decode_hex_pair. rewrite (proj2 (N.ltb_lt _ _) L1), (proj2 (N.ltb_lt _ _) L2). simpl.
  rewrite (parse_hex_pair _ _ _ _ D1 D2 P1) by lia. simpl. by rewrite Hbm.
Qed.

Lemma hex_bytes_facts bs : Forall (fun b => (b < 256)%N) bs ->
  let s := bs ≫= hex_byte in
  no_whitespace s /\ as_bytes s = s /\ str_len s = 2 * length bs /\ decode_hex_chunks s = Ok bs.
Proof.
  induction 1 as [|b bs Hb Hbs (Hw & Ha & Hl & Hd)]; [split; [constructor|done]|]. cbv zeta in *.
  change ((b :: bs) ≫= hex_byte) with (hex_byte b ++ (bs ≫= hex_byte)).
  assert (b / 16 < 16)%N as H1 by (apply N.Div0.div_lt_upper_bound; lia).
  assert (b mod 16 < 16)%N as H2 by (apply N.mod_lt; lia).
  destruct (hex_digit_small _ H1) as (_ & L1 & _ & W1), (hex_digit_small _ H2) as (_ & L2 & _ & W2).
  split; [|split; [|split]].
  - unfold hex_byte. simpl. by repeat constructor.
  - unfold as_bytes in *. rewrite bind_app, Ha. f_equal. unfold hex_byte. simpl.
    unfold utf8_char. by rewrite (proj2 (N.ltb_lt _ _) L1), (proj2 (N.ltb_lt _ _) L2).
  - rewrite <- length_as_bytes in *. unfold as_bytes in *. rewrite bind_app, length_app, Hl.
    unfold hex_byte. simpl. unfold utf8_char.
    rewrite (proj2 (N.ltb_lt _ _) L1), (proj2 (N.ltb_lt _ _) L2). simpl. lia.
  - revert Hd. generalize (bs ≫= hex_byte). intros rest Hd.
    unfold hex_byte. cbn [app decode_hex_chunks]. by rewrite decode_hex_pair_byte, Hd.
Qed.

(** Certificate data survives its hexadecimal notation: decoding the two-digit
    notation of any bytes gives the bytes back. *)
Theorem decode_hex_roundtrip (bs : list N) :
  Forall (fun b => (b < 256)%N) bs -> decode_hex (bs ≫= hex_byte) = Ok bs.
Proof.
  intros Hb. destruct (hex_bytes_facts bs Hb) as (Hw & Ha & Hl & Hd). cbv zeta in *.
  unfold decode_hex. rewrite trim_no_whitespace by done.
  destruct bs as [|b bs]; [done|].
  assert (is_empty ((b :: bs) ≫= hex_byte) = false) as -> by done.
  rewrite Hl. assert (Nat.odd (2 * length (b :: bs)) = false) as ->.
  { rewrite <- Nat.negb_even, Nat.even_mul. done. }
  by rewrite Ha.
Qed.

Lemma decode_hex_roundtrip_witness : decode_hex (lit "d00f") = Ok [208; 15]%N.
Proof. apply (decode_hex_roundtrip [208; 15]%N). repeat constructor; lia. Defined.

(** The digit pairs are read with a signed-number parser: a plus sign followed by
    one digit is accepted as a byte. *)
Theorem decode_hex_accepts_plus : decode_hex (lit "+f0a") = Ok [15; 10]%N.
Proof. vm_compute. reflexivity. Qed.

(** ** Loading a zone *)

Section zone_facts.
Context `{DnsCodec} (url_parse : rstr -> option rstr).

(** The record [r] is stored under [key]. *)
Definition has_record (m : gmap rstr (list DnsRecord)) (key : rstr) (r : DnsRecord) : Prop :=
  exists rs, m !! key = Some rs /\ r ∈ rs.

Lemma has_record_push_here m key r : has_record (push_record key r m) key r.
Proof.
  unfold has_record, push_record. rewrite lookup_insert_eq. eexists. split; [done|].
  rewrite elem_of_app, list_elem_of_singleton. auto.
Qed.

Lemma has_record_push m key r key' r' :
  has_record m key r -> has_record (push_record key' r' m) key r.
Proof.
  intros (rs & Hk & Hr). unfold has_record, push_record.
  destruct (decide (key' = key)) as [->|Hne].
  - rewrite lookup_insert_eq, Hk. eexists. split; [done|]. rewrite elem_of_app. auto.
  - rewrite lookup_insert_ne by done. eauto.
Qed.
#[local] Hint Resolve has_record_push_here has_record_push : rust.

(** What an entry of the document becomes. *)
Definition entry_record (zone : rstr) (ttl_default : N) (entry : ZoneJsonRecord) (key : rstr)
    (r : DnsRecord) : Prop :=
  exists name, resolve_record_name zone (zj_name entry) = Ok key /\ fqdn_to_name key = Ok name
    /\ parse_record url_parse entry name (default ttl_default (zj_ttl entry)) = Ok r.

Lemma load_records_spec zone ttl entries m soa m' soa' :
  load_records url_parse zone ttl entries m soa = Ok (m', soa') ->
  (forall key r, has_record m key r -> has_record m' key r)
  /\ (forall entry, entry ∈ entries -> exists key r, entry_record zone ttl entry key r /\ has_record m' key r)
  /\ (forall r, soa' = Some r -> soa = Some r \/ (record_type r = RT_SOA /\ has_record m' zone r)).
Proof.
  revert m soa. induction entries as [|entry entries IH]; intros m soa; simpl.
  { intros [= <- <-]. split; [done|]. split; [by intros ? ?%not_elem_of_nil|]. by left. }
  intros Hl. destruct (resolve_record_name zone (zj_name entry)) as [key|] eqn:Hkey; [|done].
  destruct (fqdn_to_name key) as [name|] eqn:Hname; [|done].
  destruct (parse_record _ entry name _) as [r|] eqn:Hr; [|done].
  apply IH in Hl as (Hmono & Hall & Hsoa). split; [|split].
  - intros key' r' Hh. apply Hmono. by apply has_record_push.
  - intros entry' [->|He]%elem_of_cons; [|by apply Hall].
    exists key, r. split; [by exists name|]. apply Hmono. by apply has_record_push_here.
  - intros r' Hr'. destruct (Hsoa r' Hr') as [Hs|?]; [|by right].
    destruct (bool_decide (record_type r = RT_SOA) && str_eqb key zone && bool_decide (soa = None)) eqn:Hc;
      [|by left].
    apply andb_true_iff in Hc as [[Ht%bool_decide_eq_true Hk%bool_decide_eq_true]%andb_true_iff _].
    simplify_eq. right. split; [done|]. apply Hmono, has_record_push_here.
Qed.

Lemma ensure_default_apex_ns_spec zone ttl m m' :
  ensure_default_apex_ns zone ttl m = Ok m' ->
  (forall key r, has_record m key r -> has_record m' key r)
  /\ exists r, has_record m' zone r /\ record_type r = RT_NS.
Proof.
  unfold ensure_default_apex_ns. intros He.
  destruct (match m !! zone with Some records => existsb _ records | None => false end) eqn:Hns.
  - simplify_eq. split; [done|]. destruct (m' !! zone) as [rs|] eqn:Hz; [|done].
    apply List.existsb_exists in Hns as (r & Hr%list_elem_of_In & Ht%bool_decide_eq_true).
    exists r. split; [by exists rs|done].
  - destruct (fqdn_to_name (lit "ns1." ++ zone)) as [n1|]; [|done].
    destruct (fqdn_to_name zone) as [n2|]; [|done]. simplify_eq.
    split; [by eauto using has_record_push|]. eexists. split; [apply has_record_push_here|done].
Qed.

(** What holds of every snapshot a zone document gives. *)
Definition complete_zone (s : ZoneSnapshot) : Prop :=
  (exists soa, zn_soa s = Some soa /\ record_type soa = RT_SOA /\ has_record (zn_records s) (zn_zone s) soa)
  /\ (exists ns, has_record (zn_records s) (zn_zone s) ns /\ record_type ns = RT_NS).

Lemma build_snapshot_inv expected document s :
  build_snapshot url_parse expected document = Ok s ->
  let z := zn_zone s in
  let ttl := default 3600%N (zd_ttl_default document) in
  normalize_name expected = Some z /\ normalize_name (zd_zone document) = Some z
  /\ exists m soa m', load_records url_parse z ttl (zd_records document) ∅ None = Ok (m, soa)
    /\ ensure_default_apex_ns z ttl m = Ok m'
    /\ ((exists r, soa = Some r /\ zn_soa s = Some r /\ zn_records s = m')
        \/ (exists r, soa = None /\ zn_soa s = Some r /\ record_type r = RT_SOA
                     /\ zn_records s = push_record z r m')).
Proof.
  unfold build_snapshot. intros Hb.
  destruct (normalize_name (zd_zone document)) as [z|] eqn:Hz; [|done].
  destruct (normalize_name expected) as [z'|] eqn:Hz'; [|done]. simpl in Hb.
  unfold str_eqb in Hb. case_bool_decide as Heq; [|done]. subst z'.
  destruct (load_records _ z _ _ ∅ None) as [[m soa]|] eqn:Hl; [|done].
  destruct (ensure_default_apex_ns z _ m) as [m'|] eqn:Hn; [|done].
  destruct soa as [soa|].
  - simplify_eq. simpl. split; [done|]. split; [done|]. exists m, (Some soa), m'. eauto 10.
  - destruct (build_default_soa_record document z _) as [soa|] eqn:Hd; [|done]. simplify_eq. simpl.
    split; [done|]. split; [done|]. exists m, None, m'. split; [done|]. split; [done|]. right.
    exists soa. split_and!; try done.
    unfold build_default_soa_record in Hd. by repeat (case_match; simplify_eq).
Qed.

Lemma build_snapshot_complete expected document s :
  build_snapshot url_parse expected document = Ok s -> complete_zone s.
Proof.
  intros (_ & _ & m & soa & m' & Hl & Hn & Hcase)%build_snapshot_inv.
  apply load_records_spec in Hl as (_ & _ & Hsoa).
  apply ensure_default_apex_ns_spec in Hn as (Hmono & ns & Hns & Ht).
  destruct Hcase as [(r & -> & Hs & Hm)|(r & -> & Hs & Hr & Hm)]; unfold complete_zone; rewrite Hs, Hm.
  - destruct (Hsoa r eq_refl) as [?|[? ?]]; [done|]. split; eauto.
  - split; eauto with rust.
Qed.

(** C24. A zone document is loaded completely or rejected: the snapshot is for the
    configured zone, holds the record of every entry of the document under its
    resolved name, and has a SOA and at least one NS record at its apex even if the
    document lists none. *)
Theorem loaded_zone_is_complete (expected : rstr) (document : ZoneJsonDocument) (s : ZoneSnapshot) :
  build_snapshot url_parse expected document = Ok s ->
  complete_zone s
  /\ normalize_name expected = Some (zn_zone s) /\ normalize_name (zd_zone document) = Some (zn_zone s)
  /\ forall entry, entry ∈ zd_records document ->
       exists key r, entry_record (zn_zone s) (default 3600%N (zd_ttl_default document)) entry key r
                     /\ has_record (zn_records s) key r.
Proof.
  intros Hb. split; [by eapply build_snapshot_complete|].
  apply build_snapshot_inv in Hb as (Hz & Hz' & m & soa & m' & Hl & Hn & Hcase).
  split; [done|]. split; [done|]. intros entry He.
  apply load_records_spec in Hl as (_ & Hall & _).
  apply ensure_default_apex_ns_spec in Hn as (Hmono & _).
  destruct (Hall entry He) as (key & r & Hr & Hh). exists key, r. split; [done|].
  destruct Hcase as [(? & _ & _ & ->)|(? & _ & _ & _ & ->)]; auto with rust.
Qed.
End zone_facts.

(** ** Answers of an authoritative zone *)

Section answer_facts.
Context `{DnsCodec} (url_parse : rstr -> option rstr) (record_eq : DnsRecord -> DnsRecord -> bool).

Lemma authority_matches_zone_iff d z : authority_matches_zone d z = true <-> covers z d.
Proof.
  unfold authority_matches_zone, str_eqb, covers. rewrite orb_true_iff, bool_decide_eq_true. split.
  - intros [?|Hs]; [by left|right]. destruct (strip_suffix z d) as [prefix|] eqn:Hp; [|done].
    apply strip_suffix_Some in Hp as ->. apply ends_with_iff in Hs as [r ->].
    exists r. by rewrite <- app_assoc.
  - intros [?|[p ->]]; [by left|right].
    change (p ++ ch "." :: z) with (p ++ lit "." ++ z). rewrite app_assoc, strip_suffix_app.
    apply ends_with_iff. by exists p.
Qed.

(** Records in [answers] that match the question: by its type, or a CNAME. *)
Definition answers_question (qt : RecordType) (r : DnsRecord) : Prop :=
  qt = RT_ANY \/ record_type r = qt \/ record_type r = RT_CNAME.

Definition of_type (qt : RecordType) (r : DnsRecord) : Prop := qt = RT_ANY \/ record_type r = qt.

Definition select_answers (records : list DnsRecord) (qt : RecordType) : list DnsRecord :=
  let answers := filter_answers records qt in
  if is_empty answers && bool_decide (qt <> RT_CNAME) then filter_answers records RT_CNAME else answers.

Lemma filter_answers_elem records qt r :
  r ∈ filter_answers records qt <-> r ∈ records /\ (qt = RT_ANY \/ record_type r = qt).
Proof.
  unfold filter_answers. case_bool_decide as Hq; [naive_solver|]. rewrite list_elem_of_filter. naive_solver.
Qed.

Lemma select_answers_elem records qt r :
  r ∈ select_answers records qt -> r ∈ records /\ answers_question qt r.
Proof.
  unfold select_answers, answers_question. case_match; rewrite filter_answers_elem; naive_solver.
Qed.

Lemma select_answers_direct records qt r : r ∈ records -> of_type qt r -> r ∈ select_answers records qt.
Proof.
  intros Hr Hq. assert (r ∈ filter_answers records qt) as Hin by by apply filter_answers_elem.
  unfold select_answers. destruct (filter_answers records qt); [by apply not_elem_of_nil in Hin|done].
Qed.

Lemma select_answers_cname records qt r :
  (forall r', r' ∈ records -> ~ of_type qt r') -> r ∈ records -> record_type r = RT_CNAME ->
  r ∈ select_answers records qt.
Proof.
  intros Hno Hr Hc. unfold select_answers.
  destruct (filter_answers records qt) as [|a l] eqn:Hf; simpl.
  - rewrite bool_decide_eq_true_2; [apply filter_answers_elem; auto|].
    intros ->. apply (Hno r Hr). by right.
  - assert (a ∈ filter_answers records qt) as Ha by (rewrite Hf; apply list_elem_of_here).
    apply filter_answers_elem in Ha as [Ha Ht]. by destruct (Hno a Ha).
Qed.

(** No record is selected only if none has the type and none is a CNAME. *)
Lemma select_answers_nil records qt r :
  select_answers records qt = [] -> r ∈ records -> ~ answers_question qt r.
Proof.
  unfold select_answers, answers_question. intros Hnil Hr Hq.
  destruct (filter_answers records qt) as [|a l] eqn:Hf; simpl in Hnil.
  - assert (r ∉ filter_answers records qt) as Hno by (rewrite Hf; apply not_elem_of_nil).
    rewrite filter_answers_elem in Hno.
    destruct Hq as [?|[?|Hc]]; [by apply Hno; auto|by apply Hno; auto|].
    case_bool_decide as Hqc; [|subst qt; by apply Hno; auto].
    assert (r ∈ filter_answers records RT_CNAME) as Hin by (apply filter_answers_elem; auto).
    rewrite Hnil in Hin. by apply not_elem_of_nil in Hin.
  - done.
Qed.

Lemma authority_message_eq s request q name soa :
  zn_soa s = Some soa ->
  let header rc := add_query q (set_flags true (msg_recursion_desired request) false rc
                     (message_new (msg_id request) MT_Response OC_Query)) in
  authority_message record_eq s request q name
  = if authority_matches_zone name (zn_zone s) then
      match zn_records s !! name with
      | None => add_authority soa (header NXDomain)
      | Some rs =>
          let answers := select_answers rs (q_type q) in
          if is_empty answers then add_authority soa (header NoError)
          else set_sections [q] answers [] (collect_ns_glue_records record_eq answers (zn_records s))
                 (header NoError)
      end
    else header Refused.
Proof.
  intros Hsoa header. unfold authority_message. rewrite Hsoa. fold header.
  destruct (authority_matches_zone name (zn_zone s)); simpl; [|done].
  destruct (zn_records s !! name) as [rs|]; [|done]. fold (select_answers rs (q_type q)).
  destruct (is_empty (select_answers rs (q_type q))); [done|].
  rewrite foldl_add_answer, foldl_add_additional. done.
Qed.

(** C23. Authoritative answers, on every branch: the response echoes identifier,
    recursion bit and question, is authoritative and offers no recursion.  A name
    outside the zone is REFUSED with no record; a name without records is NXDOMAIN
    with the zone's SOA; otherwise the answer is NOERROR and holds only records of
    that name that match the question (or a CNAME): all that match, all CNAMEs when none
    matches, and it is empty, with the SOA, only when the name has neither. *)
Theorem authority_answer_branches (expected : rstr) (document : ZoneJsonDocument) (s : ZoneSnapshot)
    (request : Message) (q : Query) (name : rstr) :
  build_snapshot url_parse expected document = Ok s ->
  let m := authority_message record_eq s request q name in
  (msg_type m = MT_Response /\ msg_id m = msg_id request /\ msg_queries m = [q]
   /\ msg_recursion_desired m = msg_recursion_desired request
   /\ msg_authoritative m = true /\ msg_recursion_available m = false)
  /\ exists soa, record_type soa = RT_SOA /\ has_record (zn_records s) (zn_zone s) soa
     /\ (~ covers (zn_zone s) name ->
          msg_response_code m = Refused /\ msg_answers m = [] /\ msg_authorities m = [])
     /\ (covers (zn_zone s) name ->
          match zn_records s !! name with
          | None => msg_response_code m = NXDomain /\ msg_answers m = [] /\ msg_authorities m = [soa]
          | Some rs =>
              msg_response_code m = NoError
              /\ (forall r, r ∈ msg_answers m -> r ∈ rs /\ answers_question (q_type q) r)
              /\ (forall r, r ∈ rs -> of_type (q_type q) r -> r ∈ msg_answers m)
              /\ ((forall r, r ∈ rs -> ~ of_type (q_type q) r) ->
                  forall r, r ∈ rs -> record_type r = RT_CNAME -> r ∈ msg_answers m)
              /\ (msg_answers m = [] -> msg_authorities m = [soa]
                                       /\ forall r, r ∈ rs -> ~ answers_question (q_type q) r)
          end).
Proof.
  intros Hb m. destruct (build_snapshot_complete _ _ _ _ Hb) as [(soa & Hsoa & Ht & Hh) _].
  pose proof (authority_message_eq s request q name soa Hsoa) as Hm. fold m in Hm.
  pose proof (authority_matches_zone_iff name (zn_zone s)) as Hiff.
  destruct (authority_matches_zone name (zn_zone s)).
  2: { rewrite Hm. split; [done|]. exists soa. split_and!; try done. naive_solver. }
  assert (covers (zn_zone s) name) as Hc by by apply Hiff.
  destruct (zn_records s !! name) as [rs|].
  2: { rewrite Hm. split; [done|]. exists soa. by split_and!. }
  cbv zeta in Hm. destruct (is_empty (select_answers rs (q_type q))) eqn:He; rewrite Hm.
  - split; [done|]. exists soa. split_and!; try done. intros _. split; [done|].
    assert (select_answers rs (q_type q) = []) as Hnil by by destruct (select_answers rs (q_type q)).
    split; [by intros r ?%not_elem_of_nil|].
    split; [intros r Hr Ho; pose proof (select_answers_direct _ _ _ Hr Ho) as Hin; by rewrite Hnil in Hin|].
    split; [intros Hno r Hr Hcn; pose proof (select_answers_cname _ _ _ Hno Hr Hcn) as Hin; by rewrite Hnil in Hin|].
    intros _. split; [done|]. intros r.
    by apply select_answers_nil.
  - split; [done|]. exists soa. split_and!; try done. intros _. split; [done|]. simpl.
    split; [intros r; apply select_answers_elem|]. split; [intros r; apply select_answers_direct|].
    split; [intros Hno r; by apply select_answers_cname|]. intros Hnil. by rewrite Hnil in He.
Qed.

(** ** Glue *)

(** No later record of the list equals an earlier one. *)
Fixpoint no_equal_records (l : list DnsRecord) : Prop :=
  match l with
  | [] => True
  | r :: rest => Forall (fun r' => record_eq r r' = false) rest /\ no_equal_records rest
  end.

Lemma no_equal_records_snoc l r :
  no_equal_records l -> existsb (fun existing => record_eq existing r) l = false ->
  no_equal_records (l ++ [r]).
Proof.
  induction l as [|x l IH]; simpl; [done|]. intros [Hx Hl] [Hr He]%orb_false_iff.
  rewrite Forall_app, Forall_singleton. auto.
Qed.

Definition is_address (r : DnsRecord) : Prop := record_type r = RT_A \/ record_type r = RT_AAAA.

(** [r] is an address record of the target of an NS record of [answers]. *)
Definition glue_for (answers : list DnsRecord) (m : gmap rstr (list DnsRecord)) (r : DnsRecord) : Prop :=
  is_address r /\ exists a target key, a ∈ answers /\ rec_data a = RD_NS target
    /\ normalize_name (name_to_ascii target) = Some key /\ has_record m key r.

(** [r] or a record equal to it is in [glue]. *)
Definition present_in (glue : list DnsRecord) (r : DnsRecord) : Prop :=
  exists r', r' ∈ glue /\ (r' = r \/ record_eq r' r = true).

(** The invariant of the glue loops: sound and complete for the records [R] seen. *)
Definition glue_ok (R : DnsRecord -> Prop) (glue : list DnsRecord) : Prop :=
  no_equal_records glue /\ Forall R glue /\ forall r, R r -> present_in glue r.

Lemma present_in_app glue more r : present_in glue r -> present_in (glue ++ more) r.
Proof. intros (r' & Hin & Hr). exists r'. split; [|done]. apply elem_of_app. by left. Qed.

Lemma add_glue_ok (R : DnsRecord -> Prop) glue r :
  glue_ok R glue -> glue_ok (fun x => R x \/ (x = r /\ is_address r)) (add_glue record_eq glue r).
Proof.
  intros (Hn & Hall & Hc). unfold add_glue.
  assert (forall k : list DnsRecord, Forall R k -> Forall (fun x => R x \/ (x = r /\ is_address r)) k) as Hw.
  { intros k Hk. eapply Forall_impl; [exact Hk|]. auto. }
  case_bool_decide as Ha.
  { split; [done|]. split; [by apply Hw|]. intros x [?|[-> [?|?]]]; [by apply Hc|tauto|tauto]. }
  assert (is_address r) as Hr.
  { unfold is_address. destruct (decide (record_type r = RT_A)); [by left|].
    right. destruct (decide (record_type r = RT_AAAA)); [done|tauto]. }
  destruct (existsb _ glue) eqn:He.
  - split; [done|]. split; [by apply Hw|]. intros x [?|[-> _]]; [by apply Hc|].
    apply List.existsb_exists in He as (r' & Hin & Heq). exists r'.
    split; [by apply list_elem_of_In|by right].
  - split; [by apply no_equal_records_snoc|]. split.
    + apply Forall_app. split; [by apply Hw|]. apply Forall_singleton. by right.
    + intros x [?|[-> _]]; [by apply present_in_app, Hc|].
      exists r. split; [apply elem_of_app; right; apply list_elem_of_here|by left].
Qed.

Lemma glue_ok_iff (R R' : DnsRecord -> Prop) glue :
  (forall r, R r <-> R' r) -> glue_ok R glue -> glue_ok R' glue.
Proof.
  intros Heq (Hn & Hall & Hc). split; [done|]. split.
  - eapply Forall_impl; [exact Hall|]. intros r. apply Heq.
  - intros r Hr. by apply Hc, Heq.
Qed.

Lemma foldl_add_glue_ok (R : DnsRecord -> Prop) rs glue :
  glue_ok R glue ->
  glue_ok (fun x => R x \/ (x ∈ rs /\ is_address x)) (foldl (add_glue record_eq) glue rs).
Proof.
  revert R glue. induction rs as [|r rs IH]; intros R glue Hg; simpl.
  - eapply glue_ok_iff; [|exact Hg]. intros x. split; [by left|]. by intros [?|[?%not_elem_of_nil _]].
  - eapply glue_ok_iff; [|apply IH, (add_glue_ok R glue r Hg)].
    intros x. rewrite elem_of_cons. naive_solver.
Qed.

Lemma glue_of_answer_ok (R : DnsRecord -> Prop) m glue answer :
  glue_ok R glue ->
  glue_ok (fun x => R x \/ glue_for [answer] m x) (glue_of_answer record_eq m glue answer).
Proof.
  intros Hg. unfold glue_of_answer.
  assert ((forall x, ~ glue_for [answer] m x) ->
    glue_ok (fun x => R x \/ glue_for [answer] m x) glue) as Hnone.
  { intros Hno. eapply glue_ok_iff; [|exact Hg]. intros x. pose proof (Hno x). tauto. }
  destruct (rec_data answer) eqn:Hd;
    try (apply Hnone; intros x (_ & an & tg & k & ->%list_elem_of_singleton & Hn & _); congruence).
  destruct (normalize_name _) as [key|] eqn:Hk.
  2: { apply Hnone. intros x (_ & an & tg & k & ->%list_elem_of_singleton & Hn & Hk' & _). congruence. }
  destruct (m !! key) as [rs|] eqn:Hm.
  2: { apply Hnone. intros x (_ & an & tg & k & ->%list_elem_of_singleton & Hn & Hk' & rs' & Hrs & _).
       congruence. }
  eapply glue_ok_iff; [|by apply foldl_add_glue_ok]. intros x. split.
  - intros [?|[Hx Ha]]; [by left|right]. split; [done|].
    eexists answer, _, key. split; [by apply list_elem_of_singleton|].
    split; [exact Hd|]. split; [done|]. by exists rs.
  - intros [?|(Ha & b & t & k & ->%list_elem_of_singleton & Hb & Hk' & rs' & Hrs & Hx)]; [by left|right].
    rewrite Hd in Hb. simplify_eq. split; [congruence|done].
Qed.

(** Glue is exact: the additional records sent with NS answers are A and AAAA
    records the zone holds for the targets of those answers; all of them are sent, up to
    equality of records, and no two that are sent are equal. *)
Theorem ns_glue_exact (answers : list DnsRecord) (m : gmap rstr (list DnsRecord)) :
  let glue := collect_ns_glue_records record_eq answers m in
  no_equal_records glue
  /\ Forall (glue_for answers m) glue
  /\ (forall r, glue_for answers m r -> present_in glue r).
Proof.
  assert (forall R glue, glue_ok R glue ->
    glue_ok (fun x => R x \/ glue_for answers m x) (foldl (glue_of_answer record_eq m) glue answers)) as Hall.
  { induction answers as [|a answers IH]; intros R glue Hg; simpl.
    - eapply glue_ok_iff; [|exact Hg]. intros x. unfold glue_for. split; [by left|].
      intros [?|(_ & b & t & k & ?%not_elem_of_nil & _)]; done.
    - eapply glue_ok_iff; [|apply IH, (glue_of_answer_ok R m glue a Hg)].
      intros x. unfold glue_for. setoid_rewrite list_elem_of_singleton. setoid_rewrite elem_of_cons.
      split.
      + intros [[?|(? & b & t & k & -> & ?)]|(? & b & t & k & ? & ?)]; [by left|right|right];
          (split; [done|]); exists b || exists a; exists t, k; auto.
      + intros [?|(? & b & t & k & [->|?] & ?)]; [by left; left|left; right|right];
          (split; [done|]); eexists _, t, k; eauto. }
  eapply (glue_ok_iff (fun x => False \/ glue_for answers m x)); [tauto|].
  apply Hall. split; [done|]. split; [constructor|done].
Qed.
End answer_facts.

(** ** Refresh *)

Section refresh_facts.
Context `{DnsCodec} (url_parse : rstr -> option rstr) (parse_zone_json : rstr -> option ZoneJsonDocument).
Context {W : Type} (outside : Outside W).

(** The snapshot was built from some document for the configured zone. *)
Definition serves (zone : rstr) (s : ZoneSnapshot) : Prop :=
  exists document, build_snapshot url_parse zone document = Ok s.

Lemma load_snapshot_serves zone source auth w s w' :
  load_snapshot url_parse parse_zone_json outside zone source auth w = (Ok s, w') -> serves zone s.
Proof.
  unfold load_snapshot, mbind, mret. destruct (load_source_content _ _ _ w) as [[content|] w1]; [|done].
  intros [= Hb _]. destruct (parse_zone_json content) as [document|]; [|done]. by exists document.
Qed.

(** C29. Whatever is downloaded, a zone keeps serving a complete snapshot of itself:
    creating the resolver installs one, and a refresh round either replaces it by
    another complete one or leaves the last good one in place. *)
Theorem zone_refresh_keeps_good_snapshot (cell : Cell W ZoneSnapshot) `{!CellLaws cell}
    (self : ZoneAuthorityResolver) (zone url : rstr) (auth : option ZoneSourceAuth) (w : W) :
  za_snapshot self = cell ->
  (forall u a w, cget cell (http_get outside u a w).2 = cget cell w) ->
  (forall source interval w r w',
     from_source url_parse parse_zone_json outside cell zone source interval auth w = (Ok r, w') ->
     serves zone (cget cell w') /\ complete_zone (cget cell w'))
  /\ (serves zone (cget cell w) ->
      let s' := cget cell (refresh_tick url_parse parse_zone_json outside self zone url auth w).2 in
      serves zone s' /\ complete_zone s'
      /\ (is_ok (load_snapshot url_parse parse_zone_json outside zone (ZS_Url url) auth w).1 = false ->
          s' = cget cell w)).
Proof.
  intros Hself Hframe. assert (forall s, serves zone s -> complete_zone s) as Hcomplete.
  { intros s [document Hd]. by eapply build_snapshot_complete. }
  assert (forall w, cget cell (load_snapshot url_parse parse_zone_json outside zone (ZS_Url url) auth w).2
    = cget cell w) as Hload.
  { intros w1. unfold load_snapshot, load_source_content, mbind, mret.
    specialize (Hframe url auth w1). by destruct (http_get outside url auth w1). }
  split.
  - intros source interval w1 r w'. unfold from_source. destruct (parse_zone_source source) as [src|]; [|done].
    unfold mbind at 1. destruct (load_snapshot _ _ _ zone src auth w1) as [[s|] w2] eqn:Hl; [|done].
    apply load_snapshot_serves in Hl. unfold mbind, cwrite, mret. intros [= _ <-].
    rewrite cget_cput. auto.
  - intros Hs s'. unfold s', refresh_tick, mbind. specialize (Hload w).
    destruct (load_snapshot _ _ _ zone (ZS_Url url) auth w) as [[s|] w2] eqn:Hl; simpl in *.
    + apply load_snapshot_serves in Hl. rewrite Hself, cget_cput. by split_and!; [|apply Hcomplete|].
    + rewrite Hload. by split_and!; [|apply Hcomplete|].
Qed.
End refresh_facts.

(** ** Witnesses *)

Module AuthorityExamples.
#[local] Existing Instance text_names.

Definition document : ZoneJsonDocument :=
  {| zd_zone := lit "Example.com."; zd_ttl_default := None; zd_serial := Some (lit "7");
     zd_records :=
       [{| zj_name := lit "www"; zj_record_type := lit "a"; zj_ttl := Some 60%N;
           zj_data := JObject [(lit "address", JString (lit "192.0.2.1"))] |}] |}.
Definition no_url (_ : rstr) : option rstr := None.
Definition codec : DnsCodec := ex_codec [].
#[local] Existing Instance codec.

Definition www : DnsRecord :=
  {| rec_name := lit "www.example.com."; rec_ttl := 60; rec_data := RD_A (192, 0, 2, 1)%N |}.
Definition apex_ns : DnsRecord :=
  {| rec_name := lit "example.com."; rec_ttl := 3600; rec_data := RD_NS (lit "ns1.example.com.") |}.
Definition apex_soa : DnsRecord :=
  {| rec_name := lit "example.com."; rec_ttl := 3600;
     rec_data := RD_SOA {| soa_mname := lit "ns1.example.com."; soa_rname := lit "hostmaster.example.com.";
       soa_serial := 7; soa_refresh := 3600; soa_retry := 900; soa_expire := 604800;
       soa_minimum := 300 |} |}.
Definition snapshot : ZoneSnapshot :=
  {| zn_zone := lit "example.com";
     zn_records := <[lit "example.com" := [apex_ns; apex_soa]]> (<[lit "www.example.com" := [www]]> ∅);
     zn_soa := Some apex_soa |}.

Lemma document_builds : build_snapshot no_url (lit "example.com") document = Ok snapshot.
Proof. vm_compute. reflexivity. Qed.

Lemma loaded_zone_is_complete_witness : complete_zone snapshot.
Proof. apply (loaded_zone_is_complete no_url (lit "example.com") document snapshot document_builds). Defined.

Definition nx_query : Query := {| q_name := lit "nx.example.com."; q_type := RT_A; q_class := 1 |}.

Lemma authority_answer_branches_witness :
  msg_response_code (authority_message (fun _ _ => false) snapshot (message_new 9 MT_Query OC_Query)
    nx_query (lit "nx.example.com")) = NXDomain.
Proof.
  destruct (authority_answer_branches no_url (fun _ _ => false) (lit "example.com") document snapshot
    (message_new 9 MT_Query OC_Query) nx_query
    (lit "nx.example.com") document_builds) as (_ & soa & _ & _ & _ & Hin).
  apply Hin. right. exists (lit "nx"). reflexivity.
Defined.

(** A world that is the snapshot; the download always fails. *)
Definition snapshot_cell : Cell ZoneSnapshot ZoneSnapshot := {| cget w := w; cput s _ := s |}.
#[export] Instance snapshot_cell_laws : CellLaws snapshot_cell.
Proof. by split. Qed.
Definition offline : Outside ZoneSnapshot :=
  {| http_get _ _ := mret None; fs_read_to_string _ := mret None; now := mret 0%N;
     gen_range _ := mret 0 |}.

Lemma zone_refresh_keeps_good_snapshot_witness :
  (refresh_tick no_url (fun _ => None) offline
    {| za_snapshot := snapshot_cell; za_label := lit "zone:example.com" |}
    (lit "example.com") (lit "https://zones.example/z.json") None snapshot).2 = snapshot.
Proof.
  apply (zone_refresh_keeps_good_snapshot no_url (fun _ => None) offline snapshot_cell
    {| za_snapshot := snapshot_cell; za_label := lit "zone:example.com" |}
    (lit "example.com") (lit "https://zones.example/z.json") None snapshot).
  - reflexivity.
  - intros u a w. reflexivity.
  - exists document. exact document_builds.
  - reflexivity.
Defined.
End AuthorityExamples.
