(* ===== verification/ZoneRegistry.v ===== *)
(** * Zone registry and zone discovery

    [use_cases/zone_registry.rs]: listing and searching the records of all zones.
    [use_cases/zone_discovery.rs]: zones found in an index document fetched over HTTP,
    each backed by an authoritative resolver. *)

From S2P Require Import Prelude RustStr RustNet Outside Hickory Metrics ListParsers ExampleCodec Upstream Pipeline ZoneForwarding ZoneAuthority.

(** ** Registry *)

Record ZoneMetadata : Type := { zm_bypass_filter : bool; zm_fallback_to_default_resolvers : bool }.
Record ZoneInfo : Type := {
  zi_name : rstr; zi_record_count : nat; zi_bypass_filter : bool;
  zi_fallback_to_default_resolvers : bool
}.
Record ZoneSearchResult : Type := { zsr_record : ZoneRecord; zsr_score : Z }.

Section registry.
Context {W : Type}.

Record ZoneRegistry : Type := { zones : list (ZoneSearchable W * ZoneMetadata) }.

Definition zone_count (self : ZoneRegistry) : nat := length (zones self).

Definition list_zones (self : ZoneRegistry) (w : W) : list ZoneInfo :=
  (fun '(searchable, meta) =>
     {| zi_name := zs_zone_name searchable w; zi_record_count := zs_record_count searchable w;
        zi_bypass_filter := zm_bypass_filter meta;
        zi_fallback_to_default_resolvers := zm_fallback_to_default_resolvers meta |}) <$> zones self.

Definition zone_selected (zone_filter : option rstr) (w : W) (s : ZoneSearchable W) : bool :=
  match zone_filter with Some zf => str_eqb (zs_zone_name s w) zf | None => true end.

(** The loop that collects the matches of each selected zone. *)
Definition collect_matches (self : ZoneRegistry) (query : rstr) (zone_filter rt : option rstr)
    (limit : nat) (w : W) : list ZoneSearchResult :=
  zones self ≫= fun '(searchable, _) =>
    if zone_selected zone_filter w searchable
    then (fun '(record, score) => {| zsr_record := record; zsr_score := score |})
           <$> zs_search_records searchable query rt limit w
    else [].

Definition search_records (self : ZoneRegistry) (query : rstr) (zone_filter rt : option rstr)
    (limit : nat) (w : W) : list ZoneSearchResult * nat :=
  let limit := Nat.min limit 500 in
  let all_results := sort_by_key (fun r => (- zsr_score r)%Z)
                       (collect_matches self query zone_filter rt limit w) in
  (take limit all_results, length all_results).

(** The returned and the dropped part of a list sorted by descending score. *)
Lemma top_by_score_spec {A} (score : A -> Z) (limit : nat) (l : list A) :
  let top := take limit (sort_by_key (fun x => (- score x)%Z) l) in
  length top = Nat.min limit (length l)
  /\ StronglySorted (fun x y => (score y <= score x)%Z) top
  /\ exists rest, l ≡ₚ top ++ rest /\ forall x y, x ∈ top -> y ∈ rest -> (score y <= score x)%Z.
Proof.
  cbv zeta. set (sorted := sort_by_key (fun x => (- score x)%Z) l).
  assert (StronglySorted (fun x y => (score y <= score x)%Z) sorted) as Hs.
  { eapply strongly_sorted_impl; [|apply sort_by_key_sorted]. unfold key_le. intros x y. lia. }
  split; [by rewrite length_take; unfold sorted; rewrite length_sort_by_key|].
  rewrite <- (take_drop limit sorted) in Hs. apply strongly_sorted_app in Hs as [Hst Hcross].
  split; [done|]. exists (drop limit sorted). rewrite take_drop. split.
  - symmetry. apply sort_by_key_perm.
  - intros x y Hx Hy. by apply Hcross.
Qed.

(** A search returns the best matches: at most [limit] and never more than 500
    results, best score first; every match of a selected zone that is left out scores
    no higher than any that is returned, and the total counts them all. *)
Theorem search_returns_best (self : ZoneRegistry) (query : rstr) (zone_filter rt : option rstr)
    (limit : nat) (w : W) :
  let '(results, total) := search_records self query zone_filter rt limit w in
  let found := collect_matches self query zone_filter rt (Nat.min limit 500) w in
  total = length found
  /\ length results = Nat.min (Nat.min limit 500) total
  /\ StronglySorted (fun x y => (zsr_score y <= zsr_score x)%Z) results
  /\ exists rest, found ≡ₚ results ++ rest
       /\ forall x y, x ∈ results -> y ∈ rest -> (zsr_score y <= zsr_score x)%Z.
Proof.
  unfold search_records.
  set (found := collect_matches self query zone_filter rt (Nat.min limit 500) w).
  destruct (top_by_score_spec zsr_score (Nat.min limit 500) found) as (Hlen & Hsort & Hrest).
  rewrite length_sort_by_key. split_and!; try done.
Qed.
End registry.
Arguments ZoneRegistry : clear implicits.

(** ** Discovery *)

Definition MAX_INDEX_BYTES : N := 512 * 1024.
Definition VALID_ZONE_TYPES : list rstr := [lit "reverse"; lit "forward"; lit "reverse-aggregate"].

(** The [Debug] form of the list: quoted, separated by commas, in brackets. *)
Definition quoted (s : rstr) : rstr := 34%N :: s ++ [34%N].
Definition valid_zone_types_debug : rstr :=
  lit "[" ++ quoted (lit "reverse") ++ lit ", " ++ quoted (lit "forward") ++ lit ", "
  ++ quoted (lit "reverse-aggregate") ++ lit "]".

Record ZoneServerAuthenticationConfig : Type := {
  zsa_token : option rstr; zsa_username : option rstr; zsa_password : option rstr
}.
Record ZoneDiscoveryConfig : Type := {
  zdc_enabled : bool; zdc_address : rstr; zdc_check_interval : option rstr;
  zdc_allowed_types : list rstr; zdc_bypass_filter : bool;
  zdc_fallback_to_default_resolvers : bool;
  zdc_authentication : option ZoneServerAuthenticationConfig
}.
Record ZoneIndexEntry : Type := { zie_href : rstr; zie_name : rstr; zie_zone_type : rstr }.

(** [as_ref().is_some_and(|v| !v.trim().is_empty())]. *)
Definition present (o : option rstr) : bool :=
  match o with Some v => negb (is_empty (trim v)) | None => false end.
Definition trimmed_or_empty (o : option rstr) : rstr := trim (default [] o).

Definition build_discovery_auth (auth_config : option ZoneServerAuthenticationConfig) :
    result (option ZoneSourceAuth) Error :=
  match auth_config with
  | None => Ok None
  | Some config =>
      let has_token := present (zsa_token config) in
      let has_username := present (zsa_username config) in
      let has_password := present (zsa_password config) in
      if negb has_token && negb has_username && negb has_password then Ok None
      else if has_token && (has_username || has_password)
      then Err [lit "zone_discovery authentication must use either 'token' (Bearer) or 'username'/'password' (Basic), not both"]
      else if xorb has_username has_password
      then Err [lit "zone_discovery authentication requires both 'username' and 'password' for Basic auth"]
      else if has_token then Ok (Some (Bearer (trimmed_or_empty (zsa_token config))))
      else Ok (Some (Basic (trimmed_or_empty (zsa_username config))
                           (trimmed_or_empty (zsa_password config))))
  end.

Definition normalize_discovery_zone (name : rstr) : rstr :=
  let s := to_ascii_lowercase (trim name) in
  default s (strip_suffix (lit ".") s).

Section discovery.
Context `{DnsCodec} {W : Type} (outside : Outside W).
(** [Url::parse] as a validity test with the parsed URL, [Url::join], the JSON parsers
    and the parameters of the authoritative resolvers. *)
Context (Url : Type) (parse_url : rstr -> option Url) (url_join : Url -> rstr -> result rstr rstr)
        (parse_index_json : rstr -> option (list ZoneIndexEntry))
        (url_parse : rstr -> option rstr) (parse_zone_json : rstr -> option ZoneJsonDocument)
        (record_eq : DnsRecord -> DnsRecord -> bool)
        (searchable_of : ZoneAuthorityResolver (W := W) -> ZoneSearchable W).
(** The location allocated for the snapshot of the [i]-th discovered zone. *)
Context (alloc : nat -> Cell W ZoneSnapshot).

Definition resolve_href (base_url : Url) (href : rstr) : result rstr Error :=
  if starts_with (lit "http://") href || starts_with (lit "https://") href then Ok href
  else map_err (fun e => [lit "cannot resolve href '" ++ href ++ lit "': " ++ e]) (url_join base_url href).

Definition fetch_zone_index (url : rstr) (auth : option ZoneSourceAuth) :
    M W (result (list ZoneIndexEntry) Error) :=
  response <<- http_get outside url auth ;;
  mret match response with
       | None => Err [lit "zone_discovery: failed to fetch index from " ++ url]
       | Some r =>
           if negb (resp_success r)
           then Err [lit "zone_discovery: index endpoint returned error status: " ++ url]
           else
             let too_large n := Err [lit "zone_discovery: index response too large: " ++ display_N n
               ++ lit " bytes exceeds limit " ++ display_N MAX_INDEX_BYTES] in
             let parse :=
               let? body := ok_or (resp_text r)
                              [lit "zone_discovery: failed to read index response from " ++ url] in
               if (MAX_INDEX_BYTES <? N.of_nat (str_len body))%N
               then too_large (N.of_nat (str_len body))
               else ok_or (parse_index_json body)
                      [lit "zone_discovery: failed to parse index JSON from " ++ url] in
             match resp_content_length r with
             | Some len => if (MAX_INDEX_BYTES <? len)%N then too_large len else parse
             | None => parse
             end
       end.

Definition type_allowed (discovery : ZoneDiscoveryConfig) (item : ZoneIndexEntry) : bool :=
  is_empty (zdc_allowed_types discovery)
  || existsb (fun t => eq_ignore_ascii_case t (zie_zone_type item)) (zdc_allowed_types discovery).

Definition already_configured (existing : list rstr) (item : ZoneIndexEntry) : bool :=
  existsb (fun e => str_eqb (normalize_discovery_zone e) (normalize_discovery_zone (zie_name item)))
    existing.

(** The loop over the index: the entries built, or the first error. *)
Fixpoint discover_zones (discovery : ZoneDiscoveryConfig) (existing : list rstr)
    (check_interval : option N) (auth : option ZoneSourceAuth) (base_url : Url) (i : nat)
    (items : list ZoneIndexEntry) : M W (result (list (ZoneEntry W)) Error) :=
  match items with
  | [] => mret (Ok [])
  | item :: rest =>
      let continue := discover_zones discovery existing check_interval auth base_url in
      if negb (type_allowed discovery item) then continue i rest
      else if already_configured existing item then continue i rest
      else
        match map_err (cons (lit "zone_discovery: failed to resolve href '" ++ zie_href item
                ++ lit "' for zone '" ++ zie_name item ++ lit "'")) (resolve_href base_url (zie_href item)) with
        | Err e => mret (Err e)
        | Ok resolved_href =>
            made <<- from_source url_parse parse_zone_json outside (alloc i) (zie_name item)
                       resolved_href check_interval auth ;;
            match made with
            | Err e => mret (Err ((lit "zone_discovery: failed to load zone '" ++ zie_name item
                ++ lit "' from " ++ resolved_href) :: e))
            | Ok (resolver, _) =>
                match zone_entry_new (zie_name item) (zdc_bypass_filter discovery)
                        (zdc_fallback_to_default_resolvers discovery)
                        (authority_resolver record_eq resolver) with
                | Err e => mret (Err ((lit "zone_discovery: failed to create zone entry for '"
                    ++ zie_name item ++ lit "'") :: e))
                | Ok entry =>
                    others <<- continue (S i) rest ;;
                    mret (let? others := others in
                          Ok (with_searchable (searchable_of resolver) entry :: others))
                end
            end
        end
  end.

Definition build_zone_discovery_entries (discovery : ZoneDiscoveryConfig)
    (existing_zone_names : list rstr) (check_interval : option N) :
    M W (result (list (ZoneEntry W)) Error) :=
  let address := trim (zdc_address discovery) in
  if is_empty address then mret (Err [lit "zone_discovery entry has an empty address"])
  else if negb (starts_with (lit "http://") address) && negb (starts_with (lit "https://") address)
  then mret (Err [lit "zone_discovery address must be an HTTP(S) URL, got: " ++ address])
  else
    match build_discovery_auth (zdc_authentication discovery) with
    | Err e => mret (Err e)
    | Ok auth =>
        match List.find (fun t => negb (bool_decide (t ∈ VALID_ZONE_TYPES))) (zdc_allowed_types discovery) with
        | Some t => mret (Err [lit "zone_discovery: invalid allowed_type '" ++ t
                                ++ lit "'; supported values: " ++ valid_zone_types_debug])
        | None =>
            index <<- fetch_zone_index address auth ;;
            match index with
            | Err e => mret (Err e)
            | Ok items =>
                match parse_url address with
                | None => mret (Err [lit "zone_discovery: failed to parse base URL: " ++ address])
                | Some base_url =>
                    discover_zones discovery existing_zone_names check_interval auth base_url 0 items
                end
            end
        end
    end.

(** What holds of a discovered entry. *)
Definition discovered_from (discovery : ZoneDiscoveryConfig) (existing : list rstr)
    (items : list ZoneIndexEntry) (e : ZoneEntry W) : Prop :=
  exists item, item ∈ items /\ normalize_zone (zie_name item) = Some (ze_zone e)
    /\ type_allowed discovery item = true
    /\ (forall name, name ∈ existing ->
          normalize_discovery_zone name <> normalize_discovery_zone (zie_name item))
    /\ ze_bypass_filter e = zdc_bypass_filter discovery
    /\ ze_fallback_to_default_resolvers e = zdc_fallback_to_default_resolvers discovery
    /\ is_Some (ze_searchable e).

Lemma already_configured_false existing item name :
  already_configured existing item = false -> name ∈ existing ->
  normalize_discovery_zone name <> normalize_discovery_zone (zie_name item).
Proof.
  intros Ha Hn Heq. apply not_true_iff_false in Ha. apply Ha. apply List.existsb_exists.
  exists name. split; [by apply list_elem_of_In|]. unfold str_eqb. by apply bool_decide_eq_true.
Qed.

Lemma discover_zones_sound discovery existing ci auth base i items w es w' :
  discover_zones discovery existing ci auth base i items w = (Ok es, w') ->
  Forall (discovered_from discovery existing items) es.
Proof.
  assert (forall item items e, discovered_from discovery existing items e ->
    discovered_from discovery existing (item :: items) e) as Hmono.
  { intros item its e (it & Hin & Hrest). exists it. split; [by apply list_elem_of_further|done]. }
  revert i w es w'. induction items as [|item items IH]; intros i w es w'; simpl.
  { intros [= <- <-]. constructor. }
  destruct (type_allowed discovery item) eqn:Ht; simpl; [|intros Hr; eapply Forall_impl; eauto].
  destruct (already_configured existing item) eqn:Ha; [intros Hr; eapply Forall_impl; eauto|].
  destruct (resolve_href base (zie_href item)) as [href|]; simpl; [|done].
  unfold mbind at 1. destruct (from_source _ _ _ _ _ _ _ _ w) as [[[resolver task]|] w1]; [|done].
  unfold zone_entry_new. destruct (normalize_zone (zie_name item)) as [z|] eqn:Hz; simpl; [|done].
  unfold mbind. destruct (discover_zones _ _ _ _ _ (S i) items w1) as [[others|] w2] eqn:Ho; [|done].
  unfold mret. intros [= <- _]. constructor; [|eapply Forall_impl; eauto].
  exists item. split; [apply list_elem_of_here|]. split; [done|]. split; [done|].
  split; [intros name; by apply already_configured_false|]. split; [done|]. split; [done|by eexists].
Qed.

Definition valid_types (discovery : ZoneDiscoveryConfig) : Prop :=
  Forall (fun t => t ∈ VALID_ZONE_TYPES) (zdc_allowed_types discovery).

Definition http_address (discovery : ZoneDiscoveryConfig) : Prop :=
  starts_with (lit "http://") (trim (zdc_address discovery)) = true
  \/ starts_with (lit "https://") (trim (zdc_address discovery)) = true.

Lemma types_valid discovery :
  List.find (fun t => negb (bool_decide (t ∈ VALID_ZONE_TYPES))) (zdc_allowed_types discovery) = None ->
  valid_types discovery.
Proof.
  intros Hf. apply Forall_forall. intros t Ht. apply list_elem_of_In in Ht.
  pose proof (List.find_none _ _ Hf t Ht) as Hn. by apply negb_false_iff, bool_decide_eq_true in Hn.
Qed.

(** Past the checks of the configuration only the index decides. *)
Lemma discovery_entries_sound discovery existing ci w es w' :
  build_zone_discovery_entries discovery existing ci w = (Ok es, w') ->
  valid_types discovery /\ http_address discovery
  /\ exists items, Forall (discovered_from discovery existing items) es.
Proof.
  unfold build_zone_discovery_entries, http_address. set (address := trim (zdc_address discovery)).
  destruct (is_empty address); [done|].
  destruct (negb (starts_with (lit "http://") address) && _) eqn:Ha; [done|].
  destruct (build_discovery_auth _) as [auth|]; [|done].
  destruct (List.find _ _) as [t|] eqn:Hf; [done|]. apply types_valid in Hf.
  unfold mbind. destruct (fetch_zone_index address auth w) as [[items|] w1]; [|done].
  destruct (parse_url address) as [base|]; [|done]. intros Hd.
  split; [done|]. split.
  - destruct (starts_with (lit "http://") address); [by left|].
    destruct (starts_with (lit "https://") address); [by right|done].
  - exists items. by eapply discover_zones_sound.
Qed.

Lemma discovery_refused_early discovery existing ci w :
  ~ (valid_types discovery /\ http_address discovery) ->
  exists e, build_zone_discovery_entries discovery existing ci w = (Err e, w).
Proof.
  unfold build_zone_discovery_entries, http_address. set (address := trim (zdc_address discovery)).
  intros Hno. destruct (is_empty address); [by eexists|].
  destruct (negb (starts_with (lit "http://") address) && _) eqn:Ha; [by eexists|].
  destruct (build_discovery_auth _) as [auth|]; [|by eexists].
  destruct (List.find _ _) as [t|] eqn:Hf; [by eexists|]. apply types_valid in Hf.
  destruct Hno. split; [done|].
  destruct (starts_with (lit "http://") address); [by left|].
  destruct (starts_with (lit "https://") address); [by right|done].
Qed.

(** Discovery respects the configuration: each zone it adds comes from the index,
    has an allowed type, is not one of the manually configured zones (ignoring case
    and the final dot), and carries the configured bypass and fallback settings; an
    invalid allowed type or a non-HTTP address stops it before any download. *)
Theorem discovery_respects_configuration (discovery : ZoneDiscoveryConfig) (existing : list rstr)
    (ci : option N) (w : W) :
  (valid_types discovery /\ http_address discovery
   \/ exists e, build_zone_discovery_entries discovery existing ci w = (Err e, w))
  /\ match build_zone_discovery_entries discovery existing ci w with
     | (Ok es, _) => exists items, Forall (discovered_from discovery existing items) es
     | (Err _, _) => True
     end.
Proof.
  assert (Decision (valid_types discovery /\ http_address discovery)) by
    (unfold valid_types, http_address; apply _).
  split.
  - destruct (decide (valid_types discovery /\ http_address discovery)); [by left|right].
    by apply discovery_refused_early.
  - destruct (build_zone_discovery_entries _ _ _ w) as [[es|] w'] eqn:Hb; [|done].
    by apply discovery_entries_sound in Hb as (_ & _ & ?).
Qed.
End discovery.

(** Credentials are unambiguous: when the discovery credentials are accepted, no
    header is sent unless something was configured, a bearer token excludes a user
    name and password, and basic authentication has both, all trimmed and not blank. *)
Theorem discovery_auth_unambiguous (config : ZoneServerAuthenticationConfig)
    (auth : option ZoneSourceAuth) :
  build_discovery_auth (Some config) = Ok auth ->
  match auth with
  | None => present (zsa_token config) = false /\ present (zsa_username config) = false
            /\ present (zsa_password config) = false
  | Some (Bearer t) => present (zsa_username config) = false /\ present (zsa_password config) = false
                       /\ t <> [] /\ Some t = trim <$> zsa_token config
  | Some (Basic u p) => present (zsa_token config) = false /\ u <> [] /\ p <> []
                        /\ Some u = trim <$> zsa_username config /\ Some p = trim <$> zsa_password config
  end.
Proof.
  unfold build_discovery_auth, present, trimmed_or_empty.
  destruct config as [[t|] [u|] [p|]]; simpl;
    repeat match goal with |- context [trim ?x] =>
      lazymatch x with [] => fail | _ => destruct (trim x) eqn:? end end;
    simpl; intros [= <-]; simpl; by split_and!.
Qed.

Lemma discovery_auth_unambiguous_witness : lit "secret" <> [].
Proof.
  destruct (discovery_auth_unambiguous
    {| zsa_token := Some (lit " secret "); zsa_username := None; zsa_password := Some [] |}
    (Some (Bearer (lit "secret")))) as (_ & _ & Hne & _); [reflexivity|exact Hne].
Defined.
