(* ===== verification/ChrootPaths.v ===== *)
(** * Paths under a chroot

    The path part of [use_cases/config_bootstrap.rs]: configured files (the SQLite
    database, TLS certificates and keys, the control socket) must resolve inside the
    chroot directory, both as seen from the host and from inside.  Unix paths: a path
    is its text, [components] splits it as [std::path] does. *)

From S2P Require Import Prelude RustStr.

Abbreviation Error := (list rstr).

Definition DEFAULT_CHROOT_DIR : rstr := lit "/var/lib/dns-filter".
Definition DEFAULT_DATABASE_URL : rstr := lit "sqlite://db/dns-filter.db".
Definition DEFAULT_CONTROL_SOCKET_PATH : rstr := lit "run/dns-filter.sock".

(** ** [std::path] *)

Inductive Component : Type :=
| RootDir
| CurDir
| ParentDir
| Normal (part : rstr).

Definition is_absolute (path : rstr) : bool := starts_with (lit "/") path.

(** Empty pieces (repeated or trailing slashes) and [.] pieces vanish, except that a
    relative path may start with [.]. *)
Definition piece_component (piece : rstr) : option Component :=
  if is_empty piece then None
  else if str_eqb piece (lit ".") then None
  else if str_eqb piece (lit "..") then Some ParentDir
  else Some (Normal piece).

Definition components (path : rstr) : list Component :=
  let pieces := split (ch "/") path in
  (if is_absolute path then [RootDir]
   else match pieces with
        | p :: _ => if str_eqb p (lit ".") then [CurDir] else []
        | [] => []
        end)
  ++ omap piece_component pieces.

(** A [PathBuf] built from components: whether it starts at the root, and its parts. *)
Record PathBuf : Type := { pb_absolute : bool; pb_parts : list rstr }.

Definition path_buf_new : PathBuf := {| pb_absolute := false; pb_parts := [] |}.
Definition push_root (_ : PathBuf) : PathBuf := {| pb_absolute := true; pb_parts := [] |}.
Definition push_part (part : rstr) (p : PathBuf) : PathBuf :=
  {| pb_absolute := pb_absolute p; pb_parts := pb_parts p ++ [part] |}.
(** [PathBuf::pop] leaves the root and the empty path alone. *)
Definition pop (p : PathBuf) : PathBuf :=
  {| pb_absolute := pb_absolute p; pb_parts := take (length (pb_parts p) - 1) (pb_parts p) |}.

Definition path_to_string (p : PathBuf) : rstr :=
  (if pb_absolute p then lit "/" else []) ++ join (ch "/") (pb_parts p).

Definition push_component (p : PathBuf) (c : Component) : PathBuf :=
  match c with
  | RootDir => push_root p
  | CurDir => p
  | ParentDir => pop p
  | Normal part => push_part part p
  end.

(** ** config_bootstrap.rs *)

Definition normalize_components (cs : list Component) : PathBuf :=
  foldl push_component path_buf_new cs.
Definition normalize_lexical (path : rstr) : PathBuf := normalize_components (components path).

(** The components of a normalised path. *)
Definition path_components (p : PathBuf) : list Component :=
  (if pb_absolute p then [RootDir] else []) ++ (Normal <$> pb_parts p).

(** [Path::strip_prefix] and [Path::starts_with], by components. *)
Fixpoint strip_parts (base parts : list rstr) : option (list rstr) :=
  match base, parts with
  | [], _ => Some parts
  | b :: base', p :: parts' => if str_eqb b p then strip_parts base' parts' else None
  | _ :: _, [] => None
  end.
Definition path_strip_prefix (base p : PathBuf) : option (list rstr) :=
  if Bool.eqb (pb_absolute base) (pb_absolute p) then strip_parts (pb_parts base) (pb_parts p) else None.
Definition path_starts_with (base p : PathBuf) : bool :=
  match path_strip_prefix base p with Some _ => true | None => false end.

Definition parse_chroot_dir (chroot_dir : rstr) : result PathBuf Error :=
  if is_empty (trim chroot_dir) then Err [lit "security.chroot_dir must not be empty"]
  else if negb (is_absolute chroot_dir)
  then Err [lit "security.chroot_dir must be an absolute path, got '" ++ chroot_dir ++ lit "'"]
  else Ok (normalize_lexical chroot_dir).

(** Joining a relative path to the chroot appends its components. *)
Definition resolve_scoped_host_path (path : rstr) (chroot_dir : PathBuf) : result PathBuf Error :=
  let trimmed := trim path in
  if is_empty trimmed then Err [lit "path is empty"]
  else
    let chroot_norm := normalize_components (path_components chroot_dir) in
    let joined := if is_absolute trimmed then components trimmed
                  else path_components chroot_norm ++ components trimmed in
    let normalized := normalize_components joined in
    if path_starts_with chroot_norm normalized then Ok normalized
    else Err [lit "path '" ++ path ++ lit "' resolves outside chroot '"
              ++ path_to_string chroot_norm ++ lit "'"].

Definition resolve_path_for_chroot_host (path chroot_dir : rstr) : result rstr Error :=
  let? chroot := parse_chroot_dir chroot_dir in
  let? resolved := resolve_scoped_host_path path chroot in
  Ok (path_to_string resolved).

Definition resolve_path_for_chroot_runtime (path chroot_dir : rstr) : result rstr Error :=
  let? chroot := parse_chroot_dir chroot_dir in
  let? resolved_host := resolve_scoped_host_path path chroot in
  let? rel := ok_or (path_strip_prefix chroot resolved_host)
                [lit "path escapes chroot after normalization: " ++ path] in
  Ok (path_to_string {| pb_absolute := true; pb_parts := rel |}).

(** The two [sqlite_url_for_chroot_*] functions differ in how the path is resolved. *)
Definition sqlite_url_with (resolve_path : rstr -> result rstr Error) (url : rstr) : result rstr Error :=
  if str_eqb url (lit "sqlite::memory:")
  then Err [lit "sqlite::memory: is not supported when chroot confinement is enforced"]
  else
    match strip_prefix (lit "sqlite://") url with
    | None => Ok url
    | Some rest =>
        let '(raw_path, query_suffix) := match split_once (ch "?") rest with
                                         | Some (path, query) => (path, Some query)
                                         | None => (rest, None)
                                         end in
        if is_empty (trim raw_path) then Err [lit "sqlite URL must include a database file path"]
        else
          let? p := resolve_path raw_path in
          Ok (lit "sqlite://" ++ p ++ match query_suffix with Some q => ch "?" :: q | None => [] end)
    end.
Definition sqlite_url_for_chroot_runtime (url chroot_dir : rstr) : result rstr Error :=
  sqlite_url_with (fun p => resolve_path_for_chroot_runtime p chroot_dir) url.
Definition sqlite_url_for_chroot_host (url chroot_dir : rstr) : result rstr Error :=
  sqlite_url_with (fun p => resolve_path_for_chroot_host p chroot_dir) url.

(** ** Validation of the configured paths *)

Record TlsSocketConfig : Type := { tls_enabled : bool; tls_cert_path : rstr; tls_key_path : rstr }.

(** The parts of the configuration that name files. *)
Record PathConfig : Type := {
  pc_chroot_dir : option rstr;
  pc_database_url : option rstr;
  pc_dot : option TlsSocketConfig;
  pc_doh : option TlsSocketConfig;
  pc_doq : option TlsSocketConfig;
  pc_control_socket_path : option rstr
}.

Definition socket_path (config : PathConfig) : rstr :=
  default DEFAULT_CONTROL_SOCKET_PATH (pc_control_socket_path config).

Definition effective_chroot_dir (config : PathConfig) : result rstr Error :=
  let? chroot := parse_chroot_dir (default DEFAULT_CHROOT_DIR (pc_chroot_dir config)) in
  Ok (path_to_string chroot).

Definition path_check (what path chroot_dir : rstr) : result unit Error :=
  match resolve_path_for_chroot_host path chroot_dir with
  | Ok _ => Ok tt
  | Err e => Err [what ++ lit " path validation failed: " ++ default [] (head e)]
  end.

Definition validate_sqlite_path (config : PathConfig) (chroot_dir : rstr) : result unit Error :=
  let db_url := default DEFAULT_DATABASE_URL (pc_database_url config) in
  if str_eqb db_url (lit "sqlite::memory:")
  then Err [lit "database.url uses sqlite::memory:, which is not allowed with chroot confinement"]
  else
    match strip_prefix (lit "sqlite://") db_url with
    | None => Ok tt
    | Some rest =>
        let raw_path := match split_once (ch "?") rest with Some (path, _) => path | None => rest end in
        if is_empty (trim raw_path) then Err [lit "database.url must include a SQLite file path"]
        else path_check (lit "database.url") raw_path chroot_dir
    end.

Definition validate_listener (name : rstr) (listener : option TlsSocketConfig) (chroot_dir : rstr) :
    result unit Error :=
  match listener with
  | None => Ok tt
  | Some l =>
      if negb (tls_enabled l) then Ok tt
      else if is_empty (trim (tls_cert_path l))
      then Err [name ++ lit ".tls.cert_path must not be empty when listener is enabled"]
      else if is_empty (trim (tls_key_path l))
      then Err [name ++ lit ".tls.key_path must not be empty when listener is enabled"]
      else
        let? _ := path_check (name ++ lit ".tls.cert_path") (tls_cert_path l) chroot_dir in
        path_check (name ++ lit ".tls.key_path") (tls_key_path l) chroot_dir
  end.

Definition validate_listener_tls_paths (config : PathConfig) (chroot_dir : rstr) : result unit Error :=
  let? _ := validate_listener (lit "listen.dot") (pc_dot config) chroot_dir in
  let? _ := validate_listener (lit "listen.doh") (pc_doh config) chroot_dir in
  validate_listener (lit "listen.doq") (pc_doq config) chroot_dir.

Definition validate_control_socket_path (config : PathConfig) (chroot_dir : rstr) : result unit Error :=
  if is_empty (trim (socket_path config)) then Err [lit "control.socket_path must not be empty"]
  else path_check (lit "control.socket_path") (socket_path config) chroot_dir.

Definition validate_config (config : PathConfig) : result PathConfig Error :=
  let? chroot_dir := effective_chroot_dir config in
  let? _ := validate_sqlite_path config chroot_dir in
  let? _ := validate_listener_tls_paths config chroot_dir in
  let? _ := validate_control_socket_path config chroot_dir in
  Ok config.


(** ** Lexical normalisation *)

(** A part that names a directory entry: it cannot climb out of a directory. *)
Definition proper_part (p : rstr) : Prop :=
  p <> [] /\ p <> lit "." /\ p <> lit ".." /\ ch "/" ∉ p.

Definition normal_ok (c : Component) : Prop :=
  match c with Normal p => proper_part p | _ => True end.

Lemma piece_component_ok piece c :
  ch "/" ∉ piece -> piece_component piece = Some c -> normal_ok c /\ c <> RootDir.
Proof.
  unfold piece_component, is_empty. intros Hs.
  destruct piece as [|x piece]; [done|].
  destruct (str_eqb_spec (x :: piece) (lit ".")); [done|].
  destruct (str_eqb_spec (x :: piece) (lit "..")); intros [= <-]; split; try done.
Qed.

Lemma piece_component_proper p : proper_part p -> piece_component p = Some (Normal p).
Proof.
  intros (Hne & Hd & Hdd & _). unfold piece_component, is_empty.
  destruct p as [|x p]; [done|].
  destruct (str_eqb_spec (x :: p) (lit ".")); [done|].
  by destruct (str_eqb_spec (x :: p) (lit "..")).
Qed.

Lemma omap_piece_ok pieces :
  Forall (fun p => ch "/" ∉ p) pieces ->
  Forall (fun c => normal_ok c /\ c <> RootDir) (omap piece_component pieces).
Proof.
  induction 1 as [|p ps Hp Hps IH]; simpl; [done|].
  destruct (piece_component p) as [c|] eqn:Hc; [|done].
  constructor; [|done]. by eapply piece_component_ok.
Qed.

Lemma omap_piece_proper ps : Forall proper_part ps -> omap piece_component ps = Normal <$> ps.
Proof.
  induction 1 as [|p ps Hp Hps IH]; simpl; [done|].
  rewrite piece_component_proper by done. f_equal. exact IH.
Qed.

Lemma components_ok path : Forall normal_ok (components path).
Proof.
  unfold components. apply Forall_app. split; [by repeat case_match; repeat constructor|].
  eapply Forall_impl; [apply omap_piece_ok|by intros c [? _]].
  apply Forall_forall. intros p. apply split_pieces_no_sep.
Qed.

Lemma foldl_push_ok cs p :
  Forall normal_ok cs -> Forall proper_part (pb_parts p) ->
  Forall proper_part (pb_parts (foldl push_component p cs)).
Proof.
  intros Hcs. revert p. induction Hcs as [|c cs Hc Hcs IH]; intros p Hp; simpl; [done|].
  apply IH. destruct c; simpl; auto.
  - by apply Forall_take.
  - apply Forall_app; auto.
Qed.

Lemma foldl_push_absolute cs p :
  pb_absolute p = true -> pb_absolute (foldl push_component p cs) = true.
Proof.
  revert p. induction cs as [|c cs IH]; intros p Hp; simpl; [done|].
  apply IH. by destruct c.
Qed.

Lemma foldl_push_normals ps p :
  foldl push_component p (Normal <$> ps)
  = {| pb_absolute := pb_absolute p; pb_parts := pb_parts p ++ ps |}.
Proof.
  revert p. induction ps as [|q ps IH]; intros p; simpl.
  - rewrite app_nil_r. by destruct p.
  - rewrite IH. simpl. by rewrite <- app_assoc.
Qed.

Lemma normalize_path_components p : normalize_components (path_components p) = p.
Proof.
  unfold normalize_components, path_components. destruct p as [[] ps]; simpl;
    by rewrite foldl_push_normals.
Qed.

Lemma normalize_absolute path :
  is_absolute path = true -> pb_absolute (normalize_components (components path)) = true.
Proof.
  intros Ha. unfold normalize_components, components. rewrite Ha. simpl.
  by apply foldl_push_absolute.
Qed.

(** Printing a normalised absolute path and reading it back. *)
Lemma components_print ps :
  Forall proper_part ps ->
  components (path_to_string {| pb_absolute := true; pb_parts := ps |}) = RootDir :: (Normal <$> ps).
Proof.
  intros Hps. unfold components, path_to_string, is_absolute. cbn [pb_absolute pb_parts].
  replace (starts_with (lit "/") (lit "/" ++ join (ch "/") ps)) with true by done.
  change (lit "/" ++ join (ch "/") ps) with ([] ++ ch "/" :: join (ch "/") ps).
  rewrite split_app_char. rewrite omap_app. cbn [app].
  destruct (decide (ps = [])) as [->|Hne]; [done|].
  rewrite split_join; [|done|].
  - by rewrite (omap_piece_proper ps).
  - eapply Forall_impl; [exact Hps|]. by intros p (_ & _ & _ & ?).
Qed.

Lemma strip_parts_spec base parts rel : strip_parts base parts = Some rel <-> parts = base ++ rel.
Proof.
  revert parts. induction base as [|b base IH]; intros parts; simpl.
  { split; [by intros [= ->]|by intros ->]. }
  destruct parts as [|p parts]; [done|].
  destruct (str_eqb_spec b p) as [->|Hne].
  - rewrite IH. split; [by intros ->|by intros [= ->]].
  - split; [done|]. by intros [= -> _].
Qed.

Lemma normalize_print ps :
  Forall proper_part ps ->
  normalize_lexical (path_to_string {| pb_absolute := true; pb_parts := ps |})
  = {| pb_absolute := true; pb_parts := ps |}.
Proof.
  intros Hps. unfold normalize_lexical. rewrite components_print by done.
  exact (normalize_path_components {| pb_absolute := true; pb_parts := ps |}).
Qed.

(** ** The chroot directory *)

Lemma trim_nil s : trim s = [] -> Forall is_whitespace s.
Proof.
  unfold trim, trim_start_by. intros Ht.
  destruct (drop_while_suffix is_whitespace s) as (t & Hs & Hws).
  destruct (trim_end_by_prefix is_whitespace (drop_while is_whitespace s)) as (u & Hu & Hwu).
  rewrite Ht in Hu. rewrite Hs, Hu. by apply Forall_app.
Qed.

Lemma parse_chroot_dir_ok chroot_dir base :
  parse_chroot_dir chroot_dir = Ok base ->
  pb_absolute base = true /\ Forall proper_part (pb_parts base).
Proof.
  unfold parse_chroot_dir. destruct (is_empty _); [done|].
  destruct (is_absolute chroot_dir) eqn:Ha; [|done]. intros [= <-].
  split; [by apply normalize_absolute|].
  apply foldl_push_ok; [apply components_ok|constructor].
Qed.

(** A parsed chroot directory prints to a text that parses to itself. *)
Lemma parse_chroot_dir_print chroot_dir base :
  parse_chroot_dir chroot_dir = Ok base -> parse_chroot_dir (path_to_string base) = Ok base.
Proof.
  intros Hp. destruct (parse_chroot_dir_ok _ _ Hp) as [Ha Hps].
  destruct base as [a ps]. simpl in Ha, Hps. subst a.
  unfold parse_chroot_dir at 1.
  assert (is_absolute (path_to_string {| pb_absolute := true; pb_parts := ps |}) = true) as Habs by done.
  rewrite Habs, normalize_print by done. simpl.
  destruct (is_empty (trim _)) eqn:He; [|done]. exfalso.
  unfold path_to_string in He. simpl in He.
  assert (trim (lit "/" ++ join (ch "/") ps) = []) as Ht.
  { by destruct (trim _). }
  apply trim_nil in Ht. inversion Ht; subst. done.
Qed.

Lemma scoped_path_ok path base resolved :
  pb_absolute base = true -> Forall proper_part (pb_parts base) ->
  resolve_scoped_host_path path base = Ok resolved ->
  exists rel, resolved = {| pb_absolute := true; pb_parts := pb_parts base ++ rel |}
    /\ Forall proper_part rel.
Proof.
  intros Ha Hps. unfold resolve_scoped_host_path. rewrite normalize_path_components.
  destruct (is_empty _); [done|].
  set (joined := if is_absolute (trim path) then _ else _).
  destruct (path_starts_with base (normalize_components joined)) eqn:Hsw; [|done].
  intros [= <-]. revert Hsw. unfold path_starts_with, path_strip_prefix. rewrite Ha.
  destruct (pb_absolute (normalize_components joined)) eqn:Hja; [|done]. simpl.
  destruct (strip_parts _ _) as [rel|] eqn:Hst; [|done]. intros _.
  apply strip_parts_spec in Hst. exists rel.
  assert (Forall proper_part (pb_parts (normalize_components joined))) as Hall.
  { apply foldl_push_ok; [|constructor]. subst joined. destruct (is_absolute _); [apply components_ok|].
    apply Forall_app. split; [|apply components_ok]. unfold path_components. rewrite Ha. simpl.
    constructor; [done|]. apply Forall_fmap. by eapply Forall_impl. }
  rewrite Hst in Hall. apply Forall_app in Hall as [_ Hrel].
  split; [|done]. destruct (normalize_components joined); simpl in *. by subst.
Qed.

Lemma strip_prefix_inside base rel :
  pb_absolute base = true ->
  path_strip_prefix base {| pb_absolute := true; pb_parts := pb_parts base ++ rel |} = Some rel.
Proof.
  intros Ha. unfold path_strip_prefix. rewrite Ha. by apply strip_parts_spec.
Qed.

(** The resolvers only look at the parsed chroot directory. *)
Lemma resolve_host_print path chroot_dir base :
  parse_chroot_dir chroot_dir = Ok base ->
  resolve_path_for_chroot_host path (path_to_string base) = resolve_path_for_chroot_host path chroot_dir.
Proof.
  intros Hp. unfold resolve_path_for_chroot_host.
  by rewrite (parse_chroot_dir_print _ _ Hp), Hp.
Qed.

Lemma resolve_host_nonempty path chroot_dir host :
  resolve_path_for_chroot_host path chroot_dir = Ok host -> is_empty (trim path) = false.
Proof.
  unfold resolve_path_for_chroot_host, resolve_scoped_host_path.
  destruct (parse_chroot_dir _); [|done]. by destruct (is_empty (trim path)).
Qed.

(** One path seen from both sides of the chroot. *)
Lemma resolve_both path chroot_dir host :
  resolve_path_for_chroot_host path chroot_dir = Ok host ->
  exists base rel,
    parse_chroot_dir chroot_dir = Ok base
    /\ Forall proper_part (pb_parts base ++ rel) /\ Forall proper_part rel
    /\ host = path_to_string {| pb_absolute := true; pb_parts := pb_parts base ++ rel |}
    /\ resolve_path_for_chroot_runtime path chroot_dir
       = Ok (path_to_string {| pb_absolute := true; pb_parts := rel |}).
Proof.
  unfold resolve_path_for_chroot_host, resolve_path_for_chroot_runtime.
  destruct (parse_chroot_dir chroot_dir) as [base|] eqn:Hp; [|done].
  destruct (parse_chroot_dir_ok _ _ Hp) as [Ha Hps].
  destruct (resolve_scoped_host_path path base) as [resolved|] eqn:Hr; [|done]. intros [= <-].
  destruct (scoped_path_ok _ _ _ Ha Hps Hr) as (rel & -> & Hrel). exists base, rel.
  rewrite strip_prefix_inside by done. split; [done|]. split; [by apply Forall_app|]. done.
Qed.

Lemma runtime_resolves_host path chroot_dir inside :
  resolve_path_for_chroot_runtime path chroot_dir = Ok inside ->
  exists host, resolve_path_for_chroot_host path chroot_dir = Ok host.
Proof.
  unfold resolve_path_for_chroot_host, resolve_path_for_chroot_runtime.
  destruct (parse_chroot_dir chroot_dir); [|done]. destruct (resolve_scoped_host_path _ _); [|done]. eauto.
Qed.

(** C18. Chroot confinement.  A path the host-side resolver accepts lies under the chroot:
    its text reads back as the chroot's parts followed by proper directory entries (no
    [..], [.], empty or slash-containing part), and the runtime resolver gives, for the
    same path, exactly the part below the chroot, as an absolute path. *)
Theorem chroot_confinement path chroot_dir host :
  resolve_path_for_chroot_host path chroot_dir = Ok host ->
  exists base rel,
    parse_chroot_dir chroot_dir = Ok base
    /\ Forall proper_part (pb_parts base ++ rel)
    /\ components host = RootDir :: (Normal <$> pb_parts base ++ rel)
    /\ exists inside,
         resolve_path_for_chroot_runtime path chroot_dir = Ok inside
         /\ components inside = RootDir :: (Normal <$> rel).
Proof.
  intros (base & rel & Hp & Hall & Hrel & -> & Hr)%resolve_both. exists base, rel.
  split; [done|]. split; [done|]. split; [by apply components_print|].
  eexists. split; [exact Hr|]. by apply components_print.
Qed.

Lemma chroot_confinement_witness :
  resolve_path_for_chroot_host (lit "tls/../db/./x.db") (lit "/var/lib//dns") = Ok (lit "/var/lib/dns/db/x.db")
  /\ exists base rel,
    parse_chroot_dir (lit "/var/lib//dns") = Ok base
    /\ Forall proper_part (pb_parts base ++ rel)
    /\ components (lit "/var/lib/dns/db/x.db") = RootDir :: (Normal <$> pb_parts base ++ rel)
    /\ exists inside,
         resolve_path_for_chroot_runtime (lit "tls/../db/./x.db") (lit "/var/lib//dns") = Ok inside
         /\ components inside = RootDir :: (Normal <$> rel).
Proof. split; [by vm_compute|]. apply chroot_confinement. by vm_compute. Defined.

(** ** Configured files *)

(** The file a database URL names, when it is a SQLite file URL. *)
Definition database_files (url : rstr) : list rstr :=
  match strip_prefix (lit "sqlite://") url with
  | None => []
  | Some rest => [match split_once (ch "?") rest with Some (path, _) => path | None => rest end]
  end.

Definition listener_files (listener : option TlsSocketConfig) : list rstr :=
  match listener with
  | Some l => if tls_enabled l then [tls_cert_path l; tls_key_path l] else []
  | None => []
  end.

Definition configured_files (config : PathConfig) : list rstr :=
  database_files (default DEFAULT_DATABASE_URL (pc_database_url config))
  ++ listener_files (pc_dot config) ++ listener_files (pc_doh config) ++ listener_files (pc_doq config)
  ++ [socket_path config].

Definition resolvable (chroot_dir path : rstr) : Prop :=
  is_ok (resolve_path_for_chroot_host path chroot_dir) = true.

Lemma path_check_ok what path chroot_dir :
  path_check what path chroot_dir = Ok tt <-> resolvable chroot_dir path.
Proof. unfold path_check, resolvable. by destruct (resolve_path_for_chroot_host _ _). Qed.

Lemma resolvable_nonempty chroot_dir path : resolvable chroot_dir path -> is_empty (trim path) = false.
Proof.
  unfold resolvable. destruct (resolve_path_for_chroot_host _ _) eqn:H; [|done].
  intros _. by eapply resolve_host_nonempty.
Qed.

Lemma path_check_cases what path chroot_dir :
  path_check what path chroot_dir = Ok tt /\ resolvable chroot_dir path
  \/ (exists e, path_check what path chroot_dir = Err e) /\ ~ resolvable chroot_dir path.
Proof.
  unfold path_check, resolvable. destruct (resolve_path_for_chroot_host _ _); simpl; eauto.
Qed.

Lemma validate_listener_ok name l chroot_dir :
  validate_listener name l chroot_dir = Ok tt <-> Forall (resolvable chroot_dir) (listener_files l).
Proof.
  destruct l as [l|]; simpl; [|by split].
  destruct (tls_enabled l); simpl; [|by split].
  rewrite !Forall_cons.
  destruct (is_empty (trim (tls_cert_path l))) eqn:Hc.
  { split; [done|]. intros [?%resolvable_nonempty _]. congruence. }
  destruct (is_empty (trim (tls_key_path l))) eqn:Hk.
  { split; [done|]. intros (_ & ?%resolvable_nonempty & _). congruence. }
  destruct (path_check_cases (name ++ lit ".tls.cert_path") (tls_cert_path l) chroot_dir)
    as [[-> ?]|[[e ->] ?]].
  - rewrite path_check_ok. naive_solver.
  - naive_solver.
Qed.

Lemma validate_sqlite_path_ok config chroot_dir :
  let url := default DEFAULT_DATABASE_URL (pc_database_url config) in
  validate_sqlite_path config chroot_dir = Ok tt
  <-> url <> lit "sqlite::memory:" /\ Forall (resolvable chroot_dir) (database_files url).
Proof.
  intros url. unfold validate_sqlite_path, database_files. fold url.
  destruct (str_eqb_spec url (lit "sqlite::memory:")); [naive_solver|].
  destruct (strip_prefix _ url) as [rest|]; [|by split].
  set (raw := match split_once (ch "?") rest with Some _ => _ | None => _ end).
  rewrite Forall_singleton. destruct (is_empty (trim raw)) eqn:Hr.
  - split; [done|]. intros [_ ?%resolvable_nonempty]. congruence.
  - rewrite path_check_ok. naive_solver.
Qed.

Lemma validate_control_socket_path_ok config chroot_dir :
  validate_control_socket_path config chroot_dir = Ok tt <-> resolvable chroot_dir (socket_path config).
Proof.
  unfold validate_control_socket_path. destruct (is_empty _) eqn:He.
  - split; [done|]. intros ?%resolvable_nonempty. congruence.
  - apply path_check_ok.
Qed.

Lemma seq_ok {E} (a b : result unit E) : (let? _ := a in b) = Ok tt <-> a = Ok tt /\ b = Ok tt.
Proof. destruct a as [[]|]; naive_solver. Qed.

Lemma resolvable_print chroot_dir base path :
  parse_chroot_dir chroot_dir = Ok base ->
  resolvable (path_to_string base) path <-> resolvable chroot_dir path.
Proof. intros Hp. unfold resolvable. by rewrite (resolve_host_print _ _ _ Hp). Qed.

(** C25. Start-up path validation is exact.  [validate_config] accepts a configuration, and
    returns it unchanged, exactly when the chroot directory is usable, the database is not
    the in-memory one, and every configured file (the SQLite file, the certificate and key
    of each enabled DoT/DoH/DoQ listener, the control socket) resolves inside the chroot. *)
Theorem validate_config_exact config :
  validate_config config = Ok config
  <-> exists base,
    let chroot_dir := default DEFAULT_CHROOT_DIR (pc_chroot_dir config) in
    parse_chroot_dir chroot_dir = Ok base
    /\ default DEFAULT_DATABASE_URL (pc_database_url config) <> lit "sqlite::memory:"
    /\ Forall (resolvable chroot_dir) (configured_files config).
Proof.
  unfold validate_config, effective_chroot_dir. cbn zeta.
  destruct (parse_chroot_dir (default DEFAULT_CHROOT_DIR _)) as [base|] eqn:Hp;
    [|naive_solver].
  transitivity (validate_sqlite_path config (path_to_string base) = Ok tt
    /\ validate_listener_tls_paths config (path_to_string base) = Ok tt
    /\ validate_control_socket_path config (path_to_string base) = Ok tt).
  { destruct (validate_sqlite_path _ _) as [[]|], (validate_listener_tls_paths _ _) as [[]|],
      (validate_control_socket_path _ _) as [[]|]; naive_solver. }
  unfold validate_listener_tls_paths, configured_files.
  rewrite !seq_ok, validate_sqlite_path_ok, !validate_listener_ok, validate_control_socket_path_ok.
  repeat setoid_rewrite Forall_app. setoid_rewrite Forall_singleton.
  assert (forall l, Forall (resolvable (path_to_string base)) l
    <-> Forall (resolvable (default DEFAULT_CHROOT_DIR (pc_chroot_dir config))) l) as Heq.
  { intros l. apply Forall_proper; [|done]. intros x. by apply resolvable_print. }
  rewrite !Heq, (resolvable_print _ _ _ Hp). naive_solver.
Qed.
