(* ===== verification/ConfigBootstrap.v ===== *)
(** * From the configuration to resolvers and zones

    The builders of [use_cases/config_bootstrap.rs]: cache settings, the ANY policy,
    server credentials, groups of upstream clients with their strategy and cache, zone
    entries, and the domain filter.  The network clients are a parameter ([Clients]);
    the crate is taken with its default features, which include DoQ.  A builder that
    allocates shared state is given the cells it allocates. *)

From S2P Require Import Prelude RustStr RustNet Outside Hickory Metrics FilterEngine Upstream.
From S2P Require Import Pipeline ZoneForwarding ZoneAuthority ZoneRegistry.

Abbreviation Error := (list rstr).

(** [{error}] of an [anyhow::Error]: its outermost message. *)
Definition shown (e : Error) : rstr := default [] (head e).

(** ** Configuration *)

Record ResolverCacheConfig : Type := {
  rcc_enabled : bool; rcc_min_ttl : option rstr; rcc_max_ttl : option rstr; rcc_max_entries : option nat
}.

Record OutboundConfig : Type := { oc_bind_address : option rstr; oc_fwmark : option N }.

(** What [UpstreamServer] and [ZoneServerConfig] have in common. *)
Record ServerConfig : Type := {
  sc_enabled : bool;
  sc_protocol : rstr;
  sc_address : rstr;
  sc_authentication : option ZoneServerAuthenticationConfig;
  sc_max_hops : option N;
  sc_nameserver_ip_family : option rstr;
  sc_root_hints_path : option rstr;
  sc_root_key_path : option rstr;
  sc_dnssec : option bool
}.

Record UpstreamServer : Type := {
  us_server : ServerConfig; us_bind_address : option rstr; us_fwmark : option N
}.
Record ZoneServerConfig : Type := { zs_server : ServerConfig; zs_check_interval : option rstr }.

Record ResolverZoneConfig : Type := {
  rz_zone : rstr; rz_enabled : bool; rz_bypass_filter : bool; rz_fallback_to_default_resolvers : bool;
  rz_strategy : option rstr; rz_servers : list ZoneServerConfig
}.

Record ResolversConfig : Type := {
  rs_strategy : rstr;
  rs_bootstrap_resolvers : list rstr;
  rs_cache : option ResolverCacheConfig;
  rs_zones : list ResolverZoneConfig;
  rs_zone_discovery : list ZoneDiscoveryConfig;
  rs_servers : list UpstreamServer
}.

(** ** Settings *)

Definition parse_cache_ttl (field : rstr) (value : option rstr) : result (option N) Error :=
  transpose ((fun v => map_err (fun e => [lit "invalid resolvers.cache." ++ field ++ lit ": " ++ v
                                          ++ lit " (" ++ shown e ++ lit ")"]) (parse_interval v)) <$> value).

Definition build_resolver_cache_settings (cache : option ResolverCacheConfig) :
    result ResolverCacheSettings Error :=
  let? min_ttl := parse_cache_ttl (lit "min_ttl") (cache ≫= rcc_min_ttl) in
  let? max_ttl := parse_cache_ttl (lit "max_ttl") (cache ≫= rcc_max_ttl) in
  let settings :=
    {| rcs_enabled := match cache with Some c => rcc_enabled c | None => true end;
       rcs_min_ttl := from_secs <$> min_ttl;
       rcs_max_ttl := from_secs <$> max_ttl;
       rcs_max_entries := default (rcs_max_entries cache_settings_default) (cache ≫= rcc_max_entries) |} in
  let? _ := map_err (fun e => [e]) (validate settings) in
  Ok settings.

Definition build_any_query_policy (policy : option rstr) : result AnyQueryPolicy Error :=
  match policy with
  | None => Ok AQP_NotImp
  | Some policy =>
      let p := to_ascii_lowercase (trim policy) in
      if str_eqb p (lit "passthrough") then Ok AQP_Passthrough
      else if str_eqb p (lit "refused") then Ok AQP_Refused
      else if str_eqb p (lit "notimp") || str_eqb p (lit "not_imp") then Ok AQP_NotImp
      else Err [lit "invalid filtering.any_query_policy: " ++ p
                ++ lit "; supported values are: passthrough, refused, notimp"]
  end.

Definition validate_server_auth (zone protocol : rstr) (is_url : bool)
    (auth_config : option ZoneServerAuthenticationConfig) : result (option ZoneSourceAuth) Error :=
  match auth_config with
  | None => Ok None
  | Some config =>
      let has_token := present (zsa_token config) in
      let has_username := present (zsa_username config) in
      let has_password := present (zsa_password config) in
      let server := lit "zone '" ++ zone ++ lit "' " ++ protocol ++ lit " server" in
      if negb has_token && negb has_username && negb has_password then Ok None
      else if negb (str_eqb protocol (lit "json")) && negb (str_eqb protocol (lit "doh"))
      then Err [lit "zone '" ++ zone ++ lit "' server with protocol '" ++ protocol
                ++ lit "' sets authentication; authentication is only supported for 'json' and 'doh' servers"]
      else if has_token && (has_username || has_password)
      then Err [server ++ lit " authentication must use either 'token' (Bearer) or 'username'/'password' (Basic), not both"]
      else if xorb has_username has_password
      then Err [server ++ lit " authentication requires both 'username' and 'password' for Basic authentication"]
      else if negb is_url
      then Err [server ++ lit " sets authentication but address is not an HTTP(S) URL"]
      else if has_token then Ok (Some (Bearer (trimmed_or_empty (zsa_token config))))
      else Ok (Some (Basic (trimmed_or_empty (zsa_username config))
                           (trimmed_or_empty (zsa_password config))))
  end.

Definition parse_dns_address (value : rstr) : result SocketAddr Error :=
  ok_or (parse_socket_addr value)
    [lit "invalid DNS upstream address '" ++ value ++ lit "': invalid socket address syntax"].

Definition parse_bootstrap_resolver (value : rstr) : result SocketAddr Error :=
  match parse_socket_addr value with
  | Some addr => Ok addr
  | None =>
      match parse_ip value with
      | Some ip => Ok {| sa_ip := ip; sa_scope := 0; sa_port := 53 |}
      | None => Err [lit "invalid bootstrap resolver address '" ++ value
                     ++ lit "'; expected <ip> or <ip>:port"]
      end
  end.

Definition parse_bootstrap_resolvers (values : list rstr) : result (list SocketAddr) Error :=
  if is_empty values then Err [lit "at least one bootstrap resolver is required"]
  else collect_results (parse_bootstrap_resolver <$> values).

(** ** Upstream clients *)

Record OutboundRouting : Type := { or_bind_address : option IpAddr; or_fwmark : option N }.
Definition no_routing : OutboundRouting := {| or_bind_address := None; or_fwmark := None |}.

Inductive NameserverIpFamily : Type := Both | Ipv4Only | Ipv6Only.

Definition DEFAULT_MAX_HOPS : N := 12.

(** The clients of [frameworks/upstream] and the files the recursive resolver reads. *)
Record Clients (W : Type) : Type := {
  dns_udp_tcp_client : SocketAddr -> OutboundRouting -> UpstreamResolver W;
  dns_tls_client : rstr -> list SocketAddr -> OutboundRouting -> result (UpstreamResolver W) rstr;
  dns_https_client : rstr -> option ZoneSourceAuth -> list SocketAddr -> OutboundRouting ->
                     result (UpstreamResolver W) rstr;
  dns_quic_client : rstr -> list SocketAddr -> OutboundRouting -> result (UpstreamResolver W) rstr;
  RootHints : Type;
  TrustAnchor : Type;
  load_root_hints : option rstr -> M W RootHints;
  load_root_key : option rstr -> M W (option TrustAnchor);
  recursive_resolver : RootHints -> N -> NameserverIpFamily -> bool -> option TrustAnchor ->
                       OutboundRouting -> UpstreamResolver W
}.
Arguments dns_udp_tcp_client {W} _ _ _.
Arguments dns_tls_client {W} _ _ _ _.
Arguments dns_https_client {W} _ _ _ _ _.
Arguments dns_quic_client {W} _ _ _ _.
Arguments load_root_hints {W} _ _ _.
Arguments load_root_key {W} _ _ _.
Arguments recursive_resolver {W} _ _ _ _ _ _ _.

Definition ip_family (name : option rstr) : NameserverIpFamily :=
  match name with
  | Some n => if str_eqb n (lit "ipv4") then Ipv4Only
              else if str_eqb n (lit "ipv6") then Ipv6Only else Both
  | None => Both
  end.

Abbreviation CacheEntries := (gmap (list N) CachedResponse).

Section builders.
Context `{DnsCodec} (iter_order : CacheEntries -> list (bytes * CachedResponse)).
Context {W : Type} (outside : Outside W) (metrics : Cell W MetricsGlobal) (clients : Clients W).

(** The cells one resolver group or authority allocates. *)
Record ResolverCells : Type := {
  rc_counter : Cell W N;
  rc_entries : Cell W CacheEntries;
  rc_snapshot : Cell W ZoneSnapshot
}.

Abbreviation Resolver := (UpstreamResolver W).

Definition protocol_is (s : ServerConfig) (name : rstr) : bool := str_eqb (sc_protocol s) name.

Definition invalid_server (what : rstr) (s : ServerConfig) (e : rstr) : Error :=
  [lit "invalid " ++ what ++ lit " '" ++ sc_address s ++ lit "': " ++ e].

(** The [recursive] arm of both single-server builders. *)
Definition build_recursive (s : ServerConfig) (routing : OutboundRouting) : M W Resolver :=
  let dnssec := default true (sc_dnssec s) in
  hints <<- load_root_hints clients (sc_root_hints_path s) ;;
  anchor <<- (if dnssec then load_root_key clients (sc_root_key_path s) else mret None) ;;
  mret (recursive_resolver clients hints (default DEFAULT_MAX_HOPS (sc_max_hops s))
          (ip_family (sc_nameserver_ip_family s)) dnssec anchor routing).

Definition build_single_zone_upstream_resolver (server : ZoneServerConfig)
    (bootstrap_resolvers : list SocketAddr) : M W (result Resolver Error) :=
  let s := zs_server server in
  if protocol_is s (lit "dns") then
    mret (let? address := parse_dns_address (sc_address s) in
          Ok (dns_udp_tcp_client clients address no_routing))
  else if protocol_is s (lit "dot") then
    mret (map_err (invalid_server (lit "DoT upstream") s)
            (dns_tls_client clients (sc_address s) bootstrap_resolvers no_routing))
  else if protocol_is s (lit "doh") then
    mret (let? auth := validate_server_auth (lit "zone") (lit "doh") true (sc_authentication s) in
          map_err (invalid_server (lit "DoH zone server") s)
            (dns_https_client clients (sc_address s) auth bootstrap_resolvers no_routing))
  else if protocol_is s (lit "doq") then
    mret (map_err (invalid_server (lit "DoQ zone server") s)
            (dns_quic_client clients (sc_address s) bootstrap_resolvers no_routing))
  else if protocol_is s (lit "recursive") then
    r <<- build_recursive s no_routing ;; mret (Ok r)
  else
    mret (Err [lit "unsupported zone server protocol: '" ++ sc_protocol s
               ++ lit "'; supported values are: dns, dot, doh, doq, recursive, json"]).

(** A server's own routing options override the global ones. *)
Definition outbound_routing (server : UpstreamServer) (global : option OutboundConfig) :
    result OutboundRouting Error :=
  let bind := match us_bind_address server with
              | Some a => Some a
              | None => global ≫= oc_bind_address
              end in
  let? bind_address := transpose ((fun a => ok_or (parse_ip a)
    [lit "invalid bind_address for upstream '" ++ sc_address (us_server server)
     ++ lit "': invalid IP address syntax"]) <$> bind) in
  Ok {| or_bind_address := bind_address;
        or_fwmark := match us_fwmark server with Some m => Some m | None => global ≫= oc_fwmark end |}.

Definition build_single_upstream_resolver (server : UpstreamServer)
    (bootstrap_resolvers : list SocketAddr) (global_outbound : option OutboundConfig) :
    M W (result Resolver Error) :=
  let s := us_server server in
  match outbound_routing server global_outbound with
  | Err e => mret (Err e)
  | Ok routing =>
      made <<-
        (if protocol_is s (lit "dns") then
           mret (let? address := parse_dns_address (sc_address s) in
                 Ok (dns_udp_tcp_client clients address routing))
         else if protocol_is s (lit "dot") then
           mret (map_err (invalid_server (lit "DoT upstream") s)
                   (dns_tls_client clients (sc_address s) bootstrap_resolvers routing))
         else if protocol_is s (lit "doh") then
           mret (let? auth := validate_server_auth (lit "upstream") (lit "doh") true (sc_authentication s) in
                 map_err (invalid_server (lit "DoH upstream") s)
                   (dns_https_client clients (sc_address s) auth bootstrap_resolvers routing))
         else if protocol_is s (lit "doq") then
           mret (map_err (invalid_server (lit "DoQ upstream") s)
                   (dns_quic_client clients (sc_address s) bootstrap_resolvers routing))
         else if protocol_is s (lit "recursive") then
           r <<- build_recursive s routing ;; mret (Ok r)
         else
           mret (Err [lit "unsupported upstream protocol: " ++ sc_protocol s
                      ++ lit "; supported values are: dns, dot, doh, doq, recursive"])) ;;
      mret (let? resolver := made in
            Ok (instrumented_resolver outside metrics
                  (sc_protocol s ++ lit "://" ++ sc_address s) resolver))
  end.

(** ** Groups *)

(** [iter().map(build).collect::<Result<Vec<_>>>()]: stops at the first error. *)
Fixpoint build_all {A B : Type} (build : A -> M W (result B Error)) (servers : list A) :
    M W (result (list B) Error) :=
  match servers with
  | [] => mret (Ok [])
  | s :: rest =>
      made <<- build s ;;
      match made with
      | Err e => mret (Err e)
      | Ok b =>
          others <<- build_all build rest ;;
          mret (let? bs := others in Ok (b :: bs))
      end
  end.

Definition needs_bootstrap (servers : list ServerConfig) : bool :=
  existsb (fun s => protocol_is s (lit "dot") || protocol_is s (lit "doh")) servers.

Definition group_bootstrap (bootstrap_resolvers : list rstr) (servers : list ServerConfig) :
    result (list SocketAddr) Error :=
  if needs_bootstrap servers then parse_bootstrap_resolvers bootstrap_resolvers else Ok [].

(** The strategy resolver over the clients, behind the cache when it is enabled. *)
Definition assemble_group (cells : ResolverCells) (strategy : UpstreamStrategy)
    (cache_settings : ResolverCacheSettings) (resolvers : list Resolver) : M W Resolver :=
  cwrite (rc_counter cells) 0%N ;;;
  let resolver := strategy_resolver outside
    {| sur_resolvers := resolvers; sur_strategy := strategy; sur_counter := rc_counter cells |} in
  if rcs_enabled cache_settings then
    cwrite (rc_entries cells) ∅ ;;;
    mret (cached_resolver iter_order outside metrics
            {| cur_inner := resolver; cur_settings := cache_settings; cur_entries := rc_entries cells |})
  else mret resolver.

(** Both [build_*_resolver_group] functions, over the enabled servers. *)
Definition build_group {A : Type} (server_of : A -> ServerConfig)
    (build : A -> list SocketAddr -> M W (result Resolver Error)) (cells : ResolverCells)
    (strategy : rstr) (bootstrap_resolvers : list rstr) (servers : list A)
    (cache_settings : ResolverCacheSettings) : M W (result Resolver Error) :=
  match (let? st := map_err (fun _ => [lit "invalid upstream strategy: " ++ strategy])
                      (upstream_strategy_from_str strategy) in
         let? _ := if is_empty servers
                   then Err [lit "at least one enabled upstream server is required"] else Ok tt in
         let? bs := group_bootstrap bootstrap_resolvers (server_of <$> servers) in
         Ok (st, bs)) with
  | Err e => mret (Err e)
  | Ok (st, bs) =>
      made <<- build_all (fun s => build s bs) servers ;;
      match made with
      | Err e => mret (Err e)
      | Ok resolvers => r <<- assemble_group cells st cache_settings resolvers ;; mret (Ok r)
      end
  end.

Definition build_zone_upstream_resolver_group (cells : ResolverCells) (strategy : rstr)
    (bootstrap_resolvers : list rstr) (servers : list ZoneServerConfig)
    (cache_settings : ResolverCacheSettings) : M W (result Resolver Error) :=
  build_group zs_server build_single_zone_upstream_resolver cells strategy bootstrap_resolvers
    servers cache_settings.

Definition build_upstream_resolver_group (cells : ResolverCells) (strategy : rstr)
    (bootstrap_resolvers : list rstr) (servers : list UpstreamServer)
    (global_outbound : option OutboundConfig) (cache_settings : ResolverCacheSettings) :
    M W (result Resolver Error) :=
  build_group us_server (fun s bs => build_single_upstream_resolver s bs global_outbound) cells
    strategy bootstrap_resolvers (filter (fun s => sc_enabled (us_server s) = true) servers)
    cache_settings.

Definition build_upstream_resolver (cells : ResolverCells) (resolvers : ResolversConfig)
    (outbound : option OutboundConfig) : M W (result Resolver Error) :=
  match build_resolver_cache_settings (rs_cache resolvers) with
  | Err e => mret (Err e)
  | Ok cache_settings =>
      build_upstream_resolver_group cells (rs_strategy resolvers) (rs_bootstrap_resolvers resolvers)
        (rs_servers resolvers) outbound cache_settings
  end.

(** ** Zones *)

(** What the authoritative resolvers and zone discovery take from other crates. *)
Context (Url : Type) (parse_url : rstr -> option Url) (url_join : Url -> rstr -> result rstr rstr)
        (parse_index_json : rstr -> option (list ZoneIndexEntry))
        (url_parse : rstr -> option rstr) (parse_zone_json : rstr -> option ZoneJsonDocument)
        (record_eq : DnsRecord -> DnsRecord -> bool)
        (searchable_of : ZoneAuthorityResolver (W := W) -> ZoneSearchable W).

Definition build_zone_json_resolver (cells : ResolverCells) (zone : ResolverZoneConfig)
    (server : ZoneServerConfig) : M W (result (ZoneAuthorityResolver (W := W)) Error) :=
  let s := zs_server server in
  let address := trim (sc_address s) in
  let zone_text := lit "zone '" ++ rz_zone zone ++ lit "'" in
  let is_url := starts_with (lit "http://") address || starts_with (lit "https://") address in
  match (let? _ := if is_empty address
                   then Err [zone_text ++ lit " json server has an empty address; expected file://, http://, or https:// URI"]
                   else Ok tt in
         let? _ := match zs_check_interval server with
                   | Some _ =>
                       if is_url then Ok tt
                       else Err [zone_text ++ lit " json server sets check_interval but address is not an HTTP(S) URL"]
                   | None => Ok tt
                   end in
         let? auth := validate_server_auth (rz_zone zone) (sc_protocol s) is_url (sc_authentication s) in
         let? check_interval :=
           match is_url, zs_check_interval server with
           | true, Some value =>
               map_err (fun e => [lit "invalid check_interval for " ++ zone_text ++ lit " json server: "
                                  ++ value ++ lit " (" ++ shown e ++ lit ")"])
                 (let? secs := parse_interval value in Ok (Some secs))
           | _, _ => Ok None
           end in
         Ok (auth, check_interval)) with
  | Err e => mret (Err e)
  | Ok (auth, check_interval) =>
      made <<- from_source url_parse parse_zone_json outside (rc_snapshot cells) (rz_zone zone) address
                 check_interval auth ;;
      mret (map_err (fun e => [lit "invalid resolver zone '" ++ rz_zone zone ++ lit "': " ++ shown e])
              (let? made := made in Ok (fst made)))
  end.

Definition is_json (server : ZoneServerConfig) : bool := protocol_is (zs_server server) (lit "json").

Definition enabled_servers (zone : ResolverZoneConfig) : list ZoneServerConfig :=
  filter (fun s => sc_enabled (zs_server s) = true) (rz_servers zone).

Definition build_zone_entry (cells : ResolverCells) (zone : ResolverZoneConfig)
    (bootstrap_resolvers : list rstr) (cache_settings : ResolverCacheSettings) :
    M W (result (ZoneEntry W) Error) :=
  let zone_text := lit "zone '" ++ rz_zone zone ++ lit "'" in
  let entry r := zone_entry_new (rz_zone zone) (rz_bypass_filter zone)
                   (rz_fallback_to_default_resolvers zone) r in
  let json_servers := filter (fun s => is_json s = true) (enabled_servers zone) in
  let upstream_servers := filter (fun s => is_json s = false) (enabled_servers zone) in
  if is_empty (enabled_servers zone)
  then mret (Err [zone_text ++ lit " has no enabled servers; add at least one enabled servers entry"])
  else
    match json_servers, upstream_servers with
    | [], [] => mret (Err [])  (* unreachable: the enabled servers are not empty *)
    | [json], [] =>
        made <<- build_zone_json_resolver cells zone json ;;
        mret (let? resolver := made in
              let? e := entry (authority_resolver record_eq resolver) in
              Ok (with_searchable (searchable_of resolver) e))
    | _ :: _ :: _, [] =>
        mret (Err [zone_text ++ lit " has " ++ display_N (N.of_nat (length json_servers))
          ++ lit " enabled json servers; only one json authority entry is supported per zone"])
    | [], _ :: _ =>
        made <<- build_zone_upstream_resolver_group cells (default (lit "failover") (rz_strategy zone))
                   bootstrap_resolvers upstream_servers cache_settings ;;
        mret (let? resolver := map_err (fun e => [lit "invalid resolver " ++ zone_text ++ lit ": " ++ shown e]) made in
              entry resolver)
    | _ :: _, _ :: _ =>
        mret (Err [zone_text ++ lit " mixes 'json' and upstream server entries; mixed mode is not yet supported"])
    end.

(** [build_zone_entries]: the enabled zones, each with the cells given to its position,
    then the zones of every enabled discovery source that can be read. *)
Context (zone_cells : nat -> ResolverCells) (discovery_cells : nat -> nat -> Cell W ZoneSnapshot).

Fixpoint build_manual_zones (i : nat) (zones : list ResolverZoneConfig) (bootstrap_resolvers : list rstr)
    (cache_settings : ResolverCacheSettings) : M W (result (list (ZoneEntry W)) Error) :=
  match zones with
  | [] => mret (Ok [])
  | zone :: rest =>
      made <<- build_zone_entry (zone_cells i) zone bootstrap_resolvers cache_settings ;;
      match made with
      | Err e => mret (Err e)
      | Ok e =>
          others <<- build_manual_zones (S i) rest bootstrap_resolvers cache_settings ;;
          mret (let? es := others in Ok (e :: es))
      end
  end.

Definition discovery_interval (discovery : ZoneDiscoveryConfig) : result (option N) Error :=
  transpose ((fun v => map_err (fun e => [lit "invalid check_interval for zone_discovery '"
      ++ zdc_address discovery ++ lit "': " ++ v ++ lit " (" ++ shown e ++ lit ")"])
    (parse_interval v)) <$> zdc_check_interval discovery).

(** A source that fails is logged and skipped; a bad interval is an error. *)
Fixpoint run_discoveries (j : nat) (sources : list ZoneDiscoveryConfig) (manual_zone_names : list rstr)
    (entries : list (ZoneEntry W)) : M W (result (list (ZoneEntry W)) Error) :=
  match sources with
  | [] => mret (Ok entries)
  | discovery :: rest =>
      if negb (zdc_enabled discovery) then run_discoveries (S j) rest manual_zone_names entries
      else
        match discovery_interval discovery with
        | Err e => mret (Err e)
        | Ok check_interval =>
            found <<- build_zone_discovery_entries outside Url parse_url url_join parse_index_json
                        url_parse parse_zone_json record_eq searchable_of (discovery_cells j)
                        discovery manual_zone_names check_interval ;;
            match found with
            | Ok discovered => run_discoveries (S j) rest manual_zone_names (entries ++ discovered)
            | Err _ => run_discoveries (S j) rest manual_zone_names entries
            end
        end
  end.

Definition enabled_zones (resolvers : ResolversConfig) : list ResolverZoneConfig :=
  filter (fun z => rz_enabled z = true) (rs_zones resolvers).

Definition build_zone_entries (resolvers : ResolversConfig) : M W (result (list (ZoneEntry W)) Error) :=
  match build_resolver_cache_settings (rs_cache resolvers) with
  | Err e => mret (Err e)
  | Ok cache_settings =>
      manual <<- build_manual_zones 0 (enabled_zones resolvers) (rs_bootstrap_resolvers resolvers)
                   cache_settings ;;
      match manual with
      | Err e => mret (Err e)
      | Ok entries =>
          run_discoveries 0 (rs_zone_discovery resolvers) (rz_zone <$> enabled_zones resolvers) entries
      end
  end.

(** ** The domain filter *)

Fixpoint check_list_intervals (lists : list NamedList) : result unit Error :=
  match lists with
  | [] => Ok tt
  | l :: rest =>
      let? _ := match nl_interval l with
                | Some interval =>
                    map_err (fun e => [lit "invalid interval for list '" ++ nl_name l ++ lit "': "
                                       ++ interval ++ lit " (" ++ shown e ++ lit ")"]) (parse_interval interval)
                | None => Ok 0%N
                end in
      check_list_intervals rest
  end.

Definition build_domain_filter_with_cache (heap : Cell W EngineHeap)
    (doc_from_json : rstr -> result CachedListDocument Error) (config : FilterConfig)
    (cache_repo : option (FilterCacheRepository W)) : M W (result (ListFilterEngine W) Error) :=
  match check_list_intervals (cfg_blocklists config ++ cfg_allowlists config) with
  | Err e => mret (Err e)
  | Ok _ => from_config_with_cache heap metrics doc_from_json config cache_repo
  end.

Definition build_domain_filter (heap : Cell W EngineHeap)
    (doc_from_json : rstr -> result CachedListDocument Error) (config : FilterConfig) :
    M W (result (ListFilterEngine W) Error) :=
  build_domain_filter_with_cache heap doc_from_json config None.
End builders.

(** ** Credentials *)

(** Credentials are sent only where they are supported: a configured server gets
    credentials exactly when it is a [json] or [doh] server addressed by URL and zone
    discovery would derive the same credentials from the same fields. *)
Theorem server_credentials_exact zone protocol is_url config auth :
  validate_server_auth zone protocol is_url config = Ok (Some auth)
  <-> (protocol = lit "json" \/ protocol = lit "doh") /\ is_url = true
      /\ build_discovery_auth config = Ok (Some auth).
Proof.
  unfold validate_server_auth, build_discovery_auth. destruct config as [c|]; [|naive_solver].
  destruct (negb _ && negb _ && negb _); [naive_solver|].
  destruct (str_eqb_spec protocol (lit "json")), (str_eqb_spec protocol (lit "doh")); simpl;
    [| | |naive_solver].
  all: destruct (present (zsa_token c)), (present (zsa_username c)), (present (zsa_password c)), is_url;
    simpl; naive_solver.
Qed.

Lemma validate_server_auth_none zone protocol is_url config :
  validate_server_auth zone protocol is_url config = Ok None <-> build_discovery_auth config = Ok None.
Proof.
  unfold validate_server_auth, build_discovery_auth. destruct config as [c|]; [|done].
  destruct (negb _ && negb _ && negb _) eqn:Hb; [done|].
  repeat case_match; naive_solver.
Qed.

(** ** Cache settings *)

Lemma built_settings_valid cache s : build_resolver_cache_settings cache = Ok s -> validate s = Ok tt.
Proof.
  unfold build_resolver_cache_settings. destruct (parse_cache_ttl _ _); [|done].
  destruct (parse_cache_ttl _ _); [|done]. destruct (validate _) as [[]|] eqn:Hv; simpl; [|done].
  by intros [= <-].
Qed.

(** ** Groups *)

Section group_facts.
Context `{DnsCodec} (iter_order : CacheEntries -> list (bytes * CachedResponse)).
Context {W : Type} (outside : Outside W) (metrics : Cell W MetricsGlobal) (clients : Clients W).

Lemma build_all_ok {A B} (build : A -> M W (result B Error)) (P : A -> B -> Prop) servers w rs w' :
  (forall s w b w', build s w = (Ok b, w') -> P s b) ->
  build_all build servers w = (Ok rs, w') -> Forall2 P servers rs.
Proof.
  intros HP. revert w rs w'. induction servers as [|s servers IH]; intros w rs w'; simpl.
  { intros [= <- _]. constructor. }
  unfold mbind. destruct (build s w) as [[b|] w1] eqn:Hb; [|done].
  destruct (build_all build servers w1) as [[bs|] w2] eqn:Hbs; [|done].
  unfold mret. intros [= <- _]. constructor; eauto.
Qed.

Lemma single_upstream_label server bs out w r w' :
  build_single_upstream_resolver outside metrics clients server bs out w = (Ok r, w') ->
  label r = sc_protocol (us_server server) ++ lit "://" ++ sc_address (us_server server).
Proof.
  unfold build_single_upstream_resolver. destruct (outbound_routing _ _) as [routing|]; [|done].
  unfold mbind at 1.
  match goal with |- (let '(_, _) := ?m in _) = _ -> _ => destruct m as [[inner|] w1] end; [|done].
  by intros [= <- _].
Qed.

(** The resolver [assemble_group] builds. *)
Definition group_resolver (cells : ResolverCells (W := W)) (strategy : UpstreamStrategy)
    (settings : ResolverCacheSettings) (resolvers : list (UpstreamResolver W)) : UpstreamResolver W :=
  let inner := strategy_resolver outside
    {| sur_resolvers := resolvers; sur_strategy := strategy; sur_counter := rc_counter cells |} in
  if rcs_enabled settings
  then cached_resolver iter_order outside metrics
         {| cur_inner := inner; cur_settings := settings; cur_entries := rc_entries cells |}
  else inner.

Lemma build_group_ok {A} (server_of : A -> ServerConfig) build (P : A -> UpstreamResolver W -> Prop)
    cells strategy bootstrap servers settings w r w' :
  (forall s bs w b w', build s bs w = (Ok b, w') -> P s b) ->
  build_group iter_order outside metrics server_of build cells strategy bootstrap servers settings w
    = (Ok r, w') ->
  exists st rs, upstream_strategy_from_str strategy = Ok st /\ rs <> [] /\ Forall2 P servers rs
    /\ r = group_resolver cells st settings rs.
Proof.
  intros HP. unfold build_group.
  destruct (upstream_strategy_from_str strategy) as [st|]; simpl; [|done].
  destruct servers as [|s0 servers]; [done|]. cbn [is_empty].
  destruct (group_bootstrap _ _) as [bs|]; [|done].
  unfold mbind at 1. destruct (build_all _ _ w) as [[rs|] w1] eqn:Hb; [|done].
  apply (build_all_ok _ P) in Hb; [|by eauto].
  unfold mbind, assemble_group, group_resolver, mbind, cwrite, mret. intros Hr. exists st, rs.
  split; [done|]. split; [by inversion Hb|]. split; [done|].
  by destruct (rcs_enabled settings); simplify_eq/=.
Qed.

(** The main resolver is what the configuration says: a successful build queries the
    enabled servers and no others, in the configured order, each reporting under its own
    [protocol://address] label, by the configured strategy, behind the cache when it is
    enabled, with a cache whose bounds are consistent. *)
Theorem upstream_resolver_follows_config cells resolvers outbound w r w' :
  build_upstream_resolver iter_order outside metrics clients cells resolvers outbound w = (Ok r, w') ->
  exists st settings rs,
    upstream_strategy_from_str (rs_strategy resolvers) = Ok st
    /\ build_resolver_cache_settings (rs_cache resolvers) = Ok settings
    /\ validate settings = Ok tt
    /\ rs <> []
    /\ Forall2 (fun s r => label r = sc_protocol (us_server s) ++ lit "://" ++ sc_address (us_server s))
         (filter (fun s => sc_enabled (us_server s) = true) (rs_servers resolvers)) rs
    /\ r = group_resolver cells st settings rs.
Proof.
  unfold build_upstream_resolver.
  destruct (build_resolver_cache_settings _) as [settings|] eqn:Hs; [|done].
  unfold build_upstream_resolver_group. intros Hb.
  apply (build_group_ok _ _ (fun s r => label r = sc_protocol (us_server s) ++ lit "://" ++ sc_address (us_server s)))
    in Hb as (st & rs & Hst & Hne & Hall & Hr); [|intros; by eapply single_upstream_label].
  exists st, settings, rs. split; [done|]. split; [done|].
  split; [by eapply built_settings_valid|]. done.
Qed.

(** A group without DoT and DoH servers never reads the bootstrap resolvers, so a DoQ
    client gets none of the configured ones. *)
Theorem doq_ignores_bootstrap_resolvers {A} (server_of : A -> ServerConfig) build cells strategy
    bootstrap bootstrap' servers settings :
  Forall (fun s => sc_protocol (server_of s) = lit "doq") servers ->
  build_group iter_order outside metrics server_of build cells strategy bootstrap servers settings
  = build_group iter_order outside metrics server_of build cells strategy bootstrap' servers settings
  /\ group_bootstrap bootstrap (server_of <$> servers) = Ok [].
Proof.
  intros Hall. assert (forall b, group_bootstrap b (server_of <$> servers) = Ok []) as Hg.
  { intros b. unfold group_bootstrap, needs_bootstrap.
    induction Hall as [|s servers Hs Hall IH]; simpl; [done|].
    unfold protocol_is at 1 2. by rewrite Hs. }
  unfold build_group. by rewrite !Hg.
Qed.
End group_facts.

(** ** Zones *)

Section zone_facts.
Context `{DnsCodec} (iter_order : CacheEntries -> list (bytes * CachedResponse)).
Context {W : Type} (outside : Outside W) (metrics : Cell W MetricsGlobal) (clients : Clients W).
Context (Url : Type) (parse_url : rstr -> option Url) (url_join : Url -> rstr -> result rstr rstr)
        (parse_index_json : rstr -> option (list ZoneIndexEntry))
        (url_parse : rstr -> option rstr) (parse_zone_json : rstr -> option ZoneJsonDocument)
        (record_eq : DnsRecord -> DnsRecord -> bool)
        (searchable_of : ZoneAuthorityResolver (W := W) -> ZoneSearchable W)
        (zone_cells : nat -> ResolverCells (W := W)) (discovery_cells : nat -> nat -> Cell W ZoneSnapshot).

Abbreviation zone_entry_of :=
  (build_zone_entry iter_order outside metrics clients url_parse parse_zone_json record_eq searchable_of).
Abbreviation manual_zones :=
  (build_manual_zones iter_order outside metrics clients url_parse parse_zone_json record_eq searchable_of
     zone_cells).
Abbreviation discoveries :=
  (run_discoveries outside Url parse_url url_join parse_index_json url_parse parse_zone_json record_eq
     searchable_of discovery_cells).
Abbreviation zone_entries :=
  (build_zone_entries iter_order outside metrics clients Url parse_url url_join parse_index_json url_parse
     parse_zone_json record_eq searchable_of zone_cells discovery_cells).

(** An entry carries the zone's name and switches. *)
Definition entry_of_zone (zone : ResolverZoneConfig) (e : ZoneEntry W) : Prop :=
  normalize_zone (rz_zone zone) = Some (ze_zone e)
  /\ ze_bypass_filter e = rz_bypass_filter zone
  /\ ze_fallback_to_default_resolvers e = rz_fallback_to_default_resolvers zone.

Lemma zone_entry_new_ok zone r e :
  zone_entry_new (rz_zone zone) (rz_bypass_filter zone) (rz_fallback_to_default_resolvers zone) r = Ok e ->
  entry_of_zone zone e /\ ze_searchable e = None /\ ze_resolver e = r.
Proof.
  unfold zone_entry_new, entry_of_zone. destruct (normalize_zone _); simpl; [|done]. by intros [= <-].
Qed.

Lemma only_json (l : list ZoneServerConfig) json :
  filter (fun s => is_json s = true) l = [json] -> filter (fun s => is_json s = false) l = [] ->
  l = [json] /\ is_json json = true.
Proof.
  intros Ht Hf. assert (Forall (fun s => is_json s = true) l) as Hall.
  { apply Forall_forall. intros s Hs. destruct (is_json s) eqn:Hj; [done|].
    assert (s ∈ filter (fun s => is_json s = false) l) as Hin by by apply list_elem_of_filter.
    rewrite Hf in Hin. by apply not_elem_of_nil in Hin. }
  rewrite filter_all in Ht by done. subst l.
  split; [done|]. by inversion Hall.
Qed.

Lemma no_json (l : list ZoneServerConfig) :
  filter (fun s => is_json s = true) l = [] -> Forall (fun s => is_json s = false) l
  /\ filter (fun s => is_json s = false) l = l.
Proof.
  intros Ht. assert (forall s, s ∈ l -> is_json s = false) as Hall.
  { intros s Hs. destruct (is_json s) eqn:Hj; [|done].
    assert (s ∈ filter (fun s => is_json s = true) l) as Hin by by apply list_elem_of_filter.
    rewrite Ht in Hin. by apply not_elem_of_nil in Hin. }
  rewrite <- Forall_forall in Hall. split; [done|]. by apply filter_all.
Qed.

Lemma json_resolver_cell cells zone server w r w' :
  build_zone_json_resolver outside url_parse parse_zone_json cells zone server w = (Ok r, w') ->
  za_snapshot r = rc_snapshot cells.
Proof.
  unfold build_zone_json_resolver.
  match goal with |- (match ?x with Ok _ => _ | Err _ => _ end) w = _ -> _ =>
    destruct x as [[auth ci]|] end; [|done].
  unfold mbind, from_source. destruct (parse_zone_source _); [|done]. unfold mbind.
  destruct (load_snapshot _ _ _ _ _ _ w) as [[snap|] w1]; [|done].
  by intros [= <- _].
Qed.

(** A zone is authoritative or forwarded, never both.  A zone entry is only built when
    the zone's enabled servers are one [json] server, and the entry is then searchable and
    answered by the zone's own snapshot, or are all upstream servers, and the entry is then
    a forwarding group over them; the entry carries the zone's name and switches. *)
Theorem zone_entry_kinds cells zone bootstrap settings w e w' :
  zone_entry_of cells zone bootstrap settings w = (Ok e, w') ->
  entry_of_zone zone e
  /\ ((exists json resolver, enabled_servers zone = [json] /\ is_json json = true
         /\ za_snapshot resolver = rc_snapshot cells
         /\ ze_resolver e = authority_resolver record_eq resolver
         /\ ze_searchable e = Some (searchable_of resolver))
      \/ (exists st rs, enabled_servers zone <> [] /\ Forall (fun s => is_json s = false) (enabled_servers zone)
         /\ upstream_strategy_from_str (default (lit "failover") (rz_strategy zone)) = Ok st
         /\ length rs = length (enabled_servers zone)
         /\ ze_resolver e = group_resolver iter_order outside metrics cells st settings rs
         /\ ze_searchable e = None)).
Proof.
  unfold build_zone_entry. destruct (is_empty (enabled_servers zone)) eqn:Hne; [done|].
  destruct (filter (fun s => is_json s = true) (enabled_servers zone)) as [|json more] eqn:Hj.
  - destruct (no_json _ Hj) as [Hall Hup]. rewrite Hup.
    destruct (enabled_servers zone) as [|s0 servers] eqn:Hen; [done|]. unfold mbind.
    destruct (build_zone_upstream_resolver_group _ _ _ _ _ _ _ _ _ w) as [[r|] w1] eqn:Hg; [|done].
    simpl. unfold mret. intros [= He _]. apply zone_entry_new_ok in He as (He & Hs & Hr).
    apply (build_group_ok _ _ _ _ _ (fun _ _ => True)) in Hg as (st & rs & Hst & _ & Hrs & ->); [|done].
    split; [done|]. right. exists st, rs. apply Forall2_length in Hrs. by split_and!.
  - destruct (filter (fun s => is_json s = false) (enabled_servers zone)) eqn:Hup;
      destruct more; try done.
    unfold mbind. destruct (build_zone_json_resolver _ _ _ _ _ _ w) as [[r|] w1] eqn:Hr; [|done].
    apply json_resolver_cell in Hr. destruct (only_json _ _ Hj Hup) as [Hen Hjs].
    destruct (zone_entry_new _ _ _ _) as [e0|] eqn:He; simpl; [|done].
    apply zone_entry_new_ok in He as ((Hz & Hb & Hf) & _ & Hres).
    unfold mret. intros [= <- _]. split; [done|]. left. by exists json, r.
Qed.
(** The name and switches of an entry, along the list of zones. *)
Lemma zone_entry_of_ok cells zone bootstrap settings w e w' :
  zone_entry_of cells zone bootstrap settings w = (Ok e, w') -> entry_of_zone zone e.
Proof.
  unfold build_zone_entry. destruct (is_empty _); [done|].
  destruct (filter _ _) as [|json [|]], (filter _ _) as [|up ups]; try done; unfold mbind.
  - destruct (build_zone_upstream_resolver_group _ _ _ _ _ _ _ _ _ w) as [[r|] w1]; [|done].
    unfold mret. simpl. intros [= He _]. by apply zone_entry_new_ok in He as (? & _).
  - destruct (build_zone_json_resolver _ _ _ _ _ _ w) as [[r|] w1]; [|done].
    destruct (zone_entry_new _ _ _ _) as [e0|] eqn:He; simpl; [|done].
    apply zone_entry_new_ok in He as (? & _). by intros [= <- _].
Qed.

Lemma manual_zones_ok i zones bootstrap settings w es w' :
  manual_zones i zones bootstrap settings w = (Ok es, w') -> Forall2 entry_of_zone zones es.
Proof.
  revert i w es w'. induction zones as [|z zones IH]; intros i w es w'; simpl.
  { intros [= <- _]. constructor. }
  unfold mbind. destruct (zone_entry_of _ z _ _ w) as [[e|] w1] eqn:He; [|done].
  destruct (manual_zones (S i) zones bootstrap settings w1) as [[os|] w2] eqn:Ho; [|done].
  unfold mret. intros [= <- _]. constructor; [by eapply zone_entry_of_ok|by eapply IH].
Qed.

(** An entry some enabled source of the list contributed. *)
Definition discovered_by (sources : list ZoneDiscoveryConfig) (manual : list rstr) (e : ZoneEntry W) : Prop :=
  exists d items, d ∈ sources /\ zdc_enabled d = true /\ discovered_from d manual items e.

Lemma discovered_by_cons d sources manual e :
  discovered_by sources manual e -> discovered_by (d :: sources) manual e.
Proof. intros (d' & items & Hin & ?). exists d', items. split; [by apply list_elem_of_further|done]. Qed.

Lemma discoveries_ok j sources manual entries w :
  Forall (fun d => zdc_enabled d = true -> is_ok (discovery_interval d) = true) sources ->
  exists ds w', discoveries j sources manual entries w = (Ok (entries ++ ds), w')
    /\ Forall (discovered_by sources manual) ds.
Proof.
  intros Hall. revert j entries w. induction Hall as [|d sources Hd Hall IH]; intros j entries w; simpl.
  { exists [], w. by rewrite app_nil_r. }
  assert (forall entries w, exists ds w', discoveries (S j) sources manual entries w = (Ok (entries ++ ds), w')
    /\ Forall (discovered_by (d :: sources) manual) ds) as IH'.
  { intros es w0. destruct (IH (S j) es w0) as (ds & w' & Hr & Hds). exists ds, w'. split; [done|].
    eapply Forall_impl; [exact Hds|]. intros e. apply discovered_by_cons. }
  destruct (zdc_enabled d) eqn:Hen; simpl; [|apply IH'].
  specialize (Hd eq_refl). destruct (discovery_interval d) as [ci|]; [|done]. unfold mbind.
  destruct (build_zone_discovery_entries _ _ _ _ _ _ _ _ _ _ d manual ci w) as [[found|] w1] eqn:Hb;
    [|apply IH'].
  apply discovery_entries_sound in Hb as (_ & _ & items & Hitems).
  destruct (IH' (entries ++ found) w1) as (ds & w' & Hr & Hds).
  exists (found ++ ds), w'. rewrite app_assoc. split; [done|]. apply Forall_app. split; [|done].
  eapply Forall_impl; [exact Hitems|]. intros e He. exists d, items. split; [apply list_elem_of_here|done].
Qed.

(** Zones of the configuration come first and discovery cannot break start-up.  Once
    the manually configured zones are built and the refresh intervals parse, building the
    zone entries succeeds whatever the discovery sources answer: the result is one entry
    per enabled zone, in order, followed by entries of enabled sources only, each of an
    allowed type and none under the name of an enabled manual zone. *)
Theorem zone_entries_survive_discovery resolvers settings manual w w1 :
  build_resolver_cache_settings (rs_cache resolvers) = Ok settings ->
  manual_zones 0 (enabled_zones resolvers) (rs_bootstrap_resolvers resolvers) settings w = (Ok manual, w1) ->
  Forall (fun d => zdc_enabled d = true -> is_ok (discovery_interval d) = true) (rs_zone_discovery resolvers) ->
  exists discovered w', zone_entries resolvers w = (Ok (manual ++ discovered), w')
    /\ Forall2 entry_of_zone (enabled_zones resolvers) manual
    /\ Forall (discovered_by (rs_zone_discovery resolvers) (rz_zone <$> enabled_zones resolvers)) discovered.
Proof.
  intros Hs Hm Hi. unfold build_zone_entries. rewrite Hs. unfold mbind. rewrite Hm.
  destruct (discoveries_ok 0 _ (rz_zone <$> enabled_zones resolvers) manual w1 Hi) as (ds & w' & Hd & Hds).
  exists ds, w'. split; [done|]. split; [by eapply manual_zones_ok|done].
Qed.
End zone_facts.

(** ** Witnesses *)

Module BootstrapExamples.
#[local] Existing Instance text_names.
#[local] Existing Instance AuthorityExamples.codec.

Record World : Type := {
  w_counter : N; w_entries : CacheEntries; w_snapshot : ZoneSnapshot; w_metrics : MetricsGlobal
}.
Definition cells : ResolverCells (W := World) :=
  {| rc_counter := {| cget := w_counter;
       cput c w := {| w_counter := c; w_entries := w_entries w; w_snapshot := w_snapshot w;
                      w_metrics := w_metrics w |} |};
     rc_entries := {| cget := w_entries;
       cput e w := {| w_counter := w_counter w; w_entries := e; w_snapshot := w_snapshot w;
                      w_metrics := w_metrics w |} |};
     rc_snapshot := {| cget := w_snapshot;
       cput s w := {| w_counter := w_counter w; w_entries := w_entries w; w_snapshot := s;
                      w_metrics := w_metrics w |} |} |}.
Definition metrics_cell : Cell World MetricsGlobal :=
  {| cget := w_metrics;
     cput m w := {| w_counter := w_counter w; w_entries := w_entries w; w_snapshot := w_snapshot w;
                    w_metrics := m |} |}.
Definition world0 : World :=
  {| w_counter := 9; w_entries := ∅; w_snapshot := AuthorityExamples.snapshot; w_metrics := None |}.

(** Files can be read and hold the example zone; nothing can be downloaded. *)
Definition outside0 : Outside World :=
  {| http_get _ _ := mret None; fs_read_to_string _ := mret (Some (lit "zone")); now := mret 5%N;
     gen_range n := mret 0 |}.
Definition silent (name : rstr) : UpstreamResolver World :=
  {| resolve _ := mret (Err URE_Timeout); label := name |}.
Definition clients : Clients World :=
  {| dns_udp_tcp_client _ _ := silent (lit "dns"); dns_tls_client a _ _ := Ok (silent a);
     dns_https_client a _ _ _ := Ok (silent a); dns_quic_client a _ _ := Ok (silent a);
     RootHints := unit; TrustAnchor := unit; load_root_hints _ := mret tt; load_root_key _ := mret None;
     recursive_resolver _ _ _ _ _ _ := silent (lit "recursive") |}.

Definition server (enabled : bool) (protocol address : rstr) : ServerConfig :=
  {| sc_enabled := enabled; sc_protocol := protocol; sc_address := address; sc_authentication := None;
     sc_max_hops := None; sc_nameserver_ip_family := None; sc_root_hints_path := None;
     sc_root_key_path := None; sc_dnssec := None |}.
Definition upstream (enabled : bool) (protocol address : rstr) : UpstreamServer :=
  {| us_server := server enabled protocol address; us_bind_address := None; us_fwmark := None |}.
Definition json_zone : ResolverZoneConfig :=
  {| rz_zone := lit "Example.com."; rz_enabled := true; rz_bypass_filter := true;
     rz_fallback_to_default_resolvers := false; rz_strategy := None;
     rz_servers := [{| zs_server := server true (lit "json") (lit "file:///zones/example.json");
                       zs_check_interval := None |}] |}.
Definition unreachable_source : ZoneDiscoveryConfig :=
  {| zdc_enabled := true; zdc_address := lit "https://zones.example/"; zdc_check_interval := Some (lit "15m");
     zdc_allowed_types := [lit "forward"]; zdc_bypass_filter := false;
     zdc_fallback_to_default_resolvers := true; zdc_authentication := None |}.
Definition resolvers : ResolversConfig :=
  {| rs_strategy := lit "failover"; rs_bootstrap_resolvers := [lit "9.9.9.9"];
     rs_cache := Some {| rcc_enabled := true; rcc_min_ttl := Some (lit "60s"); rcc_max_ttl := Some (lit "1h");
                         rcc_max_entries := Some 2 |};
     rs_zones := [json_zone]; rs_zone_discovery := [unreachable_source];
     rs_servers := [upstream true (lit "dns") (lit "192.0.2.53:53"); upstream false (lit "bogus") [];
                    upstream true (lit "dot") (lit "tls://dns.example")] |}.

Definition file_url (_ : rstr) : option rstr := Some (lit "/zones/example.json").
Definition read_zone (_ : rstr) : option ZoneJsonDocument := Some AuthorityExamples.document.
Definition no_search (_ : ZoneAuthorityResolver (W := World)) : ZoneSearchable World :=
  authority_searchable (fun _ => []) (fun _ => []) (fun _ _ => None) map_to_list
    {| za_snapshot := rc_snapshot cells; za_label := [] |}.

Lemma upstream_resolver_follows_config_witness :
  exists st (rs : list (UpstreamResolver World)), upstream_strategy_from_str (lit "failover") = Ok st /\ label <$> rs
    = [lit "dns://192.0.2.53:53"; lit "dot://tls://dns.example"].
Proof.
  assert (is_ok (fst (build_upstream_resolver map_to_list outside0 metrics_cell clients cells resolvers
    None world0)) = true) as Hok by (vm_compute; reflexivity).
  destruct (build_upstream_resolver map_to_list outside0 metrics_cell clients cells resolvers None world0)
    as [[r|] w'] eqn:Hb; [|discriminate].
  destruct (upstream_resolver_follows_config map_to_list outside0 metrics_cell clients cells resolvers
    None world0 r w' Hb) as (st & settings & rs & Hst & _ & _ & _ & Hall & _).
  exists st, rs. split; [exact Hst|].
  vm_compute filter in Hall.
  inversion Hall as [|? r1 ? rs1 H1 Hr1]; subst. inversion Hr1 as [|? r2 ? rs2 H2 Hr2]; subst.
  inversion Hr2; subst. simpl. by rewrite H1, H2.
Defined.

Lemma zone_entry_kinds_witness :
  exists e w', build_zone_entry map_to_list outside0 metrics_cell clients file_url read_zone
      (fun _ _ => false) no_search cells json_zone [] cache_settings_default world0 = (Ok e, w')
    /\ entry_of_zone json_zone e.
Proof.
  assert (is_ok (fst (build_zone_entry map_to_list outside0 metrics_cell clients file_url read_zone
    (fun _ _ => false) no_search cells json_zone [] cache_settings_default world0)) = true) as Hok
    by (vm_compute; reflexivity).
  destruct (build_zone_entry map_to_list outside0 metrics_cell clients file_url read_zone
    (fun _ _ => false) no_search cells json_zone [] cache_settings_default world0)
    as [[e|] w'] eqn:Hb; [|discriminate].
  exists e, w'. split; [reflexivity|].
  exact (proj1 (zone_entry_kinds map_to_list outside0 metrics_cell clients file_url read_zone
    (fun _ _ => false) no_search cells json_zone [] cache_settings_default world0 e w' Hb)).
Defined.

Lemma zone_entries_survive_discovery_witness :
  exists discovered manual w',
    build_zone_entries map_to_list outside0 metrics_cell clients unit (fun _ => None) (fun _ _ => Ok [])
      (fun _ => None) file_url read_zone (fun _ _ => false) no_search (fun _ => cells)
      (fun _ _ => rc_snapshot cells) resolvers world0 = (Ok (manual ++ discovered), w')
    /\ Forall2 entry_of_zone [json_zone] manual.
Proof.
  pose (settings := {| rcs_enabled := true; rcs_min_ttl := Some (from_secs 60);
    rcs_max_ttl := Some (from_secs 3600); rcs_max_entries := 2 |}).
  assert (build_resolver_cache_settings (rs_cache resolvers) = Ok settings) as Hs
    by (vm_compute; reflexivity).
  assert (is_ok (fst (build_manual_zones map_to_list outside0 metrics_cell clients file_url read_zone
    (fun _ _ => false) no_search (fun _ => cells) 0 (enabled_zones resolvers)
    (rs_bootstrap_resolvers resolvers) settings world0)) = true) as Hok by (vm_compute; reflexivity).
  destruct (build_manual_zones map_to_list outside0 metrics_cell clients file_url read_zone
    (fun _ _ => false) no_search (fun _ => cells) 0 (enabled_zones resolvers)
    (rs_bootstrap_resolvers resolvers) settings world0) as [[manual|] w1] eqn:Hm;
    [|discriminate].
  destruct (zone_entries_survive_discovery map_to_list outside0 metrics_cell clients unit (fun _ => None)
    (fun _ _ => Ok []) (fun _ => None) file_url read_zone (fun _ _ => false) no_search (fun _ => cells)
    (fun _ _ => rc_snapshot cells) resolvers settings manual world0 w1 Hs Hm)
    as (ds & w' & Hb & Hman & _).
  - constructor; [|constructor]. intros _. vm_compute. reflexivity.
  - exists ds, manual, w'. split; [exact Hb|exact Hman].
Defined.
End BootstrapExamples.
