(* ===== verification/Repositories.v ===== *)
(** * The database and its repositories

    [use_cases/repository_types.rs], [use_cases/repositories.rs] and
    [frameworks/database/*_repo.rs].  The tables are those of [migrations/sqlite], the
    backend of the default features.  A [Statement] is one data-changing SQL statement
    of the code and [run_statement] its meaning, with the schema's primary keys, unique
    columns, checks and cascading foreign keys.  A repository trait is a record of
    operations; the [sqlx_*] values are the implementations.  Each statement is atomic;
    an operation of several statements is not a transaction. *)

From S2P Require Import Prelude RustStr FilterEngine.

(** ** Records ([repository_types.rs]) *)

Record FilterListRecord : Type := {
  flr_id : rstr; flr_name : rstr; flr_kind : rstr; flr_url : rstr;
  flr_interval_seconds : Z; flr_enabled : bool; flr_list_type : rstr
}.

Record FilterCacheDocumentRecord : Type := { fcd_key : rstr; fcd_value : rstr }.

Record FilteringConfigRecord : Type := {
  fcfg_sinkhole_ipv4 : rstr; fcfg_sinkhole_ipv6 : rstr; fcfg_any_query_policy : rstr
}.

Record ResolverConfigRecord : Type := {
  rcr_strategy : rstr; rcr_bootstrap_resolvers : list rstr; rcr_dns_cache_enabled : bool;
  rcr_dns_cache_min_ttl_seconds : option Z; rcr_dns_cache_max_ttl_seconds : option Z
}.

Record UpstreamServerRecord : Type := {
  usr_id : rstr; usr_enabled : bool; usr_protocol : rstr; usr_address : rstr;
  usr_auth_token : option rstr; usr_auth_username : option rstr; usr_auth_password : option rstr;
  usr_max_hops : option Z; usr_nameserver_ip_family : option rstr;
  usr_root_hints_path : option rstr; usr_root_key_path : option rstr; usr_dnssec : bool;
  usr_sort_order : Z; usr_bind_address : option rstr; usr_fwmark : option Z
}.

Record ZoneServerRecord : Type := {
  zsr_id : rstr; zsr_zone_id : rstr; zsr_enabled : bool; zsr_protocol : rstr; zsr_address : rstr;
  zsr_auth_token : option rstr; zsr_auth_username : option rstr; zsr_auth_password : option rstr;
  zsr_check_interval : option rstr; zsr_max_hops : option Z;
  zsr_nameserver_ip_family : option rstr; zsr_root_hints_path : option rstr;
  zsr_root_key_path : option rstr; zsr_dnssec : bool; zsr_sort_order : Z
}.

Record ZoneRecord : Type := {
  zr_id : rstr; zr_zone : rstr; zr_enabled : bool; zr_bypass_filter : bool;
  zr_fallback_to_default_resolvers : bool; zr_strategy : option rstr;
  zr_servers : list ZoneServerRecord
}.

Record ZoneDiscoveryRecord : Type := {
  zdr_id : rstr; zdr_enabled : bool; zdr_address : rstr; zdr_check_interval : option rstr;
  zdr_allowed_types : list rstr; zdr_bypass_filter : bool;
  zdr_fallback_to_default_resolvers : bool; zdr_auth_token : option rstr;
  zdr_auth_username : option rstr; zdr_auth_password : option rstr
}.

(** ** Tables

    The rows whose shape differs from the record. *)

Record ResolverConfigRow : Type := {
  rcw_strategy : rstr; rcw_dns_cache_enabled : bool;
  rcw_dns_cache_min_ttl_seconds : option Z; rcw_dns_cache_max_ttl_seconds : option Z
}.
Record BootstrapResolverRow : Type := { br_id : rstr; br_address : rstr; br_sort_order : Z }.
Record ZoneRow : Type := {
  zw_id : rstr; zw_zone : rstr; zw_enabled : bool; zw_bypass_filter : bool;
  zw_fallback_to_default_resolvers : bool; zw_strategy : option rstr
}.
Record ZoneDiscoveryRow : Type := {
  dw_id : rstr; dw_enabled : bool; dw_address : rstr; dw_check_interval : option rstr;
  dw_bypass_filter : bool; dw_fallback_to_default_resolvers : bool;
  dw_auth_token : option rstr; dw_auth_username : option rstr; dw_auth_password : option rstr
}.
Record AllowedTypeRow : Type := {
  at_id : rstr; at_zone_discovery_id : rstr; at_allowed_type : rstr
}.

(** The rows [filtering_config] and [resolver_config] with id 1 are inserted by the
    migration and never deleted. *)
Record Database : Type := {
  t_filter_lists : list FilterListRecord;
  t_filter_cache_documents : list FilterCacheDocumentRecord;
  t_filtering_config : FilteringConfigRecord;
  t_resolver_config : ResolverConfigRow;
  t_bootstrap_resolvers : list BootstrapResolverRow;
  t_upstream_servers : list UpstreamServerRecord;
  t_zones : list ZoneRow;
  t_zone_servers : list ZoneServerRecord;
  t_zone_discovery : list ZoneDiscoveryRow;
  t_allowed_types : list AllowedTypeRow
}.

Definition with_filter_lists (d : Database) x : Database :=
  {| t_filter_lists := x; t_filter_cache_documents := t_filter_cache_documents d;
     t_filtering_config := t_filtering_config d; t_resolver_config := t_resolver_config d;
     t_bootstrap_resolvers := t_bootstrap_resolvers d; t_upstream_servers := t_upstream_servers d;
     t_zones := t_zones d; t_zone_servers := t_zone_servers d;
     t_zone_discovery := t_zone_discovery d; t_allowed_types := t_allowed_types d |}.
Definition with_filter_cache_documents (d : Database) x : Database :=
  {| t_filter_lists := t_filter_lists d; t_filter_cache_documents := x;
     t_filtering_config := t_filtering_config d; t_resolver_config := t_resolver_config d;
     t_bootstrap_resolvers := t_bootstrap_resolvers d; t_upstream_servers := t_upstream_servers d;
     t_zones := t_zones d; t_zone_servers := t_zone_servers d;
     t_zone_discovery := t_zone_discovery d; t_allowed_types := t_allowed_types d |}.
Definition with_filtering_config (d : Database) x : Database :=
  {| t_filter_lists := t_filter_lists d; t_filter_cache_documents := t_filter_cache_documents d;
     t_filtering_config := x; t_resolver_config := t_resolver_config d;
     t_bootstrap_resolvers := t_bootstrap_resolvers d; t_upstream_servers := t_upstream_servers d;
     t_zones := t_zones d; t_zone_servers := t_zone_servers d;
     t_zone_discovery := t_zone_discovery d; t_allowed_types := t_allowed_types d |}.
Definition with_resolver_config (d : Database) x : Database :=
  {| t_filter_lists := t_filter_lists d; t_filter_cache_documents := t_filter_cache_documents d;
     t_filtering_config := t_filtering_config d; t_resolver_config := x;
     t_bootstrap_resolvers := t_bootstrap_resolvers d; t_upstream_servers := t_upstream_servers d;
     t_zones := t_zones d; t_zone_servers := t_zone_servers d;
     t_zone_discovery := t_zone_discovery d; t_allowed_types := t_allowed_types d |}.
Definition with_bootstrap_resolvers (d : Database) x : Database :=
  {| t_filter_lists := t_filter_lists d; t_filter_cache_documents := t_filter_cache_documents d;
     t_filtering_config := t_filtering_config d; t_resolver_config := t_resolver_config d;
     t_bootstrap_resolvers := x; t_upstream_servers := t_upstream_servers d;
     t_zones := t_zones d; t_zone_servers := t_zone_servers d;
     t_zone_discovery := t_zone_discovery d; t_allowed_types := t_allowed_types d |}.
Definition with_upstream_servers (d : Database) x : Database :=
  {| t_filter_lists := t_filter_lists d; t_filter_cache_documents := t_filter_cache_documents d;
     t_filtering_config := t_filtering_config d; t_resolver_config := t_resolver_config d;
     t_bootstrap_resolvers := t_bootstrap_resolvers d; t_upstream_servers := x;
     t_zones := t_zones d; t_zone_servers := t_zone_servers d;
     t_zone_discovery := t_zone_discovery d; t_allowed_types := t_allowed_types d |}.
Definition with_zones (d : Database) x y : Database :=
  {| t_filter_lists := t_filter_lists d; t_filter_cache_documents := t_filter_cache_documents d;
     t_filtering_config := t_filtering_config d; t_resolver_config := t_resolver_config d;
     t_bootstrap_resolvers := t_bootstrap_resolvers d; t_upstream_servers := t_upstream_servers d;
     t_zones := x; t_zone_servers := y;
     t_zone_discovery := t_zone_discovery d; t_allowed_types := t_allowed_types d |}.
Definition with_zone_discovery (d : Database) x y : Database :=
  {| t_filter_lists := t_filter_lists d; t_filter_cache_documents := t_filter_cache_documents d;
     t_filtering_config := t_filtering_config d; t_resolver_config := t_resolver_config d;
     t_bootstrap_resolvers := t_bootstrap_resolvers d; t_upstream_servers := t_upstream_servers d;
     t_zones := t_zones d; t_zone_servers := t_zone_servers d;
     t_zone_discovery := x; t_allowed_types := y |}.

(** The database after the migrations, with the random identifier they generate. *)
Definition initial_database (id : rstr) : Database :=
  {| t_filter_lists := []; t_filter_cache_documents := [];
     t_filtering_config := {| fcfg_sinkhole_ipv4 := lit "0.0.0.0"; fcfg_sinkhole_ipv6 := lit "::";
                              fcfg_any_query_policy := lit "notimp" |};
     t_resolver_config := {| rcw_strategy := lit "round_robin"; rcw_dns_cache_enabled := true;
                             rcw_dns_cache_min_ttl_seconds := None;
                             rcw_dns_cache_max_ttl_seconds := None |};
     t_bootstrap_resolvers := [{| br_id := id; br_address := lit "1.1.1.1"; br_sort_order := 0 |}];
     t_upstream_servers := []; t_zones := []; t_zone_servers := [];
     t_zone_discovery := []; t_allowed_types := [] |}.

(** ** Statements *)

Inductive Statement : Type :=
| InsertFilterList (r : FilterListRecord)
| UpdateFilterList (r : FilterListRecord)
| DeleteFilterList (id : rstr)
| SetFilterListEnabled (id : rstr) (enabled : bool)
| UpsertCacheDocument (r : FilterCacheDocumentRecord)
| UpdateFilteringConfig (r : FilteringConfigRecord)
| UpdateResolverConfig (r : ResolverConfigRow)
| DeleteBootstrapResolvers
| InsertBootstrapResolver (r : BootstrapResolverRow)
| InsertUpstreamServer (r : UpstreamServerRecord)
| UpdateUpstreamServer (r : UpstreamServerRecord)
| DeleteUpstreamServer (id : rstr)
| DeleteAllUpstreamServers
| InsertZone (r : ZoneRow)
| UpdateZone (r : ZoneRow)
| DeleteZone (id : rstr)
| DeleteAllZones
| InsertZoneServer (r : ZoneServerRecord)
| DeleteZoneServers (zone_id : rstr)
| InsertZoneDiscovery (r : ZoneDiscoveryRow)
| UpdateZoneDiscovery (r : ZoneDiscoveryRow)
| DeleteZoneDiscovery (id : rstr)
| DeleteAllZoneDiscovery
| InsertAllowedType (r : AllowedTypeRow)
| DeleteAllowedTypes (zone_discovery_id : rstr).

Inductive Constraint : Type := UniqueViolation | CheckViolation | ForeignKeyViolation.

(** A row may be added when no row of the table has a key in common with it. *)
Definition insert_row {A} (clash : A -> A -> bool) (r : A) (t : list A) : result (list A) Constraint :=
  if existsb (clash r) t then Err UniqueViolation else Ok (t ++ [r]).

(** [UPDATE ... WHERE id = ?]: the changed row may not clash with another one. *)
Definition update_row {A} (id_of : A -> rstr) (clash : A -> A -> bool) (r : A) (t : list A) :
    result (list A) Constraint :=
  if existsb (fun x => str_eqb (id_of x) (id_of r)) t
     && existsb (fun x => negb (str_eqb (id_of x) (id_of r)) && clash r x) t
  then Err UniqueViolation
  else Ok ((fun x => if str_eqb (id_of x) (id_of r) then r else x) <$> t).

Definition delete_rows {A} (key_of : A -> rstr) (k : rstr) (t : list A) : list A :=
  filter (fun x => key_of x <> k) t.

Definition filter_list_clash (a b : FilterListRecord) : bool :=
  str_eqb (flr_id a) (flr_id b) || str_eqb (flr_name a) (flr_name b).
Definition bootstrap_clash (a b : BootstrapResolverRow) : bool :=
  str_eqb (br_id a) (br_id b) || str_eqb (br_address a) (br_address b).
Definition upstream_clash (a b : UpstreamServerRecord) : bool := str_eqb (usr_id a) (usr_id b).
Definition zone_clash (a b : ZoneRow) : bool :=
  str_eqb (zw_id a) (zw_id b) || str_eqb (zw_zone a) (zw_zone b).
Definition zone_server_clash (a b : ZoneServerRecord) : bool := str_eqb (zsr_id a) (zsr_id b).
Definition zone_discovery_clash (a b : ZoneDiscoveryRow) : bool := str_eqb (dw_id a) (dw_id b).
Definition allowed_type_clash (a b : AllowedTypeRow) : bool :=
  str_eqb (at_id a) (at_id b)
  || str_eqb (at_zone_discovery_id a) (at_zone_discovery_id b)
     && str_eqb (at_allowed_type a) (at_allowed_type b).

Definition kind_ok (r : FilterListRecord) : bool :=
  str_eqb (flr_kind r) (lit "block") || str_eqb (flr_kind r) (lit "allow").

Definition set_enabled_row (enabled : bool) (r : FilterListRecord) : FilterListRecord :=
  {| flr_id := flr_id r; flr_name := flr_name r; flr_kind := flr_kind r; flr_url := flr_url r;
     flr_interval_seconds := flr_interval_seconds r; flr_enabled := enabled;
     flr_list_type := flr_list_type r |}.

(** [ON CONFLICT(key) DO UPDATE]. *)
Definition upsert_document (r : FilterCacheDocumentRecord) (t : list FilterCacheDocumentRecord) :
    list FilterCacheDocumentRecord :=
  if existsb (fun x => str_eqb (fcd_key x) (fcd_key r)) t
  then (fun x => if str_eqb (fcd_key x) (fcd_key r) then r else x) <$> t
  else t ++ [r].

Definition run_statement (s : Statement) (d : Database) : result Database Constraint :=
  match s with
  | InsertFilterList r =>
      if negb (kind_ok r) then Err CheckViolation
      else let? t := insert_row filter_list_clash r (t_filter_lists d) in Ok (with_filter_lists d t)
  | UpdateFilterList r =>
      if existsb (fun x => str_eqb (flr_id x) (flr_id r)) (t_filter_lists d) && negb (kind_ok r)
      then Err CheckViolation
      else let? t := update_row flr_id filter_list_clash r (t_filter_lists d) in
           Ok (with_filter_lists d t)
  | DeleteFilterList id => Ok (with_filter_lists d (delete_rows flr_id id (t_filter_lists d)))
  | SetFilterListEnabled id enabled =>
      Ok (with_filter_lists d
            ((fun x => if str_eqb (flr_id x) id then set_enabled_row enabled x else x)
             <$> t_filter_lists d))
  | UpsertCacheDocument r =>
      Ok (with_filter_cache_documents d (upsert_document r (t_filter_cache_documents d)))
  | UpdateFilteringConfig r => Ok (with_filtering_config d r)
  | UpdateResolverConfig r => Ok (with_resolver_config d r)
  | DeleteBootstrapResolvers => Ok (with_bootstrap_resolvers d [])
  | InsertBootstrapResolver r =>
      let? t := insert_row bootstrap_clash r (t_bootstrap_resolvers d) in
      Ok (with_bootstrap_resolvers d t)
  | InsertUpstreamServer r =>
      let? t := insert_row upstream_clash r (t_upstream_servers d) in Ok (with_upstream_servers d t)
  | UpdateUpstreamServer r =>
      let? t := update_row usr_id upstream_clash r (t_upstream_servers d) in
      Ok (with_upstream_servers d t)
  | DeleteUpstreamServer id =>
      Ok (with_upstream_servers d (delete_rows usr_id id (t_upstream_servers d)))
  | DeleteAllUpstreamServers => Ok (with_upstream_servers d [])
  | InsertZone r =>
      let? t := insert_row zone_clash r (t_zones d) in Ok (with_zones d t (t_zone_servers d))
  | UpdateZone r =>
      let? t := update_row zw_id zone_clash r (t_zones d) in Ok (with_zones d t (t_zone_servers d))
  | DeleteZone id =>
      Ok (with_zones d (delete_rows zw_id id (t_zones d))
            (delete_rows zsr_zone_id id (t_zone_servers d)))
  | DeleteAllZones => Ok (with_zones d [] [])
  | InsertZoneServer r =>
      let? t := insert_row zone_server_clash r (t_zone_servers d) in
      if existsb (fun z => str_eqb (zw_id z) (zsr_zone_id r)) (t_zones d)
      then Ok (with_zones d (t_zones d) t) else Err ForeignKeyViolation
  | DeleteZoneServers zone_id =>
      Ok (with_zones d (t_zones d) (delete_rows zsr_zone_id zone_id (t_zone_servers d)))
  | InsertZoneDiscovery r =>
      let? t := insert_row zone_discovery_clash r (t_zone_discovery d) in
      Ok (with_zone_discovery d t (t_allowed_types d))
  | UpdateZoneDiscovery r =>
      let? t := update_row dw_id zone_discovery_clash r (t_zone_discovery d) in
      Ok (with_zone_discovery d t (t_allowed_types d))
  | DeleteZoneDiscovery id =>
      Ok (with_zone_discovery d (delete_rows dw_id id (t_zone_discovery d))
            (delete_rows at_zone_discovery_id id (t_allowed_types d)))
  | DeleteAllZoneDiscovery => Ok (with_zone_discovery d [] [])
  | InsertAllowedType r =>
      let? t := insert_row allowed_type_clash r (t_allowed_types d) in
      if existsb (fun z => str_eqb (dw_id z) (at_zone_discovery_id r)) (t_zone_discovery d)
      then Ok (with_zone_discovery d (t_zone_discovery d) t) else Err ForeignKeyViolation
  | DeleteAllowedTypes zone_discovery_id =>
      Ok (with_zone_discovery d (t_zone_discovery d)
            (delete_rows at_zone_discovery_id zone_discovery_id (t_allowed_types d)))
  end.

(** ** Queries *)

(** [fetch_optional] of [SELECT ... WHERE key = ?]: the first matching row. *)
Definition select_one {A} (key_of : A -> rstr) (k : rstr) (t : list A) : option A :=
  head (filter (fun x => key_of x = k) t).

Definition by_name (a b : FilterListRecord) : Prop := str_le (flr_name a) (flr_name b).
Definition by_zone (a b : ZoneRow) : Prop := str_le (zw_zone a) (zw_zone b).
Definition by_discovery_id (a b : ZoneDiscoveryRow) : Prop := str_le (dw_id a) (dw_id b).
(** [ORDER BY sort_order, id]. *)
Definition order_then_id {A} (order_of : A -> Z) (id_of : A -> rstr) (a b : A) : Prop :=
  (order_of a < order_of b)%Z \/ order_of a = order_of b /\ str_le (id_of a) (id_of b).
#[export] Instance by_name_dec : RelDecision by_name.
Proof. intros a b. unfold by_name. apply _. Defined.
#[export] Instance by_zone_dec : RelDecision by_zone.
Proof. intros a b. unfold by_zone. apply _. Defined.
#[export] Instance by_discovery_id_dec : RelDecision by_discovery_id.
Proof. intros a b. unfold by_discovery_id. apply _. Defined.
#[export] Instance order_then_id_dec {A} order_of id_of : RelDecision (@order_then_id A order_of id_of).
Proof. intros a b. unfold order_then_id. apply _. Defined.

Definition by_upstream_order := order_then_id usr_sort_order usr_id.
Definition by_bootstrap_order := order_then_id br_sort_order br_id.
Definition by_zone_server_order := order_then_id zsr_sort_order zsr_id.
#[export] Instance by_upstream_order_dec : RelDecision by_upstream_order := order_then_id_dec _ _.
#[export] Instance by_bootstrap_order_dec : RelDecision by_bootstrap_order := order_then_id_dec _ _.
#[export] Instance by_zone_server_order_dec : RelDecision by_zone_server_order := order_then_id_dec _ _.

Definition by_allowed_type (a b : AllowedTypeRow) : Prop := str_le (at_allowed_type a) (at_allowed_type b).
#[export] Instance by_allowed_type_dec : RelDecision by_allowed_type.
Proof. intros a b. unfold by_allowed_type. apply _. Defined.
(** [ORDER BY zone_discovery_id, allowed_type]. *)
Definition by_discovery_then_type (a b : AllowedTypeRow) : Prop :=
  at_zone_discovery_id a <> at_zone_discovery_id b
    /\ str_le (at_zone_discovery_id a) (at_zone_discovery_id b)
  \/ at_zone_discovery_id a = at_zone_discovery_id b /\ by_allowed_type a b.
#[export] Instance by_discovery_then_type_dec : RelDecision by_discovery_then_type.
Proof. intros a b. unfold by_discovery_then_type. apply _. Defined.

(** ** Repository traits ([repositories.rs]; [FilterCacheRepository] is in [FilterEngine]) *)

Record FilterListRepository (W : Type) : Type := {
  fl_get_all : M W (result (list FilterListRecord) Error);
  fl_get_by_name : rstr -> M W (result (option FilterListRecord) Error);
  fl_create : FilterListRecord -> M W (result unit Error);
  fl_update : FilterListRecord -> M W (result unit Error);
  fl_delete : rstr -> M W (result unit Error);
  fl_set_enabled : rstr -> bool -> M W (result unit Error);
  fl_count : M W (result Z Error)
}.

Record FilteringConfigRepository (W : Type) : Type := {
  fg_get : M W (result FilteringConfigRecord Error);
  fg_update : FilteringConfigRecord -> M W (result unit Error)
}.

Record UpstreamConfigRepository (W : Type) : Type := {
  uc_get_resolver_config : M W (result ResolverConfigRecord Error);
  uc_update_resolver_config : ResolverConfigRecord -> M W (result unit Error);
  uc_get_all_servers : M W (result (list UpstreamServerRecord) Error);
  uc_get_server_by_id : rstr -> M W (result (option UpstreamServerRecord) Error);
  uc_create_server : UpstreamServerRecord -> M W (result unit Error);
  uc_update_server : UpstreamServerRecord -> M W (result unit Error);
  uc_delete_server : rstr -> M W (result unit Error);
  uc_delete_all_servers : M W (result unit Error)
}.

Record ZoneRepository (W : Type) : Type := {
  zn_get_all_with_servers : M W (result (list ZoneRecord) Error);
  zn_get_by_zone : rstr -> M W (result (option ZoneRecord) Error);
  zn_create_zone : ZoneRecord -> M W (result unit Error);
  zn_update_zone : ZoneRecord -> M W (result unit Error);
  zn_create_zone_server : ZoneServerRecord -> M W (result unit Error);
  zn_delete_zone : rstr -> M W (result unit Error);
  zn_delete_zone_servers : rstr -> M W (result unit Error);
  zn_delete_all_zones : M W (result unit Error)
}.

Record ZoneDiscoveryRepository (W : Type) : Type := {
  zd_get_all : M W (result (list ZoneDiscoveryRecord) Error);
  zd_get_by_id : rstr -> M W (result (option ZoneDiscoveryRecord) Error);
  zd_create : ZoneDiscoveryRecord -> M W (result unit Error);
  zd_update : ZoneDiscoveryRecord -> M W (result unit Error);
  zd_delete : rstr -> M W (result unit Error);
  zd_delete_all : M W (result unit Error)
}.

Arguments fl_get_all {W} _.
Arguments fl_get_by_name {W} _ _.
Arguments fl_create {W} _ _.
Arguments fl_update {W} _ _.
Arguments fl_delete {W} _ _.
Arguments fl_set_enabled {W} _ _ _.
Arguments fl_count {W} _.
Arguments fg_get {W} _.
Arguments fg_update {W} _ _.
Arguments uc_get_resolver_config {W} _.
Arguments uc_update_resolver_config {W} _ _.
Arguments uc_get_all_servers {W} _.
Arguments uc_get_server_by_id {W} _ _.
Arguments uc_create_server {W} _ _.
Arguments uc_update_server {W} _ _.
Arguments uc_delete_server {W} _ _.
Arguments uc_delete_all_servers {W} _.
Arguments zn_get_all_with_servers {W} _.
Arguments zn_get_by_zone {W} _ _.
Arguments zn_create_zone {W} _ _.
Arguments zn_update_zone {W} _ _.
Arguments zn_create_zone_server {W} _ _.
Arguments zn_delete_zone {W} _ _.
Arguments zn_delete_zone_servers {W} _ _.
Arguments zn_delete_all_zones {W} _.
Arguments zd_get_all {W} _.
Arguments zd_get_by_id {W} _ _.
Arguments zd_create {W} _ _.
Arguments zd_update {W} _ _.
Arguments zd_delete {W} _ _.
Arguments zd_delete_all {W} _.

(** ** The implementations *)

(** The connection: whether the next statement fails before it has an effect (a lost
    connection, a busy or full database), how a violated constraint is reported, and
    the generator of fresh identifiers ([Uuid::new_v4]). *)
Record DbOutside (W : Type) : Type := {
  db_fault : M W (option rstr);
  db_message : Constraint -> rstr;
  new_v4 : M W rstr
}.
Arguments db_fault {W} _ _.
Arguments db_message {W} _ _.
Arguments new_v4 {W} _ _.

(** Pushing [v] into the first record that satisfies [p]:
    [if let Some(x) = xs.iter_mut().find(p) { x.push(v) }]. *)
Fixpoint push_first {A} (p : A -> bool) (push : A -> A) (xs : list A) : list A :=
  match xs with
  | [] => []
  | x :: rest => if p x then push x :: rest else x :: push_first p push rest
  end.

Definition zone_of_row (row : ZoneRow) (servers : list ZoneServerRecord) : ZoneRecord :=
  {| zr_id := zw_id row; zr_zone := zw_zone row; zr_enabled := zw_enabled row;
     zr_bypass_filter := zw_bypass_filter row;
     zr_fallback_to_default_resolvers := zw_fallback_to_default_resolvers row;
     zr_strategy := zw_strategy row; zr_servers := servers |}.

Definition row_of_zone (r : ZoneRecord) : ZoneRow :=
  {| zw_id := zr_id r; zw_zone := zr_zone r; zw_enabled := zr_enabled r;
     zw_bypass_filter := zr_bypass_filter r;
     zw_fallback_to_default_resolvers := zr_fallback_to_default_resolvers r;
     zw_strategy := zr_strategy r |}.

Definition push_server (s : ZoneServerRecord) (z : ZoneRecord) : ZoneRecord :=
  zone_of_row (row_of_zone z) (zr_servers z ++ [s]).

Definition attach_servers (zones : list ZoneRecord) (servers : list ZoneServerRecord) :
    list ZoneRecord :=
  foldl (fun zs s => push_first (fun z => str_eqb (zr_id z) (zsr_zone_id s)) (push_server s) zs)
    zones servers.

Definition discovery_of_row (row : ZoneDiscoveryRow) (types : list rstr) : ZoneDiscoveryRecord :=
  {| zdr_id := dw_id row; zdr_enabled := dw_enabled row; zdr_address := dw_address row;
     zdr_check_interval := dw_check_interval row; zdr_allowed_types := types;
     zdr_bypass_filter := dw_bypass_filter row;
     zdr_fallback_to_default_resolvers := dw_fallback_to_default_resolvers row;
     zdr_auth_token := dw_auth_token row; zdr_auth_username := dw_auth_username row;
     zdr_auth_password := dw_auth_password row |}.

Definition row_of_discovery (r : ZoneDiscoveryRecord) : ZoneDiscoveryRow :=
  {| dw_id := zdr_id r; dw_enabled := zdr_enabled r; dw_address := zdr_address r;
     dw_check_interval := zdr_check_interval r; dw_bypass_filter := zdr_bypass_filter r;
     dw_fallback_to_default_resolvers := zdr_fallback_to_default_resolvers r;
     dw_auth_token := zdr_auth_token r; dw_auth_username := zdr_auth_username r;
     dw_auth_password := zdr_auth_password r |}.

Definition push_type (t : rstr) (r : ZoneDiscoveryRecord) : ZoneDiscoveryRecord :=
  discovery_of_row (row_of_discovery r) (zdr_allowed_types r ++ [t]).

Definition attach_types (records : list ZoneDiscoveryRecord) (types : list AllowedTypeRow) :
    list ZoneDiscoveryRecord :=
  foldl (fun rs t => push_first (fun r => str_eqb (zdr_id r) (at_zone_discovery_id t))
                       (push_type (at_allowed_type t)) rs)
    records types.

Definition quoted (s : rstr) : rstr := lit "'" ++ s ++ lit "'".

Section sqlx.
Context {W : Type} (db : Cell W Database) (outside : DbOutside W).

(** [sqlx::query(..).execute(&pool).await.context(..)?]. *)
Definition execute (context : rstr) (s : Statement) : M W (result unit Error) :=
  fault <<- db_fault outside ;;
  match fault with
  | Some e => mret (Err [context; e])
  | None =>
      d <<- cread db ;;
      match run_statement s d with
      | Ok d' => cwrite db d' ;;; mret (Ok tt)
      | Err c => mret (Err [context; db_message outside c])
      end
  end.

(** [sqlx::query_as(..).fetch_*(&pool).await.context(..)?]. *)
Definition fetch {A} (context : rstr) (query : Database -> A) : M W (result A Error) :=
  fault <<- db_fault outside ;;
  match fault with
  | Some e => mret (Err [context; e])
  | None => d <<- cread db ;; mret (Ok (query d))
  end.

(** *** Filter lists *)

Definition filter_list_get_all : M W (result (list FilterListRecord) Error) :=
  fetch (lit "failed to fetch filter lists") (fun d => merge_sort by_name (t_filter_lists d)).

Definition filter_list_get_by_name (name : rstr) : M W (result (option FilterListRecord) Error) :=
  fetch (lit "failed to fetch filter list by name")
    (fun d => select_one flr_name name (t_filter_lists d)).

Definition filter_list_create (r : FilterListRecord) : M W (result unit Error) :=
  execute (lit "failed to insert filter list " ++ quoted (flr_name r)) (InsertFilterList r).

Definition filter_list_update (r : FilterListRecord) : M W (result unit Error) :=
  execute (lit "failed to update filter list " ++ quoted (flr_name r)) (UpdateFilterList r).

Definition filter_list_delete (id : rstr) : M W (result unit Error) :=
  execute (lit "failed to delete filter list " ++ quoted id) (DeleteFilterList id).

Definition display_bool (b : bool) : rstr := if b then lit "true" else lit "false".

Definition filter_list_set_enabled (id : rstr) (enabled : bool) : M W (result unit Error) :=
  execute (lit "failed to set enabled=" ++ display_bool enabled ++ lit " for filter list " ++ quoted id)
    (SetFilterListEnabled id enabled).

Definition filter_list_count : M W (result Z Error) :=
  fetch (lit "failed to count filter lists") (fun d => Z.of_nat (length (t_filter_lists d))).

Definition sqlx_filter_lists : FilterListRepository W :=
  {| fl_get_all := filter_list_get_all; fl_get_by_name := filter_list_get_by_name;
     fl_create := filter_list_create; fl_update := filter_list_update;
     fl_delete := filter_list_delete; fl_set_enabled := filter_list_set_enabled;
     fl_count := filter_list_count |}.

(** *** Cached documents *)

Definition filter_cache_load (key : rstr) : M W (result (option FilterCacheDocumentRecord) Error) :=
  fetch (lit "failed to load filter cache document")
    (fun d => select_one fcd_key key (t_filter_cache_documents d)).

Definition filter_cache_store (r : FilterCacheDocumentRecord) : M W (result unit Error) :=
  execute (lit "failed to upsert filter cache document " ++ quoted (fcd_key r)) (UpsertCacheDocument r).

(** The trait of [FilterEngine] hands over the two columns instead of the record. *)
Definition sqlx_filter_cache : FilterCacheRepository W :=
  {| fcr_load := fun key => r <?- filter_cache_load key ;; mret (Ok (fcd_value <$> r));
     fcr_store := fun key value => filter_cache_store {| fcd_key := key; fcd_value := value |} |}.

(** *** Filtering settings *)

Definition filtering_config_get : M W (result FilteringConfigRecord Error) :=
  fetch (lit "failed to fetch filtering config") t_filtering_config.

Definition filtering_config_update (r : FilteringConfigRecord) : M W (result unit Error) :=
  execute (lit "failed to update filtering config") (UpdateFilteringConfig r).

Definition sqlx_filtering_config : FilteringConfigRepository W :=
  {| fg_get := filtering_config_get; fg_update := filtering_config_update |}.

(** *** Upstream configuration *)

Definition upstream_get_resolver_config : M W (result ResolverConfigRecord Error) :=
  row <?- fetch (lit "failed to fetch resolver config") t_resolver_config ;;
  bootstrap_rows <?- fetch (lit "failed to fetch bootstrap resolvers")
                       (fun d => merge_sort by_bootstrap_order (t_bootstrap_resolvers d)) ;;
  mret (Ok {| rcr_strategy := rcw_strategy row;
              rcr_bootstrap_resolvers := br_address <$> bootstrap_rows;
              rcr_dns_cache_enabled := rcw_dns_cache_enabled row;
              rcr_dns_cache_min_ttl_seconds := rcw_dns_cache_min_ttl_seconds row;
              rcr_dns_cache_max_ttl_seconds := rcw_dns_cache_max_ttl_seconds row |}).

Definition insert_bootstrap (entry : nat * rstr) : M W (result unit Error) :=
  id <<- new_v4 outside ;;
  execute (lit "failed to insert bootstrap resolver " ++ quoted entry.2)
    (InsertBootstrapResolver {| br_id := id; br_address := entry.2;
                                br_sort_order := as_i32 (Z.of_nat entry.1) |}).

Definition upstream_update_resolver_config (r : ResolverConfigRecord) : M W (result unit Error) :=
  execute (lit "failed to update resolver config")
    (UpdateResolverConfig
       {| rcw_strategy := rcr_strategy r; rcw_dns_cache_enabled := rcr_dns_cache_enabled r;
          rcw_dns_cache_min_ttl_seconds := rcr_dns_cache_min_ttl_seconds r;
          rcw_dns_cache_max_ttl_seconds := rcr_dns_cache_max_ttl_seconds r |}) ?;;
  (execute (lit "failed to delete bootstrap resolvers") DeleteBootstrapResolvers ?;;
   for_each insert_bootstrap (enumerate (rcr_bootstrap_resolvers r))).

Definition upstream_get_all_servers : M W (result (list UpstreamServerRecord) Error) :=
  fetch (lit "failed to fetch upstream servers")
    (fun d => merge_sort by_upstream_order (t_upstream_servers d)).

Definition upstream_get_server_by_id (id : rstr) : M W (result (option UpstreamServerRecord) Error) :=
  fetch (lit "failed to fetch upstream server " ++ quoted id)
    (fun d => select_one usr_id id (t_upstream_servers d)).

Definition upstream_create_server (r : UpstreamServerRecord) : M W (result unit Error) :=
  execute (lit "failed to insert upstream server " ++ quoted (usr_id r)) (InsertUpstreamServer r).

Definition upstream_update_server (r : UpstreamServerRecord) : M W (result unit Error) :=
  execute (lit "failed to update upstream server " ++ quoted (usr_id r)) (UpdateUpstreamServer r).

Definition upstream_delete_server (id : rstr) : M W (result unit Error) :=
  execute (lit "failed to delete upstream server " ++ quoted id) (DeleteUpstreamServer id).

Definition upstream_delete_all_servers : M W (result unit Error) :=
  execute (lit "failed to delete all upstream servers") DeleteAllUpstreamServers.

Definition sqlx_upstream_config : UpstreamConfigRepository W :=
  {| uc_get_resolver_config := upstream_get_resolver_config;
     uc_update_resolver_config := upstream_update_resolver_config;
     uc_get_all_servers := upstream_get_all_servers;
     uc_get_server_by_id := upstream_get_server_by_id;
     uc_create_server := upstream_create_server; uc_update_server := upstream_update_server;
     uc_delete_server := upstream_delete_server;
     uc_delete_all_servers := upstream_delete_all_servers |}.

(** *** Zones *)

Definition zone_get_all_with_servers : M W (result (list ZoneRecord) Error) :=
  zone_rows <?- fetch (lit "failed to fetch zones") (fun d => merge_sort by_zone (t_zones d)) ;;
  server_rows <?- fetch (lit "failed to fetch zone servers")
                    (fun d => merge_sort by_zone_server_order (t_zone_servers d)) ;;
  mret (Ok (attach_servers ((fun row => zone_of_row row []) <$> zone_rows) server_rows)).

Definition zone_get_by_zone (zone : rstr) : M W (result (option ZoneRecord) Error) :=
  zone_row <?- fetch (lit "failed to fetch zone by name")
                 (fun d => select_one zw_zone zone (t_zones d)) ;;
  match zone_row with
  | None => mret (Ok None)
  | Some row =>
      server_rows <?- fetch (lit "failed to fetch zone servers")
        (fun d => merge_sort by_zone_server_order
                    (filter (fun s => zsr_zone_id s = zw_id row) (t_zone_servers d))) ;;
      mret (Ok (Some (zone_of_row row server_rows)))
  end.

Definition zone_create_zone (r : ZoneRecord) : M W (result unit Error) :=
  execute (lit "failed to insert zone " ++ quoted (zr_zone r)) (InsertZone (row_of_zone r)).

Definition zone_create_zone_server (r : ZoneServerRecord) : M W (result unit Error) :=
  execute (lit "failed to insert zone server " ++ quoted (zsr_id r)) (InsertZoneServer r).

Definition zone_update_zone (r : ZoneRecord) : M W (result unit Error) :=
  execute (lit "failed to update zone " ++ quoted (zr_zone r)) (UpdateZone (row_of_zone r)).

Definition zone_delete_zone (id : rstr) : M W (result unit Error) :=
  execute (lit "failed to delete zone " ++ quoted id) (DeleteZone id).

Definition zone_delete_zone_servers (zone_id : rstr) : M W (result unit Error) :=
  execute (lit "failed to delete zone servers for zone " ++ quoted zone_id) (DeleteZoneServers zone_id).

Definition zone_delete_all_zones : M W (result unit Error) :=
  execute (lit "failed to delete all zones") DeleteAllZones.

Definition sqlx_zones : ZoneRepository W :=
  {| zn_get_all_with_servers := zone_get_all_with_servers; zn_get_by_zone := zone_get_by_zone;
     zn_create_zone := zone_create_zone; zn_update_zone := zone_update_zone;
     zn_create_zone_server := zone_create_zone_server; zn_delete_zone := zone_delete_zone;
     zn_delete_zone_servers := zone_delete_zone_servers;
     zn_delete_all_zones := zone_delete_all_zones |}.

(** *** Zone discovery *)

Definition discovery_get_all : M W (result (list ZoneDiscoveryRecord) Error) :=
  rows <?- fetch (lit "failed to fetch zone discovery entries")
             (fun d => merge_sort by_discovery_id (t_zone_discovery d)) ;;
  type_rows <?- fetch (lit "failed to fetch zone discovery allowed types")
                  (fun d => merge_sort by_discovery_then_type (t_allowed_types d)) ;;
  mret (Ok (attach_types ((fun row => discovery_of_row row []) <$> rows) type_rows)).

Definition discovery_get_by_id (id : rstr) : M W (result (option ZoneDiscoveryRecord) Error) :=
  row <?- fetch (lit "failed to fetch zone discovery by id")
            (fun d => select_one dw_id id (t_zone_discovery d)) ;;
  match row with
  | None => mret (Ok None)
  | Some row =>
      type_rows <?- fetch (lit "failed to fetch zone discovery allowed types")
        (fun d => merge_sort by_allowed_type
                    (filter (fun t => at_zone_discovery_id t = id) (t_allowed_types d))) ;;
      mret (Ok (Some (discovery_of_row row (at_allowed_type <$> type_rows))))
  end.

Definition insert_allowed_type (discovery_id allowed_type : rstr) : M W (result unit Error) :=
  id <<- new_v4 outside ;;
  execute (lit "failed to insert allowed type " ++ quoted allowed_type ++ lit " for zone discovery "
           ++ quoted discovery_id)
    (InsertAllowedType {| at_id := id; at_zone_discovery_id := discovery_id;
                          at_allowed_type := allowed_type |}).

Definition discovery_create (r : ZoneDiscoveryRecord) : M W (result unit Error) :=
  execute (lit "failed to insert zone discovery " ++ quoted (zdr_id r))
    (InsertZoneDiscovery (row_of_discovery r)) ?;;
  for_each (insert_allowed_type (zdr_id r)) (zdr_allowed_types r).

Definition discovery_update (r : ZoneDiscoveryRecord) : M W (result unit Error) :=
  execute (lit "failed to update zone discovery " ++ quoted (zdr_id r))
    (UpdateZoneDiscovery (row_of_discovery r)) ?;;
  (execute (lit "failed to delete allowed types for zone discovery " ++ quoted (zdr_id r))
     (DeleteAllowedTypes (zdr_id r)) ?;;
   for_each (insert_allowed_type (zdr_id r)) (zdr_allowed_types r)).

Definition discovery_delete (id : rstr) : M W (result unit Error) :=
  execute (lit "failed to delete zone discovery " ++ quoted id) (DeleteZoneDiscovery id).

Definition discovery_delete_all : M W (result unit Error) :=
  execute (lit "failed to delete all zone discovery entries") DeleteAllZoneDiscovery.

Definition sqlx_zone_discovery : ZoneDiscoveryRepository W :=
  {| zd_get_all := discovery_get_all; zd_get_by_id := discovery_get_by_id;
     zd_create := discovery_create; zd_update := discovery_update; zd_delete := discovery_delete;
     zd_delete_all := discovery_delete_all |}.
End sqlx.

(** ** The schema is an invariant

    What the declarations of the tables promise. *)

Record schema_ok (d : Database) : Prop := {
  ok_list_ids : NoDup (flr_id <$> t_filter_lists d);
  ok_list_names : NoDup (flr_name <$> t_filter_lists d);
  ok_list_kinds : Forall (fun r => kind_ok r = true) (t_filter_lists d);
  ok_document_keys : NoDup (fcd_key <$> t_filter_cache_documents d);
  ok_bootstrap_ids : NoDup (br_id <$> t_bootstrap_resolvers d);
  ok_bootstrap_addresses : NoDup (br_address <$> t_bootstrap_resolvers d);
  ok_upstream_ids : NoDup (usr_id <$> t_upstream_servers d);
  ok_zone_ids : NoDup (zw_id <$> t_zones d);
  ok_zone_names : NoDup (zw_zone <$> t_zones d);
  ok_server_ids : NoDup (zsr_id <$> t_zone_servers d);
  ok_server_zones : Forall (fun s => zsr_zone_id s ∈ zw_id <$> t_zones d) (t_zone_servers d);
  ok_discovery_ids : NoDup (dw_id <$> t_zone_discovery d);
  ok_type_ids : NoDup (at_id <$> t_allowed_types d);
  ok_types : NoDup ((fun t => (at_zone_discovery_id t, at_allowed_type t)) <$> t_allowed_types d);
  ok_type_discoveries :
    Forall (fun t => at_zone_discovery_id t ∈ dw_id <$> t_zone_discovery d) (t_allowed_types d)
}.

Section rows.
Context {A K : Type}.

Lemma insert_row_ok (clash : A -> A -> bool) r t t' :
  insert_row clash r t = Ok t' -> t' = t ++ [r] /\ Forall (fun x => clash r x = false) t.
Proof.
  unfold insert_row. destruct (existsb _ t) eqn:He; [done|]. intros [= <-]. split; [done|].
  apply Forall_forall. intros x Hx. destruct (clash r x) eqn:Hc; [|done].
  assert (existsb (clash r) t = true) as Ht; [|congruence].
  apply existsb_exists. exists x. by rewrite <- list_elem_of_In.
Qed.

Lemma update_row_ok id_of (clash : A -> A -> bool) r t t' :
  update_row id_of clash r t = Ok t' ->
  t' = (fun x => if str_eqb (id_of x) (id_of r) then r else x) <$> t
  /\ ((forall x, x ∈ t -> id_of x <> id_of r)
      \/ forall x, x ∈ t -> id_of x <> id_of r -> clash r x = false).
Proof.
  unfold update_row. destruct (_ && _) eqn:He; [done|]. intros [= <-]. split; [done|].
  apply andb_false_iff in He as [He|He]; [left|right]; intros x Hx.
  - intros Hid. assert (existsb (fun y => str_eqb (id_of y) (id_of r)) t = true) as Ht;
      [|congruence]. apply existsb_exists. exists x. rewrite <- list_elem_of_In.
    split; [done|]. by destruct (str_eqb_spec (id_of x) (id_of r)).
  - intros Hid. destruct (clash r x) eqn:Hc; [|done].
    assert (existsb (fun y => negb (str_eqb (id_of y) (id_of r)) && clash r y) t = true) as Ht;
      [|congruence]. apply existsb_exists. exists x. rewrite <- list_elem_of_In.
    split; [done|]. rewrite Hc. by destruct (str_eqb_spec (id_of x) (id_of r)).
Qed.

Lemma insert_NoDup (key : A -> K) (clash : A -> A -> bool) r t :
  (forall x, key r = key x -> clash r x = true) ->
  Forall (fun x => clash r x = false) t -> NoDup (key <$> t) -> NoDup (key <$> (t ++ [r])).
Proof.
  intros Hkey Hall Hnd. rewrite fmap_app. apply NoDup_app. split_and!; [done| |apply NoDup_singleton].
  intros k (x & -> & Hx)%list_elem_of_fmap Hr%list_elem_of_singleton.
  rewrite Forall_forall in Hall. specialize (Hall _ Hx). rewrite Hkey in Hall; done.
Qed.

Lemma update_NoDup (key : A -> K) (id_of : A -> rstr) (clash : A -> A -> bool) r t :
  (forall x, key r = key x -> clash r x = true) ->
  NoDup (id_of <$> t) ->
  ((forall x, x ∈ t -> id_of x <> id_of r)
   \/ forall x, x ∈ t -> id_of x <> id_of r -> clash r x = false) ->
  NoDup (key <$> t) ->
  NoDup (key <$> ((fun x => if str_eqb (id_of x) (id_of r) then r else x) <$> t)).
Proof.
  intros Hkey. induction t as [|x t IH]; [done|]. rewrite !fmap_cons, !NoDup_cons.
  intros [Hi Hids] Hc [Hk Hkeys]. split.
  - rewrite <- list_fmap_compose. intros (y & Hy & Hyt)%list_elem_of_fmap. unfold compose in Hy.
    assert (forall z, z ∈ x :: t -> id_of z <> id_of r -> id_of x = id_of r \/ id_of y = id_of r ->
      key r <> key z) as Hne.
    { intros z Hz Hzr Hrow Heq. apply Hkey in Heq. destruct Hc as [Hc|Hc].
      - destruct Hrow as [Hrow|Hrow]; [by apply (Hc x); [left|]|by apply (Hc y); [right|]].
      - by rewrite (Hc z Hz Hzr) in Heq. }
    destruct (str_eqb_spec (id_of x) (id_of r)) as [Hx|Hx],
      (str_eqb_spec (id_of y) (id_of r)) as [Hyr|Hyr].
    + apply Hi. rewrite Hx, <- Hyr. by apply list_elem_of_fmap_2.
    + apply (Hne y); auto. by right.
    + apply (Hne x); auto. by left.
    + apply Hk. rewrite Hy. by apply list_elem_of_fmap_2.
  - apply IH; [done| |done].
    destruct Hc as [Hc|Hc]; [left|right]; intros z Hz; apply Hc; by right.
Qed.

Lemma delete_rows_sublist (key_of : A -> rstr) k t : delete_rows key_of k t `sublist_of` t.
Proof. unfold delete_rows. apply sublist_filter. Qed.

Lemma delete_NoDup (key : A -> K) key_of k t :
  NoDup (key <$> t) -> NoDup (key <$> delete_rows key_of k t).
Proof. intros Hnd. eapply sublist_NoDup; [exact Hnd|]. apply fmap_sublist, delete_rows_sublist. Qed.

Lemma select_one_Some (key_of : A -> rstr) k t x : NoDup (key_of <$> t) ->
  select_one key_of k t = Some x <-> x ∈ t /\ key_of x = k.
Proof.
  unfold select_one. induction t as [|y t IH]; simpl.
  { intros _. split; [done|]. by intros [?%not_elem_of_nil _]. }
  rewrite NoDup_cons. intros [Hy Hnd]. rewrite filter_cons. case_decide as Hk; simpl.
  - split; [intros [= ->]; split; [by left|done]|].
    intros [[->|Hx]%elem_of_cons Hkx]; [done|]. exfalso. apply Hy. rewrite Hk, <- Hkx.
    by apply list_elem_of_fmap_2.
  - rewrite (IH Hnd), elem_of_cons. split; [by intuition|]. intros [[->|Hx] Hkx]; [done|by split].
Qed.

Lemma select_one_None (key_of : A -> rstr) k t :
  select_one key_of k t = None <-> k ∉ key_of <$> t.
Proof.
  unfold select_one. rewrite head_None. split.
  - intros Hf (x & -> & Hx)%list_elem_of_fmap. apply (not_elem_of_nil x). rewrite <- Hf.
    by apply list_elem_of_filter.
  - intros Hk. destruct (filter _ t) as [|x l] eqn:Hf; [done|]. exfalso.
    assert (x ∈ filter (fun y => key_of y = k) t) as Hx by (rewrite Hf; left).
    apply list_elem_of_filter in Hx as [<- Hx]. apply Hk. by apply list_elem_of_fmap_2.
Qed.
End rows.

Lemma update_keeps {A B} (f : A -> A) (key : A -> B) (t : list A) :
  (forall x, key (f x) = key x) -> key <$> (f <$> t) = key <$> t.
Proof. intros Hf. rewrite <- list_fmap_compose. apply list_fmap_ext. intros i x _. apply Hf. Qed.

Lemma replace_keeps_id {A} (id_of : A -> rstr) (r : A) (t : list A) :
  id_of <$> ((fun x => if str_eqb (id_of x) (id_of r) then r else x) <$> t) = id_of <$> t.
Proof. apply update_keeps. intros x. by destruct (str_eqb_spec (id_of x) (id_of r)). Qed.

Lemma upsert_NoDup r t :
  NoDup (fcd_key <$> t) -> NoDup (fcd_key <$> upsert_document r t).
Proof.
  intros Hnd. unfold upsert_document. destruct (existsb _ t) eqn:He; [by rewrite replace_keeps_id|].
  rewrite fmap_app. apply NoDup_app. split_and!; [done| |apply NoDup_singleton].
  intros k (x & -> & Hx)%list_elem_of_fmap Hr%list_elem_of_singleton.
  assert (existsb (fun y => str_eqb (fcd_key y) (fcd_key r)) t = true) as Ht; [|congruence].
  apply existsb_exists. exists x. rewrite <- list_elem_of_In. split; [done|].
  by destruct (str_eqb_spec (fcd_key x) (fcd_key r)).
Qed.

(** Deleting a row and the rows that refer to it keeps the references closed. *)
Lemma delete_references {A B} (ref : B -> rstr) (id_of : A -> rstr) k t s :
  Forall (fun y => ref y ∈ id_of <$> t) s ->
  Forall (fun y => ref y ∈ id_of <$> delete_rows id_of k t) (delete_rows ref k s).
Proof.
  rewrite !Forall_forall. intros Hall y [Hy Hs]%list_elem_of_filter.
  destruct (proj1 (list_elem_of_fmap _ _ _) (Hall _ Hs)) as (x & Hx & Hxt).
  rewrite Hx in Hy |- *. apply list_elem_of_fmap_2. by apply list_elem_of_filter.
Qed.

Lemma delete_Forall {A} (P : A -> Prop) key_of k t :
  Forall P t -> Forall P (delete_rows key_of k t).
Proof. rewrite !Forall_forall. intros Hall x [_ Hx]%list_elem_of_filter. auto. Qed.

Lemma insert_references {A B} (ref : B -> rstr) (id_of : A -> rstr) r t s :
  existsb (fun x => str_eqb (id_of x) (ref r)) t = true ->
  Forall (fun y => ref y ∈ id_of <$> t) s -> Forall (fun y => ref y ∈ id_of <$> t) (s ++ [r]).
Proof.
  intros (x & Hx & Heq)%existsb_exists Hall. apply Forall_app_2; [done|]. constructor; [|done].
  destruct (str_eqb_spec (id_of x) (ref r)) as [<-|]; [|done].
  by apply list_elem_of_fmap_2, list_elem_of_In.
Qed.

Lemma more_references {A B} (ref : B -> rstr) (id_of : A -> rstr) r t s :
  Forall (fun y => ref y ∈ id_of <$> t) s -> Forall (fun y => ref y ∈ id_of <$> (t ++ [r])) s.
Proof. intros Hs. eapply Forall_impl; [exact Hs|]. intros y Hy. rewrite fmap_app. apply elem_of_app. by left. Qed.

Create HintDb schema.
#[export] Hint Resolve NoDup_nil_2 delete_NoDup delete_references delete_Forall insert_references
  more_references upsert_NoDup : schema.

(** A row's keys against [clash], both for inserting and for updating. *)
Ltac clash_key :=
  intros; unfold filter_list_clash, bootstrap_clash, upstream_clash, zone_clash,
    zone_server_clash, zone_discovery_clash, allowed_type_clash;
  simplify_eq; repeat match goal with
  | H : ?a = ?b |- context [str_eqb ?a ?b] => rewrite H
  end; rewrite ?str_eqb_refl; by rewrite ?orb_true_r.

Lemma kind_ok_insert r t :
  negb (kind_ok r) = false -> Forall (fun x => kind_ok x = true) t ->
  Forall (fun x => kind_ok x = true) (t ++ [r]).
Proof. intros Hr Ht. apply Forall_app_2; [done|]. constructor; [|done]. by apply negb_false_iff. Qed.

Lemma kind_ok_update r t :
  existsb (fun x => str_eqb (flr_id x) (flr_id r)) t && negb (kind_ok r) = false ->
  Forall (fun x => kind_ok x = true) t ->
  Forall (fun x => kind_ok x = true) ((fun x => if str_eqb (flr_id x) (flr_id r) then r else x) <$> t).
Proof.
  intros Hr Ht. apply Forall_fmap. rewrite Forall_forall in *. intros x Hx. simpl.
  destruct (str_eqb (flr_id x) (flr_id r)) eqn:Heq; [|by apply Ht].
  apply andb_false_iff in Hr as [Hr|Hr]; [|by apply negb_false_iff].
  assert (existsb (fun x => str_eqb (flr_id x) (flr_id r)) t = true); [|congruence].
  apply existsb_exists. exists x. by rewrite <- list_elem_of_In.
Qed.

Lemma kind_ok_set id b t :
  Forall (fun x => kind_ok x = true) t ->
  Forall (fun x => kind_ok x = true)
    ((fun x => if str_eqb (flr_id x) id then set_enabled_row b x else x) <$> t).
Proof.
  intros Ht. apply Forall_fmap. eapply Forall_impl; [exact Ht|]. intros x Hx. simpl.
  by destruct (str_eqb (flr_id x) id).
Qed.
#[export] Hint Resolve kind_ok_insert kind_ok_update kind_ok_set : schema.

(** The invariant needs no more than the hints once the changed rows are known. *)
Ltac schema_step :=
  repeat match goal with
  | H : context [insert_row ?c ?r ?t] |- _ =>
      let t' := fresh "t" in let Hi := fresh "Hins" in
      destruct (insert_row c r t) as [t'|] eqn:Hi; [|done];
      apply insert_row_ok in Hi as [-> Hi]
  | H : context [update_row ?i ?c ?r ?t] |- _ =>
      let t' := fresh "t" in let Hi := fresh "Hupd" in
      destruct (update_row i c r t) as [t'|] eqn:Hi; [|done];
      apply update_row_ok in Hi as [-> Hi]
  | H : context [if ?b then _ else _] |- _ => destruct b eqn:?
  end; simplify_eq.

Ltac schema_goal :=
  rewrite ?replace_keeps_id; auto with schema;
  first
  [ match goal with |- NoDup (?key <$> (_ ++ [_])) =>
      eapply (insert_NoDup key); [|eassumption|assumption]; clash_key end
  | match goal with |- NoDup (?key <$> ((fun x => if str_eqb (?i x) (?i ?r) then ?r else x) <$> _)) =>
      eapply (update_NoDup key i); [|eassumption|eassumption|assumption]; clash_key end
  | rewrite update_keeps; [assumption|]; intros; by case_match ].

Lemma run_statement_schema s d d' : schema_ok d -> run_statement s d = Ok d' -> schema_ok d'.
Proof.
  intros [] Hrun. destruct s; simpl in Hrun; schema_step; constructor; simpl; try assumption;
    schema_goal.
Qed.

(** One committed statement. *)
Definition db_step (d d' : Database) : Prop := exists s, run_statement s d = Ok d'.

(** Whatever sequence of statements the program commits, in whatever order tasks
    issue them, the tables keep their keys unique, their kinds valid and their references
    closed. *)
Theorem database_stays_consistent (id : rstr) (d : Database) :
  rtc db_step (initial_database id) d -> schema_ok d.
Proof.
  intros Hd. remember (initial_database id) as d0 eqn:H0.
  assert (schema_ok d0) as Hok.
  { subst d0. constructor; simpl;
      repeat (constructor || apply not_elem_of_nil || apply NoDup_singleton). }
  clear H0. induction Hd as [|d1 d2 d3 [s Hs] _ IH]; [done|].
  eauto using run_statement_schema.
Qed.

(** ** Sorted reads *)

#[export] Instance order_then_id_total {A} order_of id_of : Total (@order_then_id A order_of id_of).
Proof.
  intros a b. unfold order_then_id.
  destruct (Z.lt_trichotomy (order_of a) (order_of b)) as [?|[Heq|?]]; [by left; left| |by right; left].
  destruct (str_le_total (id_of a) (id_of b)); [left|right]; right; by split.
Qed.
#[export] Instance order_then_id_trans {A} order_of id_of :
  Transitive (@order_then_id A order_of id_of).
Proof.
  intros a b c. unfold order_then_id. intros [?|[? ?]] [?|[? ?]]; [left; lia..|right].
  split; [congruence|]. by etrans.
Qed.

Lemma order_then_id_antisymm {A} order_of id_of (a b : A) :
  order_then_id order_of id_of a b -> order_then_id order_of id_of b a -> id_of a = id_of b.
Proof.
  unfold order_then_id. intros [?|[? Hab]] [?|[? Hba]]; try lia. by apply str_le_antisymm.
Qed.

#[export] Instance by_upstream_order_total : Total by_upstream_order := order_then_id_total _ _.
#[export] Instance by_upstream_order_trans : Transitive by_upstream_order := order_then_id_trans _ _.
#[export] Instance by_bootstrap_order_total : Total by_bootstrap_order := order_then_id_total _ _.
#[export] Instance by_bootstrap_order_trans : Transitive by_bootstrap_order := order_then_id_trans _ _.
#[export] Instance by_zone_server_order_total : Total by_zone_server_order := order_then_id_total _ _.
#[export] Instance by_zone_server_order_trans : Transitive by_zone_server_order := order_then_id_trans _ _.
#[export] Instance by_name_total : Total by_name.
Proof. intros a b. apply str_le_total. Qed.
#[export] Instance by_name_trans : Transitive by_name.
Proof. intros a b c. apply str_le_trans. Qed.
#[export] Instance by_zone_total : Total by_zone.
Proof. intros a b. apply str_le_total. Qed.
#[export] Instance by_zone_trans : Transitive by_zone.
Proof. intros a b c. apply str_le_trans. Qed.
#[export] Instance by_discovery_id_total : Total by_discovery_id.
Proof. intros a b. apply str_le_total. Qed.
#[export] Instance by_discovery_id_trans : Transitive by_discovery_id.
Proof. intros a b c. apply str_le_trans. Qed.
#[export] Instance by_allowed_type_total : Total by_allowed_type.
Proof. intros a b. apply str_le_total. Qed.
#[export] Instance by_allowed_type_trans : Transitive by_allowed_type.
Proof. intros a b c. apply str_le_trans. Qed.
#[export] Instance by_discovery_then_type_total : Total by_discovery_then_type.
Proof.
  intros a b. unfold by_discovery_then_type.
  destruct (decide (at_zone_discovery_id a = at_zone_discovery_id b)) as [Heq|Hne].
  - destruct (by_allowed_type_total a b); [left|right]; right; by split.
  - destruct (str_le_total (at_zone_discovery_id a) (at_zone_discovery_id b));
      [left|right]; left; split; auto.
Qed.
#[export] Instance by_discovery_then_type_trans : Transitive by_discovery_then_type.
Proof.
  intros a b c. unfold by_discovery_then_type.
  intros [[Hab Hab']|[Hab Hab']] [[Hbc Hbc']|[Hbc Hbc']].
  - left. split; [|by etrans]. intros Hac. apply Hab. apply str_le_antisymm; [done|by rewrite Hac].
  - left. rewrite <- Hbc. by split.
  - left. rewrite Hab. by split.
  - right. split; [congruence|by etrans].
Qed.

Lemma StronglySorted_filter {A} (R : A -> A -> Prop) P `{!forall x : A, Decision (P x)} l :
  StronglySorted R l -> StronglySorted R (filter P l).
Proof.
  induction 1 as [|x l Hs IH Hall]; [constructor|]. rewrite filter_cons. case_decide; [|done].
  constructor; [done|]. rewrite Forall_forall in *. intros y [_ Hy]%list_elem_of_filter. auto.
Qed.

(** A [WHERE] commutes with the [ORDER BY] when the order separates the rows. *)
Lemma filter_merge_sort {A} (R : A -> A -> Prop) `{!RelDecision R, !Transitive R, !Total R} P
    `{!forall x : A, Decision (P x)} (l : list A) :
  (forall x y, x ∈ l -> y ∈ l -> P x -> P y -> R x y -> R y x -> x = y) ->
  filter P (merge_sort R l) = merge_sort R (filter P l).
Proof.
  intros Hanti. apply (StronglySorted_unique_strong R).
  - intros x y [Hpx Hx]%list_elem_of_filter Hy. rewrite merge_sort_Permutation in Hx, Hy.
    apply list_elem_of_filter in Hy as [Hpy Hy]. by apply Hanti.
  - apply StronglySorted_filter, StronglySorted_merge_sort; apply _.
  - apply StronglySorted_merge_sort; apply _.
  - by rewrite !merge_sort_Permutation.
Qed.

(** A table that is already in order is read in that order. *)
Lemma merge_sort_sorted {A} (R : A -> A -> Prop) `{!RelDecision R, !Transitive R, !Total R} l :
  (forall x y, x ∈ l -> y ∈ l -> R x y -> R y x -> x = y) ->
  StronglySorted R l -> merge_sort R l = l.
Proof.
  intros Hanti Hs. apply (StronglySorted_unique_strong R); [|apply StronglySorted_merge_sort; apply _|
    done|apply merge_sort_Permutation].
  intros x y Hx Hy. rewrite merge_sort_Permutation in Hx. by apply Hanti.
Qed.

Lemma NoDup_fmap_inj {A B} (f : A -> B) (l : list A) x y :
  NoDup (f <$> l) -> x ∈ l -> y ∈ l -> f x = f y -> x = y.
Proof.
  induction l as [|z l IH]; [by intros _ ?%not_elem_of_nil|]. rewrite fmap_cons, NoDup_cons.
  intros [Hz Hnd] [->|Hx]%elem_of_cons [->|Hy]%elem_of_cons Hf; auto; exfalso; apply Hz;
    [rewrite Hf|rewrite <- Hf]; by apply list_elem_of_fmap_2.
Qed.

(** ** Rows attached to their owners *)

Lemma fmap_id_on {A} (f : A -> A) (l : list A) : (forall x, x ∈ l -> f x = x) -> f <$> l = l.
Proof.
  induction l as [|x l IH]; intros Hf; [done|]. rewrite fmap_cons, Hf, IH; [done| |left].
  intros y Hy. apply Hf. by right.
Qed.

Lemma push_first_map {A} (id_of : A -> rstr) k (f : A -> A) xs : NoDup (id_of <$> xs) ->
  push_first (fun x => str_eqb (id_of x) k) f xs
  = (fun x => if str_eqb (id_of x) k then f x else x) <$> xs.
Proof.
  induction xs as [|x xs IH]; [done|]. rewrite fmap_cons, NoDup_cons. intros [Hx Hnd]. simpl.
  destruct (str_eqb_spec (id_of x) k) as [<-|Hne]; [|by rewrite IH].
  f_equal. symmetry. apply (fmap_id_on (fun y => if str_eqb (id_of y) (id_of x) then f y else y)). intros y Hy.
  destruct (str_eqb_spec (id_of y) (id_of x)) as [Heq|]; [|done].
  exfalso. apply Hx. rewrite <- Heq. by apply list_elem_of_fmap_2.
Qed.

Lemma foldl_push_first {A B} (id_of : A -> rstr) (ref : B -> rstr) (push : B -> A -> A) ys xs :
  (forall y x, id_of (push y x) = id_of x) -> NoDup (id_of <$> xs) ->
  foldl (fun xs y => push_first (fun x => str_eqb (id_of x) (ref y)) (push y) xs) xs ys
  = (fun x => foldl (fun x y => push y x) x (filter (fun y => ref y = id_of x) ys)) <$> xs.
Proof.
  intros Hpush. revert xs. induction ys as [|y ys IH]; intros xs Hnd; simpl.
  { symmetry. by apply fmap_id_on. }
  rewrite push_first_map by done. rewrite IH.
  - rewrite <- list_fmap_compose. apply list_fmap_ext. intros i x _. unfold compose.
    rewrite filter_cons. destruct (str_eqb_spec (id_of x) (ref y)) as [Heq|Hne].
    + rewrite decide_True by done. simpl. by rewrite Hpush.
    + by rewrite decide_False by done.
  - rewrite update_keeps; [done|]. intros x. by destruct (str_eqb _ _).
Qed.

Lemma attach_servers_exact rows servers : NoDup (zw_id <$> rows) ->
  attach_servers ((fun row => zone_of_row row []) <$> rows) servers
  = (fun row => zone_of_row row (filter (fun s => zsr_zone_id s = zw_id row) servers)) <$> rows.
Proof.
  intros Hnd. unfold attach_servers. rewrite (foldl_push_first zr_id zsr_zone_id push_server); [|done|].
  2: { by rewrite <- list_fmap_compose. }
  rewrite <- list_fmap_compose. apply list_fmap_ext. intros i row _. unfold compose. simpl.
  assert (forall ss acc, foldl (fun z s => push_server s z) (zone_of_row row acc) ss
                         = zone_of_row row (acc ++ ss)) as Hfold.
  { induction ss as [|s ss IH]; intros acc; simpl; [by rewrite app_nil_r|].
    etrans; [apply (IH (acc ++ [s]))|]. by rewrite <- app_assoc. }
  apply Hfold.
Qed.

Lemma attach_types_exact rows types : NoDup (dw_id <$> rows) ->
  attach_types ((fun row => discovery_of_row row []) <$> rows) types
  = (fun row => discovery_of_row row
                  (at_allowed_type <$> filter (fun t => at_zone_discovery_id t = dw_id row) types))
    <$> rows.
Proof.
  intros Hnd. unfold attach_types.
  rewrite (foldl_push_first zdr_id at_zone_discovery_id (fun t => push_type (at_allowed_type t)));
    [|done|by rewrite <- list_fmap_compose].
  rewrite <- list_fmap_compose. apply list_fmap_ext. intros i row _. unfold compose. simpl.
  assert (forall ts acc, foldl (fun r t => push_type (at_allowed_type t) r) (discovery_of_row row acc) ts
                         = discovery_of_row row (acc ++ (at_allowed_type <$> ts))) as Hfold.
  { induction ts as [|t ts IH]; intros acc; simpl; [by rewrite app_nil_r|].
    etrans; [apply (IH (acc ++ [at_allowed_type t]))|]. by rewrite <- app_assoc. }
  apply Hfold.
Qed.

(** ** A database in working order

    No statement fails for a reason outside the schema, no other task writes between
    two statements, and identifiers are fresh. *)

Definition all_ids (d : Database) : list rstr :=
  (flr_id <$> t_filter_lists d) ++ (br_id <$> t_bootstrap_resolvers d)
  ++ (usr_id <$> t_upstream_servers d) ++ (zw_id <$> t_zones d) ++ (zsr_id <$> t_zone_servers d)
  ++ (dw_id <$> t_zone_discovery d) ++ (at_id <$> t_allowed_types d).

Class QuietDb {W : Type} (db : Cell W Database) (outside : DbOutside W) : Prop := {
  quiet_cell :: CellLaws db;
  quiet_fault : forall w, db_fault outside w = (None, w);
  quiet_v4_keeps : forall w, cget db (snd (new_v4 outside w)) = cget db w;
  quiet_v4_fresh : forall w, fst (new_v4 outside w) ∉ all_ids (cget db w)
}.

Section quiet.
Context {W : Type} (db : Cell W Database) (outside : DbOutside W) `{!QuietDb db outside}.

Lemma execute_quiet context s w :
  execute db outside context s w
  = match run_statement s (cget db w) with
    | Ok d' => (Ok tt, cput db d' w)
    | Err c => (Err [context; db_message outside c], w)
    end.
Proof. unfold execute, mbind. rewrite quiet_fault. unfold cread. by destruct (run_statement _ _). Qed.

Lemma fetch_quiet {A} context (q : Database -> A) w :
  fetch db outside context q w = (Ok (q (cget db w)), w).
Proof. unfold fetch, mbind. by rewrite quiet_fault. Qed.

(** The reads, as functions of the tables. *)
Lemma zone_get_all_quiet w : schema_ok (cget db w) ->
  zone_get_all_with_servers db outside w
  = (Ok ((fun row => zone_of_row row (merge_sort by_zone_server_order
            (filter (fun s => zsr_zone_id s = zw_id row) (t_zone_servers (cget db w)))))
         <$> merge_sort by_zone (t_zones (cget db w))), w).
Proof.
  intros Hok. unfold zone_get_all_with_servers, tbind. rewrite !fetch_quiet. unfold mret.
  rewrite attach_servers_exact. 2: { rewrite merge_sort_Permutation. apply Hok. }
  do 2 f_equal. apply list_fmap_ext. intros i row _. f_equal. apply filter_merge_sort; [apply _..|].
  intros x y Hx Hy _ _ Hxy Hyx. eapply (NoDup_fmap_inj zsr_id); [apply Hok|done..|].
  by apply (order_then_id_antisymm zsr_sort_order zsr_id).
Qed.

Lemma zone_get_by_zone_quiet name w :
  zone_get_by_zone db outside name w
  = (Ok ((fun row => zone_of_row row (merge_sort by_zone_server_order
            (filter (fun s => zsr_zone_id s = zw_id row) (t_zone_servers (cget db w)))))
         <$> select_one zw_zone name (t_zones (cget db w))), w).
Proof.
  unfold zone_get_by_zone, tbind. rewrite fetch_quiet.
  destruct (select_one _ _ _); [|done]. by rewrite fetch_quiet.
Qed.

Lemma discovery_get_all_quiet w : schema_ok (cget db w) ->
  discovery_get_all db outside w
  = (Ok ((fun row => discovery_of_row row (at_allowed_type <$> merge_sort by_allowed_type
            (filter (fun t => at_zone_discovery_id t = dw_id row) (t_allowed_types (cget db w)))))
         <$> merge_sort by_discovery_id (t_zone_discovery (cget db w))), w).
Proof.
  intros Hok. unfold discovery_get_all, tbind. rewrite !fetch_quiet. unfold mret.
  rewrite attach_types_exact. 2: { rewrite merge_sort_Permutation. apply Hok. }
  do 2 f_equal. apply list_fmap_ext. intros i row _. do 2 f_equal.
  set (l := t_allowed_types (cget db w)).
  assert (forall x y, x ∈ l -> y ∈ l -> at_zone_discovery_id x = at_zone_discovery_id y ->
    by_allowed_type x y -> by_allowed_type y x -> x = y) as Hanti.
  { intros x y Hx Hy Hd Hxy Hyx.
    eapply (NoDup_fmap_inj (fun t => (at_zone_discovery_id t, at_allowed_type t))); [apply Hok|done..|].
    f_equal; [done|]. by apply str_le_antisymm. }
  apply (StronglySorted_unique_strong by_allowed_type).
  - intros x y [Hpx Hx]%list_elem_of_filter Hy. rewrite merge_sort_Permutation in Hx, Hy.
    apply list_elem_of_filter in Hy as [Hpy Hy]. apply Hanti; congruence.
  - assert (StronglySorted by_discovery_then_type (merge_sort by_discovery_then_type l)) as Hs
      by (apply StronglySorted_merge_sort; apply _).
    induction Hs as [|x xs Hs IH Hall]; [constructor|]. rewrite filter_cons. case_decide as Hx; [|done].
    constructor; [done|]. rewrite Forall_forall in *. intros y [Hy Hyin]%list_elem_of_filter.
    destruct (Hall _ Hyin) as [[Hne _]|[_ Hle]]; [congruence|done].
  - apply StronglySorted_merge_sort; apply _.
  - by rewrite !merge_sort_Permutation.
Qed.

Lemma discovery_get_by_id_quiet id w :
  discovery_get_by_id db outside id w
  = (Ok ((fun row => discovery_of_row row (at_allowed_type <$> merge_sort by_allowed_type
            (filter (fun t => at_zone_discovery_id t = dw_id row) (t_allowed_types (cget db w)))))
         <$> select_one dw_id id (t_zone_discovery (cget db w))), w).
Proof.
  unfold discovery_get_by_id, tbind. rewrite fetch_quiet.
  destruct (select_one _ _ _) as [row|] eqn:Hs; [|done]. rewrite fetch_quiet. unfold mret. simpl.
  unfold select_one in Hs. apply head_Some_elem_of in Hs.
  apply list_elem_of_filter in Hs as [-> _]. done.
Qed.

(** Looking a record up by its key is searching the full listing. *)
Lemma select_one_listing {A B} (key_of : A -> rstr) (f : A -> B) (key_of' : B -> rstr)
    (R : A -> A -> Prop) `{!RelDecision R} k (t : list A) :
  (forall x, key_of' (f x) = key_of x) -> NoDup (key_of <$> t) ->
  f <$> select_one key_of k t = select_one key_of' k (f <$> merge_sort R t).
Proof.
  intros Hkey Hnd.
  assert (NoDup (key_of' <$> (f <$> merge_sort R t))) as Hnd'.
  { rewrite <- list_fmap_compose. replace (key_of' ∘ f <$> merge_sort R t)
      with (key_of <$> merge_sort R t); [by rewrite merge_sort_Permutation|].
    apply list_fmap_ext. intros i x _. symmetry. apply Hkey. }
  apply option_eq. intros b. rewrite (select_one_Some _ _ _ _ Hnd'). rewrite fmap_Some. split.
  - intros (a & Ha & ->). apply (select_one_Some _ _ _ _ Hnd) in Ha as [Ha <-].
    split; [|apply Hkey]. apply list_elem_of_fmap_2. by rewrite merge_sort_Permutation.
  - intros [(a & -> & Ha)%list_elem_of_fmap Hk]. exists a. split; [|done].
    rewrite merge_sort_Permutation in Ha. apply (select_one_Some _ _ _ _ Hnd).
    split; [done|]. by rewrite <- Hkey.
Qed.

(** The two ways of reading zones agree: the full listing, which attaches servers
    to zones in one pass, contains under each name exactly what the look-up by name
    returns, and likewise for discovery entries and their types. *)
Theorem listing_agrees_with_lookup (w : W) :
  schema_ok (cget db w) ->
  (exists zones, zone_get_all_with_servers db outside w = (Ok zones, w)
     /\ forall name, zone_get_by_zone db outside name w = (Ok (select_one zr_zone name zones), w))
  /\ (exists records, discovery_get_all db outside w = (Ok records, w)
     /\ forall id, discovery_get_by_id db outside id w = (Ok (select_one zdr_id id records), w)).
Proof.
  intros Hok. split.
  - eexists. split; [by apply zone_get_all_quiet|]. intros name. rewrite zone_get_by_zone_quiet.
    do 2 f_equal. apply select_one_listing; [done|apply Hok].
  - eexists. split; [by apply discovery_get_all_quiet|]. intros id. rewrite discovery_get_by_id_quiet.
    do 2 f_equal. apply select_one_listing; [done|apply Hok].
Qed.

(** The document store satisfies what the filter engine expects of it. *)
Lemma cache_load_after_store key v w w' :
  fcr_store (sqlx_filter_cache db outside) key v w = (Ok tt, w') ->
  exists w'', fcr_load (sqlx_filter_cache db outside) key w' = (Ok (Some v), w'').
Proof.
  simpl. unfold filter_cache_store, filter_cache_load, tbind. rewrite execute_quiet. simpl.
  intros [= <-]. rewrite fetch_quiet. eexists. unfold mret. do 3 f_equal.
  destruct quiet_cell as [Hgp _ _]. rewrite Hgp. simpl.
  generalize (t_filter_cache_documents (cget db w)) as t. intros t. unfold upsert_document.
  set (r := {| fcd_key := key; fcd_value := v |}).
  assert (forall t', (exists x, x ∈ t' /\ fcd_key x = key) -> (forall x, x ∈ t' -> fcd_key x = key -> x = r) ->
    fcd_value <$> select_one fcd_key key t' = Some v) as Hsel.
  { intros t' (x & Hx & Hk) Hall. destruct (select_one fcd_key key t') as [y|] eqn:Hy.
    - apply head_Some_elem_of, list_elem_of_filter in Hy as [Hky Hy]. by rewrite (Hall _ Hy Hky).
    - apply select_one_None in Hy. destruct Hy. rewrite <- Hk. by apply list_elem_of_fmap_2. }
  apply Hsel; simpl; destruct (existsb _ t) eqn:He.
  - apply existsb_exists in He as (x & Hx & Hk). apply list_elem_of_In in Hx. exists r. split; [|done].
    apply list_elem_of_fmap. exists x. by rewrite Hk.
  - exists r. split; [|done]. apply elem_of_app. right. by apply list_elem_of_singleton.
  - intros x (y & -> & Hy)%list_elem_of_fmap. destruct (str_eqb_spec (fcd_key y) key); [done|by intros].
  - intros x [Hx|Hx%list_elem_of_singleton]%elem_of_app Hk; [|done].
    assert (existsb (fun y => str_eqb (fcd_key y) key) t = true); [|congruence].
    apply existsb_exists. exists x. rewrite <- list_elem_of_In. split; [done|].
    rewrite Hk. apply str_eqb_refl.
Qed.
End quiet.

(** ** Operations that keep the schema

    Whatever faults occur and whatever the other tasks do, as long as they keep it. *)

Section keeps.
Context {W : Type} (db : Cell W Database) (outside : DbOutside W).
Context `{!CellLaws db}.

Definition keeps_schema {A} (m : M W A) : Prop :=
  forall w, schema_ok (cget db w) -> schema_ok (cget db (snd (m w))).

Lemma schema_mret {A} (a : A) : keeps_schema (mret a).
Proof. by intros w. Qed.
Lemma schema_mlift {A E} (r : result A E) : keeps_schema (mlift r).
Proof. by intros w. Qed.
Lemma schema_mbind {A B} (m : M W A) (k : A -> M W B) :
  keeps_schema m -> (forall a, keeps_schema (k a)) -> keeps_schema (mbind m k).
Proof.
  intros Hm Hk w Hw. unfold mbind. specialize (Hm w Hw). destruct (m w) as [a w']. by apply Hk.
Qed.
Lemma schema_tbind {A B E} (m : M W (result A E)) (k : A -> M W (result B E)) :
  keeps_schema m -> (forall a, keeps_schema (k a)) -> keeps_schema (tbind m k).
Proof.
  intros Hm Hk w Hw. unfold tbind. specialize (Hm w Hw). destruct (m w) as [[a|e] w']; [by apply Hk|done].
Qed.
Lemma schema_mmap_err {A E F} (f : E -> F) (m : M W (result A E)) :
  keeps_schema m -> keeps_schema (mmap_err f m).
Proof. intros Hm w Hw. unfold mmap_err. specialize (Hm w Hw). by destruct (m w). Qed.
Lemma schema_for_each {A E} (body : A -> M W (result unit E)) l :
  (forall a, keeps_schema (body a)) -> keeps_schema (for_each body l).
Proof.
  intros Hb. induction l as [|a l IH]; [apply schema_mret|]. simpl. by apply schema_tbind.
Qed.
Lemma keeps_map_each {A B E} (body : A -> M W (result B E)) l :
  (forall a, keeps_schema (body a)) -> keeps_schema (map_each body l).
Proof.
  intros Hb. induction l as [|a l IH]; [apply schema_mret|]. simpl.
  apply schema_tbind; [done|]. intros b. apply schema_tbind; [done|]. intros bs. apply schema_mret.
Qed.
Lemma keeps_execute context s : keeps_schema (db_fault outside) -> keeps_schema (execute db outside context s).
Proof.
  intros Hf. apply schema_mbind; [done|]. intros [e|]; [apply schema_mret|]. intros w Hw.
  unfold mbind, cread. destruct (run_statement s (cget db w)) as [d|] eqn:Hs; simpl; [|done].
  rewrite cget_cput. by eapply run_statement_schema.
Qed.
Lemma keeps_fetch {A} context (q : Database -> A) :
  keeps_schema (db_fault outside) -> keeps_schema (fetch db outside context q).
Proof. intros Hf. apply schema_mbind; [done|]. by intros [e|] w. Qed.
End keeps.

(** Follows the structure of an operation down to its statements. *)
Ltac keeps_step :=
  first [ eassumption | apply schema_mret | apply schema_mlift | apply keeps_fetch; [eassumption|..]
        | apply keeps_execute; [eassumption|..] | apply schema_mmap_err | apply schema_for_each
        | apply keeps_map_each | apply schema_tbind | apply schema_mbind
        | match goal with |- keeps_schema _ (match ?x with _ => _ end) => destruct x end ].
Ltac keeps := repeat (intros; cbv zeta; keeps_step).

(** ** Loops that insert rows

    The code inserts a list of items one statement at a time, each with a fresh
    identifier, and stops at the first failure.  [acc] is what the schema asks of an
    item, given the keys already in the table. *)

Section accepted.
Context {B K : Type} (acc : list K -> B -> bool) (key : B -> K).
Fixpoint accepted_prefix (ks : list K) (items : list B) : list B :=
  match items with
  | [] => []
  | b :: rest => if acc ks b then b :: accepted_prefix (ks ++ [key b]) rest else []
  end.
End accepted.

Definition unique_in {K : Type} `{EqDecision K} {B : Type} (key : B -> K) (ks : list K) (b : B) : bool :=
  bool_decide (key b ∉ ks).

Section accepted_facts.
Context {B K : Type} `{EqDecision K} (key : B -> K).

Lemma accepted_prefix_unique ks items :
  NoDup (ks ++ (key <$> items)) -> accepted_prefix (unique_in key) key ks items = items.
Proof.
  revert ks. induction items as [|b items IH]; intros ks; [done|]. simpl. intros Hnd.
  unfold unique_in at 1. rewrite bool_decide_true.
  - f_equal. apply IH. by rewrite <- app_assoc.
  - apply NoDup_app in Hnd as (_ & Hdis & _). intros Hin. apply (Hdis _ Hin). by left.
Qed.

Lemma accepted_prefix_all ks items : accepted_prefix (fun _ _ => true) key ks items = items.
Proof. revert ks. induction items as [|b items IH]; intros ks; [done|]. simpl. by rewrite IH. Qed.

Lemma accepted_prefix_NoDup ks items :
  NoDup ks -> NoDup (ks ++ (key <$> accepted_prefix (unique_in key) key ks items)).
Proof.
  revert ks. induction items as [|b items IH]; intros ks Hks; simpl; [by rewrite app_nil_r|].
  unfold unique_in at 1. case_bool_decide as Hb; simpl; [|by rewrite app_nil_r].
  specialize (IH (ks ++ [key b])). rewrite <- app_assoc in IH. apply IH.
  apply NoDup_app. split_and!; [done| |apply NoDup_singleton].
  intros k Hk ->%list_elem_of_singleton. done.
Qed.
End accepted_facts.

Section insert_loop.
Context {W : Type} (db : Cell W Database) (outside : DbOutside W) `{!QuietDb db outside}.
Context {A B K : Type} (tab : Database -> list A) (put : Database -> list A -> Database).
Context (ins : A -> Statement) (mk : rstr -> B -> A) (key_of : A -> K) (key : B -> K).
Context (acc : list K -> B -> bool) (good : Database -> Prop).
Context (tab_put : forall d t, tab (put d t) = t) (put_put : forall d t t', put (put d t) t' = put d t').
Context (put_tab : forall d, put d (tab d) = d) (good_put : forall d t, good d -> good (put d t)).
Context (key_mk : forall id b, key_of (mk id b) = key b).
Context (Hrun : forall d id b, good d -> id ∉ all_ids d ->
  if acc (key_of <$> tab d) b
  then run_statement (ins (mk id b)) d = Ok (put d (tab d ++ [mk id b]))
  else exists c, run_statement (ins (mk id b)) d = Err c).

(** A round of the loop: draw an identifier, run the statement. *)
Definition inserting (body : B -> M W (result unit Error)) : Prop :=
  forall b w, match run_statement (ins (mk (fst (new_v4 outside w)) b)) (cget db w) with
              | Ok d' => body b w = (Ok tt, cput db d' (snd (new_v4 outside w)))
              | Err c => exists e, body b w = (Err e, snd (new_v4 outside w))
              end.

Lemma insert_loop body items w : inserting body -> good (cget db w) ->
  exists ids res w', for_each body items w = (res, w')
    /\ length ids = length (accepted_prefix acc key (key_of <$> tab (cget db w)) items)
    /\ cget db w' = put (cget db w) (tab (cget db w)
         ++ zip_with mk ids (accepted_prefix acc key (key_of <$> tab (cget db w)) items))
    /\ (is_ok res = true <-> accepted_prefix acc key (key_of <$> tab (cget db w)) items = items).
Proof.
  intros Hbody. revert w. induction items as [|b items IH]; intros w Hgood; simpl.
  { exists [], (Ok tt), w. split_and!; [done|done| |done]. simpl. by rewrite app_nil_r, put_tab. }
  pose proof (Hrun _ (fst (new_v4 outside w)) b Hgood (quiet_v4_fresh w)) as Hr.
  specialize (Hbody b w). unfold tbind. destruct (acc _ b) eqn:Hacc.
  - rewrite Hr in Hbody. rewrite Hbody.
    edestruct (IH (cput db (put (cget db w) (tab (cget db w) ++ [mk (fst (new_v4 outside w)) b]))
                     (snd (new_v4 outside w)))) as (ids & res & w' & Hf & Hlen & Hd & Hok).
    { rewrite cget_cput. by apply good_put. }
    rewrite cget_cput, tab_put, fmap_app in Hlen, Hd, Hok. simpl in Hlen, Hd, Hok.
    rewrite key_mk in Hlen, Hd, Hok.
    exists (fst (new_v4 outside w) :: ids), res, w'. split_and!; [done|simpl; by rewrite Hlen| |].
    + rewrite Hd, put_put. simpl. by rewrite <- app_assoc.
    + rewrite Hok. split; [by intros ->|by intros [= ->]].
  - destruct Hr as [c Hr]. rewrite Hr in Hbody. destruct Hbody as [e ->].
    exists [], (Err e), (snd (new_v4 outside w)). split_and!; [done|done| |done].
    simpl. by rewrite app_nil_r, put_tab, quiet_v4_keeps.
Qed.
End insert_loop.

(** ** Rows numbered by the loop *)

Lemma accepted_prefix_prefix {B K} (acc : list K -> B -> bool) key ks items :
  accepted_prefix acc key ks items `prefix_of` items.
Proof.
  revert ks. induction items as [|b items IH]; intros ks; simpl; [done|].
  destruct (acc ks b); [|apply prefix_nil]. by apply prefix_cons.
Qed.

Lemma accepted_prefix_fmap {A B K} (f : A -> B) (acc : list K -> B -> bool) (key : B -> K) ks items :
  f <$> accepted_prefix (fun ks a => acc ks (f a)) (fun a => key (f a)) ks items
  = accepted_prefix acc key ks (f <$> items).
Proof.
  revert ks. induction items as [|a items IH]; intros ks; simpl; [done|].
  destruct (acc ks (f a)); [|done]. rewrite fmap_cons. by rewrite IH.
Qed.

Definition numbered_below {A} (n : nat) (items : list (nat * A)) : Prop :=
  StronglySorted (fun a b => a.1 < b.1) items /\ Forall (fun a => a.1 < n) items.

Lemma enumerate_snd {A} (l : list A) : snd <$> enumerate l = l.
Proof.
  unfold enumerate. rewrite fmap_imap. simpl. induction l as [|x l IH]; [done|]. simpl. f_equal. apply IH.
Qed.

Lemma length_enumerate {A} (l : list A) : length (enumerate l) = length l.
Proof. apply length_imap. Qed.

Lemma enumerate_numbered {A} (l : list A) : numbered_below (length l) (enumerate l).
Proof.
  assert (forall k, StronglySorted (fun a b : nat * A => a.1 < b.1) (imap (fun i x => (k + i, x)) l)
    /\ Forall (fun a : nat * A => k <= a.1 < k + length l) (imap (fun i x => (k + i, x)) l)) as H.
  { induction l as [|x l IH]; intros k; simpl; [split; constructor|].
    destruct (IH (S k)) as [Hs Hb].
    assert (imap ((fun i (x : A) => (k + i, x)) ∘ S) l = imap (fun i x => (S k + i, x)) l) as ->.
    { apply imap_ext. intros i y _. unfold compose. f_equal. lia. }
    split; constructor; simpl; try done; try lia; (eapply Forall_impl; [exact Hb|]); simpl; intros; lia. }
  destruct (H 0) as [Hs Hb]. split; [done|]. eapply Forall_impl; [exact Hb|]. simpl. lia.
Qed.

Lemma numbered_prefix {A} n (l k : list (nat * A)) :
  k `prefix_of` l -> numbered_below n l -> numbered_below n k.
Proof.
  intros [m ->] [Hs Hb]. apply strongly_sorted_app in Hs as [Hs _].
  apply Forall_app in Hb as [Hb _]. by split.
Qed.

Lemma as_i32_nat (n : nat) : (Z.of_nat n < 2 ^ 31)%Z -> as_i32 (Z.of_nat n) = Z.of_nat n.
Proof. intros H. unfold as_i32. rewrite Z.mod_small; lia. Qed.

Lemma elem_of_zip_with_r {A B C} (f : A -> B -> C) ids items y :
  y ∈ zip_with f ids items -> exists a b, y = f a b /\ b ∈ items.
Proof.
  revert ids. induction items as [|b items IH]; intros [|a ids]; simpl;
    [by intros ?%not_elem_of_nil..|].
  intros [->|Hy]%elem_of_cons; [exists a, b; split; [done|left]|].
  apply IH in Hy as (a' & b' & -> & Hb). exists a', b'. split; [done|by right].
Qed.

(** Rows inserted with the loop index as their order are read back in that order. *)
Lemma numbered_rows_sorted {A B} (order_of : A -> Z) (id_of : A -> rstr) (mk : rstr -> nat * B -> A)
    n ids items :
  (Z.of_nat n <= 2 ^ 31)%Z -> (forall id b, order_of (mk id b) = as_i32 (Z.of_nat b.1)) ->
  numbered_below n items ->
  merge_sort (order_then_id order_of id_of) (zip_with mk ids items) = zip_with mk ids items.
Proof.
  intros Hn Hord [Hs Hb].
  assert (StronglySorted (fun a b => (order_of a < order_of b)%Z) (zip_with mk ids items)) as Hss.
  { revert ids Hb. induction Hs as [|x items Hs IH Hall]; intros [|id ids] Hb; try constructor;
      apply Forall_cons in Hb as [Hx Hb]; [by apply IH|].
    apply Forall_forall. intros y Hy.
    apply elem_of_zip_with_r in Hy as (a & z & -> & Hz).
    rewrite Forall_forall in Hall, Hb. specialize (Hall _ Hz). specialize (Hb _ Hz). simpl in *.
    rewrite !Hord, !as_i32_nat; lia. }
  apply merge_sort_sorted; [apply _..| |].
  - intros x y Hx Hy Hxy Hyx. unfold order_then_id in *. revert Hx Hy.
    assert (order_of x = order_of y) as Heq by lia.
    induction Hss as [|z l Hss IH Hall]; [by intros ?%not_elem_of_nil|]. rewrite Forall_forall in Hall.
    intros [->|Hx]%elem_of_cons [->|Hy]%elem_of_cons; auto.
    + apply Hall in Hy. lia.
    + apply Hall in Hx. lia.
  - eapply strongly_sorted_impl; [|exact Hss]. intros x y ?. by left.
Qed.

Lemma fmap_zip_with_item {A B C D} (f : A -> B -> C) (g : C -> D) (h : B -> D) ids (items : list B) :
  (forall a b, g (f a b) = h b) -> length ids = length items ->
  g <$> zip_with f ids items = h <$> items.
Proof.
  intros Hg. revert ids. induction items as [|b items IH]; intros [|a ids] Hl; try done.
  simpl in *. rewrite Hg. f_equal. apply IH. lia.
Qed.

(** The addresses up to the first one that was there before. *)
Definition distinct_prefix (l : list rstr) : list rstr := accepted_prefix (unique_in id) id [] l.

Lemma distinct_prefix_all l : distinct_prefix l = l <-> NoDup l.
Proof.
  split.
  - intros <-. unfold distinct_prefix.
    pose proof (accepted_prefix_NoDup id [] l (NoDup_nil_2)) as H. simpl in H.
    by rewrite list_fmap_id in H.
  - intros H. apply accepted_prefix_unique. simpl. by rewrite list_fmap_id.
Qed.

Section upstream_facts.
Context {W : Type} (db : Cell W Database) (outside : DbOutside W) `{!QuietDb db outside}.

Lemma not_in_ids {A} (id_of : A -> rstr) (t : list A) id d :
  id ∉ all_ids d -> (id_of <$> t) ⊆ all_ids d -> Forall (fun x => id_of x <> id) t.
Proof.
  intros Hid Hsub. apply Forall_forall. intros x Hx <-. apply Hid, Hsub. by apply list_elem_of_fmap_2.
Qed.

Lemma insert_row_accepts {A K} `{EqDecision K} (clash : A -> A -> bool) (id_of : A -> rstr)
    (key_of : A -> K) (r : A) (t : list A) :
  (forall x, clash r x = str_eqb (id_of r) (id_of x) || bool_decide (key_of r = key_of x)) ->
  Forall (fun x => id_of x <> id_of r) t ->
  insert_row clash r t = if bool_decide (key_of r ∉ key_of <$> t) then Ok (t ++ [r]) else Err UniqueViolation.
Proof.
  intros Hc Hid. unfold insert_row.
  assert (existsb (clash r) t = negb (bool_decide (key_of r ∉ key_of <$> t))) as ->;
    [|by destruct (bool_decide _)].
  apply eq_true_iff_eq. rewrite existsb_exists, negb_true_iff, bool_decide_eq_false. split.
  - intros (x & Hx%list_elem_of_In & Hcl) Hn. rewrite Hc in Hcl. rewrite Forall_forall in Hid.
    apply orb_true_iff in Hcl as [Hcl|Hcl].
    + destruct (str_eqb_spec (id_of r) (id_of x)) as [Heq|]; [|done]. by apply (Hid x Hx).
    + apply bool_decide_eq_true in Hcl. apply Hn. rewrite Hcl. by apply list_elem_of_fmap_2.
  - intros Hn. destruct (decide (key_of r ∈ key_of <$> t)) as [Hin|Hin]; [|done].
    apply list_elem_of_fmap in Hin as (x & Hk & Hx). exists x. rewrite <- list_elem_of_In. split; [done|].
    rewrite Hc, bool_decide_true by done. by rewrite orb_true_r.
Qed.

Definition resolver_row (r : ResolverConfigRecord) : ResolverConfigRow :=
  {| rcw_strategy := rcr_strategy r; rcw_dns_cache_enabled := rcr_dns_cache_enabled r;
     rcw_dns_cache_min_ttl_seconds := rcr_dns_cache_min_ttl_seconds r;
     rcw_dns_cache_max_ttl_seconds := rcr_dns_cache_max_ttl_seconds r |}.

Lemma resolver_config_update_rows (r : ResolverConfigRecord) (w : W) :
  (Z.of_nat (length (rcr_bootstrap_resolvers r)) <= 2 ^ 31)%Z ->
  exists rows res w', upstream_update_resolver_config db outside r w = (res, w')
    /\ (is_ok res = true <-> NoDup (rcr_bootstrap_resolvers r))
    /\ cget db w' = with_bootstrap_resolvers (with_resolver_config (cget db w) (resolver_row r)) rows
    /\ br_address <$> merge_sort by_bootstrap_order rows = distinct_prefix (rcr_bootstrap_resolvers r).
Proof.
  intros Hlen. unfold upstream_update_resolver_config, tbind at 1. rewrite execute_quiet by done.
  simpl. unfold tbind at 1. rewrite execute_quiet by done. simpl. rewrite cget_cput.
  set (l := rcr_bootstrap_resolvers r).
  set (d := with_bootstrap_resolvers _ []).
  edestruct (insert_loop db outside t_bootstrap_resolvers with_bootstrap_resolvers
    InsertBootstrapResolver (fun id b => {| br_id := id; br_address := b.2;
                                            br_sort_order := as_i32 (Z.of_nat b.1) |})
    br_address snd (unique_in snd) (fun _ => True))
    with (body := insert_bootstrap db outside) (items := enumerate l)
      (w := cput db d (cput db (with_resolver_config (cget db w) (resolver_row r)) w))
    as (ids & res & w' & Hf & Hl & Hd & Hok); [done|done|by intros []|done|done| | |done|].
  - intros d0 id b _ Hid. simpl.
    rewrite (insert_row_accepts _ br_id br_address); [|done|].
    + simpl. unfold unique_in. destruct (bool_decide _); [done|]. by eexists.
    + apply (not_in_ids _ _ id d0); [done|]. unfold all_ids. set_solver.
  - intros [i a] w0. unfold insert_bootstrap, mbind.
    pose proof (quiet_v4_keeps (outside := outside) w0) as Hk.
    destruct (new_v4 outside w0) as [id w1]. simpl in *. rewrite execute_quiet by done. simpl. rewrite Hk.
    destruct (insert_row _ _ _); [done|]. by eexists.
  - rewrite cget_cput in Hl, Hd, Hok. simpl in Hl, Hd, Hok.
    exists (zip_with (fun id b => {| br_id := id; br_address := b.2;
                                     br_sort_order := as_i32 (Z.of_nat b.1) |}) ids
              (accepted_prefix (unique_in snd) snd [] (enumerate l))), res, w'.
    split; [done|].
    assert (snd <$> accepted_prefix (unique_in snd) snd [] (enumerate l) = distinct_prefix l) as Hpre.
    { etrans; [apply (accepted_prefix_fmap snd (unique_in id) id)|]. by rewrite enumerate_snd. }
    split_and!; [|exact Hd|].
    + rewrite Hok, <- (distinct_prefix_all l), <- Hpre. split.
      * intros ->. apply enumerate_snd.
      * intros Heq. apply prefix_length_eq; [apply accepted_prefix_prefix|].
        rewrite <- (length_fmap snd (accepted_prefix _ _ _ _)), Heq. by rewrite length_enumerate.
    + fold l. rewrite <- Hpre. unfold by_bootstrap_order. erewrite numbered_rows_sorted.
      * by apply fmap_zip_with_item.
      * exact Hlen.
      * done.
      * eapply numbered_prefix; [apply accepted_prefix_prefix|]. apply enumerate_numbered.
Qed.

(** Updating the resolver settings stores what was asked, in the order asked: read
    back, the record is the one written whenever its bootstrap addresses are distinct.
    Otherwise the call fails after it has replaced the settings and kept the addresses up
    to the first repetition. *)
Theorem resolver_config_update_exact (r : ResolverConfigRecord) (w : W) :
  (Z.of_nat (length (rcr_bootstrap_resolvers r)) <= 2 ^ 31)%Z ->
  exists res w', upstream_update_resolver_config db outside r w = (res, w')
    /\ (is_ok res = true <-> NoDup (rcr_bootstrap_resolvers r))
    /\ upstream_get_resolver_config db outside w'
       = (Ok {| rcr_strategy := rcr_strategy r;
                rcr_bootstrap_resolvers := distinct_prefix (rcr_bootstrap_resolvers r);
                rcr_dns_cache_enabled := rcr_dns_cache_enabled r;
                rcr_dns_cache_min_ttl_seconds := rcr_dns_cache_min_ttl_seconds r;
                rcr_dns_cache_max_ttl_seconds := rcr_dns_cache_max_ttl_seconds r |}, w').
Proof.
  intros Hlen. destruct (resolver_config_update_rows r w Hlen) as (rows & res & w' & Hu & Hok & Hd & Hrows).
  exists res, w'. split_and!; [done|done|].
  unfold upstream_get_resolver_config, tbind. rewrite !fetch_quiet by done. unfold mret.
  rewrite Hd. simpl. by rewrite Hrows.
Qed.
End upstream_facts.

(** ** Witnesses *)

(** A world that is just the database; an identifier longer than all others is fresh. *)
Definition ex_db : Cell Database Database := {| cget := fun d => d; cput := fun d _ => d |}.
Definition ex_fresh_id (d : Database) : rstr :=
  replicate (S (max_list (length <$> all_ids d))) (ch "x").
Definition ex_db_outside : DbOutside Database :=
  {| db_fault := fun d => (None, d); db_message := fun _ => lit "constraint failed";
     new_v4 := fun d => (ex_fresh_id d, d) |}.

Lemma ex_fresh_id_fresh d : ex_fresh_id d ∉ all_ids d.
Proof.
  intros Hin. apply (list_elem_of_fmap_2 length) in Hin.
  apply max_list_elem_of_le in Hin. unfold ex_fresh_id in Hin. rewrite length_replicate in Hin. lia.
Qed.

#[export] Instance ex_db_quiet : QuietDb ex_db ex_db_outside.
Proof. split; [by split|done|done|]. intros d. apply ex_fresh_id_fresh. Qed.

Definition ex_zone_row : ZoneRow :=
  {| zw_id := lit "z1"; zw_zone := lit "corp.example"; zw_enabled := true; zw_bypass_filter := false;
     zw_fallback_to_default_resolvers := false; zw_strategy := None |}.

Lemma ex_step : rtc db_step (initial_database (lit "b1"))
  (with_zones (initial_database (lit "b1")) [ex_zone_row] []).
Proof. apply rtc_once. by exists (InsertZone ex_zone_row). Qed.

Lemma database_stays_consistent_witness :
  schema_ok (with_zones (initial_database (lit "b1")) [ex_zone_row] []).
Proof. exact (database_stays_consistent (lit "b1") _ ex_step). Defined.

Lemma ex_schema_ok : schema_ok (with_zones (initial_database (lit "b1")) [ex_zone_row] []).
Proof.
  constructor; simpl; repeat (constructor || apply not_elem_of_nil || apply NoDup_singleton).
Qed.

Lemma listing_agrees_with_lookup_witness :
  exists zones, zone_get_all_with_servers ex_db ex_db_outside
      (with_zones (initial_database (lit "b1")) [ex_zone_row] [])
    = (Ok zones, with_zones (initial_database (lit "b1")) [ex_zone_row] []).
Proof.
  destruct (listing_agrees_with_lookup ex_db ex_db_outside
    (with_zones (initial_database (lit "b1")) [ex_zone_row] []) ex_schema_ok) as [(zones & Hz & _) _].
  exists zones. exact Hz.
Defined.

Definition ex_resolver_record (bootstrap : list rstr) : ResolverConfigRecord :=
  {| rcr_strategy := lit "failover"; rcr_bootstrap_resolvers := bootstrap;
     rcr_dns_cache_enabled := true; rcr_dns_cache_min_ttl_seconds := None;
     rcr_dns_cache_max_ttl_seconds := Some 3600%Z |}.

Lemma resolver_config_update_exact_witness :
  exists res w', upstream_update_resolver_config ex_db ex_db_outside
      (ex_resolver_record [lit "9.9.9.9"; lit "1.1.1.1"]) (initial_database (lit "b1")) = (res, w')
    /\ (is_ok res = true <-> NoDup [lit "9.9.9.9"; lit "1.1.1.1"]).
Proof.
  destruct (resolver_config_update_exact ex_db ex_db_outside
    (ex_resolver_record [lit "9.9.9.9"; lit "1.1.1.1"]) (initial_database (lit "b1")))
    as (res & w' & Hu & Hok & _); [simpl; lia|]. exists res, w'. split; [exact Hu|exact Hok].
Defined.
