(* ===== verification/Schema.v ===== *)
(** * The configuration schema

    [frameworks/config/schema.rs]: the sections of the configuration, and what its
    hand-written [Deserialize] implementations make of the fields found in the file.  A
    raw section holds each field as the deserializer found it; a field with a
    [#[serde(default = "f")]] attribute is [f()] when absent.  The sections the other
    components read are declared with them ([FilterEngine], [ConfigBootstrap],
    [ChrootPaths]); [filter_config] and [path_config] are their views of the whole. *)

From S2P Require Import Prelude RustStr ChrootPaths FilterEngine ZoneRegistry ConfigBootstrap.

(** ** Listeners *)

Record TlsConfig : Type := {
  tls_cert_path : rstr; tls_key_path : rstr; tls_autogenerate : option bool
}.
Record SocketConfig : Type := { so_enabled : bool; so_addresses : list rstr; so_port : N }.
Record TlsSocketConfig : Type := {
  ts_enabled : bool; ts_addresses : list rstr; ts_port : N; ts_tls : TlsConfig
}.
Record MetricsConfig : Type := {
  mc_enabled : bool; mc_addresses : list rstr; mc_port : N; mc_tls : option TlsConfig
}.
Record AdminConfig : Type := {
  ad_enabled : bool; ad_addresses : list rstr; ad_port : N; ad_tls_port : N; ad_tls : option TlsConfig
}.
Record ListenConfig : Type := {
  lc_dns : option SocketConfig; lc_dot : option TlsSocketConfig; lc_doh : option TlsSocketConfig;
  lc_doq : option TlsSocketConfig; lc_admin : option AdminConfig; lc_metrics : option MetricsConfig
}.

(** [deserialize_addresses]: one string or a list of them. *)
Inductive OneOrMany : Type := One (s : rstr) | Many (v : list rstr).
Definition deserialize_addresses (v : OneOrMany) : list rstr :=
  match v with One s => [s] | Many v => v end.

Definition default_public_addresses : list rstr := [lit "0.0.0.0"; lit "::"].
Definition default_loopback_addresses : list rstr := [lit "127.0.0.1"; lit "::1"].
Definition default_admin_port : N := 80.
Definition default_admin_tls_port : N := 8443.

Definition missing_field (name : rstr) : rstr := lit "missing field `" ++ name ++ lit "`".

(** The fields of the four [*ConfigRaw] structs. *)
Record ListenerRaw : Type := {
  raw_enabled : bool; raw_addresses : option OneOrMany; raw_port : option N;
  raw_tls_port : option N; raw_tls : option TlsConfig
}.
Definition addresses_or (fallback : list rstr) (raw : ListenerRaw) : list rstr :=
  match raw_addresses raw with Some v => deserialize_addresses v | None => fallback end.

Definition socket_config (raw : ListenerRaw) : result SocketConfig rstr :=
  if raw_enabled raw then
    let? port := ok_or (raw_port raw) (missing_field (lit "port")) in
    Ok {| so_enabled := true; so_addresses := addresses_or default_public_addresses raw; so_port := port |}
  else Ok {| so_enabled := false; so_addresses := []; so_port := 0 |}.

Definition tls_socket_config (raw : ListenerRaw) : result TlsSocketConfig rstr :=
  if raw_enabled raw then
    let? port := ok_or (raw_port raw) (missing_field (lit "port")) in
    let? tls := ok_or (raw_tls raw) (missing_field (lit "tls")) in
    Ok {| ts_enabled := true; ts_addresses := addresses_or default_public_addresses raw;
          ts_port := port; ts_tls := tls |}
  else Ok {| ts_enabled := false; ts_addresses := []; ts_port := 0;
             ts_tls := {| tls_cert_path := []; tls_key_path := []; tls_autogenerate := None |} |}.

Definition metrics_config (raw : ListenerRaw) : result MetricsConfig rstr :=
  if raw_enabled raw then
    let? port := ok_or (raw_port raw) (missing_field (lit "port")) in
    Ok {| mc_enabled := true; mc_addresses := addresses_or default_loopback_addresses raw;
          mc_port := port; mc_tls := raw_tls raw |}
  else Ok {| mc_enabled := false; mc_addresses := []; mc_port := 0; mc_tls := None |}.

Definition admin_config (raw : ListenerRaw) : result AdminConfig rstr :=
  if raw_enabled raw then
    Ok {| ad_enabled := true; ad_addresses := addresses_or default_public_addresses raw;
          ad_port := default default_admin_port (raw_port raw);
          ad_tls_port := default default_admin_tls_port (raw_tls_port raw); ad_tls := raw_tls raw |}
  else Ok {| ad_enabled := false; ad_addresses := []; ad_port := 0; ad_tls_port := 0; ad_tls := None |}.

(** ** Named lists *)

Record NamedListEntry : Type := {
  ne_url : rstr; ne_interval : option rstr; ne_enabled : option bool; ne_list_type : option rstr
}.
(** The [Nested] map is a [BTreeMap]: its entries are sorted by name, without repetition. *)
Inductive NamedListRepr : Type :=
| Explicit (name : rstr) (entry : NamedListEntry)
| Nested (entries : list (rstr * NamedListEntry)).

Definition named_of (name : rstr) (e : NamedListEntry) : NamedList :=
  {| nl_name := name; nl_url := ne_url e; nl_interval := ne_interval e; nl_enabled := ne_enabled e;
     nl_list_type := ne_list_type e |}.

Definition named_list (repr : NamedListRepr) : result NamedList rstr :=
  match repr with
  | Explicit name entry => Ok (named_of name entry)
  | Nested [(name, entry)] => Ok (named_of name entry)
  | Nested _ => Err (lit "named list map must contain exactly one item")
  end.

(** ** The other sections *)

Record PluginConfig : Type := { pl_name : rstr; pl_path : rstr; pl_enabled : bool }.
Record ControlConfig : Type := { ct_socket_path : option rstr }.
Record DatabaseConfig : Type := { da_url : rstr }.
Record QueryLoggingConfig : Type := { ql_enabled : bool; ql_max_entries : nat }.
Record ApiConfig : Type := {
  api_enabled : bool; api_address : rstr; api_port : N; api_token : option rstr;
  api_query_logging : option QueryLoggingConfig; api_tls : option TlsConfig
}.
Record McpConfig : Type := {
  mcp_enabled : bool; mcp_addresses : list rstr; mcp_port : N; mcp_api_token : option rstr;
  mcp_sse_keep_alive : option N; mcp_stateful_mode : bool; mcp_json_response : bool;
  mcp_allowed_origins : list rstr; mcp_allowed_hosts : option (list rstr)
}.
Record SecurityConfig : Type := {
  se_user : option rstr; se_group : option rstr; se_chroot_dir : option rstr
}.
Record SyslogTlsConfig : Type := { st_ca_cert_path : option rstr; st_verify_hostname : option bool }.
Record SyslogConfig : Type := {
  sl_enabled : bool; sl_facility : rstr; sl_level : rstr; sl_transport : option rstr;
  sl_server : option rstr; sl_format : option rstr; sl_tls : option SyslogTlsConfig
}.
Record FileLogConfig : Type := { fi_enabled : bool; fi_location : rstr; fi_level : rstr }.
Record StdoutLogConfig : Type := { sd_enabled : bool; sd_level : rstr }.
Record LoggingConfig : Type := {
  lg_syslog : option SyslogConfig; lg_file : option FileLogConfig; lg_stdout : option StdoutLogConfig
}.

Record DnsFilterConfig : Type := {
  dc_listen : ListenConfig;
  dc_blocklists : list NamedList;
  dc_allowlists : list NamedList;
  dc_filtering : option FilteringConfig;
  dc_resolvers : ResolversConfig;
  dc_plugins : list PluginConfig;
  dc_logging : LoggingConfig;
  dc_security : option SecurityConfig;
  dc_api : option ApiConfig;
  dc_control : option ControlConfig;
  dc_mcp : option McpConfig;
  dc_database : option DatabaseConfig;
  dc_outbound : option OutboundConfig
}.

Definition filter_config (c : DnsFilterConfig) : FilterConfig :=
  {| cfg_blocklists := dc_blocklists c; cfg_allowlists := dc_allowlists c;
     cfg_filtering := dc_filtering c |}.

Definition path_listener (l : TlsSocketConfig) : ChrootPaths.TlsSocketConfig :=
  {| ChrootPaths.tls_enabled := ts_enabled l;
     ChrootPaths.tls_cert_path := tls_cert_path (ts_tls l);
     ChrootPaths.tls_key_path := tls_key_path (ts_tls l) |}.

Definition path_config (c : DnsFilterConfig) : ChrootPaths.PathConfig :=
  {| ChrootPaths.pc_chroot_dir := dc_security c ≫= se_chroot_dir;
     ChrootPaths.pc_database_url := da_url <$> dc_database c;
     ChrootPaths.pc_dot := path_listener <$> lc_dot (dc_listen c);
     ChrootPaths.pc_doh := path_listener <$> lc_doh (dc_listen c);
     ChrootPaths.pc_doq := path_listener <$> lc_doq (dc_listen c);
     ChrootPaths.pc_control_socket_path := dc_control c ≫= ct_socket_path |}.

(** The two fields [apply_db_config] and the loaders replace. *)
Definition with_operational (c : DnsFilterConfig) (blocklists allowlists : list NamedList)
    (filtering : option FilteringConfig) (resolvers : ResolversConfig) : DnsFilterConfig :=
  {| dc_listen := dc_listen c; dc_blocklists := blocklists; dc_allowlists := allowlists;
     dc_filtering := filtering; dc_resolvers := resolvers; dc_plugins := dc_plugins c;
     dc_logging := dc_logging c; dc_security := dc_security c; dc_api := dc_api c;
     dc_control := dc_control c; dc_mcp := dc_mcp c; dc_database := dc_database c;
     dc_outbound := dc_outbound c |}.
