(* ===== verification/ConfigDb.v ===== *)
(** * Operational configuration in the database

    [use_cases/seed.rs] imports the operational sections of the configuration file into
    an empty database; [use_cases/config_from_db.rs] reads them back and replaces the
    sections of the loaded configuration.  Both work on the repository traits
    ([Repositories]); the theorems are about the SQL implementations. *)

From S2P Require Import Prelude RustStr FilterEngine ZoneRegistry ConfigBootstrap Schema Repositories.

Record Repositories (W : Type) : Type := {
  r_filter_lists : FilterListRepository W;
  r_filter_cache : FilterCacheRepository W;
  r_filtering_config : FilteringConfigRepository W;
  r_upstream_config : UpstreamConfigRepository W;
  r_zones : ZoneRepository W;
  r_zone_discovery : ZoneDiscoveryRepository W
}.
Arguments r_filter_lists {W} _.
Arguments r_filter_cache {W} _.
Arguments r_filtering_config {W} _.
Arguments r_upstream_config {W} _.
Arguments r_zones {W} _.
Arguments r_zone_discovery {W} _.

Definition sqlx_repositories {W} (db : Cell W Database) (outside : DbOutside W) : Repositories W :=
  {| r_filter_lists := sqlx_filter_lists db outside; r_filter_cache := sqlx_filter_cache db outside;
     r_filtering_config := sqlx_filtering_config db outside;
     r_upstream_config := sqlx_upstream_config db outside; r_zones := sqlx_zones db outside;
     r_zone_discovery := sqlx_zone_discovery db outside |}.

(** [m.await.with_context(|| c)?]. *)
Definition in_context {W A} (c : rstr) (m : M W (result A Error)) : M W (result A Error) :=
  mmap_err (fun e => c :: e) m.

(** ** Seeding ([seed.rs]) *)

Definition DEFAULT_INTERVAL_SECS : Z := 12 * 60 * 60.

(** [h * 3600] on [i64], which wraps. *)
Definition parse_interval_secs (interval : option rstr) : Z :=
  match interval with
  | None => DEFAULT_INTERVAL_SECS
  | Some s =>
      let s := trim s in
      if is_empty s then DEFAULT_INTERVAL_SECS
      else
        match strip_suffix (lit "h") s ≫= parse_i64 with
        | Some h => as_i64 (h * 3600)
        | None =>
            match strip_suffix (lit "m") s ≫= parse_i64 with
            | Some m => as_i64 (m * 60)
            | None =>
                match strip_suffix (lit "s") s ≫= parse_i64 with
                | Some sec => sec
                | None => default DEFAULT_INTERVAL_SECS (parse_i64 s)
                end
            end
        end
  end.

Section repos.
Context {W : Type} (outside : DbOutside W) (repos : Repositories W).

Definition list_record (kind id : rstr) (l : NamedList) : FilterListRecord :=
  {| flr_id := id; flr_name := nl_name l; flr_kind := kind; flr_url := nl_url l;
     flr_interval_seconds := parse_interval_secs (nl_interval l);
     flr_enabled := default true (nl_enabled l);
     flr_list_type := default (lit "adguard") (nl_list_type l) |}.

Definition seed_list (kind what : rstr) (l : NamedList) : M W (result unit Error) :=
  id <<- new_v4 outside ;;
  in_context (lit "seeding " ++ what ++ lit " " ++ quoted (nl_name l))
    (fl_create (r_filter_lists repos) (list_record kind id l)).

Definition seed_filter_lists (config : DnsFilterConfig) : M W (result unit Error) :=
  for_each (seed_list (lit "block") (lit "blocklist")) (dc_blocklists config) ?;;
  for_each (seed_list (lit "allow") (lit "allowlist")) (dc_allowlists config).

Definition filtering_record (filtering : option FilteringConfig) : FilteringConfigRecord :=
  {| fcfg_sinkhole_ipv4 := default (lit "0.0.0.0") (filtering ≫= fc_sinkhole_ipv4);
     fcfg_sinkhole_ipv6 := default (lit "::") (filtering ≫= fc_sinkhole_ipv6);
     fcfg_any_query_policy := default (lit "notimp") (filtering ≫= fc_any_query_policy) |}.

Definition seed_filtering_config (config : DnsFilterConfig) : M W (result unit Error) :=
  in_context (lit "seeding filtering config")
    (fg_update (r_filtering_config repos) (filtering_record (dc_filtering config))).

(** [.map(parse_interval).transpose()?.map(|d| d.as_secs() as i64)]. *)
Definition ttl_secs (ttl : option rstr) : result (option Z) Error :=
  let? t := transpose (parse_interval <$> ttl) in Ok ((fun n => as_i64 (Z.of_N n)) <$> t).

Definition resolver_record (r : ResolversConfig) : result ResolverConfigRecord Error :=
  let? min_ttl := ttl_secs (rs_cache r ≫= rcc_min_ttl) in
  let? max_ttl := ttl_secs (rs_cache r ≫= rcc_max_ttl) in
  Ok {| rcr_strategy := rs_strategy r; rcr_bootstrap_resolvers := rs_bootstrap_resolvers r;
        rcr_dns_cache_enabled := match rs_cache r with Some c => rcc_enabled c | None => true end;
        rcr_dns_cache_min_ttl_seconds := min_ttl; rcr_dns_cache_max_ttl_seconds := max_ttl |}.

Definition seed_resolver_config (config : DnsFilterConfig) : M W (result unit Error) :=
  record <?- mlift (resolver_record (dc_resolvers config)) ;;
  in_context (lit "seeding resolver config")
    (uc_update_resolver_config (r_upstream_config repos) record).

Definition upstream_record (id : rstr) (entry : nat * UpstreamServer) : UpstreamServerRecord :=
  let '(i, server) := entry in
  let s := us_server server in
  {| usr_id := id; usr_enabled := sc_enabled s; usr_protocol := sc_protocol s;
     usr_address := sc_address s; usr_auth_token := sc_authentication s ≫= zsa_token;
     usr_auth_username := sc_authentication s ≫= zsa_username;
     usr_auth_password := sc_authentication s ≫= zsa_password;
     usr_max_hops := (fun v => as_i32 (Z.of_N v)) <$> sc_max_hops s;
     usr_nameserver_ip_family := sc_nameserver_ip_family s;
     usr_root_hints_path := sc_root_hints_path s; usr_root_key_path := sc_root_key_path s;
     usr_dnssec := default true (sc_dnssec s); usr_sort_order := as_i32 (Z.of_nat i);
     usr_bind_address := us_bind_address server;
     usr_fwmark := (fun v => as_i32 (Z.of_N v)) <$> us_fwmark server |}.

Definition seed_upstream_server (entry : nat * UpstreamServer) : M W (result unit Error) :=
  id <<- new_v4 outside ;;
  in_context (lit "seeding upstream server #" ++ display_N (N.of_nat entry.1))
    (uc_create_server (r_upstream_config repos) (upstream_record id entry)).

Definition seed_upstream_servers (config : DnsFilterConfig) : M W (result unit Error) :=
  for_each seed_upstream_server (enumerate (rs_servers (dc_resolvers config))).

Definition zone_record (id : rstr) (z : ResolverZoneConfig) : ZoneRecord :=
  {| zr_id := id; zr_zone := rz_zone z; zr_enabled := rz_enabled z;
     zr_bypass_filter := rz_bypass_filter z;
     zr_fallback_to_default_resolvers := rz_fallback_to_default_resolvers z;
     zr_strategy := rz_strategy z; zr_servers := [] |}.

Definition zone_server_record (zone_id id : rstr) (entry : nat * ZoneServerConfig) : ZoneServerRecord :=
  let '(i, server) := entry in
  let s := zs_server server in
  {| zsr_id := id; zsr_zone_id := zone_id; zsr_enabled := sc_enabled s;
     zsr_protocol := sc_protocol s; zsr_address := sc_address s;
     zsr_auth_token := sc_authentication s ≫= zsa_token;
     zsr_auth_username := sc_authentication s ≫= zsa_username;
     zsr_auth_password := sc_authentication s ≫= zsa_password;
     zsr_check_interval := zs_check_interval server;
     zsr_max_hops := (fun v => as_i32 (Z.of_N v)) <$> sc_max_hops s;
     zsr_nameserver_ip_family := sc_nameserver_ip_family s;
     zsr_root_hints_path := sc_root_hints_path s; zsr_root_key_path := sc_root_key_path s;
     zsr_dnssec := default true (sc_dnssec s); zsr_sort_order := as_i32 (Z.of_nat i) |}.

Definition seed_zone_server (zone zone_id : rstr) (entry : nat * ZoneServerConfig) :
    M W (result unit Error) :=
  id <<- new_v4 outside ;;
  in_context (lit "seeding zone server #" ++ display_N (N.of_nat entry.1) ++ lit " for zone " ++ quoted zone)
    (zn_create_zone_server (r_zones repos) (zone_server_record zone_id id entry)).

Definition seed_zone (z : ResolverZoneConfig) : M W (result unit Error) :=
  zone_id <<- new_v4 outside ;;
  (in_context (lit "seeding zone " ++ quoted (rz_zone z))
     (zn_create_zone (r_zones repos) (zone_record zone_id z)) ?;;
   for_each (seed_zone_server (rz_zone z) zone_id) (enumerate (rz_servers z))).

Definition seed_zones (config : DnsFilterConfig) : M W (result unit Error) :=
  for_each seed_zone (rs_zones (dc_resolvers config)).

Definition discovery_record (id : rstr) (d : ZoneDiscoveryConfig) : ZoneDiscoveryRecord :=
  {| zdr_id := id; zdr_enabled := zdc_enabled d; zdr_address := zdc_address d;
     zdr_check_interval := zdc_check_interval d; zdr_allowed_types := zdc_allowed_types d;
     zdr_bypass_filter := zdc_bypass_filter d;
     zdr_fallback_to_default_resolvers := zdc_fallback_to_default_resolvers d;
     zdr_auth_token := zdc_authentication d ≫= zsa_token;
     zdr_auth_username := zdc_authentication d ≫= zsa_username;
     zdr_auth_password := zdc_authentication d ≫= zsa_password |}.

Definition seed_discovery (d : ZoneDiscoveryConfig) : M W (result unit Error) :=
  id <<- new_v4 outside ;;
  in_context (lit "seeding zone discovery entry")
    (zd_create (r_zone_discovery repos) (discovery_record id d)).

Definition seed_zone_discovery (config : DnsFilterConfig) : M W (result unit Error) :=
  for_each seed_discovery (rs_zone_discovery (dc_resolvers config)).

Definition seed_if_empty (config : DnsFilterConfig) : M W (result bool Error) :=
  count <?- in_context (lit "checking if DB is seeded") (fl_count (r_filter_lists repos)) ;;
  servers <<- uc_get_all_servers (r_upstream_config repos) ;;
  let upstream_count := match servers with Ok s => as_i64 (Z.of_nat (length s)) | Err _ => 0%Z end in
  if ((0 <? count)%Z || (0 <? upstream_count)%Z) then mret (Ok false)
  else
    seed_filter_lists config ?;; (seed_filtering_config config ?;; (seed_resolver_config config ?;;
    (seed_upstream_servers config ?;; (seed_zones config ?;; (seed_zone_discovery config ?;;
    mret (Ok true)))))).

(** ** Loading ([config_from_db.rs]) *)

Definition build_auth (token username password : option rstr) : option ZoneServerAuthenticationConfig :=
  if bool_decide (is_Some token) || bool_decide (is_Some username) || bool_decide (is_Some password)
  then Some {| zsa_token := token; zsa_username := username; zsa_password := password |}
  else None.

Definition list_config (r : FilterListRecord) : NamedList :=
  {| nl_name := flr_name r; nl_url := flr_url r;
     nl_interval := Some (display_Z (flr_interval_seconds r) ++ lit "s");
     nl_enabled := Some (flr_enabled r); nl_list_type := Some (flr_list_type r) |}.

Definition lists_of_kind (kind : rstr) (records : list FilterListRecord) : list NamedList :=
  list_config <$> filter (fun r => flr_kind r = kind) records.

Definition server_config (enabled : bool) (protocol address : rstr)
    (auth : option ZoneServerAuthenticationConfig) (max_hops : option Z)
    (family hints key : option rstr) (dnssec : bool) : ServerConfig :=
  {| sc_enabled := enabled; sc_protocol := protocol; sc_address := address;
     sc_authentication := auth; sc_max_hops := as_u8 <$> max_hops;
     sc_nameserver_ip_family := family; sc_root_hints_path := hints; sc_root_key_path := key;
     sc_dnssec := Some dnssec |}.

Definition upstream_config (s : UpstreamServerRecord) : UpstreamServer :=
  {| us_server := server_config (usr_enabled s) (usr_protocol s) (usr_address s)
       (build_auth (usr_auth_token s) (usr_auth_username s) (usr_auth_password s))
       (usr_max_hops s) (usr_nameserver_ip_family s) (usr_root_hints_path s)
       (usr_root_key_path s) (usr_dnssec s);
     us_bind_address := usr_bind_address s; us_fwmark := as_u32 <$> usr_fwmark s |}.

Definition zone_server_config (s : ZoneServerRecord) : ZoneServerConfig :=
  {| zs_server := server_config (zsr_enabled s) (zsr_protocol s) (zsr_address s)
       (build_auth (zsr_auth_token s) (zsr_auth_username s) (zsr_auth_password s))
       (zsr_max_hops s) (zsr_nameserver_ip_family s) (zsr_root_hints_path s)
       (zsr_root_key_path s) (zsr_dnssec s);
     zs_check_interval := zsr_check_interval s |}.

Definition zone_config (z : ZoneRecord) : ResolverZoneConfig :=
  {| rz_zone := zr_zone z; rz_enabled := zr_enabled z; rz_bypass_filter := zr_bypass_filter z;
     rz_fallback_to_default_resolvers := zr_fallback_to_default_resolvers z;
     rz_strategy := zr_strategy z; rz_servers := zone_server_config <$> zr_servers z |}.

Definition discovery_config (d : ZoneDiscoveryRecord) : ZoneDiscoveryConfig :=
  {| zdc_enabled := zdr_enabled d; zdc_address := zdr_address d;
     zdc_check_interval := zdr_check_interval d; zdc_allowed_types := zdr_allowed_types d;
     zdc_bypass_filter := zdr_bypass_filter d;
     zdc_fallback_to_default_resolvers := zdr_fallback_to_default_resolvers d;
     zdc_authentication := build_auth (zdr_auth_token d) (zdr_auth_username d) (zdr_auth_password d) |}.

Definition apply_db_config (config : DnsFilterConfig) : M W (result DnsFilterConfig Error) :=
  records <?- in_context (lit "loading filter lists from DB") (fl_get_all (r_filter_lists repos)) ;;
  filtering <?- in_context (lit "loading filtering config from DB") (fg_get (r_filtering_config repos)) ;;
  resolver <?- in_context (lit "loading resolver config from DB")
                 (uc_get_resolver_config (r_upstream_config repos)) ;;
  servers <?- in_context (lit "loading upstream servers from DB")
                (uc_get_all_servers (r_upstream_config repos)) ;;
  zones <?- in_context (lit "loading zones from DB") (zn_get_all_with_servers (r_zones repos)) ;;
  discovery <?- in_context (lit "loading zone discovery from DB") (zd_get_all (r_zone_discovery repos)) ;;
  mret (Ok (with_operational config
    (lists_of_kind (lit "block") records) (lists_of_kind (lit "allow") records)
    (Some {| fc_sinkhole_ipv4 := Some (fcfg_sinkhole_ipv4 filtering);
             fc_sinkhole_ipv6 := Some (fcfg_sinkhole_ipv6 filtering);
             fc_any_query_policy := Some (fcfg_any_query_policy filtering);
             fc_cache := dc_filtering config ≫= fc_cache |})
    {| rs_strategy := rcr_strategy resolver;
       rs_bootstrap_resolvers := rcr_bootstrap_resolvers resolver;
       rs_cache := Some {| rcc_enabled := rcr_dns_cache_enabled resolver;
         rcc_min_ttl := (fun s => display_Z s ++ lit "s") <$> rcr_dns_cache_min_ttl_seconds resolver;
         rcc_max_ttl := (fun s => display_Z s ++ lit "s") <$> rcr_dns_cache_max_ttl_seconds resolver;
         rcc_max_entries := None |};
       rs_zones := zone_config <$> zones;
       rs_zone_discovery := discovery_config <$> discovery;
       rs_servers := upstream_config <$> servers |})).
End repos.

(** ** Seeding keeps the schema *)

Section seed_schema.
Context {W : Type} (db : Cell W Database) (outside : DbOutside W) `{!CellLaws db}.
Context (Hfault : keeps_schema db (db_fault outside)) (Hv4 : keeps_schema db (new_v4 outside)).

Lemma seed_keeps_schema config :
  keeps_schema db (seed_if_empty outside (sqlx_repositories db outside) config).
Proof. keeps. Qed.
End seed_schema.

(** ** What the database keeps of a configuration

    The normal forms of the parts: defaults filled in, an interval in seconds, empty
    credentials dropped. *)

Definition stored_auth (a : option ZoneServerAuthenticationConfig) : option ZoneServerAuthenticationConfig :=
  match a with
  | Some {| zsa_token := None; zsa_username := None; zsa_password := None |} => None
  | _ => a
  end.

Lemma build_auth_stored a :
  build_auth (a ≫= zsa_token) (a ≫= zsa_username) (a ≫= zsa_password) = stored_auth a.
Proof. by destruct a as [[[] [] []]|]. Qed.

Definition stored_list (l : NamedList) : NamedList :=
  {| nl_name := nl_name l; nl_url := nl_url l;
     nl_interval := Some (display_Z (parse_interval_secs (nl_interval l)) ++ lit "s");
     nl_enabled := Some (default true (nl_enabled l));
     nl_list_type := Some (default (lit "adguard") (nl_list_type l)) |}.

Definition stored_server (s : ServerConfig) : ServerConfig :=
  {| sc_enabled := sc_enabled s; sc_protocol := sc_protocol s; sc_address := sc_address s;
     sc_authentication := stored_auth (sc_authentication s); sc_max_hops := sc_max_hops s;
     sc_nameserver_ip_family := sc_nameserver_ip_family s;
     sc_root_hints_path := sc_root_hints_path s; sc_root_key_path := sc_root_key_path s;
     sc_dnssec := Some (default true (sc_dnssec s)) |}.

Definition stored_upstream (s : UpstreamServer) : UpstreamServer :=
  {| us_server := stored_server (us_server s); us_bind_address := us_bind_address s;
     us_fwmark := us_fwmark s |}.

Definition stored_zone_server (s : ZoneServerConfig) : ZoneServerConfig :=
  {| zs_server := stored_server (zs_server s); zs_check_interval := zs_check_interval s |}.

Definition stored_zone (z : ResolverZoneConfig) : ResolverZoneConfig :=
  {| rz_zone := rz_zone z; rz_enabled := rz_enabled z; rz_bypass_filter := rz_bypass_filter z;
     rz_fallback_to_default_resolvers := rz_fallback_to_default_resolvers z;
     rz_strategy := rz_strategy z; rz_servers := stored_zone_server <$> rz_servers z |}.

Definition stored_discovery (d : ZoneDiscoveryConfig) : ZoneDiscoveryConfig :=
  {| zdc_enabled := zdc_enabled d; zdc_address := zdc_address d;
     zdc_check_interval := zdc_check_interval d;
     zdc_allowed_types := sort_strs (zdc_allowed_types d); zdc_bypass_filter := zdc_bypass_filter d;
     zdc_fallback_to_default_resolvers := zdc_fallback_to_default_resolvers d;
     zdc_authentication := stored_auth (zdc_authentication d) |}.

Definition stored_cache (r : ResolverConfigRecord) : ResolverCacheConfig :=
  {| rcc_enabled := rcr_dns_cache_enabled r;
     rcc_min_ttl := (fun s => display_Z s ++ lit "s") <$> rcr_dns_cache_min_ttl_seconds r;
     rcc_max_ttl := (fun s => display_Z s ++ lit "s") <$> rcr_dns_cache_max_ttl_seconds r;
     rcc_max_entries := None |}.

Definition stored_filtering (f : option FilteringConfig) : FilteringConfig :=
  {| fc_sinkhole_ipv4 := Some (default (lit "0.0.0.0") (f ≫= fc_sinkhole_ipv4));
     fc_sinkhole_ipv6 := Some (default (lit "::") (f ≫= fc_sinkhole_ipv6));
     fc_any_query_policy := Some (default (lit "notimp") (f ≫= fc_any_query_policy));
     fc_cache := f ≫= fc_cache |}.

Definition by_list_name (a b : NamedList) : Prop := str_le (nl_name a) (nl_name b).
Definition by_zone_name (a b : ResolverZoneConfig) : Prop := str_le (rz_zone a) (rz_zone b).
#[export] Instance by_list_name_dec : RelDecision by_list_name.
Proof. intros a b. unfold by_list_name. apply _. Defined.
#[export] Instance by_zone_name_dec : RelDecision by_zone_name.
Proof. intros a b. unfold by_zone_name. apply _. Defined.
#[export] Instance by_list_name_trans : Transitive by_list_name.
Proof. intros a b c. apply str_le_trans. Qed.
#[export] Instance by_list_name_total : Total by_list_name.
Proof. intros a b. apply str_le_total. Qed.
#[export] Instance by_zone_name_trans : Transitive by_zone_name.
Proof. intros a b c. apply str_le_trans. Qed.
#[export] Instance by_zone_name_total : Total by_zone_name.
Proof. intros a b. apply str_le_total. Qed.

(** Machine-width values: [max_hops] is a [u8] and [fwmark] a [u32]. *)
Definition server_in_range (s : ServerConfig) : Prop :=
  forall h, sc_max_hops s = Some h -> (h < 2 ^ 8)%N.
Definition upstream_in_range (s : UpstreamServer) : Prop :=
  server_in_range (us_server s) /\ forall m, us_fwmark s = Some m -> (m < 2 ^ 32)%N.

(** A configuration the schema can hold: names, addresses and types without repetition,
    readable cache times, and fewer entries than the order column counts. *)
Record seedable (c : DnsFilterConfig) (record : ResolverConfigRecord) : Prop := {
  sd_lists : NoDup (nl_name <$> dc_blocklists c ++ dc_allowlists c);
  sd_record : resolver_record (dc_resolvers c) = Ok record;
  sd_bootstrap : NoDup (rs_bootstrap_resolvers (dc_resolvers c));
  sd_bootstrap_len : (Z.of_nat (length (rs_bootstrap_resolvers (dc_resolvers c))) <= 2 ^ 31)%Z;
  sd_servers_len : (Z.of_nat (length (rs_servers (dc_resolvers c))) <= 2 ^ 31)%Z;
  sd_servers : Forall upstream_in_range (rs_servers (dc_resolvers c));
  sd_zones : NoDup (rz_zone <$> rs_zones (dc_resolvers c));
  sd_zone_servers : Forall (fun z => (Z.of_nat (length (rz_servers z)) <= 2 ^ 31)%Z
                              /\ Forall (fun s => server_in_range (zs_server s)) (rz_servers z))
                      (rs_zones (dc_resolvers c));
  sd_types : Forall (fun d => NoDup (zdc_allowed_types d)) (rs_zone_discovery (dc_resolvers c))
}.

Lemma as_u8_as_i32 (v : N) : (v < 2 ^ 8)%N -> as_u8 (as_i32 (Z.of_N v)) = v.
Proof.
  intros H. unfold as_u8, as_i32. rewrite (Z.mod_small (_ + _)) by lia.
  rewrite Z.mod_small by lia. lia.
Qed.

Lemma as_u32_as_i32 (v : N) : (v < 2 ^ 32)%N -> as_u32 (as_i32 (Z.of_N v)) = v.
Proof.
  intros H. unfold as_u32, as_i32. rewrite Zminus_mod_idemp_l, Z.add_simpl_r, Z.mod_small; lia.
Qed.

Lemma hops_roundtrip (h : option N) :
  (forall v, h = Some v -> (v < 2 ^ 8)%N) -> as_u8 <$> ((fun v => as_i32 (Z.of_N v)) <$> h) = h.
Proof. destruct h as [v|]; [|done]. intros H. simpl. f_equal. by apply as_u8_as_i32, H. Qed.

Lemma fwmark_roundtrip (m : option N) :
  (forall v, m = Some v -> (v < 2 ^ 32)%N) -> as_u32 <$> ((fun v => as_i32 (Z.of_N v)) <$> m) = m.
Proof. destruct m as [v|]; [|done]. intros H. simpl. f_equal. by apply as_u32_as_i32, H. Qed.

(** Each record, read back, is the normal form of what was written. *)
Lemma list_read_back kind id l : list_config (list_record kind id l) = stored_list l.
Proof. done. Qed.

Lemma upstream_read_back id b : upstream_in_range b.2 ->
  upstream_config (upstream_record id b) = stored_upstream b.2.
Proof.
  destruct b as [i s]. intros [Hs Hm]. unfold upstream_config, server_config, stored_upstream, stored_server.
  simpl. by rewrite hops_roundtrip, fwmark_roundtrip, build_auth_stored.
Qed.

Lemma zone_server_read_back zone_id id b : server_in_range (zs_server b.2) ->
  zone_server_config (zone_server_record zone_id id b) = stored_zone_server b.2.
Proof.
  destruct b as [i s]. intros Hs. unfold zone_server_config, server_config, stored_zone_server, stored_server.
  simpl. by rewrite hops_roundtrip, build_auth_stored.
Qed.

Lemma fmap_merge_sort {A B} (f : A -> B) (R : A -> A -> Prop) (S : B -> B -> Prop)
    `{!RelDecision R, !Transitive R, !Total R, !RelDecision S, !Transitive S, !Total S} (l : list A) :
  (forall x y, R x y -> S (f x) (f y)) ->
  (forall x y, x ∈ l -> y ∈ l -> S (f x) (f y) -> S (f y) (f x) -> f x = f y) ->
  f <$> merge_sort R l = merge_sort S (f <$> l).
Proof.
  intros Himp Hanti. apply (StronglySorted_unique_strong S).
  - intros x y (a & -> & Ha)%list_elem_of_fmap Hy. rewrite merge_sort_Permutation in Ha. rewrite merge_sort_Permutation in Hy.
    apply list_elem_of_fmap in Hy as (b & -> & Hb). by apply Hanti.
  - assert (StronglySorted R (merge_sort R l)) as Hs by (apply StronglySorted_merge_sort; apply _).
    induction Hs as [|x xs Hs IH Hall]; simpl; constructor; [done|].
    apply Forall_fmap. eapply Forall_impl; [exact Hall|]. simpl. auto.
  - apply StronglySorted_merge_sort; apply _.
  - by rewrite !merge_sort_Permutation.
Qed.

(** ** The loops of the seed *)

Section seed_loops.
Context {W : Type} (db : Cell W Database) (outside : DbOutside W) `{!QuietDb db outside}.
#[local] Notation repos := (sqlx_repositories db outside).

Lemma inserting_context {A B} (ins : A -> Statement) (mk : rstr -> B -> A) (c : B -> rstr)
    (context : rstr -> B -> rstr) :
  inserting db outside ins mk
    (fun b => id <<- new_v4 outside ;; in_context (c b) (execute db outside (context id b) (ins (mk id b)))).
Proof.
  intros b w. unfold mbind, in_context, mmap_err.
  pose proof (quiet_v4_keeps (outside := outside) w) as Hk.
  destruct (new_v4 outside w) as [id w1]. simpl in *. rewrite execute_quiet by done. rewrite Hk.
  destruct (run_statement _ _); [done|]. simpl. by eexists.
Qed.

Lemma list_insert_accepts kind d id l :
  kind = lit "block" \/ kind = lit "allow" -> id ∉ all_ids d ->
  if unique_in nl_name (flr_name <$> t_filter_lists d) l
  then run_statement (InsertFilterList (list_record kind id l)) d
       = Ok (with_filter_lists d (t_filter_lists d ++ [list_record kind id l]))
  else exists c, run_statement (InsertFilterList (list_record kind id l)) d = Err c.
Proof.
  intros Hk Hid. simpl. replace (kind_ok (list_record kind id l)) with true by (by destruct Hk as [->| ->]).
  rewrite (insert_row_accepts _ flr_id flr_name); [|done|].
  - simpl. unfold unique_in. destruct (bool_decide _); [done|]. by eexists.
  - apply (not_in_ids _ _ id d); [done|]. unfold all_ids. set_solver.
Qed.

Lemma seed_lists_loop kind what ls w :
  kind = lit "block" \/ kind = lit "allow" ->
  NoDup ((flr_name <$> t_filter_lists (cget db w)) ++ (nl_name <$> ls)) ->
  exists ids w', for_each (seed_list outside repos kind what) ls w = (Ok tt, w')
    /\ length ids = length ls
    /\ cget db w' = with_filter_lists (cget db w)
         (t_filter_lists (cget db w) ++ zip_with (list_record kind) ids ls).
Proof.
  intros Hk Hnd.
  edestruct (insert_loop db outside t_filter_lists with_filter_lists InsertFilterList (list_record kind)
    flr_name nl_name (unique_in nl_name) (fun _ => True))
    with (body := seed_list outside repos kind what) (items := ls) (w := w)
    as (ids & res & w' & Hf & Hl & Hd & Hok); [done|done|by intros []|done|done| | |done|].
  - intros d id l _ Hid. by apply list_insert_accepts.
  - apply (inserting_context InsertFilterList (list_record kind)).
  - rewrite accepted_prefix_unique in Hl, Hd, Hok by done.
    exists ids, w'. split_and!; [|done|done]. rewrite Hf. f_equal.
    destruct res as [[]|e]; [done|]. discriminate (proj2 Hok eq_refl).
Qed.

Lemma seed_upstream_loop entries w :
  exists ids w', for_each (seed_upstream_server outside repos) entries w = (Ok tt, w')
    /\ length ids = length entries
    /\ cget db w' = with_upstream_servers (cget db w)
         (t_upstream_servers (cget db w) ++ zip_with upstream_record ids entries).
Proof.
  edestruct (insert_loop db outside t_upstream_servers with_upstream_servers InsertUpstreamServer
    upstream_record (fun _ => tt) (fun _ => tt) (fun _ _ => true) (fun _ => True))
    with (body := seed_upstream_server outside repos) (items := entries) (w := w)
    as (ids & res & w' & Hf & Hl & Hd & Hok); [done|done|by intros []|done|done| | |done|].
  - intros d id b _ Hid. simpl. unfold insert_row.
    destruct (existsb _ _) eqn:He; [|done]. exfalso. apply Hid.
    apply existsb_exists in He as (x & Hx%list_elem_of_In & Hc). unfold upstream_clash in Hc.
    destruct b. simpl in Hc. destruct (str_eqb_spec id (usr_id x)) as [->|]; [|done].
    unfold all_ids. rewrite !elem_of_app. do 2 right. left. by apply list_elem_of_fmap_2.
  - apply (inserting_context InsertUpstreamServer upstream_record
      (fun b => lit "seeding upstream server #" ++ display_N (N.of_nat b.1))).
  - rewrite accepted_prefix_all in Hl, Hd, Hok.
    exists ids, w'. split_and!; [|done|done]. rewrite Hf. f_equal.
    destruct res as [[]|e]; [done|]. discriminate (proj2 Hok eq_refl).
Qed.

Lemma zone_server_insert_accepts zone_id d id b :
  zone_id ∈ zw_id <$> t_zones d -> id ∉ all_ids d ->
  run_statement (InsertZoneServer (zone_server_record zone_id id b)) d
  = Ok (with_zones d (t_zones d) (t_zone_servers d ++ [zone_server_record zone_id id b])).
Proof.
  intros Hz Hid. destruct b as [i s]. simpl. unfold insert_row. destruct (existsb _ _) eqn:He.
  - exfalso. apply Hid. apply existsb_exists in He as (x & Hx%list_elem_of_In & Hc).
    unfold zone_server_clash in Hc. simpl in Hc.
    destruct (str_eqb_spec id (zsr_id x)) as [->|]; [|done].
    unfold all_ids. rewrite !elem_of_app. do 4 right. left. by apply list_elem_of_fmap_2.
  - apply list_elem_of_fmap in Hz as (z & -> & Hz).
    assert (existsb (fun x => str_eqb (zw_id x) (zw_id z)) (t_zones d) = true) as ->; [|done].
    apply existsb_exists. exists z. rewrite <- list_elem_of_In. split; [done|apply str_eqb_refl].
Qed.

Lemma seed_zone_servers_loop zone zone_id entries w :
  zone_id ∈ zw_id <$> t_zones (cget db w) ->
  exists ids w', for_each (seed_zone_server outside repos zone zone_id) entries w = (Ok tt, w')
    /\ length ids = length entries
    /\ cget db w' = with_zones (cget db w) (t_zones (cget db w))
         (t_zone_servers (cget db w) ++ zip_with (zone_server_record zone_id) ids entries).
Proof.
  intros Hz.
  edestruct (insert_loop db outside t_zone_servers (fun d => with_zones d (t_zones d)) InsertZoneServer
    (zone_server_record zone_id) (fun _ => tt) (fun _ => tt) (fun _ _ => true)
    (fun d => zone_id ∈ zw_id <$> t_zones d))
    with (body := seed_zone_server outside repos zone zone_id) (items := entries) (w := w)
    as (ids & res & w' & Hf & Hl & Hd & Hok); [done|done|by intros []|done|done| | |done|].
  - intros d id b Hg Hid. by apply zone_server_insert_accepts.
  - apply (inserting_context InsertZoneServer (zone_server_record zone_id) (fun b =>
      lit "seeding zone server #" ++ display_N (N.of_nat b.1) ++ lit " for zone " ++ quoted zone)).
  - rewrite accepted_prefix_all in Hl, Hd, Hok.
    exists ids, w'. split_and!; [|done|done]. rewrite Hf. f_equal.
    destruct res as [[]|e]; [done|]. discriminate (proj2 Hok eq_refl).
Qed.

(** The identifiers of a zone and of its servers. *)
Definition zone_rows (L : list (rstr * list rstr)) (zs : list ResolverZoneConfig) : list ZoneRow :=
  zip_with (fun p z => row_of_zone (zone_record p.1 z)) L zs.
Definition zone_server_rows (L : list (rstr * list rstr)) (zs : list ResolverZoneConfig) :
    list ZoneServerRecord :=
  concat (zip_with (fun p z => zip_with (zone_server_record p.1) p.2 (enumerate (rz_servers z))) L zs).

Lemma seed_one_zone z w : rz_zone z ∉ zw_zone <$> t_zones (cget db w) ->
  exists id ids w', seed_zone outside repos z w = (Ok tt, w')
    /\ length ids = length (rz_servers z)
    /\ cget db w' = with_zones (cget db w) (t_zones (cget db w) ++ [row_of_zone (zone_record id z)])
         (t_zone_servers (cget db w) ++ zip_with (zone_server_record id) ids (enumerate (rz_servers z))).
Proof.
  intros Hz. pose proof (quiet_v4_fresh (db := db) (outside := outside) w) as Hfresh.
  pose proof (quiet_v4_keeps (db := db) (outside := outside) w) as Hk.
  unfold seed_zone, mbind. destruct (new_v4 outside w) as [id w1]. simpl in Hfresh, Hk.
  unfold tbind, in_context, mmap_err. simpl. unfold zone_create_zone. rewrite execute_quiet by done.
  rewrite Hk. simpl. rewrite (insert_row_accepts _ zw_id zw_zone); [|done|].
  2: { apply (not_in_ids _ _ id (cget db w)); [done|]. unfold all_ids. set_solver. }
  simpl. rewrite bool_decide_true by done. simpl.
  edestruct (seed_zone_servers_loop (rz_zone z) id (enumerate (rz_servers z))) as (ids & w' & Hf & Hl & Hd);
    [|exists id, ids, w'; split_and!; [exact Hf|by rewrite Hl, length_enumerate|]].
  - rewrite cget_cput. simpl. rewrite fmap_app. apply elem_of_app. right. by apply list_elem_of_singleton.
  - by rewrite Hd, cget_cput.
Qed.

Lemma seed_zones_loop zs w : NoDup ((zw_zone <$> t_zones (cget db w)) ++ (rz_zone <$> zs)) ->
  exists L w', for_each (seed_zone outside repos) zs w = (Ok tt, w')
    /\ Forall2 (fun p z => length p.2 = length (rz_servers z)) L zs
    /\ cget db w' = with_zones (cget db w) (t_zones (cget db w) ++ zone_rows L zs)
         (t_zone_servers (cget db w) ++ zone_server_rows L zs).
Proof.
  revert w. induction zs as [|z zs IH]; intros w Hnd.
  { exists [], w. split_and!; [done|constructor|]. unfold zone_rows, zone_server_rows. simpl.
    rewrite !app_nil_r. by destruct (cget db w). }
  destruct (seed_one_zone z w) as (id & ids & w1 & Hf1 & Hl1 & Hd1).
  { apply NoDup_app in Hnd as (_ & Hdis & _). intros Hin. apply (Hdis _ Hin). by left. }
  destruct (IH w1) as (L & w2 & Hf2 & Hl2 & Hd2).
  { rewrite Hd1. simpl. rewrite fmap_app, <- app_assoc. exact Hnd. }
  exists ((id, ids) :: L), w2. split_and!.
  - simpl. unfold tbind. by rewrite Hf1.
  - by constructor.
  - rewrite Hd2, Hd1. unfold zone_rows, zone_server_rows. simpl. by rewrite <- !app_assoc.
Qed.

Lemma type_insert_accepts did d id t :
  did ∈ dw_id <$> t_zone_discovery d -> id ∉ all_ids d ->
  if unique_in (fun t => (did, t))
       ((fun r => (at_zone_discovery_id r, at_allowed_type r)) <$> t_allowed_types d) t
  then run_statement (InsertAllowedType {| at_id := id; at_zone_discovery_id := did; at_allowed_type := t |}) d
       = Ok (with_zone_discovery d (t_zone_discovery d) (t_allowed_types d
              ++ [{| at_id := id; at_zone_discovery_id := did; at_allowed_type := t |}]))
  else exists c, run_statement
    (InsertAllowedType {| at_id := id; at_zone_discovery_id := did; at_allowed_type := t |}) d = Err c.
Proof.
  intros Hz Hid. simpl.
  rewrite (insert_row_accepts _ at_id (fun r => (at_zone_discovery_id r, at_allowed_type r))).
  - simpl. unfold unique_in. destruct (bool_decide _); [|by eexists].
    apply list_elem_of_fmap in Hz as (z & -> & Hz).
    assert (existsb (fun x => str_eqb (dw_id x) (dw_id z)) (t_zone_discovery d) = true) as ->; [|done].
    apply existsb_exists. exists z. rewrite <- list_elem_of_In. split; [done|apply str_eqb_refl].
  - intros x. unfold allowed_type_clash. simpl. f_equal. unfold str_eqb.
    repeat case_bool_decide; naive_solver.
  - apply (not_in_ids _ _ id d); [done|]. unfold all_ids. set_solver.
Qed.

Definition type_row (did id t : rstr) : AllowedTypeRow :=
  {| at_id := id; at_zone_discovery_id := did; at_allowed_type := t |}.

Lemma types_loop did types w :
  schema_ok (cget db w) -> did ∈ dw_id <$> t_zone_discovery (cget db w) -> NoDup types ->
  did ∉ at_zone_discovery_id <$> t_allowed_types (cget db w) ->
  exists ids w', for_each (insert_allowed_type db outside did) types w = (Ok tt, w')
    /\ length ids = length types
    /\ cget db w' = with_zone_discovery (cget db w) (t_zone_discovery (cget db w))
         (t_allowed_types (cget db w) ++ zip_with (type_row did) ids types).
Proof.
  intros Hok0 Hz Hnd Hnew.
  assert (NoDup (((fun r => (at_zone_discovery_id r, at_allowed_type r)) <$> t_allowed_types (cget db w))
                 ++ ((fun t => (did, t)) <$> types))) as Hkeys.
  { apply NoDup_app. split_and!; [apply Hok0| |apply NoDup_fmap_2; [by intros ? ? [= ->]|done]].
    intros k (r & -> & Hr)%list_elem_of_fmap (t & [= Hd _] & _)%list_elem_of_fmap.
    apply Hnew. rewrite <- Hd. by apply list_elem_of_fmap_2. }
  edestruct (insert_loop db outside t_allowed_types (fun d => with_zone_discovery d (t_zone_discovery d))
    InsertAllowedType (type_row did) (fun r => (at_zone_discovery_id r, at_allowed_type r))
    (fun t => (did, t)) (unique_in (fun t => (did, t))) (fun d => did ∈ dw_id <$> t_zone_discovery d))
    with (body := insert_allowed_type db outside did) (items := types) (w := w)
    as (ids & res & w' & Hf & Hl & Hd & Hok); [done|done|by intros []|done|done| | |done|].
  - intros d id t Hg Hid. by apply type_insert_accepts.
  - intros t w0. unfold insert_allowed_type, mbind.
    pose proof (quiet_v4_keeps (db := db) (outside := outside) w0) as Hk.
    destruct (new_v4 outside w0) as [id w1]. simpl in Hk |- *. rewrite execute_quiet by done. rewrite Hk.
    simpl. destruct (insert_row _ _ _); [|by eexists]. destruct (existsb _ _); [done|by eexists].
  - rewrite accepted_prefix_unique in Hl, Hd, Hok by done.
    exists ids, w'. split_and!; [|done|done]. rewrite Hf. f_equal.
    destruct res as [[]|e]; [done|]. discriminate (proj2 Hok eq_refl).
Qed.

(** The identifiers of a discovery entry and of its types. *)
Definition discovery_rows (L : list (rstr * list rstr)) (ds : list ZoneDiscoveryConfig) :
    list ZoneDiscoveryRow :=
  zip_with (fun p d => row_of_discovery (discovery_record p.1 d)) L ds.
Definition type_rows (L : list (rstr * list rstr)) (ds : list ZoneDiscoveryConfig) : list AllowedTypeRow :=
  concat (zip_with (fun p d => zip_with (type_row p.1) p.2 (zdc_allowed_types d)) L ds).

Lemma seed_one_discovery d w : schema_ok (cget db w) -> NoDup (zdc_allowed_types d) ->
  exists id ids w', seed_discovery outside repos d w = (Ok tt, w')
    /\ length ids = length (zdc_allowed_types d)
    /\ cget db w' = with_zone_discovery (cget db w)
         (t_zone_discovery (cget db w) ++ [row_of_discovery (discovery_record id d)])
         (t_allowed_types (cget db w) ++ zip_with (type_row id) ids (zdc_allowed_types d)).
Proof.
  intros Hok Hnd. pose proof (quiet_v4_fresh (db := db) (outside := outside) w) as Hfresh.
  pose proof (quiet_v4_keeps (db := db) (outside := outside) w) as Hk.
  unfold seed_discovery, mbind. destruct (new_v4 outside w) as [id w1]. simpl in Hfresh, Hk.
  unfold in_context, mmap_err. simpl. unfold discovery_create, tbind. rewrite execute_quiet by done.
  assert (id ∉ dw_id <$> t_zone_discovery (cget db w)) as Hid.
  { intros Hin. apply Hfresh. unfold all_ids. rewrite !elem_of_app. tauto. }
  assert (run_statement (InsertZoneDiscovery (row_of_discovery (discovery_record id d))) (cget db w)
    = Ok (with_zone_discovery (cget db w)
           (t_zone_discovery (cget db w) ++ [row_of_discovery (discovery_record id d)])
           (t_allowed_types (cget db w)))) as Hrun.
  { simpl. unfold insert_row. destruct (existsb _ _) eqn:He; [|done]. exfalso. apply Hid.
    apply existsb_exists in He as (x & Hx%list_elem_of_In & Hc). unfold zone_discovery_clash in Hc.
    simpl in Hc. destruct (str_eqb_spec id (dw_id x)) as [->|]; [|done]. by apply list_elem_of_fmap_2. }
  rewrite Hk, Hrun.
  edestruct (types_loop id (zdc_allowed_types d)) as (ids & w' & Hf & Hl & Hd);
    [| |exact Hnd| |simpl; rewrite Hf; exists id, ids, w'; split_and!; [done|done|]].
  - rewrite cget_cput. by eapply run_statement_schema.
  - rewrite cget_cput. simpl. rewrite fmap_app. apply elem_of_app. right. by apply list_elem_of_singleton.
  - rewrite cget_cput. simpl. intros (t & -> & Ht)%list_elem_of_fmap. apply Hid.
    pose proof (ok_type_discoveries _ Hok) as Hfk. rewrite Forall_forall in Hfk. by apply Hfk.
  - by rewrite Hd, cget_cput.
Qed.

Lemma seed_discovery_loop ds w :
  schema_ok (cget db w) -> Forall (fun d => NoDup (zdc_allowed_types d)) ds ->
  exists L w', for_each (seed_discovery outside repos) ds w = (Ok tt, w')
    /\ Forall2 (fun p d => length p.2 = length (zdc_allowed_types d)) L ds
    /\ cget db w' = with_zone_discovery (cget db w) (t_zone_discovery (cget db w) ++ discovery_rows L ds)
         (t_allowed_types (cget db w) ++ type_rows L ds).
Proof.
  assert (forall d, keeps_schema db (seed_discovery outside repos d)) as Hkeeps.
  { assert (keeps_schema db (db_fault outside)) as Hf0 by (intros w0; by rewrite quiet_fault).
    assert (keeps_schema db (new_v4 outside)) as Hv0 by (intros w0; by rewrite quiet_v4_keeps).
    pose proof (quiet_cell (db := db) (outside := outside)) as Hc0. keeps. }
  revert w. induction ds as [|d ds IH]; intros w Hok Hnd.
  { exists [], w. split_and!; [done|constructor|]. unfold discovery_rows, type_rows. simpl.
    rewrite !app_nil_r. by destruct (cget db w). }
  apply Forall_cons in Hnd as [Hd Hnd].
  destruct (seed_one_discovery d w Hok Hd) as (id & ids & w1 & Hf1 & Hl1 & Hd1).
  destruct (IH w1) as (L & w2 & Hf2 & Hl2 & Hd2); [|done|].
  { specialize (Hkeeps d w Hok). by rewrite Hf1 in Hkeeps. }
  exists ((id, ids) :: L), w2. split_and!.
  - simpl. unfold tbind. by rewrite Hf1.
  - by constructor.
  - rewrite Hd2, Hd1. unfold discovery_rows, type_rows. simpl. by rewrite <- !app_assoc.
Qed.
End seed_loops.

(** ** Reading the seeded tables *)

Lemma filter_concat_blocks {A} (ref : A -> rstr) (blocks : list (rstr * list A)) b :
  NoDup blocks.*1 -> Forall (fun p => Forall (fun x => ref x = p.1) p.2) blocks -> b ∈ blocks ->
  filter (fun x => ref x = b.1) (concat blocks.*2) = b.2.
Proof.
  induction blocks as [|p blocks IH]; intros Hnd Hall Hb; [by apply not_elem_of_nil in Hb|].
  rewrite fmap_cons, NoDup_cons in Hnd. destruct Hnd as [Hp Hnd].
  apply Forall_cons in Hall as [Hpall Hall].
  change (concat (p :: blocks).*2) with (p.2 ++ concat blocks.*2). rewrite filter_app.
  apply elem_of_cons in Hb as [->|Hb].
  - rewrite (filter_all _ _ Hpall), filter_none; [by rewrite app_nil_r|].
    apply Forall_concat, Forall_fmap. rewrite Forall_forall in Hall |- *. intros q Hq. simpl.
    eapply Forall_impl; [by apply Hall|]. intros x Hx Heq. apply Hp. rewrite <- Heq, Hx.
    by apply list_elem_of_fmap_2.
  - rewrite IH by done. rewrite filter_none; [done|]. eapply Forall_impl; [exact Hpall|].
    intros x -> Heq. apply Hp. rewrite Heq. by apply list_elem_of_fmap_2.
Qed.

(** Tables filled block by block: each owner finds its own rows. *)
Lemma own_block {P O R A} (id_of : R -> rstr) (row : P -> O -> R) (key : P -> rstr) (ref : A -> rstr)
    (blk : P -> O -> list A) (L : list P) (os : list O) i p o :
  (forall p o, id_of (row p o) = key p) -> (forall p o, Forall (fun x => ref x = key p) (blk p o)) ->
  NoDup (id_of <$> zip_with row L os) -> L !! i = Some p -> os !! i = Some o ->
  filter (fun x => ref x = key p) (concat (zip_with blk L os)) = blk p o.
Proof.
  intros Hid Hblk Hnd Hp Ho.
  set (blocks := zip_with (fun p o => (key p, blk p o)) L os).
  assert (concat (zip_with blk L os) = concat blocks.*2) as ->.
  { f_equal. unfold blocks. by rewrite fmap_zip_with. }
  apply (filter_concat_blocks ref blocks (key p, blk p o)).
  - unfold blocks. rewrite fmap_zip_with. simpl. rewrite fmap_zip_with in Hnd.
    assert (zip_with (fun p (_ : O) => key p) L os = zip_with (fun p o => id_of (row p o)) L os) as ->;
      [|done]. apply zip_with_ext; [|done|done]. intros. symmetry. apply Hid.
  - apply Forall_forall. intros q Hq. unfold blocks in Hq. apply list_elem_of_lookup in Hq as [j Hj].
    rewrite lookup_zip_with in Hj. destruct (L !! j); [|done]. simpl in Hj.
    destruct (os !! j); [|done]. simpl in Hj. simplify_eq. apply Hblk.
  - apply list_elem_of_lookup. exists i. unfold blocks. by rewrite lookup_zip_with, Hp; simpl; rewrite Ho.
Qed.

Lemma fmap_zip_pointwise {P O R B} (row : P -> O -> R) (g : R -> B) (h : O -> B) L os :
  length L = length os ->
  (forall i p o, L !! i = Some p -> os !! i = Some o -> g (row p o) = h o) ->
  g <$> zip_with row L os = h <$> os.
Proof.
  revert os. induction L as [|p L IH]; intros [|o os] Hl Hall; try done. simpl in *.
  f_equal; [by apply (Hall 0)|]. apply IH; [lia|]. intros i. apply (Hall (S i)).
Qed.

Lemma zip_ref_Forall {A B} (mk : rstr -> B -> A) (ref : A -> rstr) k ids items :
  (forall id b, ref (mk id b) = k) -> Forall (fun x => ref x = k) (zip_with mk ids items).
Proof.
  intros Hmk. apply Forall_forall. intros x Hx. by apply elem_of_zip_with_r in Hx as (a & b & -> & _).
Qed.

Lemma zones_read_back L zs :
  NoDup (zw_id <$> zone_rows L zs) -> NoDup (rz_zone <$> zs) ->
  Forall2 (fun p z => length p.2 = length (rz_servers z)) L zs ->
  Forall (fun z => (Z.of_nat (length (rz_servers z)) <= 2 ^ 31)%Z
                   /\ Forall (fun s => server_in_range (zs_server s)) (rz_servers z)) zs ->
  zone_config <$> ((fun row => zone_of_row row (merge_sort by_zone_server_order
       (filter (fun s => zsr_zone_id s = zw_id row) (zone_server_rows L zs))))
     <$> merge_sort by_zone (zone_rows L zs))
  = merge_sort by_zone_name (stored_zone <$> zs).
Proof.
  intros Hids Hnames Hlens Hrange. rewrite <- list_fmap_compose.
  set (g := zone_config ∘ _).
  assert (g <$> zone_rows L zs = stored_zone <$> zs) as Hg.
  { apply fmap_zip_pointwise; [by apply Forall2_length in Hlens|]. intros i p z Hp Hz.
    unfold g, compose, zone_config, stored_zone. simpl. f_equal.
    pose proof (own_block zw_id (fun p z => row_of_zone (zone_record p.1 z)) fst zsr_zone_id
      (fun p z => zip_with (zone_server_record p.1) p.2 (enumerate (rz_servers z))) L zs i p z) as Hown.
    unfold zone_server_rows. rewrite Hown; [|done| |exact Hids|done|done].
    2: { intros [k ids] z0. apply zip_ref_Forall. by intros id [j s]. }
    eapply Forall2_lookup_lr in Hlens; [|done..].
    eapply Forall_lookup_1 in Hrange; [|done]. destruct Hrange as [Hb Hr].
    unfold by_zone_server_order. erewrite numbered_rows_sorted;
      [|exact Hb|by intros id [j s]|apply enumerate_numbered].
    rewrite <- (enumerate_snd (rz_servers z)) at 2. rewrite <- list_fmap_compose.
    apply fmap_zip_pointwise; [by rewrite length_enumerate|]. intros j id s _ Hs.
    apply zone_server_read_back. rewrite Forall_forall in Hr. apply Hr.
    rewrite <- (enumerate_snd (rz_servers z)). apply list_elem_of_fmap_2. by eapply list_elem_of_lookup_2. }
  rewrite <- Hg. apply fmap_merge_sort; [apply _..|done|].
  intros x y Hx Hy Hxy Hyx. f_equal. eapply (NoDup_fmap_inj (rz_zone ∘ g)); [|done..|by apply str_le_antisymm].
  rewrite list_fmap_compose, Hg. by rewrite <- list_fmap_compose.
Qed.

Lemma discovery_read_back L ds :
  NoDup (dw_id <$> discovery_rows L ds) ->
  Forall (fun d => NoDup (zdc_allowed_types d)) ds ->
  Forall2 (fun p d => length p.2 = length (zdc_allowed_types d)) L ds ->
  discovery_config <$> ((fun row => discovery_of_row row (at_allowed_type <$> merge_sort by_allowed_type
       (filter (fun t => at_zone_discovery_id t = dw_id row) (type_rows L ds))))
     <$> merge_sort by_discovery_id (discovery_rows L ds))
  ≡ₚ stored_discovery <$> ds.
Proof.
  intros Hids Hnd Hlens. rewrite merge_sort_Permutation, <- list_fmap_compose.
  unfold discovery_rows. erewrite (fmap_zip_pointwise _ _ stored_discovery); [done|by apply Forall2_length in Hlens|].
  intros i p d Hp Hd. unfold compose, discovery_config, stored_discovery. simpl. rewrite build_auth_stored. f_equal.
  pose proof (own_block dw_id (fun p d => row_of_discovery (discovery_record p.1 d)) fst at_zone_discovery_id
    (fun p d => zip_with (type_row p.1) p.2 (zdc_allowed_types d)) L ds i p d) as Hown.
  unfold type_rows. rewrite Hown; [|done| |exact Hids|done|done].
  2: { intros [k ids] d0. by apply zip_ref_Forall. }
  eapply Forall2_lookup_lr in Hlens; [|done..]. unfold sort_strs.
  rewrite (fmap_merge_sort at_allowed_type by_allowed_type str_le);
    [|done|by intros x y _ _ Hxy Hyx; apply str_le_antisymm].
  f_equal. rewrite (fmap_zip_with_item _ _ id); [apply list_fmap_id|done|done].
Qed.

Lemma lists_read_back_kind kind rows (ls : list NamedList) :
  NoDup (flr_name <$> rows) -> list_config <$> filter (fun r => flr_kind r = kind) rows = stored_list <$> ls ->
  lists_of_kind kind (merge_sort by_name rows) = merge_sort by_list_name (stored_list <$> ls).
Proof.
  intros Hnd Hls. unfold lists_of_kind. rewrite <- Hls.
  rewrite filter_merge_sort.
  - apply fmap_merge_sort; [apply _..|done|]. intros x y [_ Hx]%list_elem_of_filter [_ Hy]%list_elem_of_filter Hxy Hyx.
    f_equal. eapply (NoDup_fmap_inj flr_name); [done..|]. by apply str_le_antisymm.
  - apply _.
  - apply _.
  - intros x y Hx Hy _ _ Hxy Hyx. eapply (NoDup_fmap_inj flr_name); [done..|]. by apply str_le_antisymm.
Qed.

(** ** Round trip *)

(** No operational data yet. *)
Record unseeded (d : Database) : Prop := {
  un_lists : t_filter_lists d = [];
  un_servers : t_upstream_servers d = [];
  un_zones : t_zones d = [];
  un_discovery : t_zone_discovery d = []
}.

Lemma unseeded_servers d : schema_ok d -> unseeded d -> t_zone_servers d = [].
Proof.
  intros Hok Hun. pose proof (ok_server_zones _ Hok) as Hf. rewrite (un_zones _ Hun) in Hf.
  destruct (t_zone_servers d) as [|s l]; [done|]. apply Forall_cons in Hf as [Hs _].
  by apply not_elem_of_nil in Hs.
Qed.

Lemma unseeded_types d : schema_ok d -> unseeded d -> t_allowed_types d = [].
Proof.
  intros Hok Hun. pose proof (ok_type_discoveries _ Hok) as Hf. rewrite (un_discovery _ Hun) in Hf.
  destruct (t_allowed_types d) as [|s l]; [done|]. apply Forall_cons in Hf as [Hs _].
  by apply not_elem_of_nil in Hs.
Qed.

Section roundtrip.
Context {W : Type} (db : Cell W Database) (outside : DbOutside W) `{!QuietDb db outside}.
#[local] Notation repos := (sqlx_repositories db outside).

Lemma seed_filter_lists_tables config w :
  t_filter_lists (cget db w) = [] -> NoDup (nl_name <$> dc_blocklists config ++ dc_allowlists config) ->
  exists bids aids w', seed_filter_lists outside repos config w = (Ok tt, w')
    /\ length bids = length (dc_blocklists config) /\ length aids = length (dc_allowlists config)
    /\ cget db w' = with_filter_lists (cget db w)
         (zip_with (list_record (lit "block")) bids (dc_blocklists config)
          ++ zip_with (list_record (lit "allow")) aids (dc_allowlists config)).
Proof.
  intros Hun Hnames. rewrite fmap_app in Hnames.
  destruct (seed_lists_loop db outside (lit "block") (lit "blocklist") (dc_blocklists config) w)
    as (bids & w1 & Hf1 & Hl1 & Hd1); [by left| |].
  { rewrite Hun. simpl. by apply NoDup_app in Hnames as (? & _). }
  rewrite Hun in Hd1. simpl in Hd1.
  destruct (seed_lists_loop db outside (lit "allow") (lit "allowlist") (dc_allowlists config) w1)
    as (aids & w2 & Hf2 & Hl2 & Hd2); [by right| |].
  { rewrite Hd1. simpl. by rewrite (fmap_zip_with_item _ _ nl_name). }
  exists bids, aids, w2. split_and!; [|done|done|by rewrite Hd2, Hd1].
  unfold seed_filter_lists, tbind. by rewrite Hf1.
Qed.

Lemma resolver_record_fields r record : resolver_record r = Ok record ->
  rcr_strategy record = rs_strategy r /\ rcr_bootstrap_resolvers record = rs_bootstrap_resolvers r.
Proof.
  unfold resolver_record. destruct (ttl_secs _); [|done]. destruct (ttl_secs _); [|done]. by intros [= <-].
Qed.

Lemma seed_settings_tables config record w : seedable config record ->
  exists rows w', (seed_filtering_config repos config ?;; seed_resolver_config repos config) w = (Ok tt, w')
    /\ br_address <$> merge_sort by_bootstrap_order rows = rs_bootstrap_resolvers (dc_resolvers config)
    /\ cget db w' = with_bootstrap_resolvers (with_resolver_config (with_filtering_config (cget db w)
         (filtering_record (dc_filtering config))) (resolver_row record)) rows.
Proof.
  intros Hs. pose proof (sd_record _ _ Hs) as Hrec.
  pose proof (resolver_record_fields _ _ Hrec) as [_ Hboot].
  set (w3 := cput db (with_filtering_config (cget db w) (filtering_record (dc_filtering config))) w).
  destruct (resolver_config_update_rows db outside record w3) as (rows & res & w4 & Hu & Hok4 & Hd4 & Hrows).
  { rewrite Hboot. apply Hs. }
  exists rows, w4. split_and!.
  - unfold seed_filtering_config, in_context, tbind at 1, mmap_err at 1. simpl.
    unfold filtering_config_update. rewrite execute_quiet by done. simpl. fold w3.
    unfold seed_resolver_config, tbind, mlift. unfold mret. rewrite Hrec. unfold in_context, mmap_err. simpl.
    rewrite Hu. rewrite Hboot in Hok4. destruct res as [[]|e]; [done|].
    discriminate (proj2 Hok4 (sd_bootstrap _ _ Hs)).
  - rewrite Hrows, Hboot. apply distinct_prefix_all, Hs.
  - rewrite Hd4. unfold w3. by rewrite cget_cput.
Qed.

Lemma seed_tables config record w :
  schema_ok (cget db w) -> unseeded (cget db w) -> seedable config record ->
  exists bids aids rows sids zl dl w',
    seed_if_empty outside repos config w = (Ok true, w')
    /\ length bids = length (dc_blocklists config) /\ length aids = length (dc_allowlists config)
    /\ length sids = length (rs_servers (dc_resolvers config))
    /\ Forall2 (fun p z => length p.2 = length (rz_servers z)) zl (rs_zones (dc_resolvers config))
    /\ Forall2 (fun p d => length p.2 = length (zdc_allowed_types d)) dl (rs_zone_discovery (dc_resolvers config))
    /\ br_address <$> merge_sort by_bootstrap_order rows = rs_bootstrap_resolvers (dc_resolvers config)
    /\ cget db w' =
       {| t_filter_lists := zip_with (list_record (lit "block")) bids (dc_blocklists config)
            ++ zip_with (list_record (lit "allow")) aids (dc_allowlists config);
          t_filter_cache_documents := t_filter_cache_documents (cget db w);
          t_filtering_config := filtering_record (dc_filtering config);
          t_resolver_config := resolver_row record; t_bootstrap_resolvers := rows;
          t_upstream_servers := zip_with upstream_record sids (enumerate (rs_servers (dc_resolvers config)));
          t_zones := zone_rows zl (rs_zones (dc_resolvers config));
          t_zone_servers := zone_server_rows zl (rs_zones (dc_resolvers config));
          t_zone_discovery := discovery_rows dl (rs_zone_discovery (dc_resolvers config));
          t_allowed_types := type_rows dl (rs_zone_discovery (dc_resolvers config)) |}.
Proof.
  intros Hok Hun Hs. pose proof (unseeded_servers _ Hok Hun) as Hzs. pose proof (unseeded_types _ Hok Hun) as Hts.
  assert (keeps_schema db (db_fault outside)) as Hf0 by (intros w0; by rewrite quiet_fault).
  assert (keeps_schema db (new_v4 outside)) as Hv0 by (intros w0; by rewrite quiet_v4_keeps).
  pose proof (quiet_cell (db := db) (outside := outside)) as Hc0.
  destruct (seed_filter_lists_tables config w) as (bids & aids & w2 & H1 & Hl1 & Hl2 & Hd2);
    [apply Hun|apply Hs|].
  destruct (seed_settings_tables config record w2 Hs) as (rows & w4 & H3 & Hrows & Hd4).
  destruct (seed_upstream_loop db outside (enumerate (rs_servers (dc_resolvers config))) w4)
    as (sids & w5 & H4 & Hl5 & Hd5).
  destruct (seed_zones_loop db outside (rs_zones (dc_resolvers config)) w5) as (zl & w6 & H5 & Hl6 & Hd6).
  { rewrite Hd5, Hd4, Hd2. simpl. rewrite (un_zones _ Hun). simpl. apply Hs. }
  assert (schema_ok (cget db w6)) as Hok6.
  { assert (keeps_schema db (seed_filter_lists outside repos config ?;;
      ((seed_filtering_config repos config ?;; seed_resolver_config repos config) ?;;
      (seed_upstream_servers outside repos config ?;; seed_zones outside repos config)))) as Hk by keeps.
    specialize (Hk w Hok). unfold tbind at 1 in Hk. rewrite H1 in Hk. unfold tbind at 1 in Hk.
    rewrite H3 in Hk. unfold tbind, seed_upstream_servers in Hk. rewrite H4 in Hk. unfold seed_zones in Hk. by rewrite H5 in Hk. }
  destruct (seed_discovery_loop db outside (rs_zone_discovery (dc_resolvers config)) w6)
    as (dl & w7 & H6 & Hl7 & Hd7); [done|apply Hs|].
  exists bids, aids, rows, sids, zl, dl, w7. split_and!; try done.
  - unfold seed_if_empty, tbind at 1, in_context, mmap_err. simpl. unfold filter_list_count.
    rewrite fetch_quiet by done. rewrite (un_lists _ Hun). simpl. unfold mbind, upstream_get_all_servers.
    rewrite fetch_quiet by done. rewrite (un_servers _ Hun). simpl. unfold tbind in H3 |- *.
    rewrite H1. destruct (seed_filtering_config repos config w2) as [[[]|] w3]; [|done].
    rewrite H3. unfold seed_upstream_servers. rewrite H4. unfold seed_zones. rewrite H5.
    unfold seed_zone_discovery. by rewrite H6.
  - by rewrite Hl5, length_enumerate.
  - rewrite Hd7, Hd6, Hd5, Hd4, Hd2. simpl.
    by rewrite (un_servers _ Hun), (un_zones _ Hun), (un_discovery _ Hun), Hzs, Hts.
Qed.

(** Reading the tables of a consistent database. *)
#[local] Opaque zone_get_all_with_servers discovery_get_all.
Lemma apply_db_config_quiet config w : schema_ok (cget db w) ->
  apply_db_config repos config w =
  (Ok (with_operational config
    (lists_of_kind (lit "block") (merge_sort by_name (t_filter_lists (cget db w))))
    (lists_of_kind (lit "allow") (merge_sort by_name (t_filter_lists (cget db w))))
    (Some {| fc_sinkhole_ipv4 := Some (fcfg_sinkhole_ipv4 (t_filtering_config (cget db w)));
             fc_sinkhole_ipv6 := Some (fcfg_sinkhole_ipv6 (t_filtering_config (cget db w)));
             fc_any_query_policy := Some (fcfg_any_query_policy (t_filtering_config (cget db w)));
             fc_cache := dc_filtering config ≫= fc_cache |})
    {| rs_strategy := rcw_strategy (t_resolver_config (cget db w));
       rs_bootstrap_resolvers := br_address <$> merge_sort by_bootstrap_order (t_bootstrap_resolvers (cget db w));
       rs_cache := Some {| rcc_enabled := rcw_dns_cache_enabled (t_resolver_config (cget db w));
         rcc_min_ttl := (fun s => display_Z s ++ lit "s")
           <$> rcw_dns_cache_min_ttl_seconds (t_resolver_config (cget db w));
         rcc_max_ttl := (fun s => display_Z s ++ lit "s")
           <$> rcw_dns_cache_max_ttl_seconds (t_resolver_config (cget db w));
         rcc_max_entries := None |};
       rs_zones := zone_config <$> ((fun row => zone_of_row row (merge_sort by_zone_server_order
         (filter (fun s => zsr_zone_id s = zw_id row) (t_zone_servers (cget db w)))))
         <$> merge_sort by_zone (t_zones (cget db w)));
       rs_zone_discovery := discovery_config <$> ((fun row => discovery_of_row row
         (at_allowed_type <$> merge_sort by_allowed_type
           (filter (fun t => at_zone_discovery_id t = dw_id row) (t_allowed_types (cget db w)))))
         <$> merge_sort by_discovery_id (t_zone_discovery (cget db w)));
       rs_servers := upstream_config <$> merge_sort by_upstream_order (t_upstream_servers (cget db w)) |}), w).
Proof.
  intros Hok. unfold apply_db_config, in_context, tbind, mmap_err. simpl.
  unfold filter_list_get_all, filtering_config_get. rewrite !fetch_quiet by done. simpl.
  unfold upstream_get_resolver_config, upstream_get_all_servers, tbind. rewrite !fetch_quiet by done.
  unfold mret. simpl. rewrite fetch_quiet by done. simpl. rewrite zone_get_all_quiet by done. simpl.
  by rewrite discovery_get_all_quiet.
Qed.

(** Seeding an empty database from the configuration file and loading it back, with the
    intervals as [parse_interval_secs] reads them. *)
Lemma seeded_is_loaded (config : DnsFilterConfig) (record : ResolverConfigRecord) (w : W) :
  schema_ok (cget db w) -> unseeded (cget db w) -> seedable config record ->
  exists w' discovery,
    seed_if_empty outside repos config w = (Ok true, w')
    /\ discovery ≡ₚ stored_discovery <$> rs_zone_discovery (dc_resolvers config)
    /\ apply_db_config repos config w' =
      (Ok (with_operational config
         (merge_sort by_list_name (stored_list <$> dc_blocklists config))
         (merge_sort by_list_name (stored_list <$> dc_allowlists config))
         (Some (stored_filtering (dc_filtering config)))
         {| rs_strategy := rs_strategy (dc_resolvers config);
            rs_bootstrap_resolvers := rs_bootstrap_resolvers (dc_resolvers config);
            rs_cache := Some (stored_cache record);
            rs_zones := merge_sort by_zone_name (stored_zone <$> rs_zones (dc_resolvers config));
            rs_zone_discovery := discovery;
            rs_servers := stored_upstream <$> rs_servers (dc_resolvers config) |}), w').
Proof.
  intros Hok Hun Hs.
  destruct (seed_tables config record w Hok Hun Hs)
    as (bids & aids & rows & sids & zl & dl & w' & Hseed & Hlb & Hla & Hls & Hlz & Hld & Hrows & Hd).
  assert (schema_ok (cget db w')) as Hok'.
  { replace w' with (snd (seed_if_empty outside repos config w)) by (by rewrite Hseed).
    apply seed_keeps_schema; [apply (quiet_cell (outside := outside))| | |done];
      intros w0; [by rewrite quiet_fault|by rewrite quiet_v4_keeps]. }
  pose proof (apply_db_config_quiet config w' Hok') as Happly. rewrite Hd in Hok', Happly. simpl in Happly.
  eexists w', _. split; [exact Hseed|]. split; [|rewrite Happly; do 2 f_equal].
  - apply discovery_read_back; [apply Hok'|apply Hs|exact Hld].
  - pose proof (resolver_record_fields _ _ (sd_record _ _ Hs)) as [Hstrategy _].
    unfold with_operational, stored_cache, stored_filtering. simpl. f_equal.
    + apply lists_read_back_kind; [apply Hok'|]. rewrite filter_app, filter_all, filter_none, app_nil_r.
      * by apply fmap_zip_pointwise.
      * apply Forall_forall. intros x (? & ? & -> & _)%elem_of_zip_with_r. done.
      * apply Forall_forall. intros x (? & ? & -> & _)%elem_of_zip_with_r. done.
    + apply lists_read_back_kind; [apply Hok'|]. rewrite filter_app, filter_none, filter_all.
      * by apply fmap_zip_pointwise.
      * apply Forall_forall. intros x (? & ? & -> & _)%elem_of_zip_with_r. done.
      * apply Forall_forall. intros x (? & ? & -> & _)%elem_of_zip_with_r. done.
    + f_equal; [done|done| |].
      * apply zones_read_back; [apply Hok'|apply Hs|exact Hlz|apply Hs].
      * unfold by_upstream_order. erewrite numbered_rows_sorted;
          [|apply (sd_servers_len _ _ Hs)|by intros id [i b]|apply enumerate_numbered].
        rewrite <- (enumerate_snd (rs_servers _)) at 2. rewrite <- list_fmap_compose.
        apply fmap_zip_pointwise; [by rewrite length_enumerate|]. intros i id b _ Hb.
        apply upstream_read_back. pose proof (sd_servers _ _ Hs) as Hr. rewrite Forall_forall in Hr.
        apply Hr. rewrite <- (enumerate_snd (rs_servers _)). apply list_elem_of_fmap_2.
        by eapply list_elem_of_lookup_2.
Qed.

(** A seeded database is never seeded again: with a list or a server in it the
    call reports [false] and changes nothing. *)
Theorem seed_only_once (config : DnsFilterConfig) (w : W) :
  (t_filter_lists (cget db w) <> [] \/ t_upstream_servers (cget db w) <> []) ->
  (Z.of_nat (length (t_upstream_servers (cget db w))) < 2 ^ 63)%Z ->
  seed_if_empty outside repos config w = (Ok false, w).
Proof.
  intros Hne Hlen. unfold seed_if_empty, tbind, in_context, mmap_err. simpl. unfold filter_list_count.
  rewrite fetch_quiet by done. unfold mbind, upstream_get_all_servers. rewrite fetch_quiet by done.
  unfold map_err. rewrite (Permutation_length (merge_sort_Permutation _ _)). unfold as_i64. rewrite Z.mod_small by lia.
  assert ((0 <? Z.of_nat (length (t_filter_lists (cget db w))))%Z
    || (0 <? Z.of_nat (length (t_upstream_servers (cget db w))) + 2 ^ 63 - 2 ^ 63)%Z = true) as ->; [|done].
  destruct Hne as [Hne|Hne].
  - destruct (t_filter_lists (cget db w)); [done|]. simpl. done.
  - destruct (t_upstream_servers (cget db w)); [done|]. apply orb_true_iff. right. apply Z.ltb_lt.
    simpl length. lia.
Qed.
End roundtrip.

(** ** Intervals *)

Lemma digit_head_not_minus n : match display_N n with 45%N :: _ => False | _ => True end.
Proof.
  destruct (display_N n) as [|c r] eqn:Hd; [done|].
  pose proof (display_N_digits n) as Hf. rewrite Hd in Hf. apply Forall_cons in Hf as [Hc _].
  destruct (decide (c = 45%N)) as [->|Hne]; [done|].
  destruct c as [|c]; [done|]. do 6 (destruct c as [c|c|]; try done).
Qed.

Lemma parse_i64_no_minus s :
  match s with 45%N :: _ => False | _ => True end ->
  parse_i64 s = Z.of_N <$> parse_unsigned 10 (2 ^ 63 - 1) s.
Proof.
  destruct s as [|c s]; [done|]. destruct c as [|c]; [done|]. simpl. intros H.
  do 6 (destruct c as [c|c|]; try done).
Qed.

Lemma parse_i64_display n : (n < 2 ^ 63)%N -> parse_i64 (display_N n) = Some (Z.of_N n).
Proof.
  intros Hn. rewrite parse_i64_no_minus by apply digit_head_not_minus.
  by rewrite parse_display_N by lia.
Qed.

Lemma digits_value_bad acc n u : to_digit 10 u = None -> digits_value 10 acc (display_N n ++ [u]) = None.
Proof.
  intros Hu. rewrite digits_value_app. destruct (digits_value 10 acc (display_N n)); [|done].
  simpl. by rewrite Hu.
Qed.

Lemma parse_i64_suffix n u : to_digit 10 u = None -> parse_i64 (display_N n ++ [u]) = None.
Proof.
  intros Hu. rewrite parse_i64_no_minus.
  2: { pose proof (digit_head_not_minus n) as H. pose proof (display_N_not_nil n).
       by destruct (display_N n). }
  unfold parse_unsigned. destruct (display_N n ++ [u]) as [|c s] eqn:Hs; [by destruct (display_N n)|].
  assert (match c :: s with 43%N :: rest => rest | _ => c :: s end = display_N n ++ [u]) as ->.
  { destruct (dec_digits_head (N.to_nat (N.size n)) n) as (c' & r & Hr & Hc).
    change (display_N n = c' :: r) in Hr. rewrite Hr in Hs. simplify_eq/=.
    unfold is_ascii_digit, in_range in Hc. rewrite Hr.
    destruct c as [|c]; [done|]. do 6 (destruct c as [c|c|]; try done). }
  rewrite digits_value_bad by done. by destruct (is_empty _).
Qed.

Lemma strip_suffix_snoc c u s :
  strip_suffix [c] (s ++ [u]) = if (u =? c)%N then Some s else None.
Proof.
  destruct (N.eqb_spec u c) as [->|Hne]; [apply strip_suffix_app|].
  destruct (strip_suffix [c] (s ++ [u])) as [r|] eqn:Hs; [|done].
  apply strip_suffix_Some in Hs. apply app_inj_tail in Hs as [_ ?]. by subst.
Qed.

Lemma parse_interval_secs_value n u k :
  unit_seconds u = Some k -> (n * k < 2 ^ 63)%N ->
  parse_interval_secs (Some (display_N n ++ [u]))
  = if (u =? ch "d")%N then DEFAULT_INTERVAL_SECS else Z.of_N (n * k).
Proof.
  intros Hu Hn. unfold parse_interval_secs. rewrite trim_no_whitespace.
  2: { apply Forall_app. split; [apply display_N_no_whitespace|].
       apply Forall_singleton. by eapply unit_seconds_not_whitespace. }
  assert (is_empty (display_N n ++ [u]) = false) as -> by by destruct (display_N n).
  assert (to_digit 10 u = None /\ (n < 2 ^ 63)%N) as [Hdig Hn'].
  { unfold unit_seconds in Hu. repeat case_match; simplify_eq; repeat match goal with
      | H : (_ =? _)%N = true |- _ => apply N.eqb_eq in H end; subst; (split; [by vm_compute|lia]). }
  change (lit "h") with [ch "h"]. change (lit "m") with [ch "m"]. change (lit "s") with [ch "s"].
  rewrite !strip_suffix_snoc, parse_i64_suffix by done. unfold unit_seconds in Hu.
  destruct (N.eqb_spec u (ch "s")) as [->|]; [|destruct (N.eqb_spec u (ch "m")) as [->|];
    [|destruct (N.eqb_spec u (ch "h")) as [->|]; [|by destruct (N.eqb_spec u (ch "d")) as [->|]]]];
    simplify_eq; simpl; rewrite parse_i64_display by done; simpl; unfold as_i64;
    rewrite ?Z.mod_small by lia; lia.
Qed.

(** The interval of a list as it comes back from the database. *)
Definition stored_interval (interval : option rstr) : rstr :=
  display_Z (parse_interval_secs interval) ++ lit "s".

Lemma stored_interval_value n u k : unit_seconds u = Some k -> (n * k < 2 ^ 63)%N ->
  parse_interval (display_N n ++ [u]) = Ok (n * k)%N.
Proof.
  intros Hu Hn. apply parse_interval_value; unfold u64_modulus; [|done|lia].
  unfold unit_seconds in Hu. repeat case_match; simplify_eq; lia.
Qed.

Lemma parse_stored z : (0 <= z < 2 ^ 63)%Z -> parse_interval (display_Z z ++ lit "s") = Ok (Z.to_N z).
Proof.
  intros Hz. unfold display_Z. replace (z <? 0)%Z with false by lia.
  change (lit "s") with [ch "s"].
  destruct (parse_interval_value (Z.to_N z) (ch "s") 1) as [_ H]; [unfold u64_modulus; lia|done|].
  rewrite H; [f_equal; lia|]. unfold u64_modulus. lia.
Qed.

(** What becomes of a refresh interval in the database: seconds, minutes and hours
    mean the same when loaded back, a missing interval becomes the default one, but an
    interval in days, which the configuration accepts, is replaced by the twelve hours of
    the default. *)
Theorem stored_interval_meaning (n u k : N) :
  unit_seconds u = Some k -> (n * k < 2 ^ 63)%N ->
  parse_interval (display_N n ++ [u]) = Ok (n * k)%N
  /\ parse_interval (stored_interval (Some (display_N n ++ [u])))
     = Ok (if (u =? ch "d")%N then DEFAULT_LIST_INTERVAL_SECS else n * k)%N
  /\ parse_interval (stored_interval None) = Ok DEFAULT_LIST_INTERVAL_SECS.
Proof.
  intros Hu Hn. split_and!.
  - by apply stored_interval_value.
  - unfold stored_interval. rewrite (parse_interval_secs_value _ _ _ Hu Hn).
    destruct (u =? ch "d")%N; [by vm_compute|]. rewrite parse_stored by lia. f_equal. lia.
  - by vm_compute.
Qed.

(** *** Round trip

    What a text of a duration means, independently of the readers: a decimal number and the
    letter of a unit. *)
Definition duration (text : rstr) (u : rchar) (secs : N) : Prop :=
  exists n k, unit_seconds u = Some k /\ text = display_N n ++ [u] /\ secs = (n * k)%N /\ (secs < 2 ^ 63)%N.

(** A refresh interval in seconds, minutes or hours, or none, which means twelve hours. *)
Definition list_interval (interval : option rstr) (secs : N) : Prop :=
  match interval with
  | None => secs = (12 * 3600)%N
  | Some text => exists u, u <> ch "d" /\ duration text u secs
  end.

Definition cache_ttl (ttl : option rstr) (secs : option N) : Prop :=
  match ttl, secs with
  | None, None => True
  | Some text, Some secs => exists u, duration text u secs
  | _, _ => False
  end.

(** A list with its defaults filled in and its interval in seconds. *)
Definition kept_list (l : NamedList) (secs : N) : NamedList :=
  {| nl_name := nl_name l; nl_url := nl_url l; nl_interval := Some (display_N secs ++ lit "s");
     nl_enabled := Some (default true (nl_enabled l));
     nl_list_type := Some (default (lit "adguard") (nl_list_type l)) |}.

(** A configuration the tables can hold: names, addresses and types without repetition,
    fewer entries than the order column counts, intervals of lists in seconds, minutes or
    hours, cache times with any unit, and no bound on the entries of the cache, for which
    there is no column. *)
Record storable (c : DnsFilterConfig) (bsecs asecs : list N) (min_ttl max_ttl : option N) : Prop := {
  st_lists : NoDup (nl_name <$> dc_blocklists c ++ dc_allowlists c);
  st_blocks : Forall2 (fun l => list_interval (nl_interval l)) (dc_blocklists c) bsecs;
  st_allows : Forall2 (fun l => list_interval (nl_interval l)) (dc_allowlists c) asecs;
  st_min_ttl : cache_ttl (rs_cache (dc_resolvers c) ≫= rcc_min_ttl) min_ttl;
  st_max_ttl : cache_ttl (rs_cache (dc_resolvers c) ≫= rcc_max_ttl) max_ttl;
  st_entries : rs_cache (dc_resolvers c) ≫= rcc_max_entries = None;
  st_bootstrap : NoDup (rs_bootstrap_resolvers (dc_resolvers c));
  st_bootstrap_len : (Z.of_nat (length (rs_bootstrap_resolvers (dc_resolvers c))) <= 2 ^ 31)%Z;
  st_servers_len : (Z.of_nat (length (rs_servers (dc_resolvers c))) <= 2 ^ 31)%Z;
  st_servers : Forall upstream_in_range (rs_servers (dc_resolvers c));
  st_zones : NoDup (rz_zone <$> rs_zones (dc_resolvers c));
  st_zone_servers : Forall (fun z => (Z.of_nat (length (rz_servers z)) <= 2 ^ 31)%Z
                              /\ Forall (fun s => server_in_range (zs_server s)) (rz_servers z))
                      (rs_zones (dc_resolvers c));
  st_types : Forall (fun d => NoDup (zdc_allowed_types d)) (rs_zone_discovery (dc_resolvers c))
}.

Lemma duration_secs text u secs : u <> ch "d" -> duration text u secs ->
  parse_interval_secs (Some text) = Z.of_N secs.
Proof.
  intros Hd (n & k & Hu & -> & -> & Hn). rewrite (parse_interval_secs_value _ _ _ Hu Hn).
  by destruct (N.eqb_spec u (ch "d")).
Qed.

Lemma duration_interval text u secs : duration text u secs -> parse_interval text = Ok secs.
Proof. intros (n & k & Hu & -> & -> & Hn). by apply (stored_interval_value n u k). Qed.

Lemma stored_is_kept lists secs :
  Forall2 (fun l => list_interval (nl_interval l)) lists secs ->
  stored_list <$> lists = zip_with kept_list lists secs.
Proof.
  induction 1 as [|l n lists secs Hl _ IH]; [done|]. simpl. f_equal; [|exact IH].
  unfold stored_list, kept_list. f_equal. do 2 f_equal.
  assert (parse_interval_secs (nl_interval l) = Z.of_N n) as ->.
  { destruct (nl_interval l) as [text|]; [|by rewrite Hl]. destruct Hl as (u & Hu & Hd).
    by eapply duration_secs. }
  unfold display_Z. replace (Z.of_N n <? 0)%Z with false by lia. by rewrite N2Z.id.
Qed.

Lemma cache_ttl_secs ttl secs : cache_ttl ttl secs -> ttl_secs ttl = Ok (Z.of_N <$> secs).
Proof.
  unfold ttl_secs. destruct ttl as [text|], secs as [n|]; try done. intros [u Hd]. simpl.
  rewrite (duration_interval _ _ _ Hd). simpl. do 2 f_equal.
  destruct Hd as (m & k & _ & _ & _ & Hn). unfold as_i64. rewrite Z.mod_small; lia.
Qed.

Section seeded.
Context {W : Type} (db : Cell W Database) (outside : DbOutside W) `{!QuietDb db outside}.
#[local] Notation repos := (sqlx_repositories db outside).

(** C14. On a database that answers, seeding its empty tables from the configuration file
    and loading them back gives the operational sections of the file: every list with the
    same refresh interval in seconds, the same filtering and cache settings with their
    defaults filled in, every server, zone and discovery entry, servers and bootstrap
    resolvers in the order of the file; the other sections are untouched.  Left out are what
    the tables cannot hold: repeated names, a bound on the entries of the cache, and
    refresh intervals in days. *)
Theorem seed_then_load (config : DnsFilterConfig) (bsecs asecs : list N) (min_ttl max_ttl : option N) (w : W) :
  schema_ok (cget db w) -> unseeded (cget db w) -> storable config bsecs asecs min_ttl max_ttl ->
  exists w' discovery,
    seed_if_empty outside repos config w = (Ok true, w')
    /\ discovery ≡ₚ stored_discovery <$> rs_zone_discovery (dc_resolvers config)
    /\ apply_db_config repos config w' =
      (Ok (with_operational config
         (merge_sort by_list_name (zip_with kept_list (dc_blocklists config) bsecs))
         (merge_sort by_list_name (zip_with kept_list (dc_allowlists config) asecs))
         (Some (stored_filtering (dc_filtering config)))
         {| rs_strategy := rs_strategy (dc_resolvers config);
            rs_bootstrap_resolvers := rs_bootstrap_resolvers (dc_resolvers config);
            rs_cache := Some {| rcc_enabled := from_option rcc_enabled true (rs_cache (dc_resolvers config));
                                rcc_min_ttl := (fun s => display_N s ++ lit "s") <$> min_ttl;
                                rcc_max_ttl := (fun s => display_N s ++ lit "s") <$> max_ttl;
                                rcc_max_entries := None |};
            rs_zones := merge_sort by_zone_name (stored_zone <$> rs_zones (dc_resolvers config));
            rs_zone_discovery := discovery;
            rs_servers := stored_upstream <$> rs_servers (dc_resolvers config) |}), w').
Proof.
  intros Hok Hun [].
  set (record := {| rcr_strategy := rs_strategy (dc_resolvers config);
    rcr_bootstrap_resolvers := rs_bootstrap_resolvers (dc_resolvers config);
    rcr_dns_cache_enabled := from_option rcc_enabled true (rs_cache (dc_resolvers config));
    rcr_dns_cache_min_ttl_seconds := Z.of_N <$> min_ttl;
    rcr_dns_cache_max_ttl_seconds := Z.of_N <$> max_ttl |}).
  assert (seedable config record) as Hs.
  { split; try done. unfold resolver_record. by rewrite (cache_ttl_secs _ _ st_min_ttl0), (cache_ttl_secs _ _ st_max_ttl0). }
  destruct (seeded_is_loaded db outside config record w Hok Hun Hs) as (w' & discovery & Hseed & Hd & Hload).
  exists w', discovery. split; [done|]. split; [done|]. rewrite Hload. unfold stored_cache, record. simpl.
  rewrite (stored_is_kept _ _ st_blocks0), (stored_is_kept _ _ st_allows0).
  assert (forall o : option N, (fun s => display_Z s ++ lit "s") <$> (Z.of_N <$> o) = (fun s => display_N s ++ lit "s") <$> o)
    as Hdisp by (intros [n|]; [|done]; simpl; unfold display_Z; replace (Z.of_N n <? 0)%Z with false by lia;
                 by rewrite N2Z.id).
  by rewrite !Hdisp.
Qed.
End seeded.

(** ** Witnesses *)

Definition ex_server : ServerConfig :=
  {| sc_enabled := true; sc_protocol := lit "dns"; sc_address := lit "9.9.9.9:53";
     sc_authentication := None; sc_max_hops := Some 12%N; sc_nameserver_ip_family := None;
     sc_root_hints_path := None; sc_root_key_path := None; sc_dnssec := None |}.

Definition ex_dns_config : DnsFilterConfig :=
  {| dc_listen := {| lc_dns := None; lc_dot := None; lc_doh := None; lc_doq := None; lc_admin := None;
                     lc_metrics := None |};
     dc_blocklists := [{| nl_name := lit "ads"; nl_url := lit "https://lists.example/ads.txt";
                          nl_interval := Some (lit "6h"); nl_enabled := None; nl_list_type := None |}];
     dc_allowlists := [{| nl_name := lit "work"; nl_url := lit "https://lists.example/work.txt";
                          nl_interval := None; nl_enabled := Some false;
                          nl_list_type := Some (lit "domains") |}];
     dc_filtering := None;
     dc_resolvers :=
       {| rs_strategy := lit "failover"; rs_bootstrap_resolvers := [lit "1.1.1.1"];
          rs_cache := Some {| rcc_enabled := true; rcc_min_ttl := Some (lit "1m"); rcc_max_ttl := None;
                              rcc_max_entries := Some 10 |};
          rs_zones := [{| rz_zone := lit "corp.example"; rz_enabled := true; rz_bypass_filter := true;
                          rz_fallback_to_default_resolvers := false; rz_strategy := None;
                          rz_servers := [{| zs_server := ex_server; zs_check_interval := None |}] |}];
          rs_zone_discovery := [];
          rs_servers := [{| us_server := ex_server; us_bind_address := None; us_fwmark := Some 7%N |}] |};
     dc_plugins := [];
     dc_logging := {| lg_syslog := None; lg_file := None; lg_stdout := None |};
     dc_security := None; dc_api := None; dc_control := None; dc_mcp := None; dc_database := None;
     dc_outbound := None |}.

Lemma ex_server_in_range : server_in_range ex_server.
Proof. intros h [= <-]. lia. Qed.

Lemma ex_initial_ok : schema_ok (initial_database (lit "b1")).
Proof. constructor; simpl; repeat (constructor || apply not_elem_of_nil || apply NoDup_singleton). Qed.

(** The example configuration without a bound on the cache. *)
Definition ex_storable_config : DnsFilterConfig :=
  with_operational ex_dns_config (dc_blocklists ex_dns_config) (dc_allowlists ex_dns_config) None
    {| rs_strategy := lit "failover"; rs_bootstrap_resolvers := [lit "1.1.1.1"];
       rs_cache := Some {| rcc_enabled := true; rcc_min_ttl := Some (lit "1m"); rcc_max_ttl := Some (lit "1d");
                           rcc_max_entries := None |};
       rs_zones := rs_zones (dc_resolvers ex_dns_config); rs_zone_discovery := [];
       rs_servers := rs_servers (dc_resolvers ex_dns_config) |}.

Lemma ex_storable : storable ex_storable_config [21600%N] [43200%N] (Some 60%N) (Some 86400%N).
Proof.
  constructor; simpl.
  - by apply (bool_decide_unpack _).
  - constructor; [|constructor]. exists (ch "h"). split; [done|]. by exists 6%N, 3600%N.
  - by constructor.
  - exists (ch "m"). by exists 1%N, 60%N.
  - exists (ch "d"). by exists 1%N, 86400%N.
  - done.
  - by apply (bool_decide_unpack _).
  - lia.
  - lia.
  - repeat constructor; [apply ex_server_in_range|]. intros m [= <-]. lia.
  - by apply (bool_decide_unpack _).
  - repeat constructor; simpl; [lia|apply ex_server_in_range].
  - constructor.
Qed.

Lemma seed_then_load_witness :
  exists w' discovery,
    seed_if_empty ex_db_outside (sqlx_repositories ex_db ex_db_outside) ex_storable_config
      (initial_database (lit "b1")) = (Ok true, w')
    /\ discovery ≡ₚ stored_discovery <$> rs_zone_discovery (dc_resolvers ex_storable_config).
Proof.
  destruct (seed_then_load ex_db ex_db_outside ex_storable_config [21600%N] [43200%N] (Some 60%N) (Some 86400%N)
    (initial_database (lit "b1")) ex_initial_ok ltac:(by split) ex_storable) as (w' & discovery & Hs & Hp & _).
  exists w', discovery. split; [exact Hs|exact Hp].
Defined.

Definition ex_listed : Database :=
  with_filter_lists (initial_database (lit "b1"))
    [list_record (lit "block") (lit "l1")
       {| nl_name := lit "ads"; nl_url := lit "https://lists.example/ads.txt"; nl_interval := None;
          nl_enabled := None; nl_list_type := None |}].

Lemma seed_only_once_witness :
  seed_if_empty ex_db_outside (sqlx_repositories ex_db ex_db_outside) ex_dns_config ex_listed
  = (Ok false, ex_listed).
Proof. apply (seed_only_once ex_db ex_db_outside ex_dns_config ex_listed); [by left|simpl; lia]. Defined.

Lemma stored_interval_meaning_witness :
  parse_interval (stored_interval (Some (display_N 6 ++ [ch "h"]))) = Ok 21600%N.
Proof. apply (stored_interval_meaning 6 (ch "h") 3600); [reflexivity|vm_compute; reflexivity]. Defined.
