(* ===== verification/ServerOperations.v ===== *)
(** * Server operations

    [use_cases/server_operations.rs]: what the management interfaces (HTTP API, MCP and
    control socket) can do.  Read operations look at the filter, the metrics, the query
    log and the zones; the others validate a request, change the database and ask for a
    reload.  The [url] crate is a parameter ([UrlParser]). *)

From S2P Require Import Prelude RustStr RustNet Metrics FilterEngine Upstream ZoneForwarding ZoneRegistry.
From S2P Require Import ConfigBootstrap Schema Repositories ConfigDb.

Inductive ServerOperationError : Type :=
| NotFound (message : rstr)
| Unavailable (message : rstr)
| InvalidInput (message : rstr)
| Internal (message : rstr)
| ChannelClosed.

(** The [Display] implementation. *)
Definition display_error (e : ServerOperationError) : rstr :=
  match e with
  | NotFound m => lit "not found: " ++ m
  | Unavailable m => lit "unavailable: " ++ m
  | InvalidInput m => lit "invalid input: " ++ m
  | Internal m => lit "internal error: " ++ m
  | ChannelClosed => lit "reload channel closed; reload handler not running"
  end.

(** [From<anyhow::Error>]: the whole chain of messages, [{e:#}]. *)
Definition from_anyhow (e : Error) : ServerOperationError := Internal (join_str (lit ": ") e).

Abbreviation OpResult A := (result A ServerOperationError).

(** ** Inputs *)

Record AuthenticationInput : Type := {
  ai_token : option rstr; ai_username : option rstr; ai_password : option rstr
}.

Record CreateFilterListInput : Type := {
  cfl_name : rstr; cfl_url : rstr; cfl_interval : option rstr; cfl_enabled : option bool;
  cfl_list_type : option rstr
}.

Record UpdateFilterListInput : Type := {
  ufl_url : option rstr; ufl_interval : option rstr; ufl_enabled : option bool;
  ufl_list_type : option rstr
}.

Record CreateUpstreamServerInput : Type := {
  cus_enabled : option bool; cus_protocol : rstr; cus_address : rstr;
  cus_authentication : option AuthenticationInput; cus_max_hops : option N;
  cus_nameserver_ip_family : option rstr; cus_root_hints_path : option rstr;
  cus_root_key_path : option rstr; cus_dnssec : option bool; cus_bind_address : option rstr;
  cus_fwmark : option N; cus_sort_order : option Z
}.

(** For [bind_address] and [fwmark], [Some None] is an explicit [null]. *)
Record UpdateUpstreamServerInput : Type := {
  uus_enabled : option bool; uus_protocol : option rstr; uus_address : option rstr;
  uus_authentication : option AuthenticationInput; uus_max_hops : option N;
  uus_nameserver_ip_family : option rstr; uus_root_hints_path : option rstr;
  uus_root_key_path : option rstr; uus_dnssec : option bool;
  uus_bind_address : option (option rstr); uus_fwmark : option (option N);
  uus_sort_order : option Z
}.

Record UpdateResolverConfigInput : Type := {
  urc_strategy : option rstr; urc_bootstrap_resolvers : option (list rstr);
  urc_dns_cache_enabled : option bool; urc_dns_cache_min_ttl : option (option rstr);
  urc_dns_cache_max_ttl : option (option rstr)
}.

Record CreateZoneServerInput : Type := {
  czs_enabled : option bool; czs_protocol : rstr; czs_address : rstr;
  czs_authentication : option AuthenticationInput; czs_check_interval : option rstr;
  czs_max_hops : option N; czs_nameserver_ip_family : option rstr;
  czs_root_hints_path : option rstr; czs_root_key_path : option rstr; czs_dnssec : option bool
}.

Record CreateZoneInput : Type := {
  cz_zone : rstr; cz_enabled : option bool; cz_bypass_filter : option bool;
  cz_fallback_to_default_resolvers : option bool; cz_strategy : option rstr;
  cz_servers : option (list CreateZoneServerInput)
}.

Record UpdateZoneInput : Type := {
  uz_enabled : option bool; uz_bypass_filter : option bool;
  uz_fallback_to_default_resolvers : option bool; uz_strategy : option rstr;
  uz_servers : option (list CreateZoneServerInput)
}.

Record CreateZoneDiscoveryInput : Type := {
  czd_enabled : option bool; czd_address : rstr; czd_check_interval : option rstr;
  czd_allowed_types : option (list rstr); czd_bypass_filter : option bool;
  czd_fallback_to_default_resolvers : option bool;
  czd_authentication : option AuthenticationInput
}.

Record UpdateZoneDiscoveryInput : Type := {
  uzd_enabled : option bool; uzd_address : option rstr; uzd_check_interval : option rstr;
  uzd_allowed_types : option (list rstr); uzd_bypass_filter : option bool;
  uzd_fallback_to_default_resolvers : option bool;
  uzd_authentication : option AuthenticationInput
}.

(** ** Validation *)

Definition validate_list_name (name : rstr) : OpResult unit :=
  if is_empty name then Err (InvalidInput (lit "name must not be empty"))
  else if negb (forallb (fun c => is_ascii_alphanumeric c || (c =? ch "-")%N || (c =? ch "_")%N) name)
  then Err (InvalidInput (lit "name must contain only ASCII alphanumeric characters, hyphens, and underscores"))
  else Ok tt.

Definition validate_url (url : rstr) : OpResult unit :=
  if is_empty url then Err (InvalidInput (lit "url must not be empty"))
  else if negb (starts_with (lit "http://") url) && negb (starts_with (lit "https://") url)
          && negb (starts_with (lit "file://") url)
  then Err (InvalidInput (lit "url must start with http://, https://, or file://"))
  else Ok tt.

(** A [match] of a string against literals. *)
Definition one_of (values : list string) (s : rstr) : bool :=
  existsb (fun v => str_eqb s (lit v)) values.

Definition validate_list_type (list_type : rstr) : OpResult unit :=
  if one_of ["adguard"; "hosts"; "rpz"; "domains"; "wildcard"]%string list_type then Ok tt
  else Err (InvalidInput (lit "invalid list_type '" ++ list_type
              ++ lit "'; must be one of: adguard, hosts, rpz, domains, wildcard")).

Definition validate_zone_name (zone : rstr) : OpResult unit :=
  if is_empty zone then Err (InvalidInput (lit "zone name must not be empty"))
  else if negb (forallb (fun c => is_ascii_alphanumeric c || (c =? ch ".")%N || (c =? ch "-")%N) zone)
  then Err (InvalidInput (lit "zone name must contain only ASCII alphanumeric characters, dots, and hyphens"))
  else Ok tt.

Definition validate_protocol (protocol : rstr) : OpResult unit :=
  if one_of ["dns"; "dot"; "doh"; "doq"; "recursive"; "json"]%string protocol then Ok tt
  else Err (InvalidInput (lit "invalid protocol '" ++ protocol
              ++ lit "'; must be one of: dns, dot, doh, doq, recursive, json")).

Definition validate_upstream_protocol (protocol : rstr) : OpResult unit :=
  if one_of ["dns"; "dot"; "doh"; "doq"; "recursive"]%string protocol then Ok tt
  else Err (InvalidInput (lit "invalid upstream protocol '" ++ protocol
              ++ lit "'; must be one of: dns, dot, doh, doq, recursive")).

Definition validate_upstream_strategy (strategy : rstr) : OpResult unit :=
  if one_of ["round_robin"; "random"; "failover"]%string strategy then Ok tt
  else Err (InvalidInput (lit "invalid strategy '" ++ strategy
              ++ lit "'; must be one of: round_robin, random, failover")).

Definition validate_bootstrap_resolver_address (value : rstr) : OpResult unit :=
  if bool_decide (is_Some (parse_socket_addr value)) || bool_decide (is_Some (parse_ip value))
  then Ok tt
  else Err (InvalidInput (lit "invalid bootstrap resolver address '" ++ value
              ++ lit "'; expected <ip> or <ip>:port")).

(** [for v in values { check(v)?; }]. *)
Fixpoint validate_all (check : rstr -> OpResult unit) (values : list rstr) : OpResult unit :=
  match values with
  | [] => Ok tt
  | v :: rest => let? _ := check v in validate_all check rest
  end.

Definition validate_bootstrap_resolvers (values : list rstr) : OpResult unit :=
  if is_empty values
  then Err (InvalidInput (lit "bootstrap_resolvers must contain at least one entry"))
  else validate_all validate_bootstrap_resolver_address values.

Definition i64_max : Z := 2 ^ 63 - 1.
Definition i32_max : Z := 2 ^ 31 - 1.

Definition parse_cache_ttl_secs (value : option rstr) (field_name : rstr) : OpResult (option Z) :=
  match value with
  | None => Ok None
  | Some value =>
      let trimmed := trim value in
      if is_empty trimmed then Err (InvalidInput (field_name ++ lit " must not be empty"))
      else
        let? duration :=
          map_err (fun e => InvalidInput (lit "invalid " ++ field_name ++ lit ": " ++ trimmed
                                          ++ lit " (" ++ shown e ++ lit ")")) (parse_interval trimmed) in
        if (Z.of_N duration <=? i64_max)%Z then Ok (Some (Z.of_N duration))
        else Err (InvalidInput (field_name ++ lit " is too large; maximum supported value is "
                                ++ display_Z i64_max ++ lit " seconds"))
  end.

Definition validate_resolver_cache_bounds (min_ttl_seconds max_ttl_seconds : option Z) : OpResult unit :=
  match min_ttl_seconds, max_ttl_seconds with
  | Some min, Some max =>
      if (max <? min)%Z
      then Err (InvalidInput (lit "dns_cache_min_ttl must be less than or equal to dns_cache_max_ttl"))
      else Ok tt
  | _, _ => Ok tt
  end.

(** What the code uses of the [url] crate. *)
Record UrlParser : Type := {
  up_url : Type;
  up_parse : rstr -> result up_url rstr;
  up_scheme : up_url -> rstr;
  up_host_str : up_url -> option rstr
}.

Definition validate_upstream_address (urls : UrlParser) (protocol address : rstr) : OpResult unit :=
  if is_empty (trim address) then Err (InvalidInput (lit "upstream address must not be empty"))
  else if str_eqb protocol (lit "doh") then
    let? url := map_err (fun e => InvalidInput (lit "invalid DoH upstream address '" ++ address
                                                ++ lit "': " ++ e)) (up_parse urls address) in
    if negb (str_eqb (up_scheme urls url) (lit "https"))
    then Err (InvalidInput (lit "DoH upstream address must use https:// scheme, got '"
                            ++ up_scheme urls url ++ lit "': " ++ address))
    else match up_host_str urls url with
         | None => Err (InvalidInput (lit "DoH upstream address must include a host: " ++ address))
         | Some _ => Ok tt
         end
  else Ok tt.

Definition validate_bind_address (bind_address : option rstr) : OpResult unit :=
  match bind_address with
  | None => Ok tt
  | Some b =>
      let? _ := ok_or (parse_ip b)
                  (InvalidInput (lit "invalid bind_address '" ++ b
                                 ++ lit "'; must be an IPv4 or IPv6 address")) in Ok tt
  end.

Definition validate_sort_order (sort_order : Z) : OpResult Z :=
  if (sort_order <? 0)%Z then Err (InvalidInput (lit "sort_order must be zero or greater"))
  else Ok sort_order.

Definition parse_single_fwmark (fwmark : N) : OpResult Z :=
  if (Z.of_N fwmark <=? i32_max)%Z then Ok (Z.of_N fwmark)
  else Err (InvalidInput (lit "invalid fwmark '" ++ display_N fwmark ++ lit "'; must be <= "
                          ++ display_Z i32_max)).

Definition parse_fwmark (fwmark : option N) : OpResult (option Z) :=
  transpose (parse_single_fwmark <$> fwmark).

Definition validate_allowed_type (allowed_type : rstr) : OpResult unit :=
  if one_of ["forward"; "reverse"; "reverse-aggregate"]%string allowed_type then Ok tt
  else Err (InvalidInput (lit "invalid allowed_type '" ++ allowed_type
              ++ lit "'; must be one of: forward, reverse, reverse-aggregate")).

(** [parse_interval_secs] and its default are the same text as in [seed.rs]. *)

(** [if let Some(x) = input { check(&x)?; record.field = x; }]. *)
Definition patch {A} (check : A -> OpResult unit) (input : option A) (old : A) : OpResult A :=
  match input with
  | Some x => let? _ := check x in Ok x
  | None => Ok old
  end.

(** ** Results *)

Record DeleteResult : Type := { deleted : rstr }.
Record DnsLookupResult : Type := {
  dl_domain : rstr; dl_decision : rstr; dl_filtering_enabled : bool
}.
Record FilterStatusResult : Type := { fs_filtering_enabled : bool }.
Record FilterToggleResult : Type := { ft_filtering_enabled : bool; ft_message : rstr }.
(** The latency sum of [UpstreamStatsEntry] is the one of [Metrics.UpstreamSnapshot]. *)
Record StatsResult : Type := {
  sr_uptime_seconds : N; sr_filtering_enabled : bool; sr_queries_total : N;
  sr_queries_blocked : N; sr_queries_allowed : N; sr_queries_passthrough : N;
  sr_blocklist_hits_total : N; sr_cache_hits_total : N; sr_cache_misses_total : N;
  sr_upstreams : list UpstreamSnapshot; sr_lists : list ListInfo
}.
Record QueryLogResult : Type := {
  qr_total : nat; qr_max_entries : nat; qr_entries : list QueryLogEntry
}.
Record HealthResult : Type := {
  hr_status : rstr; hr_version : rstr; hr_uptime_seconds : N; hr_filtering_enabled : bool
}.
Record ListActionResult : Type := { la_list : rstr; la_enabled : bool }.
Record RefreshResult : Type := { rr_list : rstr; rr_status : rstr }.
Record RefreshAllResult : Type := { lists_refreshing : list rstr }.
Record ReloadResult : Type := { rl_status : rstr; rl_message : rstr }.
Record ZoneListResult : Type := { zl_zones : list ZoneInfo; zl_total : nat }.
Record ZoneSearchResultList : Type := {
  zq_query : rstr; zq_results : list ZoneSearchResult; zq_total_matches : nat; zq_limit : nat
}.

(** ** State *)

(** What management asks of a [DomainFilter]. *)
Record FilterControl (W : Type) : Type := {
  ctl_decide : rstr -> M W FilterDecision;
  ctl_list_names : M W (list ListInfo);
  ctl_disable_list : rstr -> M W bool;
  ctl_enable_list : rstr -> M W bool;
  ctl_refresh_list : rstr -> M W bool;
  ctl_refresh_all_lists : M W (list rstr)
}.
Arguments ctl_decide {W} _ _ _.
Arguments ctl_list_names {W} _ _.
Arguments ctl_disable_list {W} _ _ _.
Arguments ctl_enable_list {W} _ _ _.
Arguments ctl_refresh_list {W} _ _ _.
Arguments ctl_refresh_all_lists {W} _ _.

(** A computation on the content of a cell. *)
Definition cstate {W S A} (c : Cell W S) (f : S -> A * S) : M W A :=
  fun w => let '(a, s) := f (cget c w) in (a, cput c s w).

(** The filter engine: its heap and the refresh tasks it has spawned. *)
Definition engine_control {W} (heap : Cell W EngineHeap) (spawned : Cell W (list ListRuntime))
    (e : ListFilterEngine W) : FilterControl W :=
  {| ctl_decide := fun domain => h <<- cread heap ;; mret (decide_domain h domain);
     ctl_list_names := h <<- cread heap ;; mret (list_names (e_runtimes e) h);
     ctl_disable_list := fun name => cstate heap (disable_list (e_runtimes e) name);
     ctl_enable_list := fun name => cstate heap (enable_list (e_runtimes e) name);
     ctl_refresh_list := fun name =>
       let '(found, tasks) := refresh_list (e_runtimes e) name in
       cmodify spawned (fun ts => ts ++ tasks) ;;; mret found;
     ctl_refresh_all_lists :=
       let '(names, tasks) := refresh_all_lists (e_runtimes e) in
       cmodify spawned (fun ts => ts ++ tasks) ;;; mret names |}.

(** [so_send_reload] is [reload_tx.send(()).await]: whether the receiver still listens. *)
Record ServerOperations (W : Type) : Type := {
  so_domain_filter : FilterControl W;
  so_filtering_enabled : Cell W bool;
  so_query_log : option (Cell W QueryLog);
  so_send_reload : M W bool;
  so_start_time : N;
  so_zone_registry : option (ZoneRegistry W);
  so_repos : option (Repositories W)
}.
Arguments so_domain_filter {W} _.
Arguments so_filtering_enabled {W} _.
Arguments so_query_log {W} _.
Arguments so_send_reload {W} _.
Arguments so_start_time {W} _.
Arguments so_zone_registry {W} _.
Arguments so_repos {W} _.

Definition server_operations_new {W} (domain_filter : FilterControl W) (filtering_enabled : Cell W bool)
    (query_log : option (Cell W QueryLog)) (reload_tx : M W bool) (start_time : N) : ServerOperations W :=
  {| so_domain_filter := domain_filter; so_filtering_enabled := filtering_enabled;
     so_query_log := query_log; so_send_reload := reload_tx; so_start_time := start_time;
     so_zone_registry := None; so_repos := None |}.

Definition with_zone_registry {W} (registry : ZoneRegistry W) (self : ServerOperations W) :
    ServerOperations W :=
  {| so_domain_filter := so_domain_filter self; so_filtering_enabled := so_filtering_enabled self;
     so_query_log := so_query_log self; so_send_reload := so_send_reload self;
     so_start_time := so_start_time self; so_zone_registry := Some registry;
     so_repos := so_repos self |}.

Definition with_repositories {W} (repos : Repositories W) (self : ServerOperations W) :
    ServerOperations W :=
  {| so_domain_filter := so_domain_filter self; so_filtering_enabled := so_filtering_enabled self;
     so_query_log := so_query_log self; so_send_reload := so_send_reload self;
     so_start_time := so_start_time self; so_zone_registry := so_zone_registry self;
     so_repos := Some repos |}.

Definition DEFAULT_SEARCH_LIMIT : nat := 50.
Definition MAX_SEARCH_LIMIT : nat := 500.

(** ** Operations *)

Section operations.
Context {W : Type} (metrics : Cell W MetricsGlobal) (db_outside : DbOutside W) (urls : UrlParser).
(** [SystemTime::now()] in seconds since the epoch; [None] before it. *)
Context (unix_now : M W (option N)) (CARGO_PKG_VERSION : rstr).
Context (self : ServerOperations W).

Definition uptime_secs : M W N :=
  t <<- unix_now ;; mret (default 0 t - so_start_time self)%N.

Definition decision_status (d : FilterDecision) : rstr :=
  match d with
  | FD_Allow => lit "allowed"
  | FD_Block => lit "blocked"
  | FD_Neutral => lit "neutral (passthrough)"
  end.

Definition dns_lookup (domain : rstr) : M W DnsLookupResult :=
  decision <<- ctl_decide (so_domain_filter self) domain ;;
  enabled <<- cread (so_filtering_enabled self) ;;
  mret {| dl_domain := domain; dl_decision := decision_status decision;
          dl_filtering_enabled := enabled |}.

Definition filter_status : M W FilterStatusResult :=
  enabled <<- cread (so_filtering_enabled self) ;; mret {| fs_filtering_enabled := enabled |}.

Definition set_filtering (enabled : bool) : M W FilterToggleResult :=
  cwrite (so_filtering_enabled self) enabled ;;;
  mret {| ft_filtering_enabled := enabled;
          ft_message := if enabled then lit "filtering enabled" else lit "filtering disabled" |}.

Definition list_filters : M W (list ListInfo) := ctl_list_names (so_domain_filter self).

Definition list_not_found (name : rstr) : ServerOperationError :=
  NotFound (lit "list '" ++ name ++ lit "' not found").

Definition op_refresh_list (name : rstr) : M W (OpResult RefreshResult) :=
  found <<- ctl_refresh_list (so_domain_filter self) name ;;
  mret (if found : bool then Ok {| rr_list := name; rr_status := lit "refreshing" |}
        else Err (list_not_found name)).

Definition op_refresh_all_lists : M W RefreshAllResult :=
  refreshed <<- ctl_refresh_all_lists (so_domain_filter self) ;;
  mret {| lists_refreshing := refreshed |}.

Definition get_stats : M W StatsResult :=
  g <<- cread metrics ;;
  let snapshot := metrics_snapshot g in
  uptime <<- uptime_secs ;;
  enabled <<- cread (so_filtering_enabled self) ;;
  names <<- ctl_list_names (so_domain_filter self) ;;
  mret {| sr_uptime_seconds := uptime; sr_filtering_enabled := enabled;
          sr_queries_total := ms_queries_total snapshot;
          sr_queries_blocked := ms_queries_blocked snapshot;
          sr_queries_allowed := ms_queries_allowed snapshot;
          sr_queries_passthrough := ms_queries_passthrough snapshot;
          sr_blocklist_hits_total := ms_blocklist_hits_total snapshot;
          sr_cache_hits_total := ms_cache_hits_total snapshot;
          sr_cache_misses_total := ms_cache_misses_total snapshot;
          sr_upstreams := ms_upstreams snapshot; sr_lists := names |}.

Definition get_query_log : M W (OpResult QueryLogResult) :=
  match so_query_log self with
  | None => mret (Err (Unavailable
      (lit "query logging is not enabled; set api.query_logging.enabled = true in config")))
  | Some cell =>
      log <<- cread cell ;;
      mret (Ok {| qr_total := query_log_len log; qr_max_entries := Metrics.ql_max_entries log;
                  qr_entries := Metrics.ql_entries log |})
  end.

Definition trigger_reload : M W (OpResult ReloadResult) :=
  sent <<- so_send_reload self ;;
  mret (if sent : bool
        then Ok {| rl_status := lit "triggered"; rl_message := lit "configuration reload initiated" |}
        else Err ChannelClosed).

Definition server_health : M W HealthResult :=
  uptime <<- uptime_secs ;;
  enabled <<- cread (so_filtering_enabled self) ;;
  mret {| hr_status := lit "healthy"; hr_version := CARGO_PKG_VERSION;
          hr_uptime_seconds := uptime; hr_filtering_enabled := enabled |}.

Definition op_enable_list (name : rstr) : M W (OpResult ListActionResult) :=
  found <<- ctl_enable_list (so_domain_filter self) name ;;
  mret (if found : bool then Ok {| la_list := name; la_enabled := true |}
        else Err (list_not_found name)).

Definition op_disable_list (name : rstr) : M W (OpResult ListActionResult) :=
  found <<- ctl_disable_list (so_domain_filter self) name ;;
  mret (if found : bool then Ok {| la_list := name; la_enabled := false |}
        else Err (list_not_found name)).

Definition registry_or_error : OpResult (ZoneRegistry W) :=
  ok_or (so_zone_registry self) (Internal (lit "no zones configured")).

Definition op_list_zones : M W (OpResult ZoneListResult) :=
  fun w => (let? registry := registry_or_error in
            Ok {| zl_zones := list_zones registry w; zl_total := zone_count registry |}, w).

Definition search_zone_records (query : rstr) (zone record_type : option rstr) (limit : option nat) :
    M W (OpResult ZoneSearchResultList) :=
  fun w => (let? registry := registry_or_error in
            let limit := Nat.min (default DEFAULT_SEARCH_LIMIT limit) MAX_SEARCH_LIMIT in
            let '(results, total_matches) := search_records registry query zone record_type limit w in
            Ok {| zq_query := query; zq_results := results; zq_total_matches := total_matches;
                  zq_limit := limit |}, w).

(** *** Helpers of the operations on the database *)

Definition op_repos : OpResult (Repositories W) :=
  ok_or (so_repos self) (Unavailable (lit "database not configured")).

(** A failed reload request is only logged. *)
Definition reload_after_mutation : M W unit := trigger_reload ;;; mret tt.

(** [repo.call().await.map_err(ServerOperationError::from)]. *)
Definition db_call {A} (m : M W (result A Error)) : M W (OpResult A) := mmap_err from_anyhow m.

(** [self.reload_after_mutation().await; Ok(value)]. *)
Definition reload_and_return {A} (value : A) : M W (OpResult A) :=
  reload_after_mutation ;;; mret (Ok value).

(** *** Filter lists *)

Definition list_filter_lists (kind : rstr) : M W (OpResult (list FilterListRecord)) :=
  repos <?- mlift op_repos ;;
  all <?- db_call (fl_get_all (r_filter_lists repos)) ;;
  mret (Ok (filter (fun r => flr_kind r = kind) all)).

Definition new_list_record (kind id list_type : rstr) (input : CreateFilterListInput) : FilterListRecord :=
  {| flr_id := id; flr_name := cfl_name input; flr_kind := kind; flr_url := cfl_url input;
     flr_interval_seconds := parse_interval_secs (cfl_interval input);
     flr_enabled := default true (cfl_enabled input); flr_list_type := list_type |}.

Definition add_filter_list (kind : rstr) (input : CreateFilterListInput) :
    M W (OpResult FilterListRecord) :=
  mlift (validate_list_name (cfl_name input)) ?;;
  (mlift (validate_url (cfl_url input)) ?;;
  let list_type := default (lit "adguard") (cfl_list_type input) in
  (mlift (validate_list_type list_type) ?;;
  (repos <?- mlift op_repos ;;
   existing <?- db_call (fl_get_by_name (r_filter_lists repos) (cfl_name input)) ;;
   match existing with
   | Some _ => mret (Err (InvalidInput (lit "a filter list named '" ++ cfl_name input
                                        ++ lit "' already exists")))
   | None =>
       id <<- new_v4 db_outside ;;
       let record := new_list_record kind id list_type input in
       (db_call (fl_create (r_filter_lists repos) record) ?;; reload_and_return record)
   end))).

Definition patched_list (input : UpdateFilterListInput) (r : FilterListRecord) : OpResult FilterListRecord :=
  let? url := patch validate_url (ufl_url input) (flr_url r) in
  let? list_type := patch validate_list_type (ufl_list_type input) (flr_list_type r) in
  Ok {| flr_id := flr_id r; flr_name := flr_name r; flr_kind := flr_kind r; flr_url := url;
        flr_interval_seconds := match ufl_interval input with
                                | Some i => parse_interval_secs (Some i)
                                | None => flr_interval_seconds r
                                end;
        flr_enabled := default (flr_enabled r) (ufl_enabled input); flr_list_type := list_type |}.

Definition filter_list_not_found (name : rstr) : ServerOperationError :=
  NotFound (lit "filter list '" ++ name ++ lit "' not found").

Definition update_filter_list (name : rstr) (input : UpdateFilterListInput) :
    M W (OpResult FilterListRecord) :=
  repos <?- mlift op_repos ;;
  found <?- db_call (fl_get_by_name (r_filter_lists repos) name) ;;
  old <?- mlift (ok_or found (filter_list_not_found name)) ;;
  record <?- mlift (patched_list input old) ;;
  (db_call (fl_update (r_filter_lists repos) record) ?;; reload_and_return record).

Definition delete_filter_list (name : rstr) : M W (OpResult DeleteResult) :=
  repos <?- mlift op_repos ;;
  found <?- db_call (fl_get_by_name (r_filter_lists repos) name) ;;
  record <?- mlift (ok_or found (filter_list_not_found name)) ;;
  (db_call (fl_delete (r_filter_lists repos) (flr_id record)) ?;;
   reload_and_return {| deleted := name |}).

(** *** Resolver settings and upstream servers *)

Definition list_upstream_servers : M W (OpResult (list UpstreamServerRecord)) :=
  repos <?- mlift op_repos ;; db_call (uc_get_all_servers (r_upstream_config repos)).

Definition get_resolver_config : M W (OpResult ResolverConfigRecord) :=
  repos <?- mlift op_repos ;; db_call (uc_get_resolver_config (r_upstream_config repos)).

Definition patched_ttl (input : option (option rstr)) (field : rstr) (old : option Z) :
    OpResult (option Z) :=
  match input with Some ttl => parse_cache_ttl_secs ttl field | None => Ok old end.

Definition patched_resolver (input : UpdateResolverConfigInput) (r : ResolverConfigRecord) :
    OpResult ResolverConfigRecord :=
  let? strategy := patch validate_upstream_strategy (urc_strategy input) (rcr_strategy r) in
  let? bootstrap := patch validate_bootstrap_resolvers (urc_bootstrap_resolvers input)
                      (rcr_bootstrap_resolvers r) in
  let? min_ttl := patched_ttl (urc_dns_cache_min_ttl input) (lit "dns_cache_min_ttl")
                    (rcr_dns_cache_min_ttl_seconds r) in
  let? max_ttl := patched_ttl (urc_dns_cache_max_ttl input) (lit "dns_cache_max_ttl")
                    (rcr_dns_cache_max_ttl_seconds r) in
  let? _ := validate_resolver_cache_bounds min_ttl max_ttl in
  Ok {| rcr_strategy := strategy; rcr_bootstrap_resolvers := bootstrap;
        rcr_dns_cache_enabled := default (rcr_dns_cache_enabled r) (urc_dns_cache_enabled input);
        rcr_dns_cache_min_ttl_seconds := min_ttl; rcr_dns_cache_max_ttl_seconds := max_ttl |}.

Definition update_resolver_config (input : UpdateResolverConfigInput) :
    M W (OpResult ResolverConfigRecord) :=
  repos <?- mlift op_repos ;;
  old <?- db_call (uc_get_resolver_config (r_upstream_config repos)) ;;
  record <?- mlift (patched_resolver input old) ;;
  (db_call (uc_update_resolver_config (r_upstream_config repos) record) ?;;
   reload_and_return record).

Definition new_upstream_record (id : rstr) (sort_order : Z) (fwmark : option Z)
    (input : CreateUpstreamServerInput) : UpstreamServerRecord :=
  let auth := cus_authentication input in
  {| usr_id := id; usr_enabled := default true (cus_enabled input);
     usr_protocol := cus_protocol input; usr_address := cus_address input;
     usr_auth_token := auth ≫= ai_token; usr_auth_username := auth ≫= ai_username;
     usr_auth_password := auth ≫= ai_password; usr_max_hops := Z.of_N <$> cus_max_hops input;
     usr_nameserver_ip_family := cus_nameserver_ip_family input;
     usr_root_hints_path := cus_root_hints_path input; usr_root_key_path := cus_root_key_path input;
     usr_dnssec := default true (cus_dnssec input); usr_sort_order := sort_order;
     usr_bind_address := cus_bind_address input; usr_fwmark := fwmark |}.

Definition add_upstream_server (input : CreateUpstreamServerInput) :
    M W (OpResult UpstreamServerRecord) :=
  mlift (validate_upstream_protocol (cus_protocol input)) ?;;
  (mlift (validate_upstream_address urls (cus_protocol input) (cus_address input)) ?;;
  (mlift (validate_bind_address (cus_bind_address input)) ?;;
  (fwmark <?- mlift (parse_fwmark (cus_fwmark input)) ;;
   repos <?- mlift op_repos ;;
   sort_order <?- match cus_sort_order input with
                  | Some value => mlift (validate_sort_order value)
                  | None => servers <?- db_call (uc_get_all_servers (r_upstream_config repos)) ;;
                            mret (Ok (as_i32 (Z.of_nat (length servers))))
                  end ;;
   id <<- new_v4 db_outside ;;
   let record := new_upstream_record id sort_order fwmark input in
   (db_call (uc_create_server (r_upstream_config repos) record) ?;; reload_and_return record)))).

Definition patched_upstream (input : UpdateUpstreamServerInput) (r : UpstreamServerRecord) :
    OpResult UpstreamServerRecord :=
  let? protocol := patch validate_upstream_protocol (uus_protocol input) (usr_protocol r) in
  let? address := patch (validate_upstream_address urls protocol) (uus_address input) (usr_address r) in
  let? _ := validate_upstream_address urls protocol address in
  let auth := uus_authentication input in
  let? bind_address := patch validate_bind_address (uus_bind_address input) (usr_bind_address r) in
  let? fwmark := match uus_fwmark input with
                 | Some mark => parse_fwmark mark
                 | None => Ok (usr_fwmark r)
                 end in
  let? sort_order := match uus_sort_order input with
                     | Some value => validate_sort_order value
                     | None => Ok (usr_sort_order r)
                     end in
  Ok {| usr_id := usr_id r; usr_enabled := default (usr_enabled r) (uus_enabled input);
        usr_protocol := protocol; usr_address := address;
        usr_auth_token := match auth with Some a => ai_token a | None => usr_auth_token r end;
        usr_auth_username := match auth with Some a => ai_username a | None => usr_auth_username r end;
        usr_auth_password := match auth with Some a => ai_password a | None => usr_auth_password r end;
        usr_max_hops := match uus_max_hops input with
                        | Some v => Some (Z.of_N v) | None => usr_max_hops r end;
        usr_nameserver_ip_family := union (uus_nameserver_ip_family input) (usr_nameserver_ip_family r);
        usr_root_hints_path := union (uus_root_hints_path input) (usr_root_hints_path r);
        usr_root_key_path := union (uus_root_key_path input) (usr_root_key_path r);
        usr_dnssec := default (usr_dnssec r) (uus_dnssec input); usr_sort_order := sort_order;
        usr_bind_address := bind_address; usr_fwmark := fwmark |}.

Definition upstream_not_found (id : rstr) : ServerOperationError :=
  NotFound (lit "upstream server '" ++ id ++ lit "' not found").

Definition update_upstream_server (id : rstr) (input : UpdateUpstreamServerInput) :
    M W (OpResult UpstreamServerRecord) :=
  repos <?- mlift op_repos ;;
  found <?- db_call (uc_get_server_by_id (r_upstream_config repos) id) ;;
  old <?- mlift (ok_or found (upstream_not_found id)) ;;
  record <?- mlift (patched_upstream input old) ;;
  (db_call (uc_update_server (r_upstream_config repos) record) ?;; reload_and_return record).

Definition delete_upstream_server (id : rstr) : M W (OpResult DeleteResult) :=
  repos <?- mlift op_repos ;;
  found <?- db_call (uc_get_server_by_id (r_upstream_config repos) id) ;;
  mlift (ok_or found (upstream_not_found id)) ?;;
  (db_call (uc_delete_server (r_upstream_config repos) id) ?;; reload_and_return {| deleted := id |}).

(** *** Zones *)

Definition list_zone_configs : M W (OpResult (list ZoneRecord)) :=
  repos <?- mlift op_repos ;; db_call (zn_get_all_with_servers (r_zones repos)).

Definition new_zone_server (zone_id id : rstr) (i : nat) (server : CreateZoneServerInput) :
    ZoneServerRecord :=
  let auth := czs_authentication server in
  {| zsr_id := id; zsr_zone_id := zone_id; zsr_enabled := default true (czs_enabled server);
     zsr_protocol := czs_protocol server; zsr_address := czs_address server;
     zsr_auth_token := auth ≫= ai_token; zsr_auth_username := auth ≫= ai_username;
     zsr_auth_password := auth ≫= ai_password; zsr_check_interval := czs_check_interval server;
     zsr_max_hops := (fun v => as_i32 (Z.of_N v)) <$> czs_max_hops server;
     zsr_nameserver_ip_family := czs_nameserver_ip_family server;
     zsr_root_hints_path := czs_root_hints_path server; zsr_root_key_path := czs_root_key_path server;
     zsr_dnssec := default true (czs_dnssec server); zsr_sort_order := as_i32 (Z.of_nat i) |}.

(** One round of the loop over the servers of a zone. *)
Definition add_zone_server (repos : Repositories W) (zone_id : rstr)
    (entry : nat * CreateZoneServerInput) : M W (OpResult ZoneServerRecord) :=
  mlift (validate_protocol (czs_protocol entry.2)) ?;;
  (id <<- new_v4 db_outside ;;
   let rec := new_zone_server zone_id id entry.1 entry.2 in
   (db_call (zn_create_zone_server (r_zones repos) rec) ?;; mret (Ok rec))).

(** [ZoneRecord { servers, ..record }]. *)
Definition with_servers (servers : list ZoneServerRecord) (r : ZoneRecord) : ZoneRecord :=
  zone_of_row (row_of_zone r) servers.

Definition new_zone_record (id : rstr) (input : CreateZoneInput) : ZoneRecord :=
  {| zr_id := id; zr_zone := cz_zone input; zr_enabled := default true (cz_enabled input);
     zr_bypass_filter := default false (cz_bypass_filter input);
     zr_fallback_to_default_resolvers := default false (cz_fallback_to_default_resolvers input);
     zr_strategy := cz_strategy input; zr_servers := [] |}.

Definition add_zone (input : CreateZoneInput) : M W (OpResult ZoneRecord) :=
  mlift (validate_zone_name (cz_zone input)) ?;;
  (repos <?- mlift op_repos ;;
   existing <?- db_call (zn_get_by_zone (r_zones repos) (cz_zone input)) ;;
   match existing with
   | Some _ => mret (Err (InvalidInput (lit "zone '" ++ cz_zone input ++ lit "' already exists")))
   | None =>
       zone_id <<- new_v4 db_outside ;;
       let zone_record := new_zone_record zone_id input in
       (db_call (zn_create_zone (r_zones repos) zone_record) ?;;
        (server_records <?- map_each (add_zone_server repos zone_id)
                              (enumerate (default [] (cz_servers input))) ;;
         reload_and_return (with_servers server_records zone_record)))
   end).

Definition patched_zone (input : UpdateZoneInput) (r : ZoneRecord) : ZoneRecord :=
  {| zr_id := zr_id r; zr_zone := zr_zone r; zr_enabled := default (zr_enabled r) (uz_enabled input);
     zr_bypass_filter := default (zr_bypass_filter r) (uz_bypass_filter input);
     zr_fallback_to_default_resolvers :=
       default (zr_fallback_to_default_resolvers r) (uz_fallback_to_default_resolvers input);
     zr_strategy := union (uz_strategy input) (zr_strategy r); zr_servers := zr_servers r |}.

Definition zone_not_found (zone : rstr) : ServerOperationError :=
  NotFound (lit "zone '" ++ zone ++ lit "' not found").

Definition update_zone (zone_name : rstr) (input : UpdateZoneInput) : M W (OpResult ZoneRecord) :=
  repos <?- mlift op_repos ;;
  found <?- db_call (zn_get_by_zone (r_zones repos) zone_name) ;;
  old <?- mlift (ok_or found (zone_not_found zone_name)) ;;
  let record := patched_zone input old in
  (db_call (zn_update_zone (r_zones repos) record) ?;;
   match uz_servers input with
   | None => reload_and_return record
   | Some servers =>
       db_call (zn_delete_zone_servers (r_zones repos) (zr_id record)) ?;;
       (server_records <?- map_each (add_zone_server repos (zr_id record)) (enumerate servers) ;;
        reload_and_return (with_servers server_records record))
   end).

Definition delete_zone (zone_name : rstr) : M W (OpResult DeleteResult) :=
  repos <?- mlift op_repos ;;
  found <?- db_call (zn_get_by_zone (r_zones repos) zone_name) ;;
  record <?- mlift (ok_or found (zone_not_found zone_name)) ;;
  (db_call (zn_delete_zone (r_zones repos) (zr_id record)) ?;;
   reload_and_return {| deleted := zone_name |}).

(** *** Zone discovery *)

Definition list_zone_discovery : M W (OpResult (list ZoneDiscoveryRecord)) :=
  repos <?- mlift op_repos ;; db_call (zd_get_all (r_zone_discovery repos)).

Definition new_discovery_record (id : rstr) (input : CreateZoneDiscoveryInput) : ZoneDiscoveryRecord :=
  let auth := czd_authentication input in
  {| zdr_id := id; zdr_enabled := default true (czd_enabled input); zdr_address := czd_address input;
     zdr_check_interval := czd_check_interval input;
     zdr_allowed_types := default [lit "forward"; lit "reverse"] (czd_allowed_types input);
     zdr_bypass_filter := default false (czd_bypass_filter input);
     zdr_fallback_to_default_resolvers := default false (czd_fallback_to_default_resolvers input);
     zdr_auth_token := auth ≫= ai_token; zdr_auth_username := auth ≫= ai_username;
     zdr_auth_password := auth ≫= ai_password |}.

Definition add_zone_discovery (input : CreateZoneDiscoveryInput) : M W (OpResult ZoneDiscoveryRecord) :=
  mlift (validate_url (czd_address input)) ?;;
  (mlift (validate_all validate_allowed_type (default [] (czd_allowed_types input))) ?;;
  (id <<- new_v4 db_outside ;;
   let record := new_discovery_record id input in
   (repos <?- mlift op_repos ;;
    (db_call (zd_create (r_zone_discovery repos) record) ?;; reload_and_return record)))).

Definition patched_discovery (input : UpdateZoneDiscoveryInput) (r : ZoneDiscoveryRecord) :
    OpResult ZoneDiscoveryRecord :=
  let? address := patch validate_url (uzd_address input) (zdr_address r) in
  let? types := patch (validate_all validate_allowed_type) (uzd_allowed_types input)
                  (zdr_allowed_types r) in
  let auth := uzd_authentication input in
  Ok {| zdr_id := zdr_id r; zdr_enabled := default (zdr_enabled r) (uzd_enabled input);
        zdr_address := address;
        zdr_check_interval := union (uzd_check_interval input) (zdr_check_interval r);
        zdr_allowed_types := types;
        zdr_bypass_filter := default (zdr_bypass_filter r) (uzd_bypass_filter input);
        zdr_fallback_to_default_resolvers :=
          default (zdr_fallback_to_default_resolvers r) (uzd_fallback_to_default_resolvers input);
        zdr_auth_token := match auth with Some a => ai_token a | None => zdr_auth_token r end;
        zdr_auth_username := match auth with Some a => ai_username a | None => zdr_auth_username r end;
        zdr_auth_password := match auth with Some a => ai_password a | None => zdr_auth_password r end |}.

Definition discovery_not_found (id : rstr) : ServerOperationError :=
  NotFound (lit "zone discovery '" ++ id ++ lit "' not found").

Definition update_zone_discovery (id : rstr) (input : UpdateZoneDiscoveryInput) :
    M W (OpResult ZoneDiscoveryRecord) :=
  repos <?- mlift op_repos ;;
  found <?- db_call (zd_get_by_id (r_zone_discovery repos) id) ;;
  old <?- mlift (ok_or found (discovery_not_found id)) ;;
  record <?- mlift (patched_discovery input old) ;;
  (db_call (zd_update (r_zone_discovery repos) record) ?;; reload_and_return record).

Definition delete_zone_discovery (id : rstr) : M W (OpResult DeleteResult) :=
  repos <?- mlift op_repos ;;
  found <?- db_call (zd_get_by_id (r_zone_discovery repos) id) ;;
  mlift (ok_or found (discovery_not_found id)) ?;;
  (db_call (zd_delete (r_zone_discovery repos) id) ?;; reload_and_return {| deleted := id |}).
End operations.

(** ** Tables as maps

    The abstract state of a table: its rows by their unique key. *)

Definition table_map {A} (key_of : A -> rstr) (t : list A) : gmap rstr A :=
  list_to_map ((fun r => (key_of r, r)) <$> t).

Section table_map.
Context {A : Type} (key_of : A -> rstr).

Lemma table_map_keys t : ((fun r => (key_of r, r)) <$> t).*1 = key_of <$> t.
Proof. by rewrite <- list_fmap_compose. Qed.

Lemma table_map_Some t k x : NoDup (key_of <$> t) ->
  table_map key_of t !! k = Some x <-> x ∈ t /\ key_of x = k.
Proof.
  intros Hnd. unfold table_map. rewrite <- elem_of_list_to_map by by rewrite table_map_keys.
  rewrite list_elem_of_fmap. naive_solver.
Qed.

Lemma table_map_select t k : NoDup (key_of <$> t) ->
  select_one key_of k t = table_map key_of t !! k.
Proof.
  intros Hnd. apply option_eq. intros x. by rewrite table_map_Some, select_one_Some.
Qed.

Lemma table_map_None t k : NoDup (key_of <$> t) ->
  table_map key_of t !! k = None <-> k ∉ key_of <$> t.
Proof. intros Hnd. by rewrite <- table_map_select, select_one_None. Qed.

Lemma table_map_size t : NoDup (key_of <$> t) -> size (table_map key_of t) = length t.
Proof.
  intros Hnd. unfold table_map. rewrite <- (length_fmap (fun r => (key_of r, r)) t).
  rewrite <- length_map_to_list. rewrite map_to_list_to_map; [done|]. by rewrite table_map_keys.
Qed.

Lemma table_map_insert t r : NoDup (key_of <$> t) -> key_of r ∉ key_of <$> t ->
  table_map key_of (t ++ [r]) = <[key_of r := r]> (table_map key_of t).
Proof.
  intros Hnd Hr. apply map_eq. intros k. apply option_eq. intros x.
  rewrite table_map_Some.
  2: { rewrite fmap_app. apply NoDup_app. split_and!; [done| |apply NoDup_singleton].
       intros y Hy ->%list_elem_of_singleton. done. }
  rewrite elem_of_app, list_elem_of_singleton. destruct (decide (k = key_of r)) as [->|Hne].
  - rewrite lookup_insert_eq. split; [|intros [= ->]; auto]. intros [[Hx|Hx] Hk]; [|by subst].
    destruct Hr. rewrite <- Hk. by apply list_elem_of_fmap_2.
  - rewrite lookup_insert_ne, table_map_Some by done. naive_solver.
Qed.

Lemma table_map_update (id_of : A -> rstr) t old r : NoDup (key_of <$> t) -> NoDup (id_of <$> t) ->
  old ∈ t -> id_of r = id_of old -> key_of r = key_of old ->
  table_map key_of ((fun x => if str_eqb (id_of x) (id_of r) then r else x) <$> t)
  = <[key_of r := r]> (table_map key_of t).
Proof.
  intros Hk Hi Hold Hid Hkey.
  assert (forall x, x ∈ t -> id_of x = id_of r -> x = old) as Huniq.
  { intros x Hx Heq. apply (NoDup_fmap_inj id_of t); [done..|congruence]. }
  assert (key_of <$> ((fun x => if str_eqb (id_of x) (id_of r) then r else x) <$> t) = key_of <$> t) as Hks.
  { rewrite <- list_fmap_compose. apply list_fmap_ext. intros i x Hx. unfold compose.
    apply list_elem_of_lookup_2 in Hx. destruct (str_eqb_spec (id_of x) (id_of r)) as [Heq|]; [|done].
    by rewrite (Huniq x Hx Heq). }
  apply map_eq. intros k. apply option_eq. intros x. rewrite table_map_Some by by rewrite Hks.
  rewrite list_elem_of_fmap. destruct (decide (k = key_of r)) as [->|Hne].
  - rewrite lookup_insert_eq. split.
    + intros [(y & -> & Hy) Hx]. destruct (str_eqb_spec (id_of y) (id_of r)) as [|Hn]; [done|].
      destruct Hn. rewrite Hid. f_equal. apply (NoDup_fmap_inj key_of t); [done..|congruence].
    + intros [= <-]. split; [|done]. exists old. by rewrite Hid, str_eqb_refl.
  - rewrite lookup_insert_ne, table_map_Some by done. split.
    + intros [(y & -> & Hy) Hx]. by destruct (str_eqb_spec (id_of y) (id_of r)); subst.
    + intros [Hx Hkx]. split; [|done]. exists x. split; [|done].
      destruct (str_eqb_spec (id_of x) (id_of r)) as [Heq|]; [|done].
      by rewrite (Huniq x Hx Heq), <- Hkey in Hkx.
Qed.

Lemma table_map_delete (id_of : A -> rstr) t old : NoDup (key_of <$> t) -> NoDup (id_of <$> t) -> old ∈ t ->
  table_map key_of (delete_rows id_of (id_of old) t) = delete (key_of old) (table_map key_of t).
Proof.
  intros Hk Hi Hold. apply map_eq. intros k. apply option_eq. intros x.
  rewrite table_map_Some by (by apply delete_NoDup).
  unfold delete_rows. rewrite list_elem_of_filter.
  destruct (decide (k = key_of old)) as [->|Hne].
  - rewrite lookup_delete_eq. split; [|done]. intros [[Hn Hx] Heq]. destruct Hn. f_equal.
    by apply (NoDup_fmap_inj key_of t).
  - rewrite lookup_delete_ne, table_map_Some by done. split; [naive_solver|].
    intros [Hx Hkx]. split_and!; [|done..]. intros Heq.
    assert (x = old) as -> by (by apply (NoDup_fmap_inj id_of t)). done.
Qed.
End table_map.

(** ** Filter lists *)

Definition lists_of (d : Database) : gmap rstr FilterListRecord := table_map flr_name (t_filter_lists d).

(** The abstract operations on the map of lists: what the caller gets. *)
Definition add_list_spec (kind id : rstr) (input : CreateFilterListInput)
    (m : gmap rstr FilterListRecord) : OpResult FilterListRecord :=
  let? _ := validate_list_name (cfl_name input) in
  let? _ := validate_url (cfl_url input) in
  let list_type := default (lit "adguard") (cfl_list_type input) in
  let? _ := validate_list_type list_type in
  match m !! cfl_name input with
  | Some _ => Err (InvalidInput (lit "a filter list named '" ++ cfl_name input ++ lit "' already exists"))
  | None => Ok (new_list_record kind id list_type input)
  end.

Definition update_list_spec (name : rstr) (input : UpdateFilterListInput)
    (m : gmap rstr FilterListRecord) : OpResult FilterListRecord :=
  let? old := ok_or (m !! name) (filter_list_not_found name) in patched_list input old.

Definition delete_list_spec (name : rstr) (m : gmap rstr FilterListRecord) : OpResult DeleteResult :=
  let? _ := ok_or (m !! name) (filter_list_not_found name) in Ok {| deleted := name |}.

(** A successful change is recorded under the key of the record. *)
Definition record_under {A} (key_of : A -> rstr) (r : A) (m : gmap rstr A) : gmap rstr A :=
  <[key_of r := r]> m.
Definition remove_key {A} (key : rstr) (_ : DeleteResult) (m : gmap rstr A) : gmap rstr A := delete key m.

(** ** Upstream servers *)

Definition upstreams_of (d : Database) : gmap rstr UpstreamServerRecord :=
  table_map usr_id (t_upstream_servers d).

(** Without an explicit position, a new server goes to the end. *)
Definition add_upstream_spec (urls : UrlParser) (id : rstr) (input : CreateUpstreamServerInput)
    (m : gmap rstr UpstreamServerRecord) : OpResult UpstreamServerRecord :=
  let? _ := validate_upstream_protocol (cus_protocol input) in
  let? _ := validate_upstream_address urls (cus_protocol input) (cus_address input) in
  let? _ := validate_bind_address (cus_bind_address input) in
  let? fwmark := parse_fwmark (cus_fwmark input) in
  let? sort_order := match cus_sort_order input with
                     | Some value => validate_sort_order value
                     | None => Ok (as_i32 (Z.of_nat (size m)))
                     end in
  Ok (new_upstream_record id sort_order fwmark input).

Definition update_upstream_spec (urls : UrlParser) (id : rstr) (input : UpdateUpstreamServerInput)
    (m : gmap rstr UpstreamServerRecord) : OpResult UpstreamServerRecord :=
  let? old := ok_or (m !! id) (upstream_not_found id) in patched_upstream urls input old.

Definition delete_upstream_spec (id : rstr) (m : gmap rstr UpstreamServerRecord) : OpResult DeleteResult :=
  let? _ := ok_or (m !! id) (upstream_not_found id) in Ok {| deleted := id |}.

Lemma patched_upstream_id urls input old r : patched_upstream urls input old = Ok r -> usr_id r = usr_id old.
Proof. unfold patched_upstream. repeat case_match; naive_solver. Qed.

Lemma patched_list_keys input old r :
  patched_list input old = Ok r ->
  flr_id r = flr_id old /\ flr_name r = flr_name old /\ flr_kind r = flr_kind old.
Proof. unfold patched_list. repeat case_match; naive_solver. Qed.

Section management.
Context {W : Type} (db : Cell W Database) (outside : DbOutside W) `{!QuietDb db outside}.
Context (urls : UrlParser) (self : ServerOperations W).
Context (Hrepos : so_repos self = Some (sqlx_repositories db outside)).
Context (Hsend : forall w, cget db (snd (so_send_reload self w)) = cget db w).

(** Resolves an operation of a repository to its SQL implementation. *)
Ltac sqlx :=
  cbn [r_filter_lists r_upstream_config r_zones r_zone_discovery sqlx_repositories
       fl_get_by_name fl_get_all fl_create fl_update fl_delete sqlx_filter_lists
       uc_get_resolver_config uc_update_resolver_config uc_get_all_servers uc_get_server_by_id
       uc_create_server uc_update_server uc_delete_server sqlx_upstream_config
       zn_get_all_with_servers zn_get_by_zone zn_create_zone zn_update_zone zn_create_zone_server
       zn_delete_zone zn_delete_zone_servers sqlx_zones
       zd_get_all zd_get_by_id zd_create zd_update zd_delete sqlx_zone_discovery].

Lemma reload_and_return_quiet {A} (v : A) w :
  exists w', reload_and_return self v w = (Ok v, w') /\ cget db w' = cget db w.
Proof.
  unfold reload_and_return, reload_after_mutation, trigger_reload, mbind, mret.
  specialize (Hsend w). destruct (so_send_reload self w) as [b w']. by exists w'.
Qed.

(** The end of every operation that changes one table: run the statement, reload. *)
Lemma change_quiet {A} context s d' (v : A) w :
  run_statement s (cget db w) = Ok d' ->
  exists w', (db_call (execute db outside context s) ?;; reload_and_return self v) w = (Ok v, w')
    /\ cget db w' = d'.
Proof.
  intros Hs. unfold tbind, db_call, mmap_err. rewrite execute_quiet by done. rewrite Hs. simpl.
  destruct (reload_and_return_quiet v (cput db d' w)) as (w' & -> & Hw').
  exists w'. by rewrite Hw', cget_cput.
Qed.

Lemma db_call_fetch {A} context (q : Database -> A) w :
  db_call (fetch db outside context q) w = (Ok (q (cget db w)), w).
Proof. unfold db_call, mmap_err. by rewrite fetch_quiet by done. Qed.

Lemma db_call_ok {A} (m : M W (result A Error)) a w w' : m w = (Ok a, w') -> db_call m w = (Ok a, w').
Proof. intros H. unfold db_call, mmap_err. by rewrite H. Qed.

Lemma insert_row_fresh {A} (clash : A -> A -> bool) (id_of key_of : A -> rstr) (r : A) (t : list A) d :
  (forall x, clash r x = str_eqb (id_of r) (id_of x) || bool_decide (key_of r = key_of x)) ->
  id_of r ∉ all_ids d -> (id_of <$> t) ⊆ all_ids d -> key_of r ∉ key_of <$> t ->
  insert_row clash r t = Ok (t ++ [r]).
Proof.
  intros Hc Hid Hsub Hkey. rewrite (insert_row_accepts _ id_of key_of); [|done|].
  - by rewrite bool_decide_true.
  - by apply (not_in_ids _ _ _ d).
Qed.

(** Overwriting a row with one of the same keys is always accepted. *)
Lemma update_row_same {A} (id_of : A -> rstr) (clash : A -> A -> bool) (old r : A) (t : list A) :
  old ∈ t -> id_of r = id_of old ->
  (forall x, x ∈ t -> id_of x <> id_of r -> clash r x = false) ->
  update_row id_of clash r t = Ok ((fun x => if str_eqb (id_of x) (id_of r) then r else x) <$> t).
Proof.
  intros Hold Hid Hc. unfold update_row.
  assert (existsb (fun x => negb (str_eqb (id_of x) (id_of r)) && clash r x) t = false) as ->;
    [|by rewrite andb_false_r].
  apply not_true_iff_false. intros (x & Hx%list_elem_of_In & H)%existsb_exists.
  apply andb_true_iff in H as [Hn Hcl]. destruct (str_eqb_spec (id_of x) (id_of r)) as [|Hne]; [done|].
  by rewrite Hc in Hcl.
Qed.

(** [m], run in [w], returns the outcome [o] of the abstract operation and, on success,
    changes the abstract state by [after]; a refused request changes nothing at all. *)
Definition simulates {R A : Type} (abs : Database -> gmap rstr A)
    (after : R -> gmap rstr A -> gmap rstr A) (m : M W (OpResult R)) (w : W) (o : OpResult R) : Prop :=
  exists w', m w = (o, w') /\ schema_ok (cget db w')
    /\ match o with
       | Ok r => abs (cget db w') = after r (abs (cget db w))
       | Err _ => w' = w
       end.

Section simulation.
Context {R A : Type} (abs : Database -> gmap rstr A) (after : R -> gmap rstr A -> gmap rstr A).
Context (w : W) (Hok : schema_ok (cget db w)).

Lemma simulates_refused (e : ServerOperationError) : simulates abs after (mret (Err e)) w (Err e).
Proof. by exists w. Qed.

(** A check before the rest of the operation. *)
Lemma simulates_lift {B} (r : OpResult B) (k : B -> M W (OpResult R)) (o : B -> OpResult R) :
  (forall b, r = Ok b -> simulates abs after (k b) w (o b)) ->
  simulates abs after (tbind (mlift r) k) w (let? b := r in o b).
Proof. intros H. destruct r as [b|e]; [exact (H b eq_refl)|apply simulates_refused]. Qed.

(** The record an operation stores and returns. *)
Lemma simulates_final (r : OpResult R) (k : R -> M W (OpResult R)) :
  (forall b, r = Ok b -> simulates abs after (k b) w (Ok b)) ->
  simulates abs after (tbind (mlift r) k) w r.
Proof. intros H. destruct r as [b|e]; [exact (H b eq_refl)|apply simulates_refused]. Qed.

(** A query before the rest of the operation. *)
Lemma simulates_query {B} (q : M W (OpResult B)) b (k : B -> M W (OpResult R)) o :
  q w = (Ok b, w) -> simulates abs after (k b) w o -> simulates abs after (tbind q k) w o.
Proof. intros Hq (w' & Hk & H). exists w'. unfold tbind. by rewrite Hq. Qed.

(** A fresh identifier before the rest of the operation. *)
Lemma simulates_v4 (k : rstr -> M W (OpResult R)) o :
  (forall w1, cget db w1 = cget db w ->
     exists w', k (fst (new_v4 outside w)) w1 = (Ok o, w') /\ schema_ok (cget db w')
                /\ abs (cget db w') = after o (abs (cget db w))) ->
  simulates abs after (mbind (new_v4 outside) k) w (Ok o).
Proof.
  intros H. destruct (H (snd (new_v4 outside w))) as (w' & Hk & Hrest).
  { apply quiet_v4_keeps. }
  exists w'. unfold mbind. by destruct (new_v4 outside w).
Qed.

Lemma change_schema context s d' (v : R) w1 :
  cget db w1 = cget db w -> run_statement s (cget db w) = Ok d' ->
  abs d' = after v (abs (cget db w)) ->
  exists w', (db_call (execute db outside context s) ?;; reload_and_return self v) w1 = (Ok v, w')
    /\ schema_ok (cget db w') /\ abs (cget db w') = after v (abs (cget db w)).
Proof.
  intros Hw1 Hs Habs. rewrite <- Hw1 in Hs.
  destruct (change_quiet context s d' v w1 Hs) as (w' & Hf & Hd). exists w'. rewrite Hd.
  split_and!; [done| |done]. rewrite Hw1 in Hs. by eapply run_statement_schema.
Qed.

Lemma simulates_change context s d' (v : R) :
  run_statement s (cget db w) = Ok d' -> abs d' = after v (abs (cget db w)) ->
  simulates abs after (db_call (execute db outside context s) ?;; reload_and_return self v) w (Ok v).
Proof. intros Hs Habs. destruct (change_schema context s d' v w) as (w' & ? & ? & ?); [done..|by exists w']. Qed.
End simulation.

Lemma repos_ok : op_repos self = Ok (sqlx_repositories db outside).
Proof. unfold op_repos. by rewrite Hrepos. Qed.

(** The record with a given key, as the operations look it up. *)
Lemma select_in_map {A} (key_of : A -> rstr) (tab : Database -> list A) context k w :
  NoDup (key_of <$> tab (cget db w)) ->
  db_call (fetch db outside context (fun d => select_one key_of k (tab d))) w
  = (Ok (table_map key_of (tab (cget db w)) !! k), w).
Proof. intros Hnd. by rewrite db_call_fetch, table_map_select. Qed.

Lemma add_filter_list_refines kind input w :
  schema_ok (cget db w) -> kind = lit "block" \/ kind = lit "allow" ->
  exists id, simulates lists_of (record_under flr_name) (add_filter_list outside self kind input) w
    (add_list_spec kind id input (lists_of (cget db w))).
Proof.
  intros Hok Hkind. exists (fst (new_v4 outside w)). unfold add_filter_list, add_list_spec. cbv zeta.
  do 3 (apply (simulates_lift _ _ _ Hok); intros [] _). rewrite repos_ok.
  eapply simulates_query; [done|]. sqlx.
  eapply simulates_query; [apply (select_in_map flr_name t_filter_lists), Hok|].
  fold (lists_of (cget db w)). destruct (lists_of (cget db w) !! cfl_name input) eqn:Hl.
  { by apply simulates_refused. }
  apply table_map_None in Hl; [|apply Hok]. apply simulates_v4. intros w1 Hw1.
  pose proof (quiet_v4_fresh (db := db) (outside := outside) w) as Hfresh.
  eapply change_schema; [done|done| |].
  - simpl. replace (kind_ok _) with true.
    2: { unfold kind_ok. simpl. by destruct Hkind as [-> | ->]. }
    simpl. rewrite (insert_row_fresh _ flr_id flr_name _ _ (cget db w)); [done|done|done| |done].
    unfold all_ids. set_solver.
  - unfold lists_of. simpl. apply (table_map_insert flr_name); [apply Hok|done].
Qed.

Lemma update_filter_list_refines name input w : schema_ok (cget db w) ->
  simulates lists_of (record_under flr_name) (update_filter_list self name input) w
    (update_list_spec name input (lists_of (cget db w))).
Proof.
  intros Hok. unfold update_filter_list, update_list_spec. rewrite repos_ok.
  eapply simulates_query; [done|]. sqlx.
  eapply simulates_query; [apply (select_in_map flr_name t_filter_lists), Hok|].
  apply (simulates_lift _ _ _ Hok). intros old Hl. apply (simulates_final _ _ _ Hok). intros r Hp.
  destruct (lists_of (cget db w) !! name) as [x|] eqn:Hx; simplify_eq/=.
  apply table_map_Some in Hx as [Hold <-]; [|apply Hok].
  destruct (patched_list_keys _ _ _ Hp) as (Hid & Hname & Hkind).
  eapply simulates_change; [done| |].
  - simpl. replace (kind_ok r) with true.
    2: { unfold kind_ok. rewrite Hkind. symmetry. pose proof (ok_list_kinds _ Hok) as Hall.
         rewrite Forall_forall in Hall. by apply Hall. }
    rewrite andb_false_r. erewrite (update_row_same flr_id _ old); [done|done|done|].
    intros x Hx Hne. unfold filter_list_clash.
    destruct (str_eqb_spec (flr_id r) (flr_id x)); [congruence|].
    destruct (str_eqb_spec (flr_name r) (flr_name x)) as [He|]; [|done]. destruct Hne.
    rewrite Hid. f_equal. apply (NoDup_fmap_inj flr_name (t_filter_lists (cget db w)));
      [apply Hok|done..|congruence].
  - unfold lists_of. simpl. by apply (table_map_update flr_name flr_id _ old); [apply Hok..| | |].
Qed.

Lemma delete_filter_list_refines name w : schema_ok (cget db w) ->
  simulates lists_of (remove_key name) (delete_filter_list self name) w
    (delete_list_spec name (lists_of (cget db w))).
Proof.
  intros Hok. unfold delete_filter_list, delete_list_spec. rewrite repos_ok.
  eapply simulates_query; [done|]. sqlx.
  eapply simulates_query; [apply (select_in_map flr_name t_filter_lists), Hok|].
  apply (simulates_lift _ _ _ Hok). intros old Hl.
  destruct (lists_of (cget db w) !! name) as [x|] eqn:Hx; simplify_eq/=.
  apply table_map_Some in Hx as [Hold <-]; [|apply Hok].
  eapply simulates_change; [done|done|]. unfold lists_of. simpl.
  by apply (table_map_delete flr_name flr_id); [apply Hok..|].
Qed.

Lemma add_upstream_server_refines input w : schema_ok (cget db w) ->
  exists id, simulates upstreams_of (record_under usr_id) (add_upstream_server outside urls self input) w
    (add_upstream_spec urls id input (upstreams_of (cget db w))).
Proof.
  intros Hok. exists (fst (new_v4 outside w)). unfold add_upstream_server, add_upstream_spec.
  do 3 (apply (simulates_lift _ _ _ Hok); intros [] _).
  apply (simulates_lift _ _ _ Hok). intros fwmark _. rewrite repos_ok.
  eapply simulates_query; [done|].
  assert (forall sort_order, simulates upstreams_of (record_under usr_id)
    (id <<- new_v4 outside ;;
     let record := new_upstream_record id sort_order fwmark input in
     (db_call (upstream_create_server db outside record) ?;; reload_and_return self record)) w
    (Ok (new_upstream_record (fst (new_v4 outside w)) sort_order fwmark input))) as Hcreate.
  { intros sort_order. apply simulates_v4. intros w1 Hw1. cbv zeta.
    pose proof (quiet_v4_fresh (db := db) (outside := outside) w) as Hfresh.
    assert (fst (new_v4 outside w) ∉ usr_id <$> t_upstream_servers (cget db w)) as Hid.
    { intros Hin. apply Hfresh. unfold all_ids. set_solver. }
    eapply change_schema; [done|done| |].
    - simpl. rewrite (insert_row_fresh _ usr_id usr_id _ _ (cget db w)); [done| |done| |done].
      + intros x. unfold upstream_clash, str_eqb. by destruct (bool_decide _).
      + unfold all_ids. set_solver.
    - unfold upstreams_of. simpl. by apply (table_map_insert usr_id); [apply Hok|]. }
  destruct (cus_sort_order input) as [v|].
  - apply (simulates_lift _ _ _ Hok). intros z _. apply Hcreate.
  - eapply simulates_query; [|apply Hcreate]. unfold tbind. sqlx. unfold upstream_get_all_servers.
    rewrite db_call_fetch. unfold mret. rewrite merge_sort_Permutation. do 5 f_equal.
    symmetry. apply table_map_size, Hok.
Qed.

Lemma update_upstream_server_refines id input w : schema_ok (cget db w) ->
  simulates upstreams_of (record_under usr_id) (update_upstream_server urls self id input) w
    (update_upstream_spec urls id input (upstreams_of (cget db w))).
Proof.
  intros Hok. unfold update_upstream_server, update_upstream_spec. rewrite repos_ok.
  eapply simulates_query; [done|]. sqlx.
  eapply simulates_query; [apply (select_in_map usr_id t_upstream_servers), Hok|].
  apply (simulates_lift _ _ _ Hok). intros old Hl. apply (simulates_final _ _ _ Hok). intros r Hp.
  destruct (upstreams_of (cget db w) !! id) as [x|] eqn:Hx; simplify_eq/=.
  apply table_map_Some in Hx as [Hold <-]; [|apply Hok].
  pose proof (patched_upstream_id _ _ _ _ Hp) as Hid. eapply simulates_change; [done| |].
  - simpl. erewrite (update_row_same usr_id _ old); [done|done|done|].
    intros x Hx Hne. unfold upstream_clash. by destruct (str_eqb_spec (usr_id r) (usr_id x)).
  - unfold upstreams_of. simpl. by apply (table_map_update usr_id usr_id _ old); [apply Hok..| | |].
Qed.

Lemma delete_upstream_server_refines id w : schema_ok (cget db w) ->
  simulates upstreams_of (remove_key id) (delete_upstream_server self id) w
    (delete_upstream_spec id (upstreams_of (cget db w))).
Proof.
  intros Hok. unfold delete_upstream_server, delete_upstream_spec. rewrite repos_ok.
  eapply simulates_query; [done|]. sqlx.
  eapply simulates_query; [apply (select_in_map usr_id t_upstream_servers), Hok|].
  apply (simulates_lift _ _ _ Hok). intros old Hl.
  destruct (upstreams_of (cget db w) !! id) as [x|] eqn:Hx; simplify_eq/=.
  apply table_map_Some in Hx as [Hold <-]; [|apply Hok].
  eapply simulates_change; [done|done|]. unfold upstreams_of. simpl.
  by apply (table_map_delete usr_id usr_id); [apply Hok..|].
Qed.

(** ** Zones *)

(** The servers of a zone, in their order. *)
Definition servers_of (d : Database) (zone_id : rstr) : list ZoneServerRecord :=
  merge_sort by_zone_server_order (filter (fun s => zsr_zone_id s = zone_id) (t_zone_servers d)).

Definition zones_of (d : Database) : gmap rstr ZoneRecord :=
  (fun row => zone_of_row row (servers_of d (zw_id row))) <$> table_map zw_zone (t_zones d).

Definition server_valid (entry : nat * CreateZoneServerInput) : bool :=
  is_ok (validate_protocol (czs_protocol entry.2)).

(** The servers before the first one with an unknown protocol. *)
Fixpoint valid_prefix (entries : list (nat * CreateZoneServerInput)) : list (nat * CreateZoneServerInput) :=
  match entries with
  | [] => []
  | e :: rest => if server_valid e then e :: valid_prefix rest else []
  end.

Definition server_rows (zone_id : rstr) (ids : list rstr) (entries : list (nat * CreateZoneServerInput)) :
    list ZoneServerRecord :=
  zip_with (fun id e => new_zone_server zone_id id e.1 e.2) ids entries.

(** The servers recorded and returned by the loop. *)
Definition loop_outcome (zone_id : rstr) (ids : list rstr)
    (entries : list (nat * CreateZoneServerInput)) (res : OpResult (list ZoneServerRecord)) : Prop :=
  if forallb server_valid entries then res = Ok (server_rows zone_id ids entries)
  else exists m, res = Err (InvalidInput m).

Lemma valid_prefix_all entries : forallb server_valid entries = true -> valid_prefix entries = entries.
Proof.
  induction entries as [|e rest IH]; simpl; [done|]. destruct (server_valid e); [|done].
  intros H. by rewrite IH.
Qed.

Lemma valid_prefix_prefix entries : valid_prefix entries `prefix_of` entries.
Proof.
  induction entries as [|e rest IH]; simpl; [done|].
  destruct (server_valid e); [by apply prefix_cons|apply prefix_nil].
Qed.

Lemma add_zone_servers_rows zone_id entries w : zone_id ∈ zw_id <$> t_zones (cget db w) ->
  exists ids res w', map_each (add_zone_server outside (sqlx_repositories db outside) zone_id) entries w
                     = (res, w')
    /\ length ids = length (valid_prefix entries) /\ loop_outcome zone_id ids entries res
    /\ cget db w' = with_zones (cget db w) (t_zones (cget db w))
                      (t_zone_servers (cget db w) ++ server_rows zone_id ids (valid_prefix entries)).
Proof.
  revert w. induction entries as [|[i e] rest IH]; intros w Hz.
  { exists [], (Ok []), w. split_and!; [done..|]. simpl. rewrite app_nil_r. by destruct (cget db w). }
  simpl. unfold loop_outcome, tbind. simpl. unfold add_zone_server at 1, tbind, mlift, mret. simpl.
  assert (server_valid (i, e) = is_ok (validate_protocol (czs_protocol e))) as -> by done.
  destruct (validate_protocol (czs_protocol e)) as [[]|err] eqn:Hv; simpl.
  2: { exists [], (Err err), w. split_and!; [done|done| |].
       - unfold validate_protocol in Hv. case_match; simplify_eq. by eexists.
       - rewrite app_nil_r. by destruct (cget db w). }
  pose proof (quiet_v4_fresh (db := db) (outside := outside) w) as Hfresh.
  pose proof (quiet_v4_keeps (db := db) (outside := outside) w) as Hk.
  unfold mbind. destruct (new_v4 outside w) as [id w1]. simpl in Hfresh, Hk.
  set (r := new_zone_server zone_id id i e).
  assert (run_statement (InsertZoneServer r) (cget db w1)
          = Ok (with_zones (cget db w) (t_zones (cget db w)) (t_zone_servers (cget db w) ++ [r]))) as Hs.
  { rewrite Hk. simpl. rewrite (insert_row_fresh _ zsr_id zsr_id _ _ (cget db w)); [|..].
    - apply list_elem_of_fmap in Hz as (z & Hz & Hin). rewrite Hz.
      assert (existsb (fun x => str_eqb (zw_id x) (zw_id z)) (t_zones (cget db w)) = true) as ->; [|done].
      apply existsb_exists. exists z. rewrite <- list_elem_of_In. split; [done|apply str_eqb_refl].
    - intros x. unfold zone_server_clash, str_eqb. by destruct (bool_decide _).
    - done.
    - unfold all_ids. set_solver.
    - intros Hin. apply Hfresh. unfold all_ids. set_solver. }
  unfold db_call, mmap_err, zone_create_zone_server. rewrite execute_quiet, Hs by done. simpl.
  edestruct (IH (cput db (with_zones (cget db w) (t_zones (cget db w)) (t_zone_servers (cget db w) ++ [r])) w1))
    as (ids & res & w' & Hf & Hlen & Hres & Hd); [by rewrite cget_cput|].
  rewrite cget_cput in Hd. simpl in Hd. rewrite Hf.
  exists (id :: ids). unfold loop_outcome in Hres. destruct (forallb server_valid rest) eqn:Hall.
  - subst res. eexists _, w'. split_and!; [done|simpl; by rewrite Hlen|done|].
    rewrite Hd. simpl. by rewrite <- app_assoc.
  - destruct Hres as [m ->]. eexists _, w'. split_and!; [done|simpl; by rewrite Hlen|by eexists|].
    rewrite Hd. simpl. by rewrite <- app_assoc.
Qed.

Lemma zones_of_insert d d' row rows :
  NoDup (zw_zone <$> t_zones d) ->
  table_map zw_zone (t_zones d') = <[zw_zone row := row]> (table_map zw_zone (t_zones d)) ->
  (forall z, z ∈ t_zones d -> zw_zone z <> zw_zone row ->
     servers_of d' (zw_id z) = servers_of d (zw_id z)) ->
  servers_of d' (zw_id row) = rows ->
  zones_of d' = <[zw_zone row := zone_of_row row rows]> (zones_of d).
Proof.
  intros Hnd Ht Hother Hrow. unfold zones_of. rewrite Ht, fmap_insert, Hrow.
  apply map_eq. intros k. destruct (decide (k = zw_zone row)) as [->|Hne];
    [by rewrite !lookup_insert_eq|]. rewrite !lookup_insert_ne, !lookup_fmap by done.
  destruct (table_map zw_zone (t_zones d) !! k) as [z|] eqn:Hz; [|done]. simpl. do 2 f_equal.
  apply table_map_Some in Hz as [Hin <-]; [|done]. by apply Hother.
Qed.

(** Servers with another owner do not count. *)
Lemma servers_of_app d zs (ss rows : list ZoneServerRecord) owner zone_id :
  Forall (fun s => zsr_zone_id s = owner) rows -> zone_id <> owner ->
  servers_of (with_zones d zs (ss ++ rows)) zone_id = servers_of (with_zones d zs ss) zone_id.
Proof.
  intros Hall Hne. unfold servers_of. simpl. rewrite filter_app, (filter_none _ rows); [by rewrite app_nil_r|].
  eapply Forall_impl; [exact Hall|]. simpl. congruence.
Qed.

Lemma server_rows_owner zone_id ids entries :
  Forall (fun s => zsr_zone_id s = zone_id) (server_rows zone_id ids entries).
Proof.
  apply Forall_forall. intros s Hs. by apply elem_of_zip_with_r in Hs as (a & b & -> & _).
Qed.

Lemma server_rows_sorted zone_id ids (servers : list CreateZoneServerInput) :
  (Z.of_nat (length servers) <= 2 ^ 31)%Z ->
  merge_sort by_zone_server_order (server_rows zone_id ids (valid_prefix (enumerate servers)))
  = server_rows zone_id ids (valid_prefix (enumerate servers)).
Proof.
  intros Hlen. unfold by_zone_server_order, server_rows. eapply numbered_rows_sorted; [exact Hlen|done|].
  eapply numbered_prefix; [apply valid_prefix_prefix|]. apply enumerate_numbered.
Qed.

(** The servers of a zone that had none before. *)
Lemma servers_of_new d zs (ss : list ZoneServerRecord) zone_id ids servers :
  (Z.of_nat (length servers) <= 2 ^ 31)%Z -> Forall (fun s => zsr_zone_id s <> zone_id) ss ->
  servers_of (with_zones d zs (ss ++ server_rows zone_id ids (valid_prefix (enumerate servers)))) zone_id
  = server_rows zone_id ids (valid_prefix (enumerate servers)).
Proof.
  intros Hlen Hss. unfold servers_of. simpl.
  rewrite filter_app, (filter_none _ ss), filter_all by (done || apply server_rows_owner).
  by apply server_rows_sorted.
Qed.

Lemma zone_lookup name w : schema_ok (cget db w) ->
  db_call (zone_get_by_zone db outside name) w = (Ok (zones_of (cget db w) !! name), w).
Proof.
  intros Hok. unfold db_call, mmap_err. rewrite zone_get_by_zone_quiet by done. simpl.
  unfold zones_of. rewrite lookup_fmap. by rewrite (table_map_select zw_zone) by apply Hok.
Qed.

Lemma zones_of_None d k : NoDup (zw_zone <$> t_zones d) ->
  zones_of d !! k = None <-> k ∉ zw_zone <$> t_zones d.
Proof. intros Hnd. unfold zones_of. by rewrite lookup_fmap, fmap_None, table_map_None. Qed.

Lemma zones_of_Some d k r : NoDup (zw_zone <$> t_zones d) ->
  zones_of d !! k = Some r -> exists z, z ∈ t_zones d /\ zw_zone z = k
    /\ r = zone_of_row z (servers_of d (zw_id z)).
Proof.
  intros Hnd. unfold zones_of. rewrite lookup_fmap, fmap_Some. intros (z & Hz & ->).
  apply table_map_Some in Hz as [Hin <-]; [|done]. by exists z.
Qed.

(** What the caller of [add_zone] and [update_zone] gets once the zone row is written. *)
Definition zone_outcome (servers : list CreateZoneServerInput) (stored : ZoneRecord)
    (res : OpResult ZoneRecord) : Prop :=
  if forallb server_valid (enumerate servers) then res = Ok stored
  else exists m, res = Err (InvalidInput m).

Lemma add_zone_stores input w :
  schema_ok (cget db w) -> validate_zone_name (cz_zone input) = Ok tt ->
  zones_of (cget db w) !! cz_zone input = None ->
  (Z.of_nat (length (default [] (cz_servers input))) <= 2 ^ 31)%Z ->
  exists zone_id ids res w', add_zone outside self input w = (res, w')
    /\ let stored := with_servers (server_rows zone_id ids
                        (valid_prefix (enumerate (default [] (cz_servers input)))))
                        (new_zone_record zone_id input) in
       zones_of (cget db w') = <[cz_zone input := stored]> (zones_of (cget db w))
       /\ zone_outcome (default [] (cz_servers input)) stored res
       /\ length ids = length (valid_prefix (enumerate (default [] (cz_servers input)))).
Proof.
  intros Hok Hname Hnone Hlen. unfold add_zone. rewrite Hname, repos_ok. unfold mlift, mret.
  unfold tbind at 1 2 3. sqlx. rewrite zone_lookup, Hnone by done.
  pose proof (quiet_v4_fresh (db := db) (outside := outside) w) as Hfresh.
  pose proof (quiet_v4_keeps (db := db) (outside := outside) w) as Hk.
  unfold mbind. destruct (new_v4 outside w) as [id w1]. simpl in Hfresh, Hk.
  set (z := new_zone_record id input). set (servers := default [] (cz_servers input)) in *.
  apply zones_of_None in Hnone; [|apply Hok].
  assert (run_statement (InsertZone (row_of_zone z)) (cget db w1)
          = Ok (with_zones (cget db w) (t_zones (cget db w) ++ [row_of_zone z])
                  (t_zone_servers (cget db w)))) as Hs.
  { rewrite Hk. simpl. rewrite (insert_row_fresh _ zw_id zw_zone _ _ (cget db w)); [done..| |done].
    unfold all_ids. set_solver. }
  unfold tbind at 1, db_call, mmap_err, zone_create_zone. rewrite execute_quiet, Hs by done. cbn [map_err].
  set (w2 := cput db _ w1).
  destruct (add_zone_servers_rows id (enumerate servers) w2) as (ids & res & w3 & Hf & Hl & Hres & Hd).
  { unfold w2. rewrite cget_cput. simpl. rewrite fmap_app. apply elem_of_app. right.
    by apply list_elem_of_singleton. }
  unfold w2 in Hd. rewrite cget_cput in Hd. simpl in Hd.
  assert (zones_of (cget db w3) = <[cz_zone input := with_servers (server_rows id ids
    (valid_prefix (enumerate servers))) z]> (zones_of (cget db w))) as Hz.
  { rewrite Hd. apply (zones_of_insert (cget db w) _ (row_of_zone z)); [apply Hok| | |].
    - simpl. by apply (table_map_insert zw_zone _ (row_of_zone z)); [apply Hok|].
    - intros y Hy _. simpl. rewrite (servers_of_app _ _ _ _ id); [done|apply server_rows_owner|].
      intros <-. apply Hfresh. apply (list_elem_of_fmap_2 zw_id) in Hy. unfold all_ids. set_solver.
    - simpl. apply servers_of_new; [done|]. apply Forall_forall. intros s Hin <-.
      pose proof (ok_server_zones _ Hok) as Hall. rewrite Forall_forall in Hall.
      apply Hfresh. specialize (Hall _ Hin). unfold all_ids. set_solver. }
  unfold tbind. rewrite Hf. unfold loop_outcome in Hres. unfold zone_outcome.
  destruct (forallb server_valid (enumerate servers)) eqn:Hv.
  - subst res. rewrite valid_prefix_all in Hz, Hl |- * by done.
    destruct (reload_and_return_quiet (with_servers (server_rows id ids (enumerate servers)) z) w3)
      as (w4 & -> & Hw4). eexists id, ids, _, w4. rewrite Hw4. by split_and!.
  - destruct Hres as [m ->]. eexists id, ids, _, w3. split_and!; [done..|by eexists|done].
Qed.

Lemma servers_of_delete d zs (ss : list ZoneServerRecord) owner zone_id : zone_id <> owner ->
  servers_of (with_zones d zs (delete_rows zsr_zone_id owner ss)) zone_id
  = servers_of (with_zones d zs ss) zone_id.
Proof.
  intros Hne. unfold servers_of, delete_rows. simpl. f_equal. rewrite list_filter_filter.
  apply list_filter_iff. naive_solver.
Qed.

Lemma delete_rows_owner (ss : list ZoneServerRecord) owner :
  Forall (fun s => zsr_zone_id s <> owner) (delete_rows zsr_zone_id owner ss).
Proof. apply Forall_forall. by intros s [? _]%list_elem_of_filter. Qed.

(** Writing the row of a zone that exists. *)
Lemma zone_row_update w z row : schema_ok (cget db w) -> z ∈ t_zones (cget db w) ->
  zw_id row = zw_id z -> zw_zone row = zw_zone z ->
  exists zs, run_statement (UpdateZone row) (cget db w)
             = Ok (with_zones (cget db w) zs (t_zone_servers (cget db w)))
    /\ table_map zw_zone zs = <[zw_zone row := row]> (table_map zw_zone (t_zones (cget db w)))
    /\ zw_id <$> zs = zw_id <$> t_zones (cget db w).
Proof.
  intros Hok Hz Hid Hzone. eexists. simpl. split_and!.
  - erewrite (update_row_same zw_id _ z); [done|done|done|].
    intros x Hx Hne. unfold zone_clash. destruct (str_eqb_spec (zw_id row) (zw_id x)); [congruence|].
    destruct (str_eqb_spec (zw_zone row) (zw_zone x)) as [He|]; [|done]. destruct Hne. rewrite Hid. f_equal.
    apply (NoDup_fmap_inj zw_zone (t_zones (cget db w))); [apply Hok|done..|congruence].
  - by apply (table_map_update zw_zone zw_id _ z); [apply Hok..| | |].
  - apply update_keeps. intros x. by destruct (str_eqb_spec (zw_id x) (zw_id row)).
Qed.

(** The servers an update leaves in the zone, before the reload. *)
Definition updated_servers (input : UpdateZoneInput) (ids : list rstr) (old : ZoneRecord) :
    list ZoneServerRecord :=
  match uz_servers input with
  | None => zr_servers old
  | Some servers => server_rows (zr_id old) ids (valid_prefix (enumerate servers))
  end.

Lemma update_zone_stores zone_name input old w :
  schema_ok (cget db w) -> zones_of (cget db w) !! zone_name = Some old ->
  (Z.of_nat (length (default [] (uz_servers input))) <= 2 ^ 31)%Z ->
  exists ids res w', update_zone outside self zone_name input w = (res, w')
    /\ let stored := with_servers (updated_servers input ids old) (patched_zone input old) in
       zones_of (cget db w') = <[zone_name := stored]> (zones_of (cget db w))
       /\ zone_outcome (default [] (uz_servers input)) stored res.
Proof.
  intros Hok Hold Hlen. unfold update_zone. rewrite repos_ok. unfold mlift, mret.
  unfold tbind at 1 2. sqlx. rewrite zone_lookup, Hold by done. cbn [ok_or]. unfold tbind at 1.
  apply zones_of_Some in Hold as (z & Hz & <- & ->); [|apply Hok].
  set (old := zone_of_row z _). set (r := patched_zone input old). cbv zeta.
  destruct (zone_row_update w z (row_of_zone r) Hok Hz eq_refl eq_refl) as (zs & Hs & Htab & Hids).
  unfold tbind at 1, db_call at 1, mmap_err, zone_update_zone. rewrite execute_quiet, Hs by done.
  cbn [map_err]. unfold updated_servers. destruct (uz_servers input) as [servers|]; simpl in Hlen.
  - unfold tbind at 1, db_call at 1, mmap_err, zone_delete_zone_servers. rewrite execute_quiet by done.
    cbn [run_statement]. rewrite cget_cput. cbn [map_err].
    set (w2 := cput db _ (cput db _ w)).
    destruct (add_zone_servers_rows (zr_id r) (enumerate servers) w2)
      as (ids & res & w3 & Hf & Hl & Hres & Hd).
    { unfold w2. rewrite cget_cput. simpl. rewrite Hids. by apply list_elem_of_fmap_2. }
    unfold w2 in Hd. rewrite cget_cput in Hd. simpl in Hd.
    assert (zones_of (cget db w3) = <[zw_zone z := with_servers (server_rows (zr_id r) ids
      (valid_prefix (enumerate servers))) r]> (zones_of (cget db w))) as Hzn.
    { rewrite Hd. apply (zones_of_insert (cget db w) _ (row_of_zone r)); [apply Hok|exact Htab| |].
      - intros y Hy Hne. simpl. assert (zw_id y <> zw_id z) as Hne'.
        { intros Heq. apply Hne. simpl. f_equal. apply (NoDup_fmap_inj zw_id (t_zones (cget db w)));
            [apply Hok|done..]. }
        rewrite (servers_of_app _ _ _ _ (zw_id z)); [|apply server_rows_owner|done].
        by rewrite servers_of_delete.
      - simpl. apply servers_of_new; [done|]. apply delete_rows_owner. }
    unfold tbind. rewrite Hf. unfold loop_outcome in Hres. unfold zone_outcome. simpl default.
    destruct (forallb server_valid (enumerate servers)) eqn:Hv.
    + subst res. rewrite valid_prefix_all in Hzn |- * by done.
      destruct (reload_and_return_quiet (with_servers (server_rows (zr_id r) ids (enumerate servers)) r) w3)
        as (w4 & -> & Hw4). eexists ids, _, w4. rewrite Hw4. by split_and!.
    + destruct Hres as [m ->]. eexists ids, _, w3. split_and!; [done..|by eexists].
  - destruct (reload_and_return_quiet r
      (cput db (with_zones (cget db w) zs (t_zone_servers (cget db w))) w)) as (w4 & -> & Hw4).
    exists [], (Ok r), w4. rewrite Hw4, cget_cput. split_and!; [done| |done].
    apply (zones_of_insert (cget db w) _ (row_of_zone r)); [apply Hok|exact Htab|done|done].
Qed.

Lemma delete_zone_refines zone_name w : schema_ok (cget db w) ->
  simulates zones_of (remove_key zone_name) (delete_zone self zone_name) w
    (let? _ := ok_or (zones_of (cget db w) !! zone_name) (zone_not_found zone_name) in
     Ok {| deleted := zone_name |}).
Proof.
  intros Hok. unfold delete_zone. rewrite repos_ok. eapply simulates_query; [done|]. sqlx.
  eapply simulates_query; [by apply zone_lookup|]. apply (simulates_lift _ _ _ Hok). intros old Hl.
  destruct (zones_of (cget db w) !! zone_name) as [x|] eqn:Hx; simplify_eq/=.
  apply zones_of_Some in Hx as (z & Hz & <- & ->); [|apply Hok].
  eapply simulates_change; [done|done|]. unfold zones_of, remove_key. simpl.
  rewrite (table_map_delete zw_zone zw_id) by (apply Hok || done). rewrite fmap_delete.
  apply map_eq. intros k. destruct (decide (k = zw_zone z)) as [->|Hne]; [by rewrite !lookup_delete_eq|].
  rewrite !lookup_delete_ne, !lookup_fmap by done.
  destruct (table_map zw_zone _ !! k) as [y|] eqn:Hy; [|done]. simpl. do 2 f_equal.
  apply table_map_Some in Hy as [Hin <-]; [|apply Hok]. apply servers_of_delete.
  intros Heq. apply Hne. f_equal. apply (NoDup_fmap_inj zw_id (t_zones (cget db w))); [apply Hok|done..].
Qed.

Lemma list_filter_lists_listing kind w : schema_ok (cget db w) ->
  exists l, list_filter_lists self kind w = (Ok l, w) /\ StronglySorted by_name l
    /\ forall r, r ∈ l <-> lists_of (cget db w) !! flr_name r = Some r /\ flr_kind r = kind.
Proof.
  intros Hok. unfold list_filter_lists. rewrite repos_ok. unfold mlift, mret, tbind. sqlx.
  unfold filter_list_get_all. rewrite db_call_fetch. eexists. split_and!; [done| |].
  - apply StronglySorted_filter, StronglySorted_merge_sort; apply _.
  - intros r. rewrite list_elem_of_filter, merge_sort_Permutation.
    unfold lists_of. rewrite table_map_Some by apply Hok. naive_solver.
Qed.

(** C11. The filter lists behave as a map from names to lists: adding, changing, deleting
    and listing return exactly what the operation on the map returns and change the
    database exactly as it changes the map; a refused request (a malformed name, URL or
    type, a name in use, an unknown name) changes nothing and triggers no reload. *)
Theorem filter_lists_refine_map (kind name : rstr) (create : CreateFilterListInput)
    (update : UpdateFilterListInput) (w : W) :
  schema_ok (cget db w) -> kind = lit "block" \/ kind = lit "allow" ->
  (exists id, simulates lists_of (record_under flr_name) (add_filter_list outside self kind create) w
     (add_list_spec kind id create (lists_of (cget db w))))
  /\ simulates lists_of (record_under flr_name) (update_filter_list self name update) w
       (update_list_spec name update (lists_of (cget db w)))
  /\ simulates lists_of (remove_key name) (delete_filter_list self name) w
       (delete_list_spec name (lists_of (cget db w)))
  /\ exists l, list_filter_lists self kind w = (Ok l, w) /\ StronglySorted by_name l
       /\ forall r, r ∈ l <-> lists_of (cget db w) !! flr_name r = Some r /\ flr_kind r = kind.
Proof.
  intros Hok Hkind. split_and!.
  - by apply add_filter_list_refines.
  - by apply update_filter_list_refines.
  - by apply delete_filter_list_refines.
  - by apply list_filter_lists_listing.
Qed.

(** The upstream servers behave as a map from identifiers to servers: a new server
    gets a fresh identifier and, unless a position is given, the last position; changes
    and deletions affect the named server only; refused requests change nothing. *)
Theorem upstream_servers_refine_map (id : rstr) (create : CreateUpstreamServerInput)
    (update : UpdateUpstreamServerInput) (w : W) :
  schema_ok (cget db w) ->
  (exists new_id, simulates upstreams_of (record_under usr_id)
     (add_upstream_server outside urls self create) w
     (add_upstream_spec urls new_id create (upstreams_of (cget db w))))
  /\ simulates upstreams_of (record_under usr_id) (update_upstream_server urls self id update) w
       (update_upstream_spec urls id update (upstreams_of (cget db w)))
  /\ simulates upstreams_of (remove_key id) (delete_upstream_server self id) w
       (delete_upstream_spec id (upstreams_of (cget db w))).
Proof.
  intros Hok. split_and!.
  - by apply add_upstream_server_refines.
  - by apply update_upstream_server_refines.
  - by apply delete_upstream_server_refines.
Qed.

(** C31. What adding or changing a zone stores: under the name of the zone, exactly the
    zone that is returned, its servers in the order given, and no other zone changes.
    But the protocol of a server is checked only once the zone is written: with an
    unknown protocol among the servers the request is refused as invalid input while the
    zone stays in the database with the servers before it, and for an update the former
    servers are gone. *)
Theorem zone_changes_exact (name : rstr) (create : CreateZoneInput) (update : UpdateZoneInput)
    (old : ZoneRecord) (w : W) :
  schema_ok (cget db w) ->
  (Z.of_nat (length (default [] (cz_servers create))) <= 2 ^ 31)%Z ->
  (Z.of_nat (length (default [] (uz_servers update))) <= 2 ^ 31)%Z ->
  validate_zone_name (cz_zone create) = Ok tt -> zones_of (cget db w) !! cz_zone create = None ->
  zones_of (cget db w) !! name = Some old ->
  (exists zone_id ids res w', add_zone outside self create w = (res, w')
     /\ let stored := with_servers (server_rows zone_id ids
                         (valid_prefix (enumerate (default [] (cz_servers create)))))
                         (new_zone_record zone_id create) in
        zones_of (cget db w') = <[cz_zone create := stored]> (zones_of (cget db w))
        /\ zone_outcome (default [] (cz_servers create)) stored res)
  /\ (exists ids res w', update_zone outside self name update w = (res, w')
     /\ let stored := with_servers (updated_servers update ids old) (patched_zone update old) in
        zones_of (cget db w') = <[name := stored]> (zones_of (cget db w))
        /\ zone_outcome (default [] (uz_servers update)) stored res)
  /\ simulates zones_of (remove_key name) (delete_zone self name) w (Ok {| deleted := name |}).
Proof.
  intros Hok Hlen Hlen' Hname Hnone Hold. split_and!.
  - destruct (add_zone_stores create w Hok Hname Hnone Hlen) as (id & ids & res & w' & H & H1 & H2 & _).
    by exists id, ids, res, w'.
  - by apply update_zone_stores.
  - pose proof (delete_zone_refines name w Hok) as H. by rewrite Hold in H.
Qed.

(** ** Resolver settings *)

(** A time to live as the API stores it. *)
Definition ttl_in_range (ttl : option Z) : Prop := forall z, ttl = Some z -> (0 <= z < 2 ^ 63)%Z.

(** Settings the builders accept after a reload. *)
Record resolver_ok (r : ResolverConfigRecord) : Prop := {
  rk_strategy : is_ok (upstream_strategy_from_str (rcr_strategy r)) = true;
  rk_bootstrap : is_ok (parse_bootstrap_resolvers (rcr_bootstrap_resolvers r)) = true;
  rk_min_ttl : ttl_in_range (rcr_dns_cache_min_ttl_seconds r);
  rk_max_ttl : ttl_in_range (rcr_dns_cache_max_ttl_seconds r);
  rk_cache : is_ok (build_resolver_cache_settings (Some (stored_cache r))) = true
}.

Lemma validated_bootstrap values : validate_bootstrap_resolvers values = Ok tt ->
  is_ok (parse_bootstrap_resolvers values) = true.
Proof.
  unfold validate_bootstrap_resolvers, parse_bootstrap_resolvers.
  destruct (is_empty values); [done|]. induction values as [|v values IH]; [done|]. simpl.
  unfold validate_bootstrap_resolver_address at 1, parse_bootstrap_resolver at 1.
  destruct (parse_socket_addr v) as [a|]; simpl; [|destruct (parse_ip v) as [a|]; simpl; [|done]];
    (intros Hall; specialize (IH Hall); by destruct (collect_results _)).
Qed.

Lemma validated_strategy s : validate_upstream_strategy s = Ok tt ->
  is_ok (upstream_strategy_from_str s) = true.
Proof.
  unfold validate_upstream_strategy, one_of, upstream_strategy_from_str. simpl existsb.
  destruct (str_eqb_spec s (lit "random")); [done|]. destruct (str_eqb_spec s (lit "failover")); [done|].
  destruct (str_eqb_spec s (lit "round_robin")); [done|]. simpl. done.
Qed.

Lemma stored_ttl field ttl : ttl_in_range ttl ->
  parse_cache_ttl field ((fun s => display_Z s ++ lit "s") <$> ttl) = Ok (Z.to_N <$> ttl).
Proof.
  intros Hr. unfold parse_cache_ttl. destruct ttl as [z|]; [|done]. simpl.
  by rewrite parse_stored by by apply Hr.
Qed.

Lemma bounded_cache r :
  ttl_in_range (rcr_dns_cache_min_ttl_seconds r) -> ttl_in_range (rcr_dns_cache_max_ttl_seconds r) ->
  validate_resolver_cache_bounds (rcr_dns_cache_min_ttl_seconds r) (rcr_dns_cache_max_ttl_seconds r) = Ok tt ->
  is_ok (build_resolver_cache_settings (Some (stored_cache r))) = true.
Proof.
  intros Hmin Hmax Hb. unfold build_resolver_cache_settings.
  change (Some (stored_cache r) ≫= rcc_min_ttl)
    with ((fun s => display_Z s ++ lit "s") <$> rcr_dns_cache_min_ttl_seconds r).
  change (Some (stored_cache r) ≫= rcc_max_ttl)
    with ((fun s => display_Z s ++ lit "s") <$> rcr_dns_cache_max_ttl_seconds r).
  rewrite !stored_ttl by done. unfold validate. simpl.
  destruct (rcr_dns_cache_min_ttl_seconds r) as [a|], (rcr_dns_cache_max_ttl_seconds r) as [b|]; try done.
  simpl in *. specialize (Hmin a eq_refl). specialize (Hmax b eq_refl).
  destruct (Z.ltb_spec b a); [done|]. unfold from_secs.
  destruct (N.ltb_spec (Z.to_N b * nanos_per_sec) (Z.to_N a * nanos_per_sec)); [|done]. unfold nanos_per_sec in *. lia.
Qed.

Lemma patched_ttl_range input field old ttl :
  ttl_in_range old -> patched_ttl input field old = Ok ttl -> ttl_in_range ttl.
Proof.
  intros Hold. unfold patched_ttl, parse_cache_ttl_secs. destruct input as [[v|]|].
  - destruct (is_empty _); [done|]. destruct (parse_interval _) as [n|]; simpl; [|done].
    destruct (Z.leb_spec (Z.of_N n) i64_max); [|done]. intros [= <-] z [= <-]. unfold i64_max in *. lia.
  - by intros [= <-].
  - by intros [= <-].
Qed.

Lemma patched_resolver_ok input old r :
  resolver_ok old -> patched_resolver input old = Ok r -> resolver_ok r.
Proof.
  intros [Hs Hb Hmin Hmax _]. unfold patched_resolver, patch.
  destruct (match urc_strategy input with Some _ => _ | None => _ end) as [strategy|] eqn:H1; [|done].
  destruct (match urc_bootstrap_resolvers input with Some _ => _ | None => _ end) as [bootstrap|] eqn:H2; [|done].
  destruct (patched_ttl (urc_dns_cache_min_ttl input) _ _) as [min_ttl|] eqn:H3; [|done].
  destruct (patched_ttl (urc_dns_cache_max_ttl input) _ _) as [max_ttl|] eqn:H4; [|done].
  destruct (validate_resolver_cache_bounds min_ttl max_ttl) as [[]|] eqn:H5; [|done]. intros [= <-].
  apply patched_ttl_range in H3; [|done]. apply patched_ttl_range in H4; [|done].
  split; simpl; [| |done|done|by apply bounded_cache].
  - destruct (urc_strategy input) as [x|]; [|by simplify_eq].
    destruct (validate_upstream_strategy x) as [[]|] eqn:Hx; simplify_eq. by apply validated_strategy.
  - destruct (urc_bootstrap_resolvers input) as [x|]; [|by simplify_eq].
    destruct (validate_bootstrap_resolvers x) as [[]|] eqn:Hx; simplify_eq. by apply validated_bootstrap.
Qed.

(** Changing the resolver settings: an invalid request changes nothing; a valid one
    yields settings that every builder accepts at the next reload (strategy, bootstrap
    resolvers and cache limits), and when the bootstrap addresses are distinct these are
    returned and read back.  A repeated address passes the validation and fails in the
    database, after the settings have been replaced. *)
Theorem resolver_update_buildable (input : UpdateResolverConfigInput) (old : ResolverConfigRecord) (w : W) :
  upstream_get_resolver_config db outside w = (Ok old, w) -> resolver_ok old ->
  match patched_resolver input old with
  | Err e => update_resolver_config self input w = (Err e, w)
  | Ok r =>
      resolver_ok r
      /\ ((Z.of_nat (length (rcr_bootstrap_resolvers r)) <= 2 ^ 31)%Z ->
         exists res w', update_resolver_config self input w = (res, w')
         /\ (NoDup (rcr_bootstrap_resolvers r) ->
             res = Ok r /\ get_resolver_config self w' = (Ok r, w'))
         /\ (~ NoDup (rcr_bootstrap_resolvers r) -> (exists m, res = Err (Internal m))
             /\ exists r', get_resolver_config self w' = (Ok r', w')
                 /\ rcr_strategy r' = rcr_strategy r
                 /\ rcr_bootstrap_resolvers r' = distinct_prefix (rcr_bootstrap_resolvers r)))
  end.
Proof.
  intros Hold Hok. destruct (patched_resolver input old) as [r|e] eqn:Hp.
  - split; [by eapply patched_resolver_ok|]. intros Hlen.
    destruct (resolver_config_update_rows db outside r w Hlen) as (rows & res & w1 & Hu & Hres & Hd & Hrows).
    assert (forall w', cget db w' = cget db w1 -> get_resolver_config self w'
      = (Ok {| rcr_strategy := rcr_strategy r;
               rcr_bootstrap_resolvers := distinct_prefix (rcr_bootstrap_resolvers r);
               rcr_dns_cache_enabled := rcr_dns_cache_enabled r;
               rcr_dns_cache_min_ttl_seconds := rcr_dns_cache_min_ttl_seconds r;
               rcr_dns_cache_max_ttl_seconds := rcr_dns_cache_max_ttl_seconds r |}, w')) as Hget.
    { intros w' Hw'. unfold get_resolver_config. rewrite repos_ok. unfold mlift, mret, tbind at 1. sqlx.
      apply db_call_ok. unfold upstream_get_resolver_config, tbind. rewrite !fetch_quiet by done.
      unfold mret. rewrite Hw', Hd. simpl. by rewrite Hrows. }
    unfold update_resolver_config. rewrite repos_ok. unfold mlift, mret, tbind at 1 2. sqlx.
    rewrite (db_call_ok _ _ _ _ Hold). unfold tbind at 1. rewrite Hp. unfold tbind, db_call, mmap_err.
    rewrite Hu. destruct res as [[]|e]; simpl.
    + destruct (reload_and_return_quiet r w1) as (w2 & -> & Hw2). exists (Ok r), w2. split; [done|].
      pose proof (proj1 Hres eq_refl) as Hnd. split; [|done]. intros _. split; [done|].
      rewrite Hget by done. rewrite (proj2 (distinct_prefix_all _) Hnd). by destruct r.
    + eexists _, w1. split; [done|]. split; [intros Hnd; discriminate (proj2 Hres Hnd)|].
      intros _. split; [by eexists|]. eexists. split; [by apply Hget|]. done.
  - unfold update_resolver_config. rewrite repos_ok. unfold mlift, mret, tbind at 1 2. sqlx.
    rewrite (db_call_ok _ _ _ _ Hold). unfold tbind. by rewrite Hp.
Qed.
End management.

(** ** Witnesses *)

Definition ex_control : FilterControl Database :=
  {| ctl_decide := fun _ => mret FD_Neutral; ctl_list_names := mret [];
     ctl_disable_list := fun _ => mret false; ctl_enable_list := fun _ => mret false;
     ctl_refresh_list := fun _ => mret false; ctl_refresh_all_lists := mret [] |}.

Definition ex_ops : ServerOperations Database :=
  with_repositories (sqlx_repositories ex_db ex_db_outside)
    (server_operations_new ex_control {| cget := fun _ => true; cput := fun _ w => w |} None
       (mret true) 0).

Definition ex_urls : UrlParser :=
  {| up_url := rstr; up_parse := fun s => Ok s; up_scheme := fun _ => lit "https";
     up_host_str := fun s => Some s |}.

Definition ex_new_list : CreateFilterListInput :=
  {| cfl_name := lit "tracking"; cfl_url := lit "https://lists.example/t.txt";
     cfl_interval := Some (lit "6h"); cfl_enabled := None; cfl_list_type := Some (lit "hosts") |}.
Definition ex_list_change : UpdateFilterListInput :=
  {| ufl_url := None; ufl_interval := None; ufl_enabled := Some false; ufl_list_type := None |}.

Lemma ex_listed_ok : schema_ok ex_listed.
Proof. constructor; simpl; repeat (constructor || apply not_elem_of_nil || apply NoDup_singleton). Qed.

Lemma filter_lists_refine_map_witness :
  simulates ex_db lists_of (record_under flr_name)
    (update_filter_list ex_ops (lit "ads") ex_list_change) ex_listed
    (update_list_spec (lit "ads") ex_list_change (lists_of ex_listed)).
Proof.
  apply (filter_lists_refine_map ex_db ex_db_outside ex_ops eq_refl (fun w => eq_refl)
           (lit "block") (lit "ads") ex_new_list ex_list_change ex_listed ex_listed_ok
           (or_introl eq_refl)).
Defined.

Definition ex_new_upstream : CreateUpstreamServerInput :=
  {| cus_enabled := None; cus_protocol := lit "doh"; cus_address := lit "https://dns.example/dns-query";
     cus_authentication := None; cus_max_hops := None; cus_nameserver_ip_family := None;
     cus_root_hints_path := None; cus_root_key_path := None; cus_dnssec := None;
     cus_bind_address := Some (lit "192.0.2.1"); cus_fwmark := Some 7%N; cus_sort_order := None |}.
Definition ex_upstream_change : UpdateUpstreamServerInput :=
  {| uus_enabled := Some false; uus_protocol := None; uus_address := None;
     uus_authentication := None; uus_max_hops := None; uus_nameserver_ip_family := None;
     uus_root_hints_path := None; uus_root_key_path := None; uus_dnssec := None;
     uus_bind_address := Some None; uus_fwmark := Some None; uus_sort_order := None |}.

Lemma upstream_servers_refine_map_witness :
  exists id, simulates ex_db upstreams_of (record_under usr_id)
    (add_upstream_server ex_db_outside ex_urls ex_ops ex_new_upstream) ex_listed
    (add_upstream_spec ex_urls id ex_new_upstream (upstreams_of ex_listed)).
Proof.
  apply (upstream_servers_refine_map ex_db ex_db_outside ex_urls ex_ops eq_refl (fun w => eq_refl)
           (lit "u1") ex_new_upstream ex_upstream_change ex_listed ex_listed_ok).
Defined.

Definition ex_zoned : Database := with_zones (initial_database (lit "b1")) [ex_zone_row] [].
Definition ex_zone_server (protocol : rstr) : CreateZoneServerInput :=
  {| czs_enabled := None; czs_protocol := protocol; czs_address := lit "192.0.2.53:53";
     czs_authentication := None; czs_check_interval := None; czs_max_hops := None;
     czs_nameserver_ip_family := None; czs_root_hints_path := None; czs_root_key_path := None;
     czs_dnssec := None |}.
Definition ex_new_zone : CreateZoneInput :=
  {| cz_zone := lit "lab.example"; cz_enabled := None; cz_bypass_filter := None;
     cz_fallback_to_default_resolvers := None; cz_strategy := None;
     cz_servers := Some [ex_zone_server (lit "dns"); ex_zone_server (lit "udp")] |}.
Definition ex_zone_change : UpdateZoneInput :=
  {| uz_enabled := None; uz_bypass_filter := Some true; uz_fallback_to_default_resolvers := None;
     uz_strategy := None; uz_servers := None |}.

Lemma zone_changes_exact_witness :
  exists zone_id ids res w', add_zone ex_db_outside ex_ops ex_new_zone ex_zoned = (res, w')
    /\ zones_of w' = <[lit "lab.example" := with_servers (server_rows zone_id ids
                         (valid_prefix (enumerate [ex_zone_server (lit "dns"); ex_zone_server (lit "udp")])))
                         (new_zone_record zone_id ex_new_zone)]> (zones_of ex_zoned)
    /\ zone_outcome [ex_zone_server (lit "dns"); ex_zone_server (lit "udp")]
         (with_servers (server_rows zone_id ids
            (valid_prefix (enumerate [ex_zone_server (lit "dns"); ex_zone_server (lit "udp")])))
            (new_zone_record zone_id ex_new_zone)) res.
Proof.
  apply (zone_changes_exact ex_db ex_db_outside ex_ops eq_refl (fun w => eq_refl) (lit "corp.example")
           ex_new_zone ex_zone_change (zone_of_row ex_zone_row []) ex_zoned ex_schema_ok);
    first [by vm_compute | simpl; lia].
Defined.

Definition ex_settings_change : UpdateResolverConfigInput :=
  {| urc_strategy := Some (lit "failover"); urc_bootstrap_resolvers := Some [lit "9.9.9.9"; lit "1.1.1.1:53"];
     urc_dns_cache_enabled := None; urc_dns_cache_min_ttl := Some (Some (lit "1m"));
     urc_dns_cache_max_ttl := Some None |}.
Definition ex_settings : ResolverConfigRecord :=
  {| rcr_strategy := lit "round_robin"; rcr_bootstrap_resolvers := [lit "1.1.1.1"];
     rcr_dns_cache_enabled := true; rcr_dns_cache_min_ttl_seconds := None;
     rcr_dns_cache_max_ttl_seconds := None |}.

Lemma ex_settings_ok : resolver_ok ex_settings.
Proof. constructor; [by vm_compute|by vm_compute|intros z [=]|intros z [=]|by vm_compute]. Qed.

Lemma resolver_update_buildable_witness :
  exists r, patched_resolver ex_settings_change ex_settings = Ok r /\ resolver_ok r.
Proof.
  pose proof (resolver_update_buildable ex_db ex_db_outside ex_ops eq_refl (fun w => eq_refl)
    ex_settings_change ex_settings (initial_database (lit "b1")) ltac:(by vm_compute) ex_settings_ok) as H.
  destruct (patched_resolver ex_settings_change ex_settings) as [r|e] eqn:Hp; [|by vm_compute in Hp].
  exists r. split; [reflexivity|exact (proj1 H)].
Defined.
