(* ===== verification/Daemon.v ===== *)
(** * Loading, reloading and the running daemon

    [frameworks/config/loader.rs], [use_cases/reload.rs] and the wiring of [main.rs]:
    how the daemon gets its configuration, which parts it builds from it, what a reload
    replaces and what management acts on.  The YAML deserializer is a parameter.  The
    builders are used through an interface ([Builders]), which [config_builders]
    implements with the functions of [ConfigBootstrap].

    Every build allocates its own engine, caches and zones.  A generation is one such
    build: generation 0 at start-up and one more for each successful reload; [heap n] is
    the memory of the engine of generation [n]. *)

From S2P Require Import Prelude RustStr RustNet Outside Hickory Metrics FilterEngine Upstream Pipeline.
From S2P Require Import ZoneForwarding ZoneAuthority ZoneRegistry ChrootPaths ConfigBootstrap Schema.
From S2P Require Import ExampleCodec Repositories ConfigDb ServerOperations.

(** ** Loading ([loader.rs]) *)

(** An error of the deserializer: where, in which field, and why. *)
Record YamlError : Type := {
  ye_path : rstr; ye_location : option (N * N); ye_inner : rstr
}.

Definition hint_for_path (field_path : rstr) : rstr :=
  if starts_with (lit "blocklists") field_path || starts_with (lit "allowlists") field_path then
    lit "Use either '- name: my_list\n  url: https://...\n  interval: 12h' or '- my_list:\n    url: https://...\n    interval: 12h' for each list item."
  else if starts_with (lit "listen") field_path then
    lit "Check listener fields and types (for example, ports must be numbers and TLS sections must be nested under 'tls')."
  else if starts_with (lit "resolvers.zones") field_path then
    lit "Check each zone includes 'zone' and at least one enabled entry in 'servers[]'. Each server requires 'enabled', 'protocol', and 'address'. Protocols: 'dns' (<ip>:<port>), 'dot' (tls://<host>[:port]), 'doh' (https://...), 'recursive', 'json' (file://, http://, or https:// address). The 'json' protocol accepts 'check_interval' for URL sources. Both 'json' and 'doh' accept nested 'authentication' with 'token' (Bearer) or 'username'+'password' (Basic). Zone-level 'strategy' supports round_robin, random, or failover."
  else if starts_with (lit "resolvers") field_path then
    lit "Check that 'strategy' is valid, each server includes 'protocol'/'address', and optional 'bootstrap_resolvers' values are IP or IP:port (default: 194.242.2.2; protocol support: dns, dot, recursive; DoT examples: tls://1.1.1.1, tls://dns.example.com:853, or 1.1.1.1:853)."
  else if starts_with (lit "logging") field_path then
    lit "Check each logging target uses the expected keys (enabled/level and location for file logging)."
  else if starts_with (lit "filtering") field_path then
    lit "Check filtering fields (sinkhole_ipv4/sinkhole_ipv6), optional any_query_policy ('passthrough', 'refused', or 'notimp'), and optional cache config: mode is 'memory' or 'sqlite', with optional document_path."
  else lit "Check YAML indentation and value types in this section.".

Definition newline : rstr := [10%N].

Section loader.
Context {W : Type} (outside : Outside W) (parse_yaml : rstr -> result DnsFilterConfig YamlError).
(** The text of the I/O error when a file cannot be read. *)
Context (io_error : rstr).

Definition parse_config (path content : rstr) : result DnsFilterConfig Error :=
  map_err (fun error =>
    [lit "Could not parse the config file." ++ newline ++ lit "  File: " ++ path ++ newline
     ++ match ye_location error with
        | Some (line, column) => lit "  Location: line " ++ display_N line ++ lit ", column "
                                 ++ display_N column ++ newline
        | None => []
        end
     ++ lit "  Field: " ++ ye_path error ++ newline ++ lit "  Reason: " ++ ye_inner error ++ newline
     ++ lit "  Hint: " ++ hint_for_path (ye_path error)]) (parse_yaml content).

Definition load_config (path : rstr) : M W (result DnsFilterConfig Error) :=
  content <<- fs_read_to_string outside path ;;
  match content with
  | None =>
      mret (Err [lit "Could not read the config file." ++ newline ++ lit "  File: " ++ path ++ newline
                 ++ lit "  Reason: " ++ io_error ++ newline
                 ++ lit "  Hint: Check that the file exists and that this process has read permissions."])
  | Some content => mret (parse_config path content)
  end.

Definition load_config_from_str (content : rstr) : result DnsFilterConfig Error :=
  parse_config (lit "<cached>") content.
End loader.

(** [validate_config] looks at the paths of the configuration and returns it. *)
Definition validate_dns_config (config : DnsFilterConfig) : result DnsFilterConfig Error :=
  let? _ := validate_config (path_config config) in Ok config.

(** ** Building *)

Record Builders (W : Type) : Type := {
  b_upstream_resolver : nat -> DnsFilterConfig -> M W (result (UpstreamResolver W) Error);
  b_domain_filter : nat -> DnsFilterConfig -> option (FilterCacheRepository W) ->
                    M W (result (ListFilterEngine W) Error);
  b_zone_entries : nat -> DnsFilterConfig -> M W (result (list (ZoneEntry W)) Error)
}.
Arguments b_upstream_resolver {W} _ _ _ _.
Arguments b_domain_filter {W} _ _ _ _ _.
Arguments b_zone_entries {W} _ _ _ _.

Definition any_query_policy_of (config : DnsFilterConfig) : result AnyQueryPolicy Error :=
  build_any_query_policy (dc_filtering config ≫= fc_any_query_policy).

(** [ReloadedConfig]: resolver, filter, ANY policy and zones. *)
Definition ReloadedConfig (W : Type) : Type :=
  UpstreamResolver W * ListFilterEngine W * AnyQueryPolicy * list (ZoneEntry W).

(** The [DomainFilter] implementation of the engine, as the pipeline uses it. *)
Definition engine_filter {W} (heap : Cell W EngineHeap) (e : ListFilterEngine W) : DomainFilter W :=
  {| df_decide := fun domain w => decide_domain (cget heap w) domain;
     df_blocked_by := fun domain w => blocked_by (e_runtimes e) (cget heap w) domain;
     df_sinkhole_ipv4 := e_sinkhole_v4 e; df_sinkhole_ipv6 := e_sinkhole_v6 e |}.

(** The registry of the zones that can be searched. *)
Definition zone_registry_of {W} (zone_entries : list (ZoneEntry W)) : ZoneRegistry W :=
  {| zones := omap (fun entry =>
       (fun s => (s, {| zm_bypass_filter := ze_bypass_filter entry;
                        zm_fallback_to_default_resolvers := ze_fallback_to_default_resolvers entry |}))
       <$> ze_searchable entry) zone_entries |}.

Section reload.
Context {W : Type} (outside : Outside W) (parse_yaml : rstr -> result DnsFilterConfig YamlError).
Context (io_error : rstr) (builders : Builders W).
(** [spawn_blocking(..).await]: the message of a task that panicked. *)
Context (blocking_failure : M W (option rstr)).

Definition reload_config (generation : nat) (config_path : rstr) : M W (result (ReloadedConfig W) Error) :=
  config <?- load_config outside parse_yaml io_error config_path ;;
  config <?- mlift (validate_dns_config config) ;;
  resolver <?- b_upstream_resolver builders generation config ;;
  filter <?- b_domain_filter builders generation config None ;;
  any_query_policy <?- mlift (any_query_policy_of config) ;;
  zone_entries <?- b_zone_entries builders generation config ;;
  mret (Ok (resolver, filter, any_query_policy, zone_entries)).

(** The part [reload_config_from_db] and [reload_config_from_db_cached] have in common. *)
Definition rebuild_from_db (generation : nat) (config : DnsFilterConfig) (repos : Repositories W) :
    M W (result (ReloadedConfig W) Error) :=
  config <?- mlift (validate_dns_config config) ;;
  config <?- apply_db_config repos config ;;
  resolver <?- b_upstream_resolver builders generation config ;;
  filter <?- b_domain_filter builders generation config (Some (r_filter_cache repos)) ;;
  any_query_policy <?- mlift (any_query_policy_of config) ;;
  panicked <<- blocking_failure ;;
  match panicked with
  | Some e => mret (Err [lit "zone entry build task panicked: " ++ e])
  | None =>
      zone_entries <?- b_zone_entries builders generation config ;;
      mret (Ok (resolver, filter, any_query_policy, zone_entries))
  end.

Definition reload_config_from_db (generation : nat) (config_path : rstr) (repos : Repositories W) :
    M W (result (ReloadedConfig W) Error) :=
  config <?- load_config outside parse_yaml io_error config_path ;;
  rebuild_from_db generation config repos.

Definition reload_config_from_db_cached (generation : nat) (cached_yaml : rstr) (repos : Repositories W) :
    M W (result (ReloadedConfig W) Error) :=
  config <?- mlift (load_config_from_str parse_yaml cached_yaml) ;;
  rebuild_from_db generation config repos.
End reload.

(** ** The daemon ([main.rs]) *)

Abbreviation DnsRequestPipeline W :=
  (AsyncPipelineHandler W DnsPipelineRequest DnsPipelineResponse DnsPipelineError).

(** What a running daemon holds.  [dm_pipeline] is the content of the pipeline slot,
    [dm_filter] the engine inside it, [dm_ops] what the management interfaces share, and
    [dm_loops] the background refresh loops, each with its generation and period. *)
Record Daemon (W : Type) : Type := {
  dm_generation : nat;
  dm_filter : ListFilterEngine W;
  dm_pipeline : DnsRequestPipeline W;
  dm_ops : ServerOperations W;
  dm_loops : list (nat * (ListRuntime * N))
}.
Arguments dm_generation {W} _.
Arguments dm_filter {W} _.
Arguments dm_pipeline {W} _.
Arguments dm_ops {W} _.
Arguments dm_loops {W} _.

Definition started_loops {W} (generation : nat) (e : ListFilterEngine W) :
    list (nat * (ListRuntime * N)) :=
  pair generation <$> start_background_refresh (e_runtimes e).

Section daemon.
Context `{DnsCodec} {W : Type} (outside : Outside W) (metrics : Cell W MetricsGlobal).
Context (parse_yaml : rstr -> result DnsFilterConfig YamlError) (io_error : rstr).
Context (db_outside : DbOutside W) (builders : Builders W) (blocking_failure : M W (option rstr)).
Context (heap : nat -> Cell W EngineHeap) (spawned : Cell W (list ListRuntime)).
Context (filtering_enabled : Cell W bool) (query_log_cell : Cell W QueryLog).
Context (send_reload : M W bool) (unix_now : M W (option N)).

(** The first start imports the file into the database; every start reads it back. *)
Definition start_operational (repos : Repositories W) (config : DnsFilterConfig) :
    M W (result DnsFilterConfig Error) :=
  in_context (lit "failed to seed database") (seed_if_empty db_outside repos config) ?;;
  in_context (lit "failed to load operational config from database") (apply_db_config repos config).

(** [api.query_logging], when it is enabled. *)
Definition start_query_log (config : DnsFilterConfig) : M W (option (Cell W QueryLog)) :=
  match dc_api config ≫= api_query_logging with
  | Some ql =>
      if ql_enabled ql
      then cwrite query_log_cell (query_log_new (ql_max_entries ql)) ;;; mret (Some query_log_cell)
      else mret None
  | None => mret None
  end.

Definition start_ops (repos : Repositories W) (filter : ListFilterEngine W)
    (query_log : option (Cell W QueryLog)) (start_time : N) (registry : ZoneRegistry W) :
    ServerOperations W :=
  with_zone_registry registry (with_repositories repos
    (server_operations_new (engine_control (heap 0) spawned filter) filtering_enabled query_log
       send_reload start_time)).

Definition dns_enabled (config : DnsFilterConfig) : bool :=
  match lc_dns (dc_listen config) with Some cfg => so_enabled cfg | None => false end.

(** [run_daemon] from the database to the request pipeline. *)
Definition start_daemon (config : DnsFilterConfig) (repos : Repositories W) : M W (result (Daemon W) Error) :=
  config <?- start_operational repos config ;;
  resolver <?- in_context (lit "invalid upstream configuration")
                 (b_upstream_resolver builders 0 config) ;;
  filter <?- in_context (lit "invalid filtering configuration")
               (b_domain_filter builders 0 config (Some (r_filter_cache repos))) ;;
  policy <?- in_context (lit "invalid filtering configuration") (mlift (any_query_policy_of config)) ;;
  zone_entries <?- in_context (lit "invalid zone forwarding configuration")
                     (b_zone_entries builders 0 config) ;;
  cwrite filtering_enabled true ;;;
  (if negb (dns_enabled config) then mret (Err [lit "listen.dns must be configured with enabled: true"])
   else
     start_time <<- unix_now ;;
     query_log <<- start_query_log config ;;
     mret (Ok {| dm_generation := 0; dm_filter := filter;
                 dm_pipeline := build_dns_request_pipeline_full metrics resolver
                                  (engine_filter (heap 0) filter) policy zone_entries
                                  (Some filtering_enabled);
                 dm_ops := start_ops repos filter query_log (default 0%N start_time)
                             (zone_registry_of zone_entries);
                 dm_loops := started_loops 0 filter |})).

(** What the reload task does with the result of a rebuild: the new pipeline is put in the
    slot, or everything stays. *)
Definition install (reloaded : result (ReloadedConfig W) Error) (d : Daemon W) : Daemon W :=
  let generation := S (dm_generation d) in
  match reloaded with
  | Ok (new_resolver, new_filter, new_any_query_policy, new_zone_entries) =>
      {| dm_generation := generation; dm_filter := new_filter;
         dm_pipeline := build_dns_request_pipeline_full metrics new_resolver
                          (engine_filter (heap generation) new_filter) new_any_query_policy
                          new_zone_entries (Some filtering_enabled);
         dm_ops := dm_ops d;
         dm_loops := dm_loops d ++ started_loops generation new_filter |}
  | Err _ => d
  end.

(** One round of the reload task. *)
Definition reload_once (cached_yaml : rstr) (repos : Repositories W) (d : Daemon W) : M W (Daemon W) :=
  reloaded <<- reload_config_from_db_cached parse_yaml builders blocking_failure (S (dm_generation d))
                 cached_yaml repos ;;
  mret (install reloaded d).
End daemon.

(** The builders of [ConfigBootstrap], with the cells each generation allocates. *)
Section config_builders.
Context `{DnsCodec} (iter_order : CacheEntries -> list (bytes * CachedResponse)).
Context {W : Type} (outside : Outside W) (metrics : Cell W MetricsGlobal) (clients : Clients W).
Context (Url : Type) (parse_url : rstr -> option Url) (url_join : Url -> rstr -> result rstr rstr)
        (parse_index_json : rstr -> option (list ZoneIndexEntry))
        (url_parse : rstr -> option rstr) (parse_zone_json : rstr -> option ZoneJsonDocument)
        (record_eq : DnsRecord -> DnsRecord -> bool)
        (searchable_of : ZoneAuthorityResolver (W := W) -> ZoneSearchable W).
Context (doc_from_json : rstr -> result CachedListDocument Error).
Context (heap : nat -> Cell W EngineHeap) (cells : nat -> ResolverCells (W := W))
        (zone_cells : nat -> nat -> ResolverCells (W := W))
        (discovery_cells : nat -> nat -> nat -> Cell W ZoneSnapshot).

Definition config_builders : Builders W :=
  {| b_upstream_resolver := fun n config =>
       build_upstream_resolver iter_order outside metrics clients (cells n) (dc_resolvers config)
         (dc_outbound config);
     b_domain_filter := fun n config cache_repo =>
       build_domain_filter_with_cache metrics (heap n) doc_from_json (filter_config config) cache_repo;
     b_zone_entries := fun n config =>
       build_zone_entries iter_order outside metrics clients Url parse_url url_join parse_index_json
         url_parse parse_zone_json record_eq searchable_of (zone_cells n) (discovery_cells n)
         (dc_resolvers config) |}.
End config_builders.

(** ** Facts about the interface

    What the daemon relies on: the lists of an engine are those of its configuration. *)

Class FilterBuilder {W : Type} (builders : Builders W) : Prop := {
  filter_runtimes : forall n config repo w e w',
    b_domain_filter builders n config repo w = (Ok e, w') ->
    config_runtimes (filter_config config) = Ok (e_runtimes e)
}.

#[export] Instance config_builders_filter `{DnsCodec} iter_order {W} (outside : Outside W) metrics clients
    Url parse_url url_join parse_index_json url_parse parse_zone_json record_eq searchable_of
    doc_from_json heap cells zone_cells discovery_cells :
  FilterBuilder (config_builders iter_order outside metrics clients Url parse_url url_join
    parse_index_json url_parse parse_zone_json record_eq searchable_of doc_from_json heap cells
    zone_cells discovery_cells).
Proof.
  split. intros n config repo w e w'. simpl. unfold build_domain_filter_with_cache.
  destruct (check_list_intervals _); [|done]. unfold from_config_with_cache.
  destruct (parse_sinkhole_addrs _) as [[v4 v6]|]; [|done].
  destruct (config_runtimes _) as [rts|]; [|done]. unfold mbind, cwrite, mret.
  destruct (try_restore_document_cache _ _ _ _ _) as [[] w1]. by intros [= <- _].
Qed.

(** ** Lists and runtimes *)

Definition same_list (name url : rstr) (kind : ListKind) (rt : ListRuntime) : Prop :=
  rt_name rt = name /\ rt_url rt = url /\ rt_kind rt = kind.

Lemma build_runtimes_lists lists kind loc rts : build_runtimes lists kind loc = Ok rts ->
  forall name url k, Exists (same_list name url k) rts
    <-> k = kind /\ exists l, l ∈ lists /\ list_enabled l = true /\ nl_name l = name /\ nl_url l = url.
Proof.
  unfold build_runtimes. intros Hr%collect_results_ok name url k. rewrite Exists_exists.
  assert (forall i, build_runtime kind (loc + i) <$> filter (fun l => list_enabled l = true) lists !! i
                    = Ok <$> rts !! i) as Hi.
  { intros i. symmetry. by rewrite <- list_lookup_fmap, <- Hr, list_lookup_imap. }
  split.
  - intros (rt & (i & Hlk)%list_elem_of_lookup & Hn & Hu & Hk). specialize (Hi i). rewrite Hlk in Hi.
    apply fmap_Some in Hi as (l & Hl & Hb). symmetry in Hb.
    apply build_runtime_tagged in Hb as (_ & Hk' & _ & Hn' & Hu').
    apply list_elem_of_lookup_2, list_elem_of_filter in Hl as [Hen Hl].
    split; [congruence|]. exists l. split_and!; congruence.
  - intros (-> & l & Hl & Hen & Hn & Hu).
    assert (l ∈ filter (fun l => list_enabled l = true) lists) as (i & Hlk)%list_elem_of_lookup
      by by apply list_elem_of_filter.
    specialize (Hi i). rewrite Hlk in Hi. symmetry in Hi. apply fmap_Some in Hi as (rt & Hrt & Hb).
    apply build_runtime_tagged in Hb as (_ & Hk' & _ & Hn' & Hu').
    exists rt. split; [by eapply list_elem_of_lookup_2|]. unfold same_list. split_and!; congruence.
Qed.

Lemma config_runtimes_lists config rts : config_runtimes config = Ok rts ->
  forall name url k, Exists (same_list name url k) rts
    <-> exists l, l ∈ (match k with LK_Block => cfg_blocklists config | LK_Allow => cfg_allowlists config end)
                  /\ list_enabled l = true /\ nl_name l = name /\ nl_url l = url.
Proof.
  unfold config_runtimes. intros Hr name url k.
  destruct (build_runtimes (cfg_blocklists config) LK_Block 0) as [b|] eqn:Hb; [|done].
  destruct (build_runtimes (cfg_allowlists config) LK_Allow (length b)) as [a|] eqn:Ha; [|done].
  simplify_eq. rewrite Exists_app, (build_runtimes_lists _ _ _ _ Hb), (build_runtimes_lists _ _ _ _ Ha).
  destruct k; naive_solver.
Qed.

(** ** Reloads *)

Section daemon_facts.
Context `{DnsCodec} {W : Type} (outside : Outside W) (metrics : Cell W MetricsGlobal).
Context (parse_yaml : rstr -> result DnsFilterConfig YamlError) (io_error : rstr).
Context (builders : Builders W) (blocking_failure : M W (option rstr)).
Context (heap : nat -> Cell W EngineHeap) (spawned : Cell W (list ListRuntime)).
Context (filtering_enabled : Cell W bool) (send_reload : M W bool).
Context (cached_yaml : rstr) (repos : Repositories W).

#[local] Notation reload :=
  (reload_once metrics parse_yaml builders blocking_failure heap filtering_enabled cached_yaml repos).

(** All parts of [d] were built from [config], as one generation. *)
Definition built_from (config : DnsFilterConfig) (d : Daemon W) : Prop :=
  exists resolver policy zone_entries w1 w1' w2 w2' w3 w3',
    b_upstream_resolver builders (dm_generation d) config w1 = (Ok resolver, w1')
    /\ b_domain_filter builders (dm_generation d) config (Some (r_filter_cache repos)) w2
       = (Ok (dm_filter d), w2')
    /\ any_query_policy_of config = Ok policy
    /\ b_zone_entries builders (dm_generation d) config w3 = (Ok zone_entries, w3')
    /\ dm_pipeline d = build_dns_request_pipeline_full metrics resolver
                         (engine_filter (heap (dm_generation d)) (dm_filter d)) policy zone_entries
                         (Some filtering_enabled).

(** The configuration a reload works with. *)
Definition reload_source (w : W) (config : DnsFilterConfig) : Prop :=
  exists file w', load_config_from_str parse_yaml cached_yaml = Ok file
    /\ validate_dns_config file = Ok file /\ apply_db_config repos file w = (Ok config, w').

#[local] Notation installed := (install metrics heap filtering_enabled).

(** A rebuild that succeeded, once installed. *)
Lemma rebuilt d w parts w' :
  reload_config_from_db_cached parse_yaml builders blocking_failure (S (dm_generation d)) cached_yaml repos w
  = (Ok parts, w') ->
  exists config, reload_source w config /\ built_from config (installed (Ok parts) d).
Proof.
  destruct parts as [[[r f] p] z]. intros Hr. unfold reload_config_from_db_cached, rebuild_from_db in Hr.
  apply tbind_ok in Hr as (file & wa & Hload & Hr). injection Hload as Hload <-.
  apply tbind_ok in Hr as (file' & wb & Hval & Hr). injection Hval as Hval <-.
  apply tbind_ok in Hr as (config & wc & Happly & Hr).
  apply tbind_ok in Hr as (r' & wd & Hres & Hr). apply tbind_ok in Hr as (f' & we & Hfil & Hr).
  apply tbind_ok in Hr as (p' & wf & Hpol & Hr). injection Hpol as Hpol <-.
  unfold mbind in Hr. destruct (blocking_failure we) as [[e|] wg]; [done|].
  apply tbind_ok in Hr as (z' & wh & Hzon & Hr). unfold mret in Hr. simplify_eq.
  assert (file' = file) as ->.
  { unfold validate_dns_config in Hval. by destruct (validate_config _); simplify_eq. }
  exists config. split; [by exists file, wc|]. exists r, p, z. by repeat eexists.
Qed.

Lemma reload_cases d w d' w' : reload d w = (d', w') ->
  d' = d
  \/ exists config, reload_source w config /\ built_from config d'
       /\ dm_generation d' = S (dm_generation d) /\ dm_ops d' = dm_ops d
       /\ dm_loops d' = dm_loops d ++ started_loops (dm_generation d') (dm_filter d').
Proof.
  unfold reload_once, mbind at 1.
  destruct (reload_config_from_db_cached _ _ _ _ _ _ _) as [[parts|e] w1] eqn:Hr;
    unfold mret; intros [= <- <-]; [right|by left].
  destruct (rebuilt _ _ _ _ Hr) as (config & Hs & Hb). exists config. split; [done|]. split; [done|].
  by destruct parts as [[[r f] p] z].
Qed.


(** ** A running daemon

    Requests, reloads, management calls and the background tasks, in any order. *)
Inductive daemon_step : Daemon W * W -> Daemon W * W -> Prop :=
| step_serve d w request :
    daemon_step (d, w) (d, snd (handle_request (dm_pipeline d) request w))
| step_reload d w d' w' : reload d w = (d', w') -> daemon_step (d, w) (d', w')
| step_manage {A} d w (operation : ServerOperations W -> M W A) :
    daemon_step (d, w) (d, snd (operation (dm_ops d) w))
| step_background d w (task : M W unit) : daemon_step (d, w) (d, snd (task w)).

Lemma steps_keep_ops c c' : rtc daemon_step c c' ->
  dm_ops (fst c') = dm_ops (fst c) /\ dm_generation (fst c) <= dm_generation (fst c')
  /\ dm_loops (fst c) `prefix_of` dm_loops (fst c').
Proof.
  induction 1 as [c|c1 c2 c3 Hs _ (IH1 & IH2 & IH3)]; [done|].
  destruct Hs as [d w request|d w d' w' Hr|A d w operation|d w task]; [by simpl in *| |by simpl in *..].
  destruct (reload_cases _ _ _ _ Hr) as [->|(config & _ & _ & Hg & Ho & Hl)]; [done|]. simpl in *.
  split_and!; [congruence|lia|]. etrans; [|exact IH3]. rewrite Hl. by apply prefix_app_r.
Qed.

(** The management interfaces keep the engine of start-up: however often the daemon
    reloads, switching a list off or on through them changes the memory of the first
    engine only.  Once a reload has succeeded, a switch that answers success leaves every
    decision of the filter that serves requests unchanged, and the refresh loops of the
    former generations keep running. *)
Theorem switches_act_on_first_engine (d0 d : Daemon W) (w0 w : W) (filter0 : ListFilterEngine W)
    (log : option (Cell W QueryLog)) (t : N) (registry : ZoneRegistry W) (name domain : rstr) :
  CellLaws (heap 0) ->
  dm_ops d0 = start_ops heap spawned filtering_enabled send_reload repos filter0 log t registry ->
  rtc daemon_step (d0, w0) (d, w) ->
  let w' := snd (op_disable_list (dm_ops d) name w) in
  cget (heap 0) w' = snd (disable_list (e_runtimes filter0) name (cget (heap 0) w))
  /\ (cell_frame (heap 0) (heap (dm_generation d)) ->
      df_decide (engine_filter (heap (dm_generation d)) (dm_filter d)) domain w'
      = df_decide (engine_filter (heap (dm_generation d)) (dm_filter d)) domain w)
  /\ dm_loops d0 `prefix_of` dm_loops d.
Proof.
  intros Hlaws Hops Hsteps. apply steps_keep_ops in Hsteps as (Ho & _ & Hl). simpl in Ho, Hl.
  cbv zeta. rewrite Ho, Hops. unfold op_disable_list, mbind, mret. simpl. unfold cstate.
  destruct (disable_list _ _ _) as [found h]. simpl.
  split_and!; [by rewrite cget_cput|by intros ->|done].
Qed.
End daemon_facts.

(** ** From management to the pipeline *)

Definition kind_text (k : ListKind) : rstr :=
  match k with LK_Block => lit "block" | LK_Allow => lit "allow" end.

Section managed_lists.
Context `{DnsCodec} {W : Type} (metrics : Cell W MetricsGlobal).
Context (parse_yaml : rstr -> result DnsFilterConfig YamlError).
Context (builders : Builders W) `{!FilterBuilder builders} (blocking_failure : M W (option rstr)).
Context (heap : nat -> Cell W EngineHeap) (filtering_enabled : Cell W bool) (cached_yaml : rstr).
Context (db : Cell W Database) (db_outside : DbOutside W) `{!QuietDb db db_outside}.

Lemma lists_of_kind_elem kind w l : schema_ok (cget db w) ->
  l ∈ lists_of_kind kind (merge_sort by_name (t_filter_lists (cget db w)))
  <-> exists r, lists_of (cget db w) !! flr_name r = Some r /\ flr_kind r = kind /\ l = list_config r.
Proof.
  intros Hok. unfold lists_of_kind. rewrite list_elem_of_fmap.
  setoid_rewrite list_elem_of_filter. setoid_rewrite (merge_sort_Permutation by_name (t_filter_lists (cget db w))).
  unfold lists_of. setoid_rewrite (table_map_Some flr_name); [|apply Hok..]. naive_solver.
Qed.

(** Parts built from what the database says: the lists of the filter are the enabled lists
    of the database. *)
Lemma built_lists_exact (config : DnsFilterConfig) (d : Daemon W) (w : W) (name url : rstr) (k : ListKind) :
  schema_ok (cget db w) ->
  reload_source parse_yaml cached_yaml (sqlx_repositories db db_outside) w config ->
  built_from metrics builders heap filtering_enabled (sqlx_repositories db db_outside) config d ->
  Exists (same_list name url k) (e_runtimes (dm_filter d))
  <-> exists r, lists_of (cget db w) !! name = Some r
        /\ flr_enabled r = true /\ flr_kind r = kind_text k /\ flr_url r = url.
Proof.
  intros Hok (file & w1 & _ & _ & Happly) Hb. rewrite apply_db_config_quiet in Happly by done.
  injection Happly as <- _. destruct Hb as (_ & _ & _ & _ & _ & w2 & w2' & _ & _ & _ & Hf & _).
  apply filter_runtimes in Hf. rewrite (config_runtimes_lists _ _ Hf). simpl.
  assert (forall kind, (exists l, l ∈ lists_of_kind kind (merge_sort by_name (t_filter_lists (cget db w)))
      /\ list_enabled l = true /\ nl_name l = name /\ nl_url l = url)
    <-> exists r, lists_of (cget db w) !! name = Some r /\ flr_enabled r = true /\ flr_kind r = kind
        /\ flr_url r = url) as Hkind.
  { intros kind. setoid_rewrite (lists_of_kind_elem _ _ _ Hok). split.
    - intros (l & (r & Hl & Hk & ->) & Hen & <- & <-). by exists r.
    - intros (r & Hl & Hen & Hk & <-). exists (list_config r).
      assert (flr_name r = name) as Hn.
      { unfold lists_of in Hl. by apply table_map_Some in Hl as [_ ?]; [|apply Hok]. }
      split_and!; [|done..]. exists r. by rewrite Hn. }
  destruct k; apply Hkind.
Qed.

(** After a reload the filter that serves requests has exactly the enabled lists of
    the database, the ones management has added or changed included: a list is refreshed
    and applied if and only if the database has an enabled list of that kind with that
    name and URL. *)
Theorem reloaded_lists_exact (d d' : Daemon W) (w w' : W) (name url : rstr) (k : ListKind) :
  schema_ok (cget db w) ->
  reload_once metrics parse_yaml builders blocking_failure heap filtering_enabled cached_yaml
    (sqlx_repositories db db_outside) d w = (d', w') ->
  dm_generation d' <> dm_generation d ->
  Exists (same_list name url k) (e_runtimes (dm_filter d'))
  <-> exists r, lists_of (cget db w) !! name = Some r
        /\ flr_enabled r = true /\ flr_kind r = kind_text k /\ flr_url r = url.
Proof.
  intros Hok Hr Hgen. apply reload_cases in Hr as [->|(config & Hs & Hb & _)]; [done|].
  by eapply built_lists_exact.
Qed.
End managed_lists.

(** ** Witnesses *)

Module DaemonExamples.
Record World : Type := { dw_db : Database; dw_first : EngineHeap; dw_second : EngineHeap; dw_flag : bool }.

Definition db : Cell World Database :=
  {| cget := dw_db; cput := fun x w => {| dw_db := x; dw_first := dw_first w; dw_second := dw_second w;
                                          dw_flag := dw_flag w |} |}.
Definition heap (n : nat) : Cell World EngineHeap :=
  match n with
  | 0 => {| cget := dw_first; cput := fun x w => {| dw_db := dw_db w; dw_first := x;
                                                    dw_second := dw_second w; dw_flag := dw_flag w |} |}
  | S _ => {| cget := dw_second; cput := fun x w => {| dw_db := dw_db w; dw_first := dw_first w;
                                                       dw_second := x; dw_flag := dw_flag w |} |}
  end.
Definition flag : Cell World bool :=
  {| cget := dw_flag; cput := fun x w => {| dw_db := dw_db w; dw_first := dw_first w;
                                            dw_second := dw_second w; dw_flag := x |} |}.
Definition metrics : Cell World MetricsGlobal := {| cget := fun _ => None; cput := fun _ w => w |}.
Definition spawned : Cell World (list ListRuntime) := {| cget := fun _ => []; cput := fun _ w => w |}.

Definition db_outside : DbOutside World :=
  {| db_fault := fun w => (None, w); db_message := fun _ => lit "constraint failed";
     new_v4 := fun w => (ex_fresh_id (dw_db w), w) |}.
#[export] Instance db_quiet : QuietDb db db_outside.
Proof. split; [by split; [|intros []|]|done|done|]. intros w. apply ex_fresh_id_fresh. Qed.

#[export] Instance heap_laws : CellLaws (heap 0).
Proof. by split; [|intros []|]. Qed.

Definition silent : UpstreamResolver World :=
  {| resolve := fun _ => mret (Err URE_Timeout); label := lit "silent" |}.

(** Builders without a network: the lists of the configuration and no zones. *)
Definition builders : Builders World :=
  {| b_upstream_resolver := fun _ _ => mret (Ok silent);
     b_domain_filter := fun n config repo w =>
       match config_runtimes (filter_config config) with
       | Ok rts => (Ok {| e_sinkhole_v4 := (0, 0, 0, 0)%N; e_sinkhole_v6 := [];
                          e_runtimes := rts; e_cache_repo := repo |}, w)
       | Err e => (Err e, w)
       end;
     b_zone_entries := fun _ _ => mret (Ok []) |}.
#[export] Instance builders_filter : FilterBuilder builders.
Proof.
  split. intros n config repo w e w'. simpl. destruct (config_runtimes _); [|done]. by intros [= <- _].
Qed.

Definition parse_yaml (_ : rstr) : result DnsFilterConfig YamlError := Ok ex_dns_config.
#[local] Existing Instance text_names.
Definition codec : DnsCodec := ex_codec [].
#[local] Existing Instance codec.

Definition world0 : World :=
  {| dw_db := ex_listed; dw_first := fresh_heap []; dw_second := fresh_heap []; dw_flag := true |}.
Definition engine0 : ListFilterEngine World :=
  {| e_sinkhole_v4 := (0, 0, 0, 0)%N; e_sinkhole_v6 := []; e_runtimes := []; e_cache_repo := None |}.
Definition repos : Repositories World := sqlx_repositories db db_outside.
Definition daemon0 : Daemon World :=
  {| dm_generation := 0; dm_filter := engine0;
     dm_pipeline := build_dns_request_pipeline_full metrics silent (engine_filter (heap 0) engine0)
                      AQP_NotImp [] (Some flag);
     dm_ops := start_ops heap spawned flag (mret true) repos engine0 None 0 {| zones := [] |};
     dm_loops := [] |}.

Definition reloaded : Daemon World * World :=
  reload_once metrics parse_yaml builders (mret None) heap flag [] repos daemon0 world0.
Lemma reloaded_ok :
  reload_once metrics parse_yaml builders (mret None) heap flag [] repos daemon0 world0
  = (fst reloaded, snd reloaded).
Proof. apply surjective_pairing. Qed.


Lemma switches_act_on_first_engine_witness :
  df_decide (engine_filter (heap (dm_generation (fst reloaded))) (dm_filter (fst reloaded)))
    (lit "ads.example") (snd (op_disable_list (dm_ops (fst reloaded)) (lit "ads") (snd reloaded)))
  = df_decide (engine_filter (heap (dm_generation (fst reloaded))) (dm_filter (fst reloaded)))
      (lit "ads.example") (snd reloaded).
Proof.
  destruct (switches_act_on_first_engine metrics parse_yaml builders (mret None) heap spawned flag
    (mret true) [] repos daemon0 (fst reloaded) world0 (snd reloaded) engine0 None 0 {| zones := [] |}
    (lit "ads") (lit "ads.example") heap_laws eq_refl
    (rtc_once _ _ (step_reload _ _ _ _ _ _ _ _ _ _ _ _ reloaded_ok))) as (_ & H & _).
  apply H. intros s w. reflexivity.
Defined.

Lemma reloaded_lists_exact_witness :
  Exists (same_list (lit "ads") (lit "https://lists.example/ads.txt") LK_Block)
    (e_runtimes (dm_filter (fst reloaded))).
Proof.
  apply (reloaded_lists_exact metrics parse_yaml builders (mret None) heap flag [] db db_outside
    daemon0 (fst reloaded) world0 (snd reloaded) _ _ _ ex_listed_ok reloaded_ok);
    [by vm_compute|].
  exists (list_record (lit "block") (lit "l1")
    {| nl_name := lit "ads"; nl_url := lit "https://lists.example/ads.txt"; nl_interval := None;
       nl_enabled := None; nl_list_type := None |}).
  split_and!; reflexivity.
Defined.
End DaemonExamples.
