(* ===== verification/Handler.v ===== *)
(** * The DNS request handler

    [interface_adapters/listeners/handler.rs]: the bridge between the DNS server
    (hickory-server) and the request pipeline.  The server parses a request, the handler
    runs its bytes through the pipeline and sends back a response assembled from the
    pipeline's answer.  The server's constructors of response headers and its sending are
    parameters ([ResponseHeaders], [send_response]). *)

From S2P Require Import Prelude RustStr RustNet Outside Hickory Metrics FilterEngine Upstream Pipeline.
From S2P Require Import ZoneForwarding ExampleCodec Daemon.

(** [hickory_proto::op::Metadata]: the header without its counts. *)
Record Metadata : Type := {
  md_id : N; md_message_type : MessageType; md_op_code : OpCode;
  md_authoritative : bool; md_truncation : bool; md_recursion_desired : bool;
  md_recursion_available : bool; md_authentic_data : bool; md_checking_disabled : bool;
  md_response_code : ResponseCode
}.

(** [Metadata::new]. *)
Definition metadata_new (id : N) (mt : MessageType) (oc : OpCode) : Metadata :=
  {| md_id := id; md_message_type := mt; md_op_code := oc; md_authoritative := false;
     md_truncation := false; md_recursion_desired := false; md_recursion_available := false;
     md_authentic_data := false; md_checking_disabled := false; md_response_code := NoError |}.

(** [Metadata::response_from_request] and the header [error_msg] makes. *)
Class ResponseHeaders : Type := {
  response_from_request : Metadata -> Metadata;
  error_metadata : Metadata -> ResponseCode -> Metadata
}.

(** Their documentation: a response to the request, with its identifier and operation;
    the first also copies RD, the second has the given code. *)
Class ResponseHeaderLaws `{ResponseHeaders} : Prop := {
  response_id : forall m, md_id (response_from_request m) = md_id m;
  response_op_code : forall m, md_op_code (response_from_request m) = md_op_code m;
  response_rd : forall m, md_recursion_desired (response_from_request m) = md_recursion_desired m;
  response_is_response : forall m, md_message_type (response_from_request m) = MT_Response;
  error_id : forall m c, md_id (error_metadata m c) = md_id m;
  error_is_response : forall m c, md_message_type (error_metadata m c) = MT_Response;
  error_code : forall m c, md_response_code (error_metadata m c) = c
}.

Section handler.
Context `{DnsCodec} `{ResponseHeaders} {W : Type}.

Record Request : Type := { req_metadata : Metadata; req_bytes : bytes }.

(** A response of the server: the questions and EDNS options are the request's. *)
Record MessageResponse : Type := {
  mr_metadata : Metadata;
  mr_answers : list DnsRecord;
  mr_authorities : list DnsRecord;
  mr_soa : list DnsRecord;
  mr_additionals : list DnsRecord
}.

(** [MessageResponseBuilder::from_message_request(request).error_msg(..)]. *)
Definition error_msg (request : Request) (code : ResponseCode) : MessageResponse :=
  {| mr_metadata := error_metadata (req_metadata request) code; mr_answers := [];
     mr_authorities := []; mr_soa := []; mr_additionals := [] |}.

(** [ResponseHandler::send_response]: the header that was sent, or why it was not. *)
Context (send_response : MessageResponse -> M W (result Metadata rstr)).

Definition serve_failed_info (request : Request) : Metadata :=
  let m := metadata_new (md_id (req_metadata request)) MT_Response (md_op_code (req_metadata request)) in
  {| md_id := md_id m; md_message_type := md_message_type m; md_op_code := md_op_code m;
     md_authoritative := md_authoritative m; md_truncation := md_truncation m;
     md_recursion_desired := md_recursion_desired m;
     md_recursion_available := md_recursion_available m;
     md_authentic_data := md_authentic_data m; md_checking_disabled := md_checking_disabled m;
     md_response_code := ServFail |}.

(** The response assembled from a decoded answer of the pipeline. *)
Definition assembled (request : Request) (response_msg : Message) : MessageResponse :=
  let metadata := response_from_request (req_metadata request) in
  {| mr_metadata :=
       {| md_id := md_id metadata; md_message_type := md_message_type metadata;
          md_op_code := md_op_code metadata;
          md_authoritative := msg_authoritative response_msg;
          md_truncation := md_truncation metadata;
          md_recursion_desired := md_recursion_desired metadata;
          md_recursion_available := msg_recursion_available response_msg;
          md_authentic_data := msg_authentic_data response_msg;
          md_checking_disabled := msg_checking_disabled response_msg;
          md_response_code := msg_response_code response_msg |};
     mr_answers := msg_answers response_msg; mr_authorities := msg_authorities response_msg;
     mr_soa := []; mr_additionals := msg_additionals response_msg |}.

Definition build_response (request : Request) (response_bytes : bytes) : M W (result Metadata rstr) :=
  match message_from_vec response_bytes with
  | Err _ => send_response (error_msg request ServFail)
  | Ok response_msg => send_response (assembled request response_msg)
  end.

(** A failed transmission is logged and reported as SERVFAIL to the server. *)
Definition or_failed (request : Request) (m : M W (result Metadata rstr)) : M W Metadata :=
  sent <<- m ;;
  mret (match sent with Ok info => info | Err _ => serve_failed_info request end).

(** [HickoryRequestHandler::handle_request], with the pipeline found in the slot. *)
Definition serve_request (pipeline : DnsRequestPipeline W) (request : Request) : M W Metadata :=
  answer <<- handle_request pipeline (pipeline_request_new (req_bytes request)) ;;
  match answer with
  | Ok (Some response) => or_failed request (build_response request (pipeline_response_bytes response))
  | Ok None | Err _ => or_failed request (send_response (error_msg request ServFail))
  end.
End handler.

(** ** What is sent *)

Section handler_facts.
Context `{DnsCodec} `{ResponseHeaderLaws} {W : Type}.
Context (send_response : MessageResponse -> M W (result Metadata rstr)).
Context (metrics : Cell W MetricsGlobal) (resolver : UpstreamResolver W) (domain_filter : DomainFilter W)
        (policy : AnyQueryPolicy) (zone_entries : list (ZoneEntry W)) (flag : Cell W bool).

#[local] Notation pipeline :=
  (build_dns_request_pipeline_full metrics resolver domain_filter policy zone_entries (Some flag)).

(** The response a client is owed for a request the pipeline answered with [bytes]. *)
Definition faithful (request : Request) (answer : bytes) (r : MessageResponse) : Prop :=
  md_id (mr_metadata r) = md_id (req_metadata request)
  /\ md_message_type (mr_metadata r) = MT_Response
  /\ match message_from_vec answer with
     | Ok m =>
         mr_answers r = msg_answers m /\ mr_authorities r = msg_authorities m
         /\ mr_additionals r = msg_additionals m
         /\ md_response_code (mr_metadata r) = msg_response_code m
         /\ md_authoritative (mr_metadata r) = msg_authoritative m
         /\ md_recursion_available (mr_metadata r) = msg_recursion_available m
         /\ md_authentic_data (mr_metadata r) = msg_authentic_data m
         /\ md_checking_disabled (mr_metadata r) = msg_checking_disabled m
         /\ md_recursion_desired (mr_metadata r) = md_recursion_desired (req_metadata request)
     | Err _ => mr_answers r = [] /\ md_response_code (mr_metadata r) = ServFail
     end.

Lemma assembled_faithful request answer m :
  message_from_vec answer = Ok m -> faithful request answer (assembled request m).
Proof.
  intros Hm. unfold faithful. rewrite Hm. simpl.
  rewrite response_id, response_is_response, response_rd. done.
Qed.

(** C5. Every request the server hands over is answered, once: the pipeline produces an
    answer, one response is sent with the identifier and the RD flag of the request, carrying
    the records of the three sections, the code and the AA, RA, AD and CD flags of that
    answer, or SERVFAIL when the answer cannot be decoded; a failure to send is reported,
    not raised. *)
Theorem handler_sends_pipeline_answer (request : Request) (w : W) :
  exists answer w1 r,
    handle_request
      (build_dns_request_pipeline_full metrics resolver domain_filter policy zone_entries (Some flag))
      (pipeline_request_new (req_bytes request)) w = (Ok (Some answer), w1)
    /\ faithful request (pipeline_response_bytes answer) r
    /\ serve_request send_response
         (build_dns_request_pipeline_full metrics resolver domain_filter policy zone_entries (Some flag))
         request w
       = (match fst (send_response r w1) with Ok info => info | Err _ => serve_failed_info request end,
          snd (send_response r w1)).
Proof.
  destruct (pipeline_answers metrics resolver domain_filter policy zone_entries flag
              (pipeline_request_new (req_bytes request)) w) as (answer & w1 & Hans).
  destruct (message_from_vec (pipeline_response_bytes answer)) as [m|e] eqn:Hm.
  - exists answer, w1, (assembled request m). split_and!; [done|by apply assembled_faithful|].
    unfold serve_request, mbind at 1. rewrite Hans. unfold build_response, or_failed, mbind, mret. rewrite Hm.
    by destruct (send_response _ w1).
  - exists answer, w1, (error_msg request ServFail). split_and!; [done| |].
    + unfold faithful. rewrite Hm. simpl. by rewrite error_id, error_is_response, error_code.
    + unfold serve_request, mbind at 1. rewrite Hans. unfold build_response, or_failed, mbind, mret. rewrite Hm.
      by destruct (send_response _ w1).
Qed.
End handler_facts.

(** ** Witness *)

Module HandlerExamples.
#[local] Existing Instance text_names.
Definition codec : DnsCodec := ex_codec [].
#[local] Existing Instance codec.

#[export] Instance headers : ResponseHeaders :=
  {| response_from_request := fun m =>
       {| md_id := md_id m; md_message_type := MT_Response; md_op_code := md_op_code m;
          md_authoritative := false; md_truncation := false;
          md_recursion_desired := md_recursion_desired m; md_recursion_available := false;
          md_authentic_data := false; md_checking_disabled := md_checking_disabled m;
          md_response_code := NoError |};
     error_metadata := fun m c =>
       {| md_id := md_id m; md_message_type := MT_Response; md_op_code := md_op_code m;
          md_authoritative := false; md_truncation := false;
          md_recursion_desired := md_recursion_desired m; md_recursion_available := false;
          md_authentic_data := false; md_checking_disabled := false; md_response_code := c |} |}.
#[export] Instance header_laws : ResponseHeaderLaws.
Proof. by split. Qed.

(** The world counts the responses sent. *)
Definition metrics : Cell nat MetricsGlobal := {| cget := fun _ => None; cput := fun _ w => w |}.
Definition flag : Cell nat bool := {| cget := fun _ => true; cput := fun _ w => w |}.
Definition silent : UpstreamResolver nat :=
  {| resolve := fun _ => mret (Err URE_Timeout); label := lit "silent" |}.
Definition neutral : DomainFilter nat :=
  {| df_decide := fun _ _ => FD_Neutral; df_blocked_by := fun _ _ => [];
     df_sinkhole_ipv4 := (0, 0, 0, 0)%N; df_sinkhole_ipv6 := [] |}.
Definition send (r : MessageResponse) : M nat (result Metadata rstr) :=
  fun n => (Ok (mr_metadata r), S n).
Definition request : Request :=
  {| req_metadata := metadata_new 4660 MT_Query OC_Query; req_bytes := [18; 52; 0; 0]%N |}.

Lemma handler_sends_pipeline_answer_witness :
  exists info, serve_request send
    (build_dns_request_pipeline_full metrics silent neutral AQP_NotImp [] (Some flag)) request 0
    = (info, 1) /\ md_id info = 4660%N.
Proof.
  destruct (handler_sends_pipeline_answer send metrics silent neutral AQP_NotImp [] flag request 0)
    as (answer & w1 & r & Hans & (Hid & _) & Hserve).
  assert (w1 = 0) as -> by (vm_compute in Hans; congruence).
  exists (mr_metadata r). split; [exact Hserve|exact Hid].
Defined.
End HandlerExamples.
