(* ===== verification/Merger.v ===== *)
(** * Merging configuration files

    [frameworks/config/merger.rs]: a user configuration laid over the embedded example.
    A YAML mapping ([serde_yaml::Mapping]) keeps its entries in order and has each key
    once; [remove] swaps the last entry into the gap and [insert] replaces or appends.
    Of a key, which is a YAML value too, only its equality is used: keys are an arbitrary
    type with decidable equality.  The YAML reader and printer are parameters. *)

From S2P Require Import Prelude RustStr.

Abbreviation Error := (list rstr).

Inductive YValue (K : Type) : Type :=
| YNull
| YBool (b : bool)
| YNumber (text : rstr)
| YString (s : rstr)
| YSequence (items : list (YValue K))
| YMapping (entries : list (K * YValue K))
| YTagged (tag : rstr) (v : YValue K).
Arguments YNull {K}.
Arguments YBool {K} _.
Arguments YNumber {K} _.
Arguments YString {K} _.
Arguments YSequence {K} _.
Arguments YMapping {K} _.
Arguments YTagged {K} _ _.

(** ** Mappings *)

Section mapping.
Context {K V : Type} `{EqDecision K}.

Fixpoint map_get (k : K) (m : list (K * V)) : option V :=
  match m with
  | [] => None
  | (k', v) :: rest => if decide (k = k') then Some v else map_get k rest
  end.

Definition contains_key (k : K) (m : list (K * V)) : bool := bool_decide (is_Some (map_get k m)).

(** The entries without [k], the last one moved into its place. *)
Fixpoint swap_out (k : K) (m : list (K * V)) : list (K * V) :=
  match m with
  | [] => []
  | (k', v) :: rest =>
      if decide (k = k') then
        match last rest with
        | Some e => e :: removelast rest
        | None => []
        end
      else (k', v) :: swap_out k rest
  end.

(** [Mapping::remove]. *)
Definition map_remove (k : K) (m : list (K * V)) : option (V * list (K * V)) :=
  match map_get k m with
  | Some v => Some (v, swap_out k m)
  | None => None
  end.

(** [Mapping::insert]. *)
Fixpoint map_insert (k : K) (v : V) (m : list (K * V)) : list (K * V) :=
  match m with
  | [] => [(k, v)]
  | (k', v') :: rest => if decide (k = k') then (k, v) :: rest else (k', v') :: map_insert k v rest
  end.
End mapping.

Section merger.
Context {K : Type} `{EqDecision K}.

Fixpoint deep_merge (base overlay : YValue K) {struct overlay} : YValue K :=
  match base, overlay with
  | YMapping base_map, YMapping overlay_map =>
      YMapping
        ((fix merge_entries (m : list (K * YValue K)) (entries : list (K * YValue K)) :=
            match entries with
            | [] => m
            | (key, overlay_val) :: rest =>
                match map_remove key m with
                | Some (base_val, m') =>
                    merge_entries (map_insert key (deep_merge base_val overlay_val) m') rest
                | None => merge_entries (map_insert key overlay_val m) rest
                end
            end) base_map overlay_map)
  | _, overlay => overlay
  end.

(** The key [Value::String(s)]. *)
Context (string_key : rstr -> K).

(** The canonical form of a listener section. *)
Definition normalize_section (section : list (K * YValue K)) : list (K * YValue K) :=
  let addr_key := string_key (lit "address") in
  let addrs_key := string_key (lit "addresses") in
  let has_addresses := contains_key addrs_key section in
  let has_address := contains_key addr_key section in
  if has_address && has_addresses then
    match map_remove addr_key section with Some (_, section') => section' | None => section end
  else if has_address && negb has_addresses then
    match map_remove addr_key section with
    | Some (addr_val, section') =>
        let list := match addr_val with
                    | YString _ => YSequence [addr_val]
                    | YSequence _ => addr_val
                    | other => YSequence [other]
                    end in
        map_insert addrs_key list section'
    | None => section
    end
  else section.

Definition normalize_listener (v : YValue K) : YValue K :=
  match v with YMapping section => YMapping (normalize_section section) | _ => v end.

(** [get_mut] followed by an assignment through the reference. *)
Fixpoint map_update (k : K) (f : YValue K -> YValue K) (m : list (K * YValue K)) : list (K * YValue K) :=
  match m with
  | [] => []
  | (k', v) :: rest => if decide (k = k') then (k', f v) :: rest else (k', v) :: map_update k f rest
  end.

(** Every section of [listen]; the keys are visited in order, each exactly once. *)
Definition normalize_listen_addresses (root : YValue K) : YValue K :=
  match root with
  | YMapping entries =>
      YMapping (map_update (string_key (lit "listen"))
        (fun listen => match listen with
                       | YMapping sections => YMapping ((fun '(k, v) => (k, normalize_listener v)) <$> sections)
                       | _ => listen
                       end) entries)
  | _ => root
  end.

Context (from_str : rstr -> result (YValue K) rstr) (to_string : YValue K -> result rstr rstr).
Context (EXAMPLE_CONFIG : rstr).

Definition merge_with_example (user_config : rstr) : result rstr Error :=
  let? base := map_err (fun e => [lit "failed to parse embedded example config (this is a bug)"; e])
                 (from_str EXAMPLE_CONFIG) in
  let? overlay := map_err (fun e => [lit "failed to parse user config file"; e]) (from_str user_config) in
  let base := normalize_listen_addresses base in
  let overlay := normalize_listen_addresses overlay in
  map_err (fun e => [lit "failed to serialize merged config"; e]) (to_string (deep_merge base overlay)).
End merger.

(** ** Keys and values *)

Section mapping_facts.
Context {K V : Type} `{EqDecision K}.
Implicit Types (m : list (K * V)).

Lemma map_get_None k m : map_get k m = None <-> k ∉ m.*1.
Proof.
  induction m as [|[k' v] m IH]; simpl; [split; [intros _; apply not_elem_of_nil|done]|].
  case_decide as Hk; rewrite not_elem_of_cons; [naive_solver|]. rewrite IH. naive_solver.
Qed.

Lemma map_get_key k m : is_Some (map_get k m) <-> k ∈ m.*1.
Proof.
  rewrite <- not_eq_None_Some, map_get_None. destruct (decide (k ∈ m.*1)); tauto.
Qed.

Lemma map_get_app k m m' : map_get k (m ++ m') = match map_get k m with Some v => Some v | None => map_get k m' end.
Proof. induction m as [|[k' v] m IH]; simpl; [done|]. by case_decide. Qed.

Lemma map_get_perm k m m' : NoDup m.*1 -> m ≡ₚ m' -> map_get k m = map_get k m'.
Proof.
  intros Hnd Hp. revert Hnd. induction Hp as [|[k1 v1] m m' _ IH|[k1 v1] [k2 v2] m|m1 m2 m3 Hp1 IH1 _ IH2]; simpl.
  - done.
  - intros [_ ?]%NoDup_cons. case_decide; auto.
  - rewrite !NoDup_cons, not_elem_of_cons. intros [[? _] _]. repeat case_decide; congruence.
  - intros Hnd. rewrite IH1 by done. apply IH2. by rewrite <- Hp1.
Qed.

(** Swapping out an entry is removing it, up to order. *)
Lemma swap_out_perm k v m : map_get k m = Some v -> m ≡ₚ (k, v) :: swap_out k m.
Proof.
  induction m as [|[k' v'] m IH]; simpl; [done|]. case_decide as Hk.
  - intros [= ->]. subst k'. constructor. destruct m as [|e m _] using rev_ind; [done|].
    rewrite last_snoc, removelast_last. by rewrite Permutation_app_comm.
  - intros Hg. rewrite (IH Hg) at 1. apply Permutation_swap.
Qed.

Lemma map_remove_spec k v m m' : NoDup m.*1 -> map_remove k m = Some (v, m') ->
  map_get k m = Some v /\ NoDup m'.*1 /\ forall k', map_get k' m' = if decide (k' = k) then None else map_get k' m.
Proof.
  unfold map_remove. intros Hnd. destruct (map_get k m) as [x|] eqn:Hg; [|done]. intros [= -> <-].
  pose proof (swap_out_perm _ _ _ Hg) as Hp. rewrite Hp in Hnd. simpl in Hnd.
  apply NoDup_cons in Hnd as [Hk Hnd]. split_and!; [done|done|]. intros k'.
  rewrite (map_get_perm k' m ((k, v) :: swap_out k m)); [|by rewrite Hp; constructor|done]. simpl.
  case_decide as Hd; [|done]. subst k'. by apply map_get_None.
Qed.

Lemma map_get_insert k v m k' :
  map_get k' (map_insert k v m) = if decide (k' = k) then Some v else map_get k' m.
Proof.
  induction m as [|[k1 v1] m IH]; simpl; [by case_decide|].
  destruct (decide (k = k1)) as [->|Hne]; simpl; [by case_decide|].
  rewrite IH. repeat case_decide; congruence.
Qed.

Lemma map_insert_keys k v m : NoDup m.*1 -> NoDup (map_insert k v m).*1.
Proof.
  induction m as [|[k1 v1] m IH]; simpl; [intros _; apply NoDup_singleton|].
  intros [Hk Hnd]%NoDup_cons. case_decide as Hd; simpl; [subst; by constructor|].
  constructor; [|by apply IH]. rewrite <- map_get_None, map_get_insert, decide_False by done.
  by apply map_get_None.
Qed.
End mapping_facts.

(** ** Merging *)

Section merge_facts.
Context {K : Type} `{EqDecision K}.

(** Every mapping has each key once, as the YAML reader guarantees. *)
Inductive well_formed : YValue K -> Prop :=
| wf_null : well_formed YNull
| wf_bool b : well_formed (YBool b)
| wf_number n : well_formed (YNumber n)
| wf_string s : well_formed (YString s)
| wf_sequence items : Forall well_formed items -> well_formed (YSequence items)
| wf_mapping entries :
    NoDup entries.*1 -> Forall (fun e => well_formed e.2) entries -> well_formed (YMapping entries)
| wf_tagged t v : well_formed v -> well_formed (YTagged t v).

Definition is_mapping (v : YValue K) : bool := match v with YMapping _ => true | _ => false end.

(** The loop over the entries of the overlay. *)
Fixpoint merge_entries (m entries : list (K * YValue K)) : list (K * YValue K) :=
  match entries with
  | [] => m
  | (key, overlay_val) :: rest =>
      match map_remove key m with
      | Some (base_val, m') => merge_entries (map_insert key (deep_merge base_val overlay_val) m') rest
      | None => merge_entries (map_insert key overlay_val m) rest
      end
  end.

Lemma deep_merge_mappings bm om :
  deep_merge (YMapping bm) (YMapping om) = YMapping (merge_entries bm om).
Proof. reflexivity. Qed.

Lemma deep_merge_leaf b o : is_mapping o = false -> deep_merge b o = o.
Proof. by destruct b, o. Qed.

Lemma deep_merge_over_leaf b o : is_mapping b = false -> deep_merge b o = o.
Proof. by destruct b, o. Qed.

Lemma map_get_elem {V} k (m : list (K * V)) v : map_get k m = Some v -> (k, v) ∈ m.
Proof.
  induction m as [|[k' v'] m IH]; simpl; [done|]. case_decide; [intros [= ->]; subst; left|].
  intros Hg. right. by apply IH.
Qed.

Lemma merge_entries_spec bm om : NoDup bm.*1 -> NoDup om.*1 ->
  NoDup (merge_entries bm om).*1
  /\ forall k, map_get k (merge_entries bm om)
     = match map_get k bm, map_get k om with
       | Some x, Some y => Some (deep_merge x y)
       | x, None => x
       | None, y => y
       end.
Proof.
  revert bm. induction om as [|[k0 v0] om IH]; intros bm Hb; simpl.
  { intros _. split; [done|]. intros k. by destruct (map_get k bm). }
  intros [Hk0 Ho]%NoDup_cons. apply map_get_None in Hk0.
  destruct (map_remove k0 bm) as [[x m']|] eqn:Hr.
  - apply map_remove_spec in Hr as (Hg & Hm' & Hget'); [|done].
    destruct (IH (map_insert k0 (deep_merge x v0) m')) as [Hn Hget]; [by apply map_insert_keys|done|].
    split; [done|]. intros k. rewrite Hget, map_get_insert, Hget'.
    destruct (decide (k = k0)) as [->|]; [by rewrite Hg, Hk0|done].
  - assert (map_get k0 bm = None) as Hg by (unfold map_remove in Hr; by destruct (map_get k0 bm)).
    destruct (IH (map_insert k0 v0 bm)) as [Hn Hget]; [by apply map_insert_keys|done|].
    split; [done|]. intros k. rewrite Hget, map_get_insert.
    destruct (decide (k = k0)) as [->|]; [by rewrite Hg, Hk0|done].
Qed.

(** The value below a path of keys. *)
Fixpoint at_path (path : list K) (v : YValue K) : option (YValue K) :=
  match path with
  | [] => Some v
  | k :: rest =>
      match v with
      | YMapping m => map_get k m ≫= at_path rest
      | _ => None
      end
  end.

(** The overlay has a value that is not a mapping on the way. *)
Fixpoint cuts (path : list K) (overlay : YValue K) : bool :=
  match path with
  | [] => false
  | k :: rest =>
      match overlay with
      | YMapping m => match map_get k m with Some v => cuts rest v | None => false end
      | _ => true
      end
  end.

Lemma well_formed_get k m v : well_formed (YMapping m) -> map_get k m = Some v -> well_formed v.
Proof.
  inversion 1 as [| | | | |entries Hnd Hall|]; subst. intros Hg%map_get_elem.
  rewrite Forall_forall in Hall. by apply (Hall (k, v)).
Qed.

Lemma well_formed_keys m : well_formed (YMapping m) -> NoDup m.*1.
Proof. by inversion 1. Qed.

Lemma well_formed_at path v x : well_formed v -> at_path path v = Some x -> well_formed x.
Proof.
  revert v. induction path as [|k path IH]; intros v Hv; simpl; [by intros [= <-]|].
  destruct v as [| | | | |m|]; try done. destruct (map_get k m) as [y|] eqn:Hy; [|done].
  apply IH. by eapply well_formed_get.
Qed.

Lemma merge_at_path (path : list K) (base overlay : YValue K) :
  well_formed base -> well_formed overlay ->
  at_path path (deep_merge base overlay)
  = match at_path path overlay with
    | Some y => Some (match at_path path base with Some x => deep_merge x y | None => y end)
    | None => if cuts path overlay then None else at_path path base
    end.
Proof.
  revert base overlay. induction path as [|k path IH]; intros base overlay Hb Ho; [done|].
  destruct (is_mapping overlay) eqn:Hom; [|by rewrite deep_merge_leaf by done; destruct overlay].
  destruct (is_mapping base) eqn:Hbm.
  2: { assert (at_path (k :: path) base = None) as -> by by destruct base.
       rewrite deep_merge_over_leaf by done.
       destruct (at_path (k :: path) overlay); [done|]. by destruct (cuts (k :: path) overlay). }
  destruct overlay as [| | | | |om|]; try done. destruct base as [| | | | |bm|]; try done.
  rewrite deep_merge_mappings. simpl.
  destruct (merge_entries_spec bm om) as [_ Hget]; [by apply well_formed_keys..|]. rewrite Hget.
  destruct (map_get k om) as [y|] eqn:Hy; simpl.
  - pose proof (well_formed_get _ _ _ Ho Hy) as Hwy. destruct (map_get k bm) as [x|] eqn:Hx; simpl.
    + apply IH; [exact (well_formed_get _ _ _ Hb Hx)|done].
    + destruct (at_path path y); [done|]. by destruct (cuts path y).
  - by destruct (map_get k bm).
Qed.

(** C13. What a merged configuration contains, path by path.  Where the user sets a value
    and not both sides are sections, the value is the user's, whatever the example has
    there (scalars, lists, and a section in place of a plain value or the other way round).
    Where both sides are sections, the result is a section with each key once and exactly
    the keys of the two.  Where the user sets nothing, the value is the example's, or there
    is none when the user replaced a section above it by a plain value. *)
Theorem merge_exact (path : list K) (base overlay : YValue K) :
  well_formed base -> well_formed overlay ->
  match at_path path overlay, at_path path base with
  | Some (YMapping om), Some (YMapping bm) =>
      exists m, at_path path (deep_merge base overlay) = Some (YMapping m)
        /\ NoDup m.*1 /\ forall k, k ∈ m.*1 <-> k ∈ om.*1 \/ k ∈ bm.*1
  | Some y, _ => at_path path (deep_merge base overlay) = Some y
  | None, x => at_path path (deep_merge base overlay) = if cuts path overlay then None else x
  end.
Proof.
  intros Hb Ho. rewrite (merge_at_path path base overlay Hb Ho).
  destruct (at_path path overlay) as [y|] eqn:Hy; [|done].
  destruct (at_path path base) as [x|] eqn:Hx; [|by destruct y].
  pose proof (well_formed_at _ _ _ Ho Hy) as Hwy. pose proof (well_formed_at _ _ _ Hb Hx) as Hwx.
  destruct y as [| | | | |om|]; try (by rewrite deep_merge_leaf).
  destruct x as [| | | | |bm|]; try (by rewrite deep_merge_over_leaf).
  rewrite deep_merge_mappings. eexists. split; [done|].
  destruct (merge_entries_spec bm om) as [Hnd Hget]; [by apply well_formed_keys..|]. split; [done|].
  intros k. rewrite <- !map_get_key, Hget.
  by destruct (map_get k bm), (map_get k om); rewrite <- ?not_eq_None_Some; naive_solver.
Qed.
End merge_facts.

(** ** Listener addresses *)

Section listen_facts.
Context {K : Type} `{EqDecision K} (string_key : rstr -> K).
Context (string_key_inj : forall a b, string_key a = string_key b -> a = b).

#[local] Notation address := (string_key (lit "address")).
#[local] Notation addresses := (string_key (lit "addresses")).
#[local] Notation listen := (string_key (lit "listen")).

(** The list a single address stands for. *)
Definition as_list (v : YValue K) : YValue K :=
  match v with YSequence _ => v | _ => YSequence [v] end.

(** The addresses of a section, in either spelling. *)
Definition section_addresses (section : list (K * YValue K)) : option (YValue K) :=
  match map_get addresses section with
  | Some v => Some v
  | None => as_list <$> map_get address section
  end.

Lemma address_keys_differ : address <> addresses.
Proof. by intros Heq%string_key_inj. Qed.

Lemma normalize_section_spec section : NoDup section.*1 ->
  NoDup (normalize_section string_key section).*1
  /\ map_get address (normalize_section string_key section) = None
  /\ map_get addresses (normalize_section string_key section) = section_addresses section
  /\ forall k, k <> address -> k <> addresses ->
       map_get k (normalize_section string_key section) = map_get k section.
Proof.
  intros Hnd. pose proof address_keys_differ as Hne.
  unfold normalize_section, section_addresses, contains_key. cbv zeta.
  destruct (map_get address section) as [a|] eqn:Ha.
  2: { rewrite (bool_decide_false (is_Some None)) by by intros []. simpl.
       split_and!; [done|done|by destruct (map_get addresses section)|done]. }
  assert (map_remove address section = Some (a, swap_out address section)) as Hr
    by (unfold map_remove; by rewrite Ha).
  rewrite Hr. apply map_remove_spec in Hr as (_ & Hnd' & Hget); [|done].
  destruct (map_get addresses section) as [v|] eqn:Hv; simpl.
  - split_and!; [done|by rewrite Hget, decide_True|by rewrite Hget, decide_False|].
    intros k Hk _. by rewrite Hget, decide_False.
  - split_and!; [by apply map_insert_keys| | |].
    + by rewrite map_get_insert, decide_False, Hget, decide_True.
    + rewrite map_get_insert, decide_True by done. by destruct a.
    + intros k Hk Hk'. by rewrite map_get_insert, decide_False, Hget, decide_False.
Qed.

Lemma map_update_get k f (m : list (K * YValue K)) k' :
  map_get k' (map_update k f m) = if decide (k' = k) then f <$> map_get k' m else map_get k' m.
Proof.
  induction m as [|[k1 v1] m IH]; simpl; [by case_decide|].
  destruct (decide (k = k1)) as [<-|Hne]; simpl; [by repeat case_decide|].
  rewrite IH. repeat case_decide; congruence.
Qed.

Lemma map_update_keys k f (m : list (K * YValue K)) : (map_update k f m).*1 = m.*1.
Proof. induction m as [|[k1 v1] m IH]; simpl; [done|]. case_decide; [done|]. simpl. f_equal. apply IH. Qed.

Lemma map_get_fmap (f : YValue K -> YValue K) k (m : list (K * YValue K)) :
  map_get k ((fun '(k, v) => (k, f v)) <$> m) = f <$> map_get k m.
Proof. induction m as [|[k1 v1] m IH]; simpl; [done|]. by case_decide. Qed.

(** Below a listener, the canonical configuration is the canonical section. *)
Lemma normalize_at_path root l k :
  at_path [listen; l; k] (normalize_listen_addresses string_key root)
  = match at_path [listen; l] root with
    | Some (YMapping section) => map_get k (normalize_section string_key section)
    | _ => None
    end.
Proof.
  destruct root as [| | | | |entries|]; try done. simpl. rewrite map_update_get, decide_True by done.
  destruct (map_get listen entries) as [v|]; [|done]. destruct v as [| | | | |sections|]; try done. simpl.
  rewrite map_get_fmap. destruct (map_get l sections) as [v|]; [|done]. destruct v; try done. simpl.
  by destruct (map_get k _).
Qed.

Lemma map_update_elem k f (m : list (K * YValue K)) e :
  e ∈ map_update k f m -> exists e', e' ∈ m /\ e.1 = e'.1 /\ (e.2 = e'.2 \/ e.2 = f e'.2).
Proof.
  induction m as [|[k1 v1] m IH]; simpl; [by intros ?%not_elem_of_nil|]. case_decide.
  - intros [->|He]%elem_of_cons; [exists (k1, v1); split; [left|]; auto|].
    exists e. split; [by right|auto].
  - intros [->|He]%elem_of_cons; [exists (k1, v1); split; [left|]; auto|].
    destruct (IH He) as (e' & He' & Hrest). exists e'. split; [by right|done].
Qed.

Lemma swap_out_elem k (m : list (K * YValue K)) e : e ∈ swap_out k m -> e ∈ m.
Proof.
  destruct (map_get k m) as [v|] eqn:Hg.
  - rewrite (swap_out_perm _ _ _ Hg) at 2. by right.
  - replace (swap_out k m) with m; [done|]. clear e. revert Hg.
    induction m as [|[k1 v1] m IH]; simpl; [done|]. case_decide; [done|]. intros Hg. by rewrite <- IH.
Qed.

Lemma map_insert_elem k v (m : list (K * YValue K)) e : e ∈ map_insert k v m -> e = (k, v) \/ e ∈ m.
Proof.
  induction m as [|[k1 v1] m IH]; simpl; [rewrite list_elem_of_singleton; auto|]. case_decide.
  - intros [->|He]%elem_of_cons; [auto|right; by right].
  - intros [->|He]%elem_of_cons; [right; left|]. destruct (IH He); [auto|right; by right].
Qed.

Lemma normalize_section_wf section :
  well_formed (YMapping section) -> well_formed (YMapping (normalize_section string_key section)).
Proof.
  intros Hwf. pose proof (well_formed_keys _ Hwf) as Hnd.
  inversion Hwf as [| | | | |m _ Hall|]; subst m.
  constructor; [by apply normalize_section_spec|]. rewrite Forall_forall in *. intros e.
  unfold normalize_section, map_remove. cbv zeta.
  destruct (contains_key address section && contains_key addresses section) eqn:H1.
  { destruct (map_get address section); [|by apply Hall]. intros He%swap_out_elem. by apply Hall. }
  destruct (contains_key address section && negb _) eqn:H2; [|by apply Hall].
  destruct (map_get address section) as [a|] eqn:Ha; [|by apply Hall].
  intros [->|He%swap_out_elem]%map_insert_elem; [|by apply Hall].
  assert (well_formed a) as Hwa by (by eapply (Hall (address, a)), map_get_elem).
  simpl. destruct a; try done; by apply wf_sequence, Forall_singleton.
Qed.

Lemma normalize_listener_wf v : well_formed v -> well_formed (normalize_listener string_key v).
Proof. destruct v; try done. apply normalize_section_wf. Qed.

Lemma normalize_wf root : well_formed root -> well_formed (normalize_listen_addresses string_key root).
Proof.
  destruct root as [| | | | |entries|]; try done. intros Hwf. pose proof (well_formed_keys _ Hwf) as Hnd.
  inversion Hwf as [| | | | |m _ Hall|]; subst m. simpl. constructor; [by rewrite map_update_keys|].
  rewrite Forall_forall in *. intros e (e' & He' & _ & [->|Hf])%map_update_elem; [by apply Hall|].
  rewrite Hf. specialize (Hall _ He'). simpl in Hall. destruct (e'.2) as [| | | | |sections|]; try done.
  pose proof (well_formed_keys _ Hall) as Hnd'. inversion Hall as [| | | | |m _ Hall'|]; subst m.
  constructor.
  - replace _ with (sections.*1); [done|]. clear. induction sections as [|[k v] s IH]; [done|]. simpl. by f_equal.
  - rewrite Forall_forall in *. intros x ([k v] & -> & Hx)%list_elem_of_fmap. simpl.
    apply normalize_listener_wf. by apply (Hall' (k, v)).
Qed.

Lemma section_keys root l section : well_formed root ->
  at_path [listen; l] root = Some (YMapping section) -> NoDup section.*1.
Proof.
  intros Hwf Hsec. destruct root as [| | | | |entries|]; try done. simpl in Hsec.
  destruct (map_get listen entries) as [v|] eqn:Hv; [|done]. simpl in Hsec.
  pose proof (well_formed_get _ _ _ Hwf Hv) as Hwv. destruct v as [| | | | |sections|]; try done.
  destruct (map_get l sections) as [v|] eqn:Hv'; [|done]. simpl in Hsec. simplify_eq.
  apply well_formed_keys. by eapply well_formed_get.
Qed.

(** A listener address the user gives always wins over the example's, whichever of
    the two spellings either of them uses, and the merged section has the list spelling
    only. *)
Theorem user_address_wins (base user : YValue K) (l : K) (section : list (K * YValue K)) (a : YValue K) :
  well_formed base -> well_formed user ->
  at_path [listen; l] user = Some (YMapping section) -> section_addresses section = Some a ->
  is_mapping a = false ->
  let merged := deep_merge (normalize_listen_addresses string_key base)
                  (normalize_listen_addresses string_key user) in
  at_path [listen; l; addresses] merged = Some a /\ at_path [listen; l; address] merged = None.
Proof.
  intros Hb Hu Hsec Ha Hleaf. cbv zeta.
  pose proof (section_keys _ _ _ Hu Hsec) as Hnd.
  destruct (normalize_section_spec section Hnd) as (_ & Hno & Hyes & _).
  rewrite !merge_at_path by by apply normalize_wf. rewrite !normalize_at_path, Hsec, Hno, Hyes, Ha. split.
  - f_equal. destruct (match at_path [listen; l] base with Some _ => _ | None => _ end); [|done].
    by apply deep_merge_leaf.
  - destruct (cuts _ _); [done|]. destruct (at_path [listen; l] base) as [v|] eqn:Hv; [|done].
    destruct v as [| | | | |bs|]; try done. by apply normalize_section_spec, (section_keys base l).
Qed.
End listen_facts.

(** ** Witnesses *)

Definition ex_listen (section : list (rstr * YValue rstr)) : YValue rstr :=
  YMapping [(lit "listen", YMapping [(lit "dns", YMapping section)])].
Definition ex_example : YValue rstr :=
  ex_listen [(lit "enabled", YBool true); (lit "addresses", YSequence [YString (lit "::")]);
             (lit "port", YNumber (lit "53"))].
Definition ex_user : YValue rstr :=
  ex_listen [(lit "address", YString (lit "192.0.2.1")); (lit "port", YNumber (lit "5353"))].

Lemma ex_example_wf : well_formed ex_example.
Proof.
  repeat first [ apply wf_mapping; [by apply (bool_decide_unpack _)|] | constructor ].
Qed.
Lemma ex_user_wf : well_formed ex_user.
Proof.
  repeat first [ apply wf_mapping; [by apply (bool_decide_unpack _)|] | constructor ].
Qed.

Lemma merge_exact_witness :
  at_path [lit "listen"; lit "dns"; lit "port"] (deep_merge ex_example ex_user)
  = Some (YNumber (lit "5353")).
Proof.
  exact (merge_exact [lit "listen"; lit "dns"; lit "port"] ex_example ex_user ex_example_wf ex_user_wf).
Defined.

Lemma user_address_wins_witness :
  at_path [lit "listen"; lit "dns"; lit "addresses"]
    (deep_merge (normalize_listen_addresses id ex_example) (normalize_listen_addresses id ex_user))
  = Some (YSequence [YString (lit "192.0.2.1")]).
Proof.
  apply (user_address_wins id (fun a b H => H) ex_example ex_user (lit "dns")
    [(lit "address", YString (lit "192.0.2.1")); (lit "port", YNumber (lit "5353"))]
    (YSequence [YString (lit "192.0.2.1")]) ex_example_wf ex_user_wf); vm_compute; reflexivity.
Defined.
