(* ===== verification/HttpApi.v ===== *)
(** * HTTP API

    [interface_adapters/listeners/auth.rs] and [http.rs]: the bearer-token middleware, the
    handlers, and the router that [api_router] builds, which the API server and the admin
    server share.  What axum does with the path and the body of a request before a handler
    runs is a parameter ([Extractors]), and so is what the CORS layer does with a request
    ([CorsService]); the sockets and TLS are not modelled. *)

From S2P Require Import Prelude RustStr RustNet Metrics FilterEngine Upstream ZoneForwarding ZoneRegistry.
From S2P Require Import ConfigBootstrap Schema Repositories ConfigDb ServerOperations.

(** ** Requests and responses *)

Inductive Method : Type := GET | HEAD | POST | PUT | DELETE | OtherMethod (name : rstr).

#[export] Instance Method_eq_dec : EqDecision Method.
Proof. solve_decision. Defined.

Definition OPTIONS : Method := OtherMethod (lit "OPTIONS").

Record StopResponse : Type := { sp_status : rstr; sp_message : rstr }.

(** The [data] of a response, by the type that is serialized. *)
Inductive Payload : Type :=
| HealthData (r : HealthResult)
| ReloadData (r : ReloadResult)
| StopData (r : StopResponse)
| ToggleData (r : FilterToggleResult)
| FilterStatusData (r : FilterStatusResult)
| ListsData (l : list ListInfo)
| RefreshAllData (r : RefreshAllResult)
| RefreshData (r : RefreshResult)
| ListActionData (r : ListActionResult)
| StatsData (r : StatsResult)
| QueryLogData (r : QueryLogResult)
| FilterListsData (l : list FilterListRecord)
| FilterListData (r : FilterListRecord)
| DeleteData (r : DeleteResult)
| ResolverData (r : ResolverConfigRecord)
| UpstreamsData (l : list UpstreamServerRecord)
| UpstreamData (r : UpstreamServerRecord)
| ZonesData (l : list ZoneRecord)
| ZoneData (r : ZoneRecord)
| DiscoveriesData (l : list ZoneDiscoveryRecord)
| DiscoveryData (r : ZoneDiscoveryRecord).

Record ApiResponse : Type := {
  ar_success : bool; ar_data : option Payload; ar_error : option rstr; ar_timestamp : N
}.

(** [AuthBody] is the object with [success] and [error] only that the middleware sends,
    [RawBody] text that is already JSON. *)
Inductive Body : Type :=
| JsonBody (b : ApiResponse)
| AuthBody (error : rstr)
| RawBody (text : rstr)
| NoBody.

(** [StatusCode]. *)
Definition OK : N := 200.
Definition CREATED : N := 201.
Definition BAD_REQUEST : N := 400.
Definition UNAUTHORIZED : N := 401.
Definition NOT_FOUND : N := 404.
Definition METHOD_NOT_ALLOWED : N := 405.
Definition INTERNAL_SERVER_ERROR : N := 500.

Record Response : Type := { rs_status : N; rs_body : Body }.

(** The [authorization] header as the bytes of its value; the other headers matter only to
    the extractors. *)
Record HttpRequest : Type := {
  rq_method : Method; rq_path : rstr; rq_authorization : option (list N);
  rq_headers : list (rstr * list N); rq_body : list N
}.

(** ** Authentication *)

(** The bytes are [u8]s. *)
Definition constant_time_eq (a b : list N) : bool :=
  if Nat.eqb (length a) (length b)
  then N.eqb (foldl (fun acc xy => N.lor acc (N.lxor (fst xy) (snd xy))) 0%N (zip a b)) 0
  else false.

(** [HeaderValue::to_str]: only visible ASCII, blanks and tabs. *)
Definition visible (b : N) : bool := ((32 <=? b) && (b <? 127) || (b =? 9))%N.
Definition to_str (value : list N) : option rstr :=
  if forallb visible value then Some value else None.

Definition auth_error (status : N) (message : rstr) : Response :=
  {| rs_status := status; rs_body := AuthBody message |}.

Definition bearer_auth_middleware {W} (token : option rstr) (request : HttpRequest)
    (next : M W Response) : M W Response :=
  match token with
  | Some expected =>
      let expected_header := lit "Bearer " ++ expected in
      match rq_authorization request with
      | Some value =>
          let value := default [] (to_str value) in
          if negb (constant_time_eq (as_bytes value) (as_bytes expected_header))
          then mret (auth_error UNAUTHORIZED (lit "invalid authorization token"))
          else next
      | None => mret (auth_error UNAUTHORIZED (lit "authorization header required"))
      end
  | None => next
  end.

(** ** Extractors

    [Path] gives the decoded parameter of the path, [Json] the deserialized body; where
    they cannot, axum answers with a rejection and the handler does not run. *)
Record Extractors : Type := {
  path_param : rstr -> result rstr Response;
  json_create_list : HttpRequest -> result CreateFilterListInput Response;
  json_update_list : HttpRequest -> result UpdateFilterListInput Response;
  json_update_resolver : HttpRequest -> result UpdateResolverConfigInput Response;
  json_create_upstream : HttpRequest -> result CreateUpstreamServerInput Response;
  json_update_upstream : HttpRequest -> result UpdateUpstreamServerInput Response;
  json_create_zone : HttpRequest -> result CreateZoneInput Response;
  json_update_zone : HttpRequest -> result UpdateZoneInput Response;
  json_create_discovery : HttpRequest -> result CreateZoneDiscoveryInput Response;
  json_update_discovery : HttpRequest -> result UpdateZoneDiscoveryInput Response
}.

(** ** The CORS layer

    The service [tower_http] makes of a [CorsLayer]: it answers preflight requests, which
    are those with the method OPTIONS, by itself and passes all others on, adding headers
    to their responses, which are not represented.  [cors] is the answer, if any. *)
Class CorsService (cors : HttpRequest -> option Response) : Prop := {
  cors_preflight : forall request, is_Some (cors request) <-> rq_method request = OPTIONS
}.

Lemma cors_passes `{!CorsService cors} request : rq_method request <> OPTIONS -> cors request = None.
Proof.
  intros Hm. destruct (cors request) as [r|] eqn:Hc; [|done]. exfalso. apply Hm, cors_preflight. by eexists.
Qed.

(** ** State *)

(** [as_shutdown] is whether the [CancellationToken] has been cancelled. *)
Record ApiState (W : Type) : Type := {
  as_ops : ServerOperations W; as_api_token : option rstr; as_shutdown : Cell W bool
}.
Arguments as_ops {W} _.
Arguments as_api_token {W} _.
Arguments as_shutdown {W} _.

(** ** Handlers *)

Section handlers.
Context {W : Type} (metrics : Cell W MetricsGlobal) (db_outside : DbOutside W) (urls : UrlParser).
Context (unix_now : M W (option N)) (CARGO_PKG_VERSION : rstr).
(** The OpenAPI document that utoipa derives. *)
Context (openapi : rstr) (extract : Extractors).
(** What axum answers where no route has the path. *)
Context (fallback : HttpRequest -> Response) (cors : HttpRequest -> option Response).
Context (state : ApiState W).

Definition now_unix : M W N := t <<- unix_now ;; mret (default 0%N t).

Definition json_ok (data : Payload) : M W Response :=
  timestamp <<- now_unix ;;
  mret {| rs_status := OK;
          rs_body := JsonBody {| ar_success := true; ar_data := Some data; ar_error := None;
                                 ar_timestamp := timestamp |} |}.

Definition json_error (status : N) (message : rstr) : M W Response :=
  timestamp <<- now_unix ;;
  mret {| rs_status := status;
          rs_body := JsonBody {| ar_success := false; ar_data := None; ar_error := Some message;
                                 ar_timestamp := timestamp |} |}.

(** The answer of the handlers that create something. *)
Definition json_created (data : Payload) : M W Response :=
  timestamp <<- now_unix ;;
  mret {| rs_status := CREATED;
          rs_body := JsonBody {| ar_success := true; ar_data := Some data; ar_error := None;
                                 ar_timestamp := timestamp |} |}.

Definition error_status (e : ServerOperationError) : N :=
  match e with
  | NotFound _ => NOT_FOUND
  | Unavailable _ => NOT_FOUND
  | InvalidInput _ => BAD_REQUEST
  | Internal _ => INTERNAL_SERVER_ERROR
  | ChannelClosed => INTERNAL_SERVER_ERROR
  end.

Definition op_error_to_response (e : ServerOperationError) : M W Response :=
  json_error (error_status e) (display_error e).

(** [match operation { Ok(result) => ..., Err(e) => op_error_to_response(e) }]. *)
Definition respond {A} (reply : Payload -> M W Response) (wrap : A -> Payload) (m : M W (OpResult A)) :
    M W Response :=
  result <<- m ;;
  match result with
  | Ok a => reply (wrap a)
  | Err e => op_error_to_response e
  end.

Definition handle_health : M W Response :=
  r <<- server_health unix_now CARGO_PKG_VERSION (as_ops state) ;; json_ok (HealthData r).

Definition handle_reload : M W Response :=
  result <<- trigger_reload (as_ops state) ;;
  match result with
  | Ok r => json_ok (ReloadData r)
  | Err e => json_error INTERNAL_SERVER_ERROR (display_error e)
  end.

Definition handle_stop : M W Response :=
  cwrite (as_shutdown state) true ;;;
  json_ok (StopData {| sp_status := lit "ok"; sp_message := lit "shutdown initiated" |}).

Definition handle_filtering_disable : M W Response :=
  r <<- set_filtering (as_ops state) false ;; json_ok (ToggleData r).
Definition handle_filtering_enable : M W Response :=
  r <<- set_filtering (as_ops state) true ;; json_ok (ToggleData r).
Definition handle_filtering_status : M W Response :=
  r <<- filter_status (as_ops state) ;; json_ok (FilterStatusData r).

Definition handle_list_all : M W Response :=
  l <<- list_filters (as_ops state) ;; json_ok (ListsData l).
Definition handle_refresh_all : M W Response :=
  r <<- op_refresh_all_lists (as_ops state) ;; json_ok (RefreshAllData r).
Definition handle_refresh_single (name : rstr) : M W Response :=
  respond json_ok RefreshData (op_refresh_list (as_ops state) name).
Definition handle_disable_list (name : rstr) : M W Response :=
  respond json_ok ListActionData (op_disable_list (as_ops state) name).
Definition handle_enable_list (name : rstr) : M W Response :=
  respond json_ok ListActionData (op_enable_list (as_ops state) name).

Definition handle_stats : M W Response :=
  r <<- get_stats metrics unix_now (as_ops state) ;; json_ok (StatsData r).
Definition handle_query_log : M W Response :=
  respond json_ok QueryLogData (get_query_log (as_ops state)).

Definition handle_list_blocklists : M W Response :=
  respond json_ok FilterListsData (list_filter_lists (as_ops state) (lit "block")).
Definition handle_add_blocklist (input : CreateFilterListInput) : M W Response :=
  respond json_created FilterListData (add_filter_list db_outside (as_ops state) (lit "block") input).
Definition handle_update_blocklist (name : rstr) (input : UpdateFilterListInput) : M W Response :=
  respond json_ok FilterListData (update_filter_list (as_ops state) name input).
Definition handle_delete_blocklist (name : rstr) : M W Response :=
  respond json_ok DeleteData (delete_filter_list (as_ops state) name).

Definition handle_list_allowlists : M W Response :=
  respond json_ok FilterListsData (list_filter_lists (as_ops state) (lit "allow")).
Definition handle_add_allowlist (input : CreateFilterListInput) : M W Response :=
  respond json_created FilterListData (add_filter_list db_outside (as_ops state) (lit "allow") input).
Definition handle_update_allowlist (name : rstr) (input : UpdateFilterListInput) : M W Response :=
  respond json_ok FilterListData (update_filter_list (as_ops state) name input).
Definition handle_delete_allowlist (name : rstr) : M W Response :=
  respond json_ok DeleteData (delete_filter_list (as_ops state) name).

Definition handle_get_resolver_config : M W Response :=
  respond json_ok ResolverData (ServerOperations.get_resolver_config (as_ops state)).
Definition handle_update_resolver_config (input : UpdateResolverConfigInput) : M W Response :=
  respond json_ok ResolverData (ServerOperations.update_resolver_config (as_ops state) input).

Definition handle_list_upstreams : M W Response :=
  respond json_ok UpstreamsData (list_upstream_servers (as_ops state)).
Definition handle_add_upstream (input : CreateUpstreamServerInput) : M W Response :=
  respond json_created UpstreamData (add_upstream_server db_outside urls (as_ops state) input).
Definition handle_update_upstream (id : rstr) (input : UpdateUpstreamServerInput) : M W Response :=
  respond json_ok UpstreamData (update_upstream_server urls (as_ops state) id input).
Definition handle_delete_upstream (id : rstr) : M W Response :=
  respond json_ok DeleteData (delete_upstream_server (as_ops state) id).

Definition handle_list_zone_configs : M W Response :=
  respond json_ok ZonesData (list_zone_configs (as_ops state)).
Definition handle_add_zone (input : CreateZoneInput) : M W Response :=
  respond json_created ZoneData (add_zone db_outside (as_ops state) input).
Definition handle_update_zone (zone : rstr) (input : UpdateZoneInput) : M W Response :=
  respond json_ok ZoneData (update_zone db_outside (as_ops state) zone input).
Definition handle_delete_zone (zone : rstr) : M W Response :=
  respond json_ok DeleteData (delete_zone (as_ops state) zone).

Definition handle_list_zone_discovery : M W Response :=
  respond json_ok DiscoveriesData (list_zone_discovery (as_ops state)).
Definition handle_add_zone_discovery (input : CreateZoneDiscoveryInput) : M W Response :=
  respond json_created DiscoveryData (add_zone_discovery db_outside (as_ops state) input).
Definition handle_update_zone_discovery (id : rstr) (input : UpdateZoneDiscoveryInput) : M W Response :=
  respond json_ok DiscoveryData (update_zone_discovery (as_ops state) id input).
Definition handle_delete_zone_discovery (id : rstr) : M W Response :=
  respond json_ok DeleteData (delete_zone_discovery (as_ops state) id).

Definition handle_openapi : M W Response :=
  mret {| rs_status := OK; rs_body := RawBody openapi |}.

(** ** Routes *)

(** A handler, with the parameters captured from the path. *)
Abbreviation Endpoint := (list rstr -> HttpRequest -> M W Response).

(** A failed extraction answers in place of the handler. *)
Definition extracted {A} (r : result A Response) (k : A -> M W Response) : M W Response :=
  match r with Ok a => k a | Err rejection => mret rejection end.

Definition plain (h : M W Response) : Endpoint := fun _ _ => h.
Definition with_path (h : rstr -> M W Response) : Endpoint :=
  fun captures _ => extracted (path_param extract (hd [] captures)) h.
Definition with_json {A} (json : HttpRequest -> result A Response) (h : A -> M W Response) : Endpoint :=
  fun _ request => extracted (json request) h.
Definition with_path_json {A} (json : HttpRequest -> result A Response) (h : rstr -> A -> M W Response) :
    Endpoint :=
  fun captures request =>
    extracted (path_param extract (hd [] captures)) (fun p => extracted (json request) (h p)).

Record Route : Type := { rt_path : rstr; rt_method : Method; rt_endpoint : Endpoint }.
Definition route (path : string) (method : Method) (endpoint : Endpoint) : Route :=
  {| rt_path := lit path; rt_method := method; rt_endpoint := endpoint |}.

Definition api_routes : list Route := [
  route "/api/v1/reload" POST (plain handle_reload);
  route "/api/v1/stop" POST (plain handle_stop);
  route "/api/v1/filtering/disable" POST (plain handle_filtering_disable);
  route "/api/v1/filtering/enable" POST (plain handle_filtering_enable);
  route "/api/v1/filtering/status" GET (plain handle_filtering_status);
  route "/api/v1/lists" GET (plain handle_list_all);
  route "/api/v1/lists/refresh" POST (plain handle_refresh_all);
  route "/api/v1/lists/{name}/refresh" POST (with_path handle_refresh_single);
  route "/api/v1/lists/{name}/disable" POST (with_path handle_disable_list);
  route "/api/v1/lists/{name}/enable" POST (with_path handle_enable_list);
  route "/api/v1/stats" GET (plain handle_stats);
  route "/api/v1/query-log" GET (plain handle_query_log);
  route "/api/v1/blocklists" GET (plain handle_list_blocklists);
  route "/api/v1/blocklists" POST (with_json (json_create_list extract) handle_add_blocklist);
  route "/api/v1/blocklists/{name}" PUT
    (with_path_json (json_update_list extract) handle_update_blocklist);
  route "/api/v1/blocklists/{name}" DELETE (with_path handle_delete_blocklist);
  route "/api/v1/allowlists" GET (plain handle_list_allowlists);
  route "/api/v1/allowlists" POST (with_json (json_create_list extract) handle_add_allowlist);
  route "/api/v1/allowlists/{name}" PUT
    (with_path_json (json_update_list extract) handle_update_allowlist);
  route "/api/v1/allowlists/{name}" DELETE (with_path handle_delete_allowlist);
  route "/api/v1/resolver-config" GET (plain handle_get_resolver_config);
  route "/api/v1/resolver-config" PUT
    (with_json (json_update_resolver extract) handle_update_resolver_config);
  route "/api/v1/upstreams" GET (plain handle_list_upstreams);
  route "/api/v1/upstreams" POST (with_json (json_create_upstream extract) handle_add_upstream);
  route "/api/v1/upstreams/{id}" PUT
    (with_path_json (json_update_upstream extract) handle_update_upstream);
  route "/api/v1/upstreams/{id}" DELETE (with_path handle_delete_upstream);
  route "/api/v1/zones" GET (plain handle_list_zone_configs);
  route "/api/v1/zones" POST (with_json (json_create_zone extract) handle_add_zone);
  route "/api/v1/zones/{zone}" PUT (with_path_json (json_update_zone extract) handle_update_zone);
  route "/api/v1/zones/{zone}" DELETE (with_path handle_delete_zone);
  route "/api/v1/zone-discovery" GET (plain handle_list_zone_discovery);
  route "/api/v1/zone-discovery" POST
    (with_json (json_create_discovery extract) handle_add_zone_discovery);
  route "/api/v1/zone-discovery/{id}" PUT
    (with_path_json (json_update_discovery extract) handle_update_zone_discovery);
  route "/api/v1/zone-discovery/{id}" DELETE (with_path handle_delete_zone_discovery);
  route "/api/v1/openapi.json" GET (plain handle_openapi)].

(** *** How axum matches a request

    A segment in braces matches any segment that is not empty; a [GET] route also
    answers [HEAD], without the body.  No two patterns of the table match the same path,
    so the order of the table does not matter. *)

Definition is_param (segment : rstr) : bool :=
  match segment with c :: _ => (c =? 123)%N | [] => false end.

Fixpoint match_segments (pattern segments : list rstr) : option (list rstr) :=
  match pattern, segments with
  | [], [] => Some []
  | p :: pattern, s :: segments =>
      if is_param p
      then if is_empty s then None else (s ::.) <$> match_segments pattern segments
      else if str_eqb p s then match_segments pattern segments else None
  | _, _ => None
  end.

Definition slash : rchar := 47%N.
Definition match_path (pattern path : rstr) : option (list rstr) :=
  match_segments (split slash pattern) (split slash path).

Definition accepts (method requested : Method) : bool :=
  bool_decide (method = requested \/ method = GET /\ requested = HEAD).

(** The routes of a path, with the captured parameters. *)
Definition path_routes (table : list Route) (path : rstr) : list (Route * list rstr) :=
  omap (fun r => (r,.) <$> match_path (rt_path r) path) table.

Definition strip_body (method : Method) (r : Response) : Response :=
  match method with HEAD => {| rs_status := rs_status r; rs_body := NoBody |} | _ => r end.

(** The method router of a path. *)
Definition method_router (routes : list (Route * list rstr)) (request : HttpRequest) : M W Response :=
  match List.find (fun rc => accepts (rt_method (fst rc)) (rq_method request)) routes with
  | Some (r, captures) =>
      response <<- rt_endpoint r captures request ;; mret (strip_body (rq_method request) response)
  | None => mret {| rs_status := METHOD_NOT_ALLOWED; rs_body := NoBody |}
  end.

(** The router of [api_router]: [None] where no path matches.  The layer wraps the method
    routers of all its paths. *)
Definition api_router (request : HttpRequest) : option (M W Response) :=
  match path_routes api_routes (rq_path request) with
  | [] => None
  | routes => Some (bearer_auth_middleware (as_api_token state) request (method_router routes request))
  end.

(** The application of [start_api_server]: the API and the health check, which needs no
    token, inside the CORS layer. *)
Definition api_app (request : HttpRequest) : M W Response :=
  match cors request with
  | Some response => mret response
  | None =>
      match path_routes [route "/health" GET (plain handle_health)] (rq_path request) with
      | [] => default (mret (fallback request)) (api_router request)
      | routes => method_router routes request
      end
  end.
End handlers.

(** ** Authentication is exact *)

Lemma folded_difference (l : list (N * N)) acc :
  foldl (fun acc xy => N.lor acc (N.lxor (fst xy) (snd xy))) acc l = 0%N
  <-> acc = 0%N /\ Forall (fun xy => fst xy = snd xy) l.
Proof.
  revert acc. induction l as [|[x y] l IH]; intros acc; simpl.
  - rewrite Forall_nil. tauto.
  - rewrite IH, N.lor_eq_0_iff, N.lxor_eq_0_iff, Forall_cons. simpl. tauto.
Qed.

Lemma constant_time_eq_iff a b : constant_time_eq a b = true <-> a = b.
Proof.
  unfold constant_time_eq. destruct (Nat.eqb_spec (length a) (length b)) as [Hl|Hl].
  - rewrite N.eqb_eq, folded_difference. revert b Hl.
    induction a as [|x a IH]; intros [|y b] Hl; simpl in *; [by repeat constructor|done..|].
    specialize (IH b (eq_add_S _ _ Hl)). rewrite Forall_cons. simpl. naive_solver.
  - split; [done|]. by intros ->.
Qed.

Lemma as_bytes_visible b : forallb visible b = true -> as_bytes b = b.
Proof.
  intros Hb. apply as_bytes_ascii. unfold ascii. apply Forall_forall. intros c Hc.
  rewrite forallb_forall in Hb. apply list_elem_of_In in Hc. apply Hb in Hc. unfold visible in Hc. lia.
Qed.

(** Whether a request carries the token.  A header has visible ASCII only, so no request
    carries a token with other characters. *)
Definition authorized (token : option rstr) (request : HttpRequest) : bool :=
  match token with
  | None => true
  | Some expected =>
      let header := as_bytes (lit "Bearer " ++ expected) in
      bool_decide (rq_authorization request = Some header) && forallb visible header
  end.

Definition denied (request : HttpRequest) : Response :=
  auth_error UNAUTHORIZED
    (if rq_authorization request then lit "invalid authorization token"
     else lit "authorization header required").

Lemma bearer_auth_exact {W} token request (next : M W Response) w :
  bearer_auth_middleware token request next w
  = if authorized token request then next w else (denied request, w).
Proof.
  unfold bearer_auth_middleware, authorized, denied.
  destruct token as [t|]; [|done]. destruct (rq_authorization request) as [v|]; [|done].
  unfold to_str. destruct (forallb visible v) eqn:Hv; cbn [from_option id].
  - rewrite (as_bytes_visible _ Hv).
    destruct (constant_time_eq v _) eqn:He; cbn [negb].
    + apply constant_time_eq_iff in He as <-. by rewrite bool_decide_eq_true_2, Hv.
    + rewrite bool_decide_eq_false_2; [done|]. intros Heq%(inj Some).
      by rewrite (proj2 (constant_time_eq_iff _ _) Heq) in He.
  - change (constant_time_eq _ _) with false. cbn [negb].
    destruct (bool_decide_reflect (Some v = Some (as_bytes (lit "Bearer " ++ t)))) as [Heq|]; [|done].
    apply (inj Some) in Heq as <-. by rewrite Hv.
Qed.

(** ** Matching paths *)

(** A pattern without parameters matches only itself. *)
Lemma match_literal pattern segments captures : forallb (negb ∘ is_param) pattern = true ->
  match_segments pattern segments = Some captures -> segments = pattern.
Proof.
  revert segments captures.
  induction pattern as [|p ps IH]; intros [|s ss] captures Hlit H; try done; simpl in *.
  apply andb_true_iff in Hlit as [Hp Hps]. destruct (is_param p); [done|].
  destruct (str_eqb_spec p s) as [->|]; [|done]. f_equal. by eapply IH.
Qed.

Lemma match_health path captures :
  match_path (lit "/health") path = Some captures -> path = lit "/health".
Proof.
  intros H%match_literal; [|done]. rewrite <- (join_split slash path), H. apply join_split.
Qed.

Section api.
Context {W : Type} (metrics : Cell W MetricsGlobal) (db_outside : DbOutside W) (urls : UrlParser).
Context (unix_now : M W (option N)) (CARGO_PKG_VERSION : rstr).
Context (openapi : rstr) (extract : Extractors) (fallback : HttpRequest -> Response).
Context (cors : HttpRequest -> option Response) `{!CorsService cors}.
Context (state : ApiState W).

Abbreviation app := (api_app metrics db_outside urls unix_now CARGO_PKG_VERSION openapi extract fallback cors state).
Abbreviation routes := (api_routes metrics db_outside urls unix_now openapi extract state).

Lemma api_app_routed request w : rq_path request <> lit "/health" -> rq_method request <> OPTIONS ->
  app request w = match path_routes routes (rq_path request) with
                  | [] => (fallback request, w)
                  | found => if authorized (as_api_token state) request
                             then method_router found request w else (denied request, w)
                  end.
Proof.
  intros Hpath Hopt. unfold api_app. rewrite cors_passes by done.
  replace (path_routes [route "/health" GET _] _) with (@nil (@Route W * list rstr)).
  - unfold api_router. destruct (path_routes routes _) as [|rc found]; [done|].
    cbn [from_option id]. by rewrite bearer_auth_exact.
  - unfold path_routes, route. cbn [omap list_omap rt_path].
    destruct (match_path _ _) eqn:Hm; [|done]. by apply match_health in Hm.
Qed.

(** C15. A request to any path of the API but the health check, with any method but
    OPTIONS, is served exactly when it carries the configured token (or none is
    configured); every other one is answered with 401, no handler runs and nothing changes.
    A request for an unknown path runs no handler either.  A preflight request, with the
    method OPTIONS, is answered by the CORS layer without looking at the token; no handler
    runs and nothing changes. *)
Theorem api_authentication_exact request w : rq_path request <> lit "/health" ->
  (rq_method request <> OPTIONS ->
   app request w = match path_routes routes (rq_path request) with
                   | [] => (fallback request, w)
                   | found => if authorized (as_api_token state) request
                              then method_router found request w else (denied request, w)
                   end)
  /\ rs_status (denied request) = UNAUTHORIZED
  /\ (rq_method request = OPTIONS -> exists r, cors request = Some r /\ app request w = (r, w)).
Proof.
  intros Hpath. split; [by apply api_app_routed|]. split; [done|].
  intros [r Hr]%cors_preflight. exists r. split; [done|]. unfold api_app. by rewrite Hr.
Qed.
End api.

(** ** Reading requests *)

(** [m] changes nothing. *)
Definition silent {W A} (m : M W A) : Prop := forall w, snd (m w) = w.

Section silent.
Context {W : Type}.

Lemma silent_ret {A} (a : A) : silent (mret (W := W) a).
Proof. done. Qed.

Lemma silent_bind {A B} (m : M W A) (k : A -> M W B) :
  silent m -> (forall a, silent (k a)) -> silent (mbind m k).
Proof. intros Hm Hk w. unfold mbind. specialize (Hm w). destruct (m w) as [a w']. simpl in *. subst. apply Hk. Qed.

Lemma silent_tbind {A B E} (m : M W (result A E)) (k : A -> M W (result B E)) :
  silent m -> (forall a, silent (k a)) -> silent (tbind m k).
Proof.
  intros Hm Hk w. unfold tbind. specialize (Hm w). destruct (m w) as [[a|e] w']; simpl in *; subst; [apply Hk|done].
Qed.

Lemma silent_read {S} (c : Cell W S) : silent (cread c).
Proof. done. Qed.
End silent.

Create HintDb silent.
#[export] Hint Resolve silent_ret silent_bind silent_tbind silent_read : silent.
#[export] Hint Extern 2 (silent (match ?x with _ => _ end)) => destruct x : silent.

(** The [GET] and [HEAD] endpoints of the table only read. *)
Definition reads_only {W} (table : list (@Route W)) : Prop :=
  Forall (fun r => rt_method r = GET \/ rt_method r = HEAD ->
                   forall captures request, silent (rt_endpoint r captures request)) table.

Lemma method_router_silent {W} (table : list (@Route W)) path request :
  reads_only table -> rq_method request = GET \/ rq_method request = HEAD ->
  silent (method_router (path_routes table path) request).
Proof.
  intros Hall Hm. unfold method_router.
  destruct (List.find _ _) as [[r captures]|] eqn:Hf; [|apply silent_ret].
  apply silent_bind; [|intros; apply silent_ret].
  apply List.find_some in Hf as [Hin Ha]. apply list_elem_of_In in Hin.
  unfold path_routes in Hin. apply list_elem_of_omap in Hin as (r' & Hr & Hp).
  destruct (match_path _ _); simplify_eq/=.
  unfold reads_only in Hall. rewrite Forall_forall in Hall. apply Hall; [done|].
  unfold accepts in Ha. apply bool_decide_eq_true in Ha.
  destruct Ha as [->|[-> _]]; auto.
Qed.

Section reading.
Context {W : Type} (metrics : Cell W MetricsGlobal) (db : Cell W Database) (outside : DbOutside W).
Context `{!QuietDb db outside} (urls : UrlParser).
Context (unix_now : M W (option N)) (CARGO_PKG_VERSION : rstr).
Context (openapi : rstr) (extract : Extractors) (fallback : HttpRequest -> Response).
Context (cors : HttpRequest -> option Response) `{!CorsService cors}.
Context (state : ApiState W).
Context (Hrepos : so_repos (as_ops state) = Some (sqlx_repositories db outside)).
(** Reading the clock and the names of the lists changes nothing. *)
Context (Hnow : silent unix_now) (Hnames : silent (ctl_list_names (so_domain_filter (as_ops state)))).

#[local] Hint Resolve Hnow Hnames : silent.

Lemma silent_fetch {A} context (q : Database -> A) : silent (fetch db outside context q).
Proof. intros w. by rewrite fetch_quiet. Qed.
Lemma silent_db_call {A} (m : M W (result A Error)) : silent m -> silent (db_call m).
Proof. intros Hm w. unfold db_call, mmap_err. specialize (Hm w). by destruct (m w) as [[a|e] w']. Qed.
#[local] Hint Resolve silent_fetch silent_db_call : silent.

Lemma silent_query {A} (f : Repositories W -> M W (OpResult A)) :
  silent (f (sqlx_repositories db outside)) ->
  silent (repos <?- mlift (op_repos (as_ops state)) ;; f repos).
Proof.
  intros Hf w. rewrite (repos_ok db outside _ Hrepos). apply Hf.
Qed.

Lemma silent_now : silent (now_unix unix_now).
Proof. unfold now_unix. eauto with silent. Qed.
#[local] Hint Resolve silent_now : silent.

Lemma silent_json_ok data : silent (json_ok unix_now data).
Proof. unfold json_ok. eauto with silent. Qed.
Lemma silent_json_error status message : silent (json_error unix_now status message).
Proof. unfold json_error. eauto with silent. Qed.
#[local] Hint Resolve silent_json_ok silent_json_error : silent.

Lemma silent_respond {A} (wrap : A -> Payload) (m : M W (OpResult A)) :
  silent m -> silent (respond unix_now (json_ok unix_now) wrap m).
Proof. intros Hm. unfold respond. apply silent_bind; [done|]. intros [a|e]; [apply silent_json_ok|apply silent_json_error]. Qed.

Lemma silent_lists : silent (db_call (fl_get_all (r_filter_lists (sqlx_repositories db outside)))).
Proof. apply silent_db_call, silent_fetch. Qed.
Lemma silent_servers : silent (uc_get_all_servers (r_upstream_config (sqlx_repositories db outside))).
Proof. apply silent_fetch. Qed.
Lemma silent_settings : silent (uc_get_resolver_config (r_upstream_config (sqlx_repositories db outside))).
Proof. apply silent_tbind; [|intros a; apply silent_tbind]; auto with silent. Qed.
Lemma silent_zones : silent (zn_get_all_with_servers (r_zones (sqlx_repositories db outside))).
Proof. apply silent_tbind; [|intros a; apply silent_tbind]; auto with silent. Qed.
Lemma silent_discovery : silent (zd_get_all (r_zone_discovery (sqlx_repositories db outside))).
Proof. apply silent_tbind; [|intros a; apply silent_tbind]; auto with silent. Qed.

Abbreviation routes := (api_routes metrics outside urls unix_now openapi extract state).

Lemma get_routes_silent : reads_only routes.
Proof.
  repeat (apply Forall_cons; split); [..|apply Forall_nil; done];
    intros [[=]|[=]]; intros captures request; cbn [route rt_endpoint]; unfold plain.
  - unfold handle_filtering_status, filter_status. eauto with silent.
  - unfold handle_list_all, list_filters. eauto with silent.
  - unfold handle_stats, get_stats, uptime_secs. eauto 8 with silent.
  - apply silent_respond. unfold get_query_log. eauto with silent.
  - apply silent_respond, silent_query, silent_tbind; auto using silent_lists with silent.
  - apply silent_respond, silent_query, silent_tbind; auto using silent_lists with silent.
  - apply silent_respond, silent_query, silent_db_call, silent_settings.
  - apply silent_respond, silent_query, silent_db_call, silent_servers.
  - apply silent_respond, silent_query, silent_db_call, silent_zones.
  - apply silent_respond, silent_query, silent_db_call, silent_discovery.
  - apply silent_ret.
Qed.

Lemma get_health_silent :
  reads_only [route "/health" GET (plain (handle_health unix_now CARGO_PKG_VERSION state))].
Proof.
  apply Forall_singleton. intros _ captures request.
  change (silent (handle_health unix_now CARGO_PKG_VERSION state)).
  unfold handle_health, server_health, uptime_secs. eauto 8 with silent.
Qed.

(** A [GET] or [HEAD] request, on any path, with or without the token, changes
    nothing: not the database, the switches, the query log or the reload channel. *)
Theorem safe_requests_read_only request w :
  rq_method request = GET \/ rq_method request = HEAD ->
  snd (api_app metrics outside urls unix_now CARGO_PKG_VERSION openapi extract fallback cors state request w) = w.
Proof.
  intros Hm. unfold api_app, api_router. rewrite cors_passes by (by destruct Hm as [-> | ->]).
  pose proof (method_router_silent _ (rq_path request) request get_routes_silent Hm w) as Hapi.
  pose proof (method_router_silent _ (rq_path request) request get_health_silent Hm w) as Hhealth.
  destruct (path_routes [_] _) as [|rc found]; [|done].
  destruct (path_routes routes _) as [|rc found]; [done|]. cbn [from_option id].
  rewrite bearer_auth_exact. by destruct (authorized _ _).
Qed.
End reading.

(** ** Filter lists over HTTP *)

Section list_api.
Context {W : Type} (metrics : Cell W MetricsGlobal) (db : Cell W Database) (outside : DbOutside W).
Context `{!QuietDb db outside} (urls : UrlParser).
Context (unix_now : M W (option N)) (CARGO_PKG_VERSION : rstr).
Context (openapi : rstr) (extract : Extractors) (fallback : HttpRequest -> Response).
Context (cors : HttpRequest -> option Response) `{!CorsService cors}.
Context (state : ApiState W).
Context (Hrepos : so_repos (as_ops state) = Some (sqlx_repositories db outside)).
Context (Hsend : forall w, cget db (snd (so_send_reload (as_ops state) w)) = cget db w).
Context (Hnow : silent unix_now).

Abbreviation app := (api_app metrics outside urls unix_now CARGO_PKG_VERSION openapi extract fallback cors state).
Abbreviation routes := (api_routes metrics outside urls unix_now openapi extract state).

(** The response to an operation with the given outcome. *)
Definition outcome {R} (ok_status : N) (wrap : R -> Payload) (o : OpResult R) (timestamp : N) : Response :=
  match o with
  | Ok r => {| rs_status := ok_status;
               rs_body := JsonBody {| ar_success := true; ar_data := Some (wrap r); ar_error := None;
                                      ar_timestamp := timestamp |} |}
  | Err e => {| rs_status := error_status e;
                rs_body := JsonBody {| ar_success := false; ar_data := None;
                                       ar_error := Some (display_error e); ar_timestamp := timestamp |} |}
  end.

(** The request is answered with the outcome [o] of an operation on the map of lists, and
    the map changes accordingly; a refused request changes nothing. *)
Definition answers {R} (ok_status : N) (wrap : R -> Payload)
    (after : R -> gmap rstr FilterListRecord -> gmap rstr FilterListRecord)
    (m : M W Response) (w : W) (o : OpResult R) : Prop :=
  exists timestamp w', m w = (outcome ok_status wrap o timestamp, w') /\ schema_ok (cget db w')
    /\ match o with
       | Ok r => lists_of (cget db w') = after r (lists_of (cget db w))
       | Err _ => w' = w
       end.

(** The paths of the two collections, with the kind of their lists. *)
Definition list_collection (kind path : rstr) : Prop :=
  kind = lit "block" /\ path = lit "/api/v1/blocklists"
  \/ kind = lit "allow" /\ path = lit "/api/v1/allowlists".

Lemma collection_routes kind path : list_collection kind path -> exists get post,
  path_routes routes path = [(get, []); (post, [])] /\ rt_method get = GET /\ rt_method post = POST
  /\ rt_endpoint get = plain (respond unix_now (json_ok unix_now) FilterListsData
                                (list_filter_lists (as_ops state) kind))
  /\ rt_endpoint post = with_json (json_create_list extract) (fun input =>
       respond unix_now (json_created unix_now) FilterListData
         (add_filter_list outside (as_ops state) kind input)).
Proof. intros [[-> ->]|[-> ->]]; do 2 eexists; split_and!; reflexivity. Qed.

Lemma item_routes kind path segment : list_collection kind path -> segment <> [] ->
  contains_char slash segment = false -> exists put delete,
  path_routes routes (path ++ slash :: segment) = [(put, [segment]); (delete, [segment])]
  /\ rt_method put = PUT /\ rt_method delete = DELETE
  /\ rt_endpoint put = with_path_json extract (json_update_list extract) (fun name input =>
       respond unix_now (json_ok unix_now) FilterListData (update_filter_list (as_ops state) name input))
  /\ rt_endpoint delete = with_path extract (fun name =>
       respond unix_now (json_ok unix_now) DeleteData (delete_filter_list (as_ops state) name)).
Proof.
  intros Hc Hne Hno. unfold path_routes, match_path. rewrite split_app_char, (split_no_char _ _ Hno).
  destruct segment as [|c s]; [done|].
  destruct Hc as [[-> ->]|[-> ->]]; do 2 eexists; split_and!; reflexivity.
Qed.

Lemma served request w found r captures :
  rq_path request <> lit "/health" -> authorized (as_api_token state) request = true ->
  rq_method request <> HEAD -> rq_method request <> OPTIONS -> path_routes routes (rq_path request) = found ->
  List.find (fun rc => accepts (rt_method (fst rc)) (rq_method request)) found = Some (r, captures) ->
  app request w = rt_endpoint r captures request w.
Proof.
  intros Hp Ha Hm Ho Hf Hr. rewrite api_app_routed by done. rewrite Hf, Ha.
  destruct found as [|rc found]; [done|]. unfold method_router. rewrite Hr. unfold mbind, mret.
  destruct (rt_endpoint r captures request w) as [res w']. unfold strip_body. by destruct (rq_method request).
Qed.

Lemma reply_silent (f : N -> Response) w :
  exists t, (timestamp <<- now_unix unix_now ;; mret (f timestamp)) w = (f t, w).
Proof.
  unfold now_unix, mbind, mret. specialize (Hnow w). destruct (unix_now w) as [t w']. simpl in *.
  subst. by exists (default 0%N t).
Qed.

Lemma respond_answers {R} (ok_status : N) (wrap : R -> Payload) reply after m w o :
  (forall p w, exists t, reply p w = (outcome (R := Payload) ok_status id (Ok p) t, w)) ->
  simulates db lists_of after m w o ->
  answers ok_status wrap after (respond unix_now reply wrap m) w o.
Proof.
  intros Hreply (w' & Hm & Hok & Hafter). unfold answers, respond, mbind. rewrite Hm. destruct o as [r|e].
  - destruct (Hreply (wrap r) w') as [t Ht]. by exists t, w'.
  - destruct (reply_silent (outcome (R := R) ok_status wrap (Err e)) w') as [t Ht].
    by exists t, w'.
Qed.

Lemma answers_ext {R} ok_status (wrap : R -> Payload) after m m' w o :
  m w = m' w -> answers ok_status wrap after m' w o -> answers ok_status wrap after m w o.
Proof. unfold answers. by intros ->. Qed.

Lemma json_ok_outcome p w :
  exists t, json_ok unix_now p w = (outcome (R := Payload) OK id (Ok p) t, w).
Proof. apply (reply_silent (outcome (R := Payload) OK id (Ok p))). Qed.
Lemma json_created_outcome p w :
  exists t, json_created unix_now p w = (outcome (R := Payload) CREATED id (Ok p) t, w).
Proof. apply (reply_silent (outcome (R := Payload) CREATED id (Ok p))). Qed.

Lemma collection_not_health kind path suffix : list_collection kind path -> path ++ suffix <> lit "/health".
Proof. by intros [[_ ->]|[_ ->]]. Qed.

(** The lists of one kind. *)
Definition collection (kind : rstr) (m : gmap rstr FilterListRecord) : gmap rstr FilterListRecord :=
  filter (fun p => flr_kind p.2 = kind) m.

(** What is stored under [name] is a list of the collection, if anything is. *)
Definition of_kind (kind name : rstr) (m : gmap rstr FilterListRecord) : Prop :=
  forall r, m !! name = Some r -> flr_kind r = kind.

Lemma collection_Some kind m name r :
  collection kind m !! name = Some r <-> m !! name = Some r /\ flr_kind r = kind.
Proof. apply map_lookup_filter_Some. Qed.

Lemma collection_lookup kind name m : of_kind kind name m -> collection kind m !! name = m !! name.
Proof.
  intros Hk. apply option_eq. intros r. rewrite collection_Some. naive_solver.
Qed.

(** C37. The list collections of the API are the map of filter lists: on a database that
    answers, an authorized request is answered with 201 or 200 and the record exactly when
    the operation on the map succeeds, with 400, 404 or 500 and its message otherwise, and
    the stored map changes by exactly that operation.  Listing gives the lists of the
    collection, adding adds one to it; changing and deleting act on the list of the
    collection with that name, 404 when it has none, provided that the other collection has
    no list of that name. *)
Theorem list_api_exact kind path segment name create update request w :
  schema_ok (cget db w) -> authorized (as_api_token state) request = true ->
  list_collection kind path -> segment <> [] -> contains_char slash segment = false ->
  path_param extract segment = Ok name ->
  let item := path ++ slash :: segment in
  (rq_method request = GET -> rq_path request = path ->
     exists l t, app request w = (outcome OK FilterListsData (Ok l) t, w)
       /\ forall r, r ∈ l <-> collection kind (lists_of (cget db w)) !! flr_name r = Some r)
  /\ (rq_method request = POST -> rq_path request = path -> json_create_list extract request = Ok create ->
     exists id, answers CREATED FilterListData (record_under flr_name) (app request) w
       (add_list_spec kind id create (lists_of (cget db w))))
  /\ (of_kind kind name (lists_of (cget db w)) ->
     rq_method request = PUT -> rq_path request = item -> json_update_list extract request = Ok update ->
     answers OK FilterListData (record_under flr_name) (app request) w
       (update_list_spec name update (collection kind (lists_of (cget db w)))))
  /\ (of_kind kind name (lists_of (cget db w)) ->
     rq_method request = DELETE -> rq_path request = item ->
     answers OK DeleteData (remove_key name) (app request) w
       (delete_list_spec name (collection kind (lists_of (cget db w))))).
Proof.
  intros Hok Hauth Hc Hne Hno Hname. cbv zeta.
  pose proof (collection_not_health _ _ [] Hc) as Hh. rewrite app_nil_r in Hh.
  pose proof (collection_not_health _ _ (slash :: segment) Hc) as Hh'.
  destruct (collection_routes _ _ Hc) as (get & post & Hcoll & Hget & Hpost & Eget & Epost).
  destruct (item_routes _ _ _ Hc Hne Hno) as (put & del & Hitem & Hput & Hdel & Eput & Edel).
  split_and!; [intros Hm Hp|intros Hm Hp|intros Hk Hm Hp|intros Hk Hm Hp].
  - erewrite (served request w [(get, []); (post, [])] get []); [|congruence|done|congruence|by rewrite Hm|by rewrite Hp, Hcoll|].
    2: { rewrite Hm. cbn [List.find fst]. by rewrite Hget. }
    rewrite Eget. unfold plain, respond, mbind.
    destruct (list_filter_lists_listing db outside (as_ops state) Hrepos kind w Hok) as (l & -> & _ & Hl).
    destruct (json_ok_outcome (FilterListsData l) w) as [t Ht]. exists l, t. split; [done|].
    intros r. rewrite collection_Some. apply Hl.
  - intros Hj. destruct (add_filter_list_refines db outside (as_ops state) Hrepos Hsend kind create w Hok)
      as [id Hid]; [destruct Hc as [[-> _]|[-> _]]; auto|].
    exists id. eapply answers_ext.
    { apply (served request w [(get, []); (post, [])] post []); [congruence|done|congruence|by rewrite Hm|by rewrite Hp, Hcoll|].
      rewrite Hm. cbn [List.find fst]. by rewrite Hget, Hpost. }
    rewrite Epost. unfold with_json. rewrite Hj. by apply respond_answers; [apply json_created_outcome|].
  - intros Hj. unfold update_list_spec. rewrite (collection_lookup _ _ _ Hk). eapply answers_ext.
    { apply (served request w [(put, [segment]); (del, [segment])] put [segment]); [congruence|done|congruence|by rewrite Hm|by rewrite Hp, Hitem|].
      rewrite Hm. cbn [List.find fst]. by rewrite Hput. }
    rewrite Eput. unfold with_path_json. cbn [hd]. rewrite Hname. cbn [extracted]. rewrite Hj.
    apply respond_answers; [apply json_ok_outcome|].
    by apply (update_filter_list_refines db outside (as_ops state) Hrepos Hsend).
  - unfold delete_list_spec. rewrite (collection_lookup _ _ _ Hk). eapply answers_ext.
    { apply (served request w [(put, [segment]); (del, [segment])] del [segment]); [congruence|done|congruence|by rewrite Hm|by rewrite Hp, Hitem|].
      rewrite Hm. cbn [List.find fst]. by rewrite Hput, Hdel. }
    rewrite Edel. unfold with_path. cbn [hd]. rewrite Hname.
    apply respond_answers; [apply json_ok_outcome|].
    by apply (delete_filter_list_refines db outside (as_ops state) Hrepos Hsend).
Qed.
End list_api.

(** ** Witnesses *)

Definition ex_rejection : Response := {| rs_status := 422; rs_body := NoBody |}.
Definition ex_extract : Extractors :=
  {| path_param := Ok; json_create_list := fun _ => Ok ex_new_list;
     json_update_list := fun _ => Ok ex_list_change;
     json_update_resolver := fun _ => Ok ex_settings_change;
     json_create_upstream := fun _ => Ok ex_new_upstream;
     json_update_upstream := fun _ => Ok ex_upstream_change;
     json_create_zone := fun _ => Ok ex_new_zone; json_update_zone := fun _ => Ok ex_zone_change;
     json_create_discovery := fun _ => Err ex_rejection;
     json_update_discovery := fun _ => Err ex_rejection |}.

Definition ex_metrics {W} : Cell W MetricsGlobal :=
  {| cget := fun _ => None; cput := fun _ w => w |}.
Definition ex_api : ApiState Database :=
  {| as_ops := ex_ops; as_api_token := Some (lit "secret");
     as_shutdown := {| cget := fun _ => false; cput := fun _ w => w |} |}.
Definition ex_clock {W} : M W (option N) := mret (Some 1700000000%N).
Definition ex_cors (request : HttpRequest) : option Response :=
  if decide (rq_method request = OPTIONS) then Some {| rs_status := OK; rs_body := NoBody |} else None.
#[export] Instance ex_cors_service : CorsService ex_cors.
Proof.
  split. intros request. unfold ex_cors. case_decide as Hm; [by split; [|eexists]|].
  split; [by intros []|done].
Qed.
Definition ex_app : HttpRequest -> M Database Response :=
  api_app ex_metrics ex_db_outside ex_urls ex_clock (lit "1.0.0") (lit "{}") ex_extract
    (fun _ => {| rs_status := NOT_FOUND; rs_body := NoBody |}) ex_cors ex_api.
Definition ex_http_request (method : Method) (path : rstr) (authorization : option rstr) : HttpRequest :=
  {| rq_method := method; rq_path := path; rq_authorization := as_bytes <$> authorization;
     rq_headers := []; rq_body := [] |}.

Lemma api_authentication_exact_witness :
  let request := ex_http_request DELETE (lit "/api/v1/blocklists/ads") (Some (lit "Bearer Secret")) in
  ex_app request ex_listed = (denied request, ex_listed).
Proof.
  exact (proj1 (api_authentication_exact ex_metrics ex_db_outside ex_urls ex_clock (lit "1.0.0") (lit "{}")
           ex_extract (fun _ => {| rs_status := NOT_FOUND; rs_body := NoBody |}) ex_cors ex_api
           (ex_http_request DELETE (lit "/api/v1/blocklists/ads") (Some (lit "Bearer Secret"))) ex_listed
           ltac:(discriminate)) ltac:(discriminate)).
Defined.

Lemma safe_requests_read_only_witness :
  snd (ex_app (ex_http_request GET (lit "/api/v1/zones") (Some (lit "Bearer secret"))) ex_listed) = ex_listed.
Proof.
  exact (safe_requests_read_only ex_metrics ex_db ex_db_outside ex_urls ex_clock (lit "1.0.0") (lit "{}")
           ex_extract (fun _ => {| rs_status := NOT_FOUND; rs_body := NoBody |}) ex_cors ex_api eq_refl
           (fun w => eq_refl) (fun w => eq_refl)
           (ex_http_request GET (lit "/api/v1/zones") (Some (lit "Bearer secret"))) ex_listed
           (or_introl eq_refl)).
Defined.

Lemma ex_listed_blocks : of_kind (lit "block") (lit "ads") (lists_of ex_listed).
Proof. intros r Hr. vm_compute in Hr. by injection Hr as <-. Qed.

Lemma list_api_exact_witness :
  answers ex_db OK DeleteData (remove_key (lit "ads"))
    (ex_app (ex_http_request DELETE (lit "/api/v1/blocklists/ads") (Some (lit "Bearer secret"))))
    ex_listed (delete_list_spec (lit "ads") (collection (lit "block") (lists_of ex_listed))).
Proof.
  apply (list_api_exact ex_metrics ex_db ex_db_outside ex_urls ex_clock (lit "1.0.0") (lit "{}")
           ex_extract (fun _ => {| rs_status := NOT_FOUND; rs_body := NoBody |}) ex_cors ex_api eq_refl
           (fun w => eq_refl) (fun w => eq_refl) (lit "block") (lit "/api/v1/blocklists") (lit "ads")
           (lit "ads") ex_new_list ex_list_change
           (ex_http_request DELETE (lit "/api/v1/blocklists/ads") (Some (lit "Bearer secret")))
           ex_listed ex_listed_ok eq_refl (or_introl (conj eq_refl eq_refl)));
    first [exact ex_listed_blocks | discriminate | reflexivity].
Defined.

(** A list of the other collection is reached through this one. *)
Lemma other_collection_reached :
  let '(response, d) := ex_app (ex_http_request DELETE (lit "/api/v1/allowlists/ads") (Some (lit "Bearer secret")))
                          ex_listed in
  rs_status response = OK /\ t_filter_lists d = [].
Proof. vm_compute. by split. Qed.
