(* ===== verification/UpstreamClients.v ===== *)
(** * Upstream network clients

    [frameworks/upstream]: the DNS client over UDP and TCP, the DoT, DoH and DoQ clients
    with their endpoint parsers and the connection each of them keeps, and the bootstrap
    lookups.  Sockets, TLS, HTTP/2 and QUIC belong to hickory-net, quinn and the operating
    system: they are the operations of [DnsNet] and [SecureNet], which may change the world
    in any way.  The recursive resolver has a file of its own. *)

From S2P Require Import Prelude RustStr RustNet Outside Hickory ExampleCodec Upstream ConfigBootstrap ServerOperations.

(** ** Addresses and numbers in messages *)

Definition display_ip (ip : IpAddr) : rstr :=
  match ip with IpV4 a => display_ipv4 a | IpV6 a => display_ipv6 a end.

Definition display_socket_addr (a : SocketAddr) : rstr :=
  match sa_ip a with
  | IpV4 ip => display_ipv4 ip ++ lit ":" ++ display_N (sa_port a)
  | IpV6 ip =>
      lit "[" ++ display_ipv6 ip
      ++ (if (sa_scope a =? 0)%N then [] else lit "%" ++ display_N (sa_scope a))
      ++ lit "]:" ++ display_N (sa_port a)
  end.

Definition is_ipv4 (ip : IpAddr) : bool := match ip with IpV4 _ => true | IpV6 _ => false end.
Definition is_ipv6 (ip : IpAddr) : bool := negb (is_ipv4 ip).

(** [SocketAddr::new]. *)
Definition socket_addr (ip : IpAddr) (port : N) : SocketAddr :=
  {| sa_ip := ip; sa_scope := 0; sa_port := port |}.

(** Why [str::parse] refuses an unsigned number of at most [max]. *)
Fixpoint digits_error (max acc : N) (s : rstr) : rstr :=
  match s with
  | [] => []
  | c :: s =>
      match to_digit 10 c with
      | None => lit "invalid digit found in string"
      | Some d => if (max <? acc * 10 + d)%N then lit "number too large to fit in target type"
                  else digits_error max (acc * 10 + d) s
      end
  end.

Definition parse_int_error (max : N) (s : rstr) : rstr :=
  match s with
  | [] => lit "cannot parse integer from empty string"
  | c :: rest => if (c =? ch "+")%N && negb (is_empty rest) then digits_error max 0 rest
                 else digits_error max 0 s
  end.

Fixpoint display_upstream_error (e : UpstreamResolveError) : rstr :=
  match e with
  | URE_Io message => lit "I/O error: " ++ message
  | URE_Timeout => lit "query timed out"
  | URE_Protocol message => lit "protocol error: " ++ message
  | URE_AllFailed => lit "all upstreams failed"
  | URE_WithSource resolver inner => lit "[" ++ resolver ++ lit "] " ++ display_upstream_error inner
  end.

Abbreviation UResult A := (result A UpstreamResolveError).
Definition protocol_error {A} (message : rstr) : UResult A := Err (URE_Protocol message).

(** ** The network *)

Section network.
Context `{DnsName}.

(** What comes of a query that is awaited with a timeout. *)
Inductive Reply : Type :=
| Answered (m : Message)
| Failed (e : rstr)
| TimedOut.

(** [hickory_net]'s DNS client on a connection [Conn] over UDP or TCP. *)
Record DnsNet (Conn W : Type) : Type := {
  udp_connect : SocketAddr -> OutboundRouting -> M W (result Conn rstr);
  tcp_connect : SocketAddr -> OutboundRouting -> M W (result Conn rstr);
  client_query : Conn -> Query -> M W Reply
}.

(** The resolver of the operating system, TLS, HTTP/2 and QUIC.  [quic_socket] is a bound
    UDP socket, with its mark, that QUIC is given. *)
Record SecureNet (Conn Socket W : Type) : Type := {
  lookup_host : rstr -> N -> M W (result (list SocketAddr) rstr);
  client_config : M W (result unit rstr);
  server_name_try_from : rstr -> result unit rstr;
  tls_connect : SocketAddr -> rstr -> OutboundRouting -> M W (result Conn rstr);
  https_connect : SocketAddr -> rstr -> rstr -> option rstr -> OutboundRouting -> M W (result Conn rstr);
  quic_socket : SocketAddr -> option N -> M W (result Socket rstr);
  quic_connect_with : Socket -> SocketAddr -> rstr -> M W (result Conn rstr);
  quic_connect : option SocketAddr -> SocketAddr -> rstr -> M W (result Conn rstr);
  secure_query : Conn -> Query -> M W Reply;
  send_message : Conn -> Message -> M W Reply;
  random_u16 : M W N
}.

(** What the code uses of [url], [http] and [base64]. *)
Record DohFormats : Type := {
  df_urls : UrlParser;
  df_port : up_url df_urls -> option N;
  df_path : up_url df_urls -> rstr;
  df_header_value : rstr -> result unit rstr;
  df_base64 : rstr -> rstr
}.
End network.
Arguments udp_connect {_ Conn W} _ _ _.
Arguments tcp_connect {_ Conn W} _ _ _.
Arguments client_query {_ Conn W} _ _ _.
Arguments lookup_host {_ Conn Socket W} _ _ _.
Arguments client_config {_ Conn Socket W} _.
Arguments server_name_try_from {_ Conn Socket W} _ _.
Arguments tls_connect {_ Conn Socket W} _ _ _ _.
Arguments https_connect {_ Conn Socket W} _ _ _ _ _ _.
Arguments quic_socket {_ Conn Socket W} _ _ _.
Arguments quic_connect_with {_ Conn Socket W} _ _ _ _.
Arguments quic_connect {_ Conn Socket W} _ _ _ _.
Arguments secure_query {_ Conn Socket W} _ _ _.
Arguments send_message {_ Conn Socket W} _ _ _.
Arguments random_u16 {_ Conn Socket W} _.

(** A computation with a cell of its own: its world is [S * W]. *)
Definition lift_m {S W A} (m : M W A) : M (S * W) A :=
  fun sw => let '(a, w) := m sw.2 in (a, (sw.1, w)).
Definition with_local {S W A} (init : S) (m : M (S * W) A) : M W A :=
  fun w => let '(a, (_, w')) := m (init, w) in (a, w').
Definition local_cell {S W} : Cell (S * W) S :=
  {| cget := fst; cput := fun s sw => (s, sw.2) |}.

(** ** Endpoints *)

Inductive Endpoint : Type :=
| Static (address : SocketAddr)
| Hostname (host : rstr) (port : N).

(** DoT and DoQ endpoints differ in these. *)
Record EndpointKind : Type := { ek_name : rstr; ek_scheme : rstr; ek_default_port : N }.
Definition dot_endpoint : EndpointKind :=
  {| ek_name := lit "DoT"; ek_scheme := lit "tls://"; ek_default_port := 853 |}.
Definition doq_endpoint : EndpointKind :=
  {| ek_name := lit "DoQ"; ek_scheme := lit "quic://"; ek_default_port := 8853 |}.

Section endpoints.
Context (kind : EndpointKind).

Definition host_without_trailing_dot (value : rstr) : rstr := trim_end_matches_char (ch ".") value.

Definition validate_label (label : rstr) : UResult unit :=
  if is_empty label || (63 <? str_len label)%nat
  then protocol_error (lit "invalid " ++ ek_name kind ++ lit " hostname label length")
  else if starts_with (lit "-") label || ends_with (lit "-") label
  then protocol_error (lit "invalid " ++ ek_name kind
                       ++ lit " hostname label; leading/trailing hyphen is not allowed")
  else if negb (forallb (fun c => is_ascii_alphanumeric c || (c =? ch "-")%N) label)
  then protocol_error (lit "invalid " ++ ek_name kind ++ lit " hostname label characters")
  else Ok tt.

Fixpoint validate_labels (labels : list rstr) : UResult unit :=
  match labels with
  | [] => Ok tt
  | label :: rest => let? _ := validate_label label in validate_labels rest
  end.

Definition validate_hostname (host : rstr) : UResult unit :=
  if is_empty host || (253 <? str_len host)%nat
  then protocol_error (lit "invalid " ++ ek_name kind ++ lit " hostname length")
  else validate_labels (split (ch ".") host).

Definition parse_hostname_with_optional_port (value : rstr) : UResult (option (rstr * N)) :=
  let without_port :=
    let host := host_without_trailing_dot value in
    let? _ := validate_hostname host in Ok (Some (host, ek_default_port kind)) in
  match rsplit_once (ch ":") value with
  | Some (host, port_str) =>
      if negb (contains_char (ch ":") host) then
        let host := host_without_trailing_dot host in
        let? _ := validate_hostname host in
        let? port := ok_or (parse_u16 port_str)
                       (URE_Protocol (lit "invalid " ++ ek_name kind ++ lit " port '" ++ port_str
                                      ++ lit "': " ++ parse_int_error u16_max port_str)) in
        Ok (Some (host, port))
      else without_port
  | None => without_port
  end.

(** [parse_endpoint]: the endpoint and the name to expect in the certificate. *)
Definition parse_endpoint (value : rstr) : UResult (Endpoint * rstr) :=
  let endpoint := default value (strip_prefix (ek_scheme kind) value) in
  if is_empty (trim endpoint)
  then protocol_error (lit "invalid " ++ ek_name kind ++ lit " upstream address; endpoint is empty")
  else match parse_socket_addr endpoint with
  | Some address => Ok (Static address, display_ip (sa_ip address))
  | None =>
  match parse_ip endpoint with
  | Some ip => Ok (Static (socket_addr ip (ek_default_port kind)), display_ip ip)
  | None =>
      let? found := parse_hostname_with_optional_port endpoint in
      match found with
      | Some (host, port) => Ok (Hostname host port, host_without_trailing_dot host)
      | None => protocol_error (lit "invalid " ++ ek_name kind ++ lit " upstream address; expected "
          ++ ek_scheme kind ++ lit "<host>[:port], <host>:<port>, <host>, "
          ++ ek_scheme kind ++ lit "<ip>[:port], <ip>:<port>, or <ip>")
      end
  end end.
End endpoints.

Definition dot_parse_endpoint : rstr -> UResult (Endpoint * rstr) := parse_endpoint dot_endpoint.
Definition doq_parse_endpoint : rstr -> UResult (Endpoint * rstr) := parse_endpoint doq_endpoint.

Definition DOH_DEFAULT_PORT : N := 443.
Definition DOH_DEFAULT_PATH : rstr := lit "/dns-query".

(** [parse_doh_url]: the endpoint, the host and the path. *)
Definition parse_doh_url (formats : DohFormats) (url_str : rstr) : UResult (Endpoint * rstr * rstr) :=
  let urls := df_urls formats in
  let? url := map_err (fun e => URE_Protocol (lit "invalid DoH URL '" ++ url_str ++ lit "': " ++ e))
                (up_parse urls url_str) in
  if negb (str_eqb (up_scheme urls url) (lit "https"))
  then protocol_error (lit "DoH URL must use https scheme, got '" ++ up_scheme urls url ++ lit "'")
  else
    let? host := ok_or (up_host_str urls url) (URE_Protocol (lit "DoH URL missing host")) in
    let port := default DOH_DEFAULT_PORT (df_port formats url) in
    let p := df_path formats url in
    let path := if is_empty p || str_eqb p (lit "/") then DOH_DEFAULT_PATH else p in
    let endpoint := match parse_ip host with
                    | Some ip => Static (socket_addr ip port)
                    | None => Hostname host port
                    end in
    Ok (endpoint, host, path).

Definition build_auth_headers (formats : DohFormats) (auth : ZoneSourceAuth) : UResult rstr :=
  let value := match auth with
               | Bearer token => lit "Bearer " ++ token
               | Basic username password =>
                   lit "Basic " ++ df_base64 formats (username ++ lit ":" ++ password)
               end in
  let? _ := map_err (fun e => URE_Protocol (lit "invalid auth header value: " ++ e))
              (df_header_value formats value) in
  Ok value.

(** ** Questions and answers *)

Section exchange.
Context `{DnsCodec} {W Conn : Type}.

Definition extract_question (query : bytes) : UResult Query :=
  let? message := map_err URE_Protocol (message_from_vec query) in
  ok_or (first_query message) (URE_Protocol (lit "query contains no questions")).

(** [timeout(...).await.map_err(|_| Timeout)?.map_err(Protocol)]. *)
Definition reply_result (r : Reply) : UResult Message :=
  match r with
  | Answered m => Ok m
  | Failed e => protocol_error e
  | TimedOut => Err URE_Timeout
  end.

(** [response.to_vec().map_err(Protocol)]. *)
Definition encode (response : Message) : UResult bytes :=
  map_err URE_Protocol (message_to_vec response).

(** How all clients use the connection they keep: a query that fails on it, for whatever
    reason, evicts it and is repeated on a new connection, which is kept once it has
    answered. *)
Definition fresh_exchange (cache : Cell W (option Conn)) (exchange : Conn -> M W (UResult Message))
    (connect : M W (UResult Conn)) : M W (UResult bytes) :=
  conn <?- connect ;;
  (response <?- exchange conn ;;
   (cwrite cache (Some conn) ;;; mret (encode response))).

Definition cached_exchange (cache : Cell W (option Conn)) (exchange : Conn -> M W (UResult Message))
    (connect : M W (UResult Conn)) : M W (UResult bytes) :=
  cached <<- cread cache ;;
  match cached with
  | Some conn =>
      r <<- exchange conn ;;
      match r with
      | Ok response => mret (encode response)
      | Err _ => cwrite cache None ;;; fresh_exchange cache exchange connect
      end
  | None => fresh_exchange cache exchange connect
  end.

(** ** DNS over UDP and TCP *)

Section dns_client.
Context (net : DnsNet Conn W).

Record DnsUdpTcpClient : Type := {
  uc_address : SocketAddr; uc_tcp_cache : Cell W (option Conn); uc_routing : OutboundRouting
}.

Definition dns_exchange (question : Query) (conn : Conn) : M W (UResult Message) :=
  r <<- client_query net conn question ;; mret (reply_result r).

Definition resolve_udp (self : DnsUdpTcpClient) (query : bytes) : M W (UResult bytes) :=
  question <?- mlift (extract_question query) ;;
  (conn <?- mmap_err URE_Protocol (udp_connect net (uc_address self) (uc_routing self)) ;;
   (response <?- dns_exchange question conn ;;
    mret (encode response))).

Definition resolve_tcp (self : DnsUdpTcpClient) (query : bytes) : M W (UResult bytes) :=
  question <?- mlift (extract_question query) ;;
  cached_exchange (uc_tcp_cache self) (dns_exchange question)
    (mmap_err URE_Protocol (tcp_connect net (uc_address self) (uc_routing self))).

Definition dns_resolve (self : DnsUdpTcpClient) (query : bytes) : M W (UResult bytes) :=
  response <?- resolve_udp self query ;;
  (msg <?- mlift (map_err URE_Protocol (message_from_vec response)) ;;
   (if msg_truncated msg then resolve_tcp self query else mret (Ok response))).

Definition dns_udp_tcp (self : DnsUdpTcpClient) : UpstreamResolver W :=
  {| resolve := dns_resolve self; label := lit "dns://" ++ display_socket_addr (uc_address self) |}.
End dns_client.
End exchange.

(** The same network for a computation with a local cell. *)
Definition lift_net `{DnsName} {Conn S W} (net : DnsNet Conn W) : DnsNet Conn (S * W) :=
  {| udp_connect := fun a r => lift_m (udp_connect net a r);
     tcp_connect := fun a r => lift_m (tcp_connect net a r);
     client_query := fun c q => lift_m (client_query net c q) |}.

(** ** Bootstrap lookups *)

Section bootstrap.
Context `{DnsCodec} {W Conn : Type} (net : DnsNet Conn W).

Definition fqdn_host (value : rstr) : rstr :=
  if ends_with (lit ".") value then value else value ++ lit ".".

Definition build_dns_query (kind_name host : rstr) (query_type : RecordType) : UResult bytes :=
  let? name := map_err (fun e => URE_Protocol (lit "invalid " ++ kind_name ++ lit " hostname '" ++ host
                                               ++ lit "': " ++ e))
                 (name_from_ascii (fqdn_host host)) in
  let message := message_new 1 MT_Query OC_Query in
  let message := set_flags false true false NoError message in
  encode (add_query {| q_name := name; q_type := query_type; q_class := 1 |} message).

(** The first address among the answers. *)
Fixpoint first_address (answers : list DnsRecord) : option IpAddr :=
  match answers with
  | [] => None
  | r :: rest =>
      match rec_data r with
      | RD_A a => Some (IpV4 a)
      | RD_AAAA a => Some (IpV6 a)
      | _ => first_address rest
      end
  end.

Definition try_extract_ip_from_response {V} (client : UpstreamResolver V) (query : bytes) (port : N) :
    M V (UResult SocketAddr) :=
  response <?- resolve client query ;;
  mret (let? message := map_err URE_Protocol (message_from_vec response) in
        match first_address (msg_answers message) with
        | Some ip => Ok (socket_addr ip port)
        | None => protocol_error (lit "no A/AAAA records in bootstrap response")
        end).

(** One bootstrap resolver: a client with an empty cache, asked for A, then AAAA. *)
Definition ask_bootstrap (resolver : SocketAddr) (routing : OutboundRouting)
    (a_query aaaa_query : bytes) (port : N) : M W (option SocketAddr) :=
  with_local (S := option Conn) None (
    let client := dns_udp_tcp (lift_net net)
      {| uc_address := resolver; uc_tcp_cache := local_cell; uc_routing := routing |} in
    r <<- try_extract_ip_from_response client a_query port ;;
    match r with
    | Ok address => mret (Some address)
    | Err _ =>
        r <<- try_extract_ip_from_response client aaaa_query port ;;
        mret (match r with Ok address => Some address | Err _ => None end)
    end).

Fixpoint ask_each (resolvers : list SocketAddr) (routing : OutboundRouting)
    (a_query aaaa_query : bytes) (port : N) : M W (option SocketAddr) :=
  match resolvers with
  | [] => mret None
  | resolver :: rest =>
      found <<- ask_bootstrap resolver routing a_query aaaa_query port ;;
      match found with
      | Some address => mret (Some address)
      | None => ask_each rest routing a_query aaaa_query port
      end
  end.

Definition resolve_hostname_via_bootstrap (kind_name : rstr) (resolvers : list SocketAddr)
    (routing : OutboundRouting) (host : rstr) (port : N) : M W (UResult SocketAddr) :=
  a_query <?- mlift (build_dns_query kind_name host RT_A) ;;
  (aaaa_query <?- mlift (build_dns_query kind_name host RT_AAAA) ;;
   (found <<- ask_each resolvers routing a_query aaaa_query port ;;
    mret (ok_or found (URE_Protocol (lit "bootstrap resolvers did not return usable A/AAAA records for '"
                                     ++ host ++ lit "'"))))).
End bootstrap.

(** ** DoT, DoH and DoQ *)

Definition default_bootstrap : list SocketAddr := [socket_addr (IpV4 (1, 1, 1, 1)%N) 53].

(** [with_bootstrap_resolvers]: an empty list keeps the default. *)
Definition bootstrap_or_default (resolvers : list SocketAddr) : list SocketAddr :=
  if is_empty resolvers then default_bootstrap else resolvers.

Section secure_clients.
Context `{DnsCodec} {W Conn Socket : Type}.
Context (net : DnsNet Conn W) (secure : SecureNet Conn Socket W) (formats : DohFormats).

Definition resolve_address (kind_name : rstr) (resolvers : list SocketAddr)
    (bootstrap_routing : OutboundRouting) (endpoint : Endpoint) : M W (UResult SocketAddr) :=
  match endpoint with
  | Static address => mret (Ok address)
  | Hostname host port =>
      let at_port := lit "'" ++ host ++ lit ":" ++ display_N port ++ lit "'" in
      found <<- lookup_host secure host port ;;
      match found with
      | Ok addrs => mret (ok_or (head addrs) (URE_Protocol (lit "no resolved address for " ++ kind_name
                                               ++ lit " hostname " ++ at_port)))
      | Err os_error =>
          mmap_err (fun bootstrap_error => URE_Protocol (lit "failed to resolve " ++ kind_name
              ++ lit " hostname " ++ at_port ++ lit " using OS resolver (" ++ os_error
              ++ lit ") and bootstrap resolvers (" ++ display_upstream_error bootstrap_error ++ lit ")"))
            (resolve_hostname_via_bootstrap net kind_name resolvers bootstrap_routing host port)
      end
  end.

Definition tls_config : M W (UResult unit) :=
  mmap_err (fun e => URE_Protocol (lit "TLS config error: " ++ e)) (client_config secure).

Record SecureClient : Type := {
  sc_endpoint : Endpoint;
  sc_server_name : rstr;
  sc_path : rstr;
  sc_auth_headers : option rstr;
  sc_bootstrap_resolvers : list SocketAddr;
  sc_client_cache : Cell W (option Conn);
  sc_routing : OutboundRouting
}.

(** The lookups of the three clients; those of DoT and DoH do not use the routing of the
    client for their bootstrap resolvers. *)
Definition dot_resolve_address (self : SecureClient) : M W (UResult SocketAddr) :=
  resolve_address (lit "DoT") (sc_bootstrap_resolvers self) no_routing (sc_endpoint self).
Definition doh_resolve_address (self : SecureClient) : M W (UResult SocketAddr) :=
  resolve_address (lit "DoH") (sc_bootstrap_resolvers self) no_routing (sc_endpoint self).
Definition doq_resolve_address (self : SecureClient) : M W (UResult SocketAddr) :=
  resolve_address (lit "DoQ") (sc_bootstrap_resolvers self) (sc_routing self) (sc_endpoint self).

(** *** DoT *)

Definition dot_connect (self : SecureClient) : M W (UResult Conn) :=
  address <?- dot_resolve_address self ;;
  (tls_config ?;;
   (mlift (map_err (fun e => URE_Protocol (lit "invalid server name '" ++ sc_server_name self
                                           ++ lit "': " ++ e))
             (server_name_try_from secure (sc_server_name self))) ?;;
    mmap_err URE_Protocol (tls_connect secure address (sc_server_name self) (sc_routing self)))).

Definition dot_exchange (question : Query) (conn : Conn) : M W (UResult Message) :=
  r <<- secure_query secure conn question ;; mret (reply_result r).

Definition resolve_dot (self : SecureClient) (query : bytes) : M W (UResult bytes) :=
  question <?- mlift (extract_question query) ;;
  cached_exchange (sc_client_cache self) (dot_exchange question) (dot_connect self).

Definition dns_tls (value : rstr) (resolvers : list SocketAddr) (routing : OutboundRouting)
    (cache : Cell W (option Conn)) : UResult (UpstreamResolver W) :=
  let? (endpoint, server_name) := dot_parse_endpoint value in
  Ok {| resolve := resolve_dot
          {| sc_endpoint := endpoint; sc_server_name := server_name; sc_path := [];
             sc_auth_headers := None; sc_bootstrap_resolvers := bootstrap_or_default resolvers;
             sc_client_cache := cache; sc_routing := routing |};
        label := lit "dot://" ++ server_name |}.

(** *** DoH *)

Definition doh_connect (self : SecureClient) : M W (UResult Conn) :=
  address <?- doh_resolve_address self ;;
  (tls_config ?;;
   mmap_err (fun e => URE_Protocol (lit "DoH connect error: " ++ e))
     (https_connect secure address (sc_server_name self) (sc_path self) (sc_auth_headers self)
        (sc_routing self))).

(** [send_query]: a new message with the question of the client. *)
Definition doh_exchange (question : Query) (conn : Conn) : M W (UResult Message) :=
  id <<- random_u16 secure ;;
  let msg := set_flags false true false NoError (message_new id MT_Query OC_Query) in
  r <<- send_message secure conn (add_query question msg) ;; mret (reply_result r).

Definition resolve_doh (self : SecureClient) (query : bytes) : M W (UResult bytes) :=
  question <?- mlift (extract_question query) ;;
  cached_exchange (sc_client_cache self) (doh_exchange question) (doh_connect self).

Definition dns_https (url : rstr) (auth : option ZoneSourceAuth) (resolvers : list SocketAddr)
    (routing : OutboundRouting) (cache : Cell W (option Conn)) : UResult (UpstreamResolver W) :=
  let? (endpoint, server_name, path) := parse_doh_url formats url in
  let? auth_headers := transpose (build_auth_headers formats <$> auth) in
  Ok {| resolve := resolve_doh
          {| sc_endpoint := endpoint; sc_server_name := server_name; sc_path := path;
             sc_auth_headers := auth_headers; sc_bootstrap_resolvers := bootstrap_or_default resolvers;
             sc_client_cache := cache; sc_routing := routing |};
        label := lit "doh://" ++ server_name ++ path |}.

(** *** DoQ *)

Definition build_quic_socket (server_addr : SocketAddr) (routing : OutboundRouting) :
    M W (UResult Socket) :=
  local_addr <?- mlift (match or_bind_address routing with
     | Some ip =>
         if negb (Bool.eqb (is_ipv4 ip) (is_ipv4 (sa_ip server_addr)))
         then protocol_error (lit "DoQ bind_address '" ++ display_ip ip
                ++ lit "' does not match upstream address family '" ++ display_socket_addr server_addr ++ lit "'")
         else Ok (socket_addr ip 0)
     | None => Ok (match sa_ip server_addr with
                   | IpV4 _ => socket_addr (IpV4 (0, 0, 0, 0)%N) 0
                   | IpV6 _ => socket_addr (IpV6 (replicate 8 0%N)) 0
                   end)
     end) ;;
  mmap_err URE_Io (quic_socket secure local_addr (or_fwmark routing)).

Definition doq_connect (self : SecureClient) : M W (UResult Conn) :=
  let routing := sc_routing self in
  let connect_error e := URE_Protocol (lit "DoQ connect error: " ++ e) in
  address <?- doq_resolve_address self ;;
  (tls_config ?;;
   match or_fwmark routing with
   | Some _ =>
       socket <?- build_quic_socket address routing ;;
       mmap_err connect_error (quic_connect_with secure socket address (sc_server_name self))
   | None =>
       mmap_err connect_error
         (quic_connect secure ((fun ip => socket_addr ip 0) <$> or_bind_address routing) address
            (sc_server_name self))
   end).

(** The identifier of a DoQ message is 0. *)
Definition build_doq_request (query : bytes) : UResult Message :=
  let? message := map_err URE_Protocol (message_from_vec query) in
  if is_empty (msg_queries message) then protocol_error (lit "query contains no questions")
  else Ok (set_id 0 message).

Definition doq_exchange (query : bytes) (conn : Conn) : M W (UResult Message) :=
  request <?- mlift (build_doq_request query) ;;
  (r <<- send_message secure conn request ;; mret (reply_result r)).

Definition resolve_doq (self : SecureClient) (query : bytes) : M W (UResult bytes) :=
  mlift (build_doq_request query) ?;;
  cached_exchange (sc_client_cache self) (doq_exchange query) (doq_connect self).

Definition dns_quic (value : rstr) (resolvers : list SocketAddr) (routing : OutboundRouting)
    (cache : Cell W (option Conn)) : UResult (UpstreamResolver W) :=
  let? (endpoint, server_name) := doq_parse_endpoint value in
  Ok {| resolve := resolve_doq
          {| sc_endpoint := endpoint; sc_server_name := server_name; sc_path := [];
             sc_auth_headers := None; sc_bootstrap_resolvers := bootstrap_or_default resolvers;
             sc_client_cache := cache; sc_routing := routing |};
        label := lit "doq://" ++ server_name |}.
End secure_clients.

(** ** The connection a client keeps *)

(** [m] keeps [P] true of the world, whatever else happens while it waits. *)
Definition keeps {W A} (P : W -> Prop) (m : M W A) : Prop := forall w, P w -> P (snd (m w)).

Section keeps.
Context {W : Type} (P : W -> Prop).

Lemma keeps_ret {A} (a : A) : keeps P (mret a).
Proof. by intros w Hw. Qed.
Lemma keeps_lift {A E} (r : result A E) : keeps P (mlift r).
Proof. by intros w Hw. Qed.

Lemma keeps_bind {A B} (m : M W A) (k : A -> M W B) :
  keeps P m -> (forall a, keeps P (k a)) -> keeps P (mbind m k).
Proof.
  intros Hm Hk w Hw. unfold mbind. specialize (Hm w Hw). destruct (m w) as [a w']. simpl in *. by apply Hk.
Qed.

Lemma keeps_tbind_cell {A B E} (m : M W (result A E)) (k : A -> M W (result B E)) :
  keeps P m -> (forall a, keeps P (k a)) -> keeps P (tbind m k).
Proof.
  intros Hm Hk w Hw. unfold tbind. specialize (Hm w Hw). destruct (m w) as [[a|e] w']; simpl in *; [|done].
  by apply Hk.
Qed.

Lemma keeps_map_err {A E F} (f : E -> F) (m : M W (result A E)) : keeps P m -> keeps P (mmap_err f m).
Proof. intros Hm w Hw. unfold mmap_err. specialize (Hm w Hw). by destruct (m w) as [[a|e] w']. Qed.

(** The same of the outer world of a computation with a local cell. *)
Definition of_outer {T} (tw : T * W) : Prop := P tw.2.

Lemma keeps_with_local {T A} (init : T) (m : M (T * W) A) :
  keeps of_outer m -> keeps P (with_local init m).
Proof.
  intros Hm w Hw. unfold with_local. specialize (Hm (init, w) Hw). by destruct (m (init, w)) as [a [t w']].
Qed.

Lemma keeps_lift_m {T A} (m : M W A) : keeps P m -> keeps (of_outer (T := T)) (lift_m m).
Proof. intros Hm [t w] Hw. unfold lift_m. simpl. specialize (Hm w Hw). by destruct (m w). Qed.
End keeps.

Create HintDb keeps.
#[export] Hint Resolve keeps_ret keeps_lift keeps_bind keeps_tbind_cell keeps_map_err keeps_lift_m : keeps.
#[export] Hint Extern 2 (keeps _ (match ?x with _ => _ end)) => destruct x : keeps.

Section kept_connections.
Context `{DnsCodec} {W Conn Socket : Type}.

(** Every operation of the network keeps [P]. While the code waits for one, other queries
    of the same client run and may replace the connection that is kept. *)
Record NetKeeps {V} (P : V -> Prop) (net : DnsNet Conn V) : Prop := {
  nk_udp : forall a r, keeps P (udp_connect net a r);
  nk_tcp : forall a r, keeps P (tcp_connect net a r);
  nk_query : forall conn q, keeps P (client_query net conn q)
}.

Record SecureKeeps (P : W -> Prop) (secure : SecureNet Conn Socket W) : Prop := {
  sk_lookup : forall h p, keeps P (lookup_host secure h p);
  sk_config : keeps P (client_config secure);
  sk_tls : forall a n r, keeps P (tls_connect secure a n r);
  sk_https : forall a n p h r, keeps P (https_connect secure a n p h r);
  sk_socket : forall a m, keeps P (quic_socket secure a m);
  sk_quic_with : forall s a n, keeps P (quic_connect_with secure s a n);
  sk_quic : forall b a n, keeps P (quic_connect secure b a n);
  sk_query : forall conn q, keeps P (secure_query secure conn q);
  sk_send : forall conn m, keeps P (send_message secure conn m);
  sk_random : keeps P (random_u16 secure)
}.

Lemma lift_net_keeps {T} (P : W -> Prop) net : NetKeeps P net ->
  NetKeeps (of_outer P (T := T)) (lift_net net).
Proof. intros []. constructor; simpl; auto with keeps. Qed.
#[local] Hint Resolve nk_udp nk_tcp nk_query sk_lookup sk_config sk_tls sk_https sk_socket sk_quic_with
  sk_quic sk_query sk_send sk_random : keeps.

(** *** The operations of the clients *)

Section operations.
Context (P : W -> Prop) (net : DnsNet Conn W) (secure : SecureNet Conn Socket W).
Context (Hnet : NetKeeps P net) (Hsecure : SecureKeeps P secure).

Lemma dns_exchange_keeps {V} (Q : V -> Prop) (n : DnsNet Conn V) q conn :
  NetKeeps Q n -> keeps Q (dns_exchange n q conn).
Proof. intros. unfold dns_exchange. eauto with keeps. Qed.

Lemma tcp_connect_keeps a r : keeps P (mmap_err URE_Protocol (tcp_connect net a r)).
Proof. eauto with keeps. Qed.

Lemma dot_exchange_keeps q conn : keeps P (dot_exchange secure q conn).
Proof. unfold dot_exchange. eauto with keeps. Qed.
Lemma doh_exchange_keeps q conn : keeps P (doh_exchange secure q conn).
Proof. unfold doh_exchange. eauto with keeps. Qed.
Lemma doq_exchange_keeps q conn : keeps P (doq_exchange secure q conn).
Proof. unfold doq_exchange. eauto with keeps. Qed.
Lemma tls_config_keeps : keeps P (tls_config secure).
Proof. unfold tls_config. eauto with keeps. Qed.

(** A client with a cache of its own does not touch the one of another client. *)
Lemma local_client_keeps self query :
  uc_tcp_cache self = local_cell ->
  keeps (of_outer P) (dns_resolve (lift_net net) self query).
Proof.
  intros Hself. pose proof (lift_net_keeps (T := option Conn) P net Hnet) as Hl.
  assert (Hlocal : forall v, keeps (of_outer P) (cwrite (local_cell (W := W)) (v : option Conn))) by by intros v [t w].
  assert (Hread : keeps (of_outer P) (cread (local_cell (S := option Conn) (W := W)))) by by intros [t w].
  unfold dns_resolve, resolve_udp, resolve_tcp, cached_exchange, fresh_exchange. rewrite Hself.
  pose proof (fun q conn => dns_exchange_keeps (of_outer P) (lift_net net) q conn Hl) as He.
  repeat match goal with
         | |- forall _, _ => intros ?
         | |- keeps _ (tbind _ _) => apply keeps_tbind_cell
         | |- keeps _ (mbind _ _) => apply keeps_bind
         | |- keeps _ (mmap_err _ _) => apply keeps_map_err
         | |- keeps _ (match ?x with _ => _ end) => destruct x
         | |- _ => solve [auto using nk_udp, nk_tcp with keeps]
         end.
Qed.

Lemma ask_each_keeps resolvers routing a_query aaaa_query port :
  keeps P (ask_each net resolvers routing a_query aaaa_query port).
Proof.
  induction resolvers as [|r rs IH]; simpl; [apply keeps_ret|]. apply keeps_bind; [|intros [|]; auto with keeps].
  apply keeps_with_local. unfold try_extract_ip_from_response. cbn [resolve dns_udp_tcp].
  pose proof (fun q => local_client_keeps {| uc_address := r; uc_tcp_cache := local_cell;
    uc_routing := routing |} q eq_refl) as Hq.
  eauto 10 with keeps.
Qed.

Lemma resolve_address_keeps name resolvers routing endpoint :
  keeps P (resolve_address net secure name resolvers routing endpoint).
Proof.
  destruct endpoint as [a|h p]; [apply keeps_ret|]. apply keeps_bind; [by apply sk_lookup|].
  intros [addrs|e]; [apply keeps_ret|]. apply keeps_map_err. unfold resolve_hostname_via_bootstrap.
  eauto 10 using ask_each_keeps with keeps.
Qed.

Lemma connects_keep self :
  keeps P (dot_connect net secure self) /\ keeps P (doh_connect net secure self)
  /\ keeps P (doq_connect net secure self).
Proof.
  split_and!; (apply keeps_tbind_cell; [apply resolve_address_keeps|]; intros address;
    apply keeps_tbind_cell; [apply tls_config_keeps|]; intros []).
  - eauto with keeps.
  - eauto with keeps.
  - case_match; [|eauto with keeps]. unfold build_quic_socket. eauto 10 with keeps.
Qed.

End operations.

(** *** What a client keeps and what it answers *)

Context (cache : Cell W (option Conn)) `{!CellLaws cache}.

(** The connection that is kept, if there is one, has answered a query. *)
Definition proven {Q} (exchange : Q -> Conn -> M W (UResult Message)) (w : W) : Prop :=
  forall conn, cget cache w = Some conn -> exists q w0 m w1, exchange q conn w0 = (Ok m, w1).

(** Where an outcome of a resolution of [q] comes from: an answer from the connection that
    was kept or from one opened for it, an error from a connection opened for it, from the
    attempt to open one or from an answer that cannot be encoded. *)
Definition accounted {Q} (exchange : Q -> Conn -> M W (UResult Message)) (connect : M W (UResult Conn))
    (q : Q) (w : W) (r : UResult bytes) : Prop :=
  match r with
  | Ok response =>
      exists conn m w1 w2, exchange q conn w1 = (Ok m, w2) /\ encode m = Ok response
        /\ (cget cache w = Some conn /\ w1 = w \/ exists w0, connect w0 = (Ok conn, w1))
  | Err e =>
      (exists w0 w1, connect w0 = (Err e, w1))
      \/ (exists conn w0 w1 w2, connect w0 = (Ok conn, w1) /\ exchange q conn w1 = (Err e, w2))
      \/ (exists conn m w1 w2, exchange q conn w1 = (Ok m, w2) /\ encode m = Err e)
  end.

Lemma proven_put {Q} (exchange : Q -> Conn -> M W (UResult Message)) q conn w0 m w1 w :
  exchange q conn w0 = (Ok m, w1) -> proven exchange (cput cache (Some conn) w).
Proof. intros Hex conn'. rewrite cget_cput. intros [= <-]. by exists q, w0, m, w1. Qed.

Lemma proven_evicted {Q} (exchange : Q -> Conn -> M W (UResult Message)) w :
  proven exchange (cput cache None w).
Proof. intros conn. by rewrite cget_cput. Qed.

Section exchanges.
Context {Q : Type} (exchange : Q -> Conn -> M W (UResult Message)) (connect : M W (UResult Conn)).
Context (Hconnect : keeps (proven exchange) connect).
Context (Hexchange : forall q conn, keeps (proven exchange) (exchange q conn)).

Lemma fresh_exchange_kept q w :
  let '(r, w') := fresh_exchange cache (exchange q) connect w in
  (proven exchange w -> proven exchange w')
  /\ forall w0, accounted exchange connect q w0 r.
Proof.
  unfold fresh_exchange, tbind, mbind, cwrite, mret. pose proof (Hconnect w) as Hc.
  destruct (connect w) as [[conn|e] w1] eqn:Hconn; simpl in *; [|split; [done|left; eauto]].
  pose proof (Hexchange q conn w1) as He. destruct (exchange q conn w1) as [[m|e] w2] eqn:Hex; simpl in *.
  - split; [intros _; by eapply proven_put|]. intros w0.
    destruct (encode m) as [response|e] eqn:Henc; simpl; [|right; right; eauto 10].
    exists conn, m, w1, w2. eauto.
  - split; [auto|]. intros w0. right. left. eauto 10.
Qed.

Lemma cached_exchange_kept q w :
  let '(r, w') := cached_exchange cache (exchange q) connect w in
  (proven exchange w -> proven exchange w') /\ accounted exchange connect q w r.
Proof.
  unfold cached_exchange, mbind, cread, cwrite. destruct (cget cache w) as [conn|] eqn:Hw.
  - pose proof (Hexchange q conn w) as He. destruct (exchange q conn w) as [[m|e] w1] eqn:Hex; simpl in *.
    + split; [done|]. destruct (encode m) as [response|e] eqn:Henc; simpl; [|right; right; eauto 10].
      exists conn, m, w, w1. eauto.
    + pose proof (fresh_exchange_kept q (cput cache None w1)) as Hf.
      destruct (fresh_exchange _ _ _ _) as [r w']. destruct Hf as [Hp Ha].
      split; [intros _; apply Hp, proven_evicted|done].
  - pose proof (fresh_exchange_kept q w) as Hf. destruct (fresh_exchange _ _ _ _) as [r w'].
    by destruct Hf as [Hp Ha].
Qed.
End exchanges.

(** A resolution [m] over kept connections: a query without a question is refused and
    nothing happens; otherwise the outcome is accounted for, and the connection kept
    afterwards has answered a query if the one kept before had. *)
Definition reuses {Q R} (question : UResult R) (exchange : Q -> Conn -> M W (UResult Message))
    (connect : M W (UResult Conn)) (asks : R -> Q) (m : M W (UResult bytes)) : Prop :=
  forall w, match question with
            | Err e => m w = (Err e, w)
            | Ok q => let '(r, w') := m w in
                      (proven exchange w -> proven exchange w') /\ accounted exchange connect (asks q) w r
            end.

Lemma cached_exchange_reuses {Q R} (question : UResult R) (exchange : Q -> Conn -> M W (UResult Message))
    connect (asks : R -> Q) :
  keeps (proven exchange) connect -> (forall q conn, keeps (proven exchange) (exchange q conn)) ->
  reuses question exchange connect asks
    (q <?- mlift question ;; cached_exchange cache (exchange (asks q)) connect).
Proof.
  intros Hc He w. unfold tbind, mlift, mret. destruct question as [q|e]; [|done].
  by apply cached_exchange_kept.
Qed.

(** C19. Connections are reused safely by the TCP, DoT, DoH and DoQ clients, also when
    queries of one client overlap.  Whatever other queries do to the connection that is kept
    while this one waits for the network, as long as they keep only connections that have
    answered, this one does too.  An answer is the encoding of a reply to this very question
    from the connection that was kept or from one opened for it.  A kept connection that no
    longer works never fails a query: an error is that of a connection opened for this query,
    of the attempt to open it or of the encoding.  A query without a question is refused and
    nothing happens. *)
Theorem kept_connection_answered (net : DnsNet Conn W) (secure : SecureNet Conn Socket W)
    (dns : DnsUdpTcpClient) (self : SecureClient) (query : bytes) :
  uc_tcp_cache dns = cache -> sc_client_cache self = cache ->
  (NetKeeps (proven (dns_exchange net)) net ->
   reuses (extract_question query) (dns_exchange net)
     (mmap_err URE_Protocol (tcp_connect net (uc_address dns) (uc_routing dns))) id (resolve_tcp net dns query))
  /\ (NetKeeps (proven (dot_exchange secure)) net -> SecureKeeps (proven (dot_exchange secure)) secure ->
      reuses (extract_question query) (dot_exchange secure) (dot_connect net secure self) id
        (resolve_dot net secure self query))
  /\ (NetKeeps (proven (doh_exchange secure)) net -> SecureKeeps (proven (doh_exchange secure)) secure ->
      reuses (extract_question query) (doh_exchange secure) (doh_connect net secure self) id
        (resolve_doh net secure self query))
  /\ (NetKeeps (proven (doq_exchange secure)) net -> SecureKeeps (proven (doq_exchange secure)) secure ->
      reuses (build_doq_request query) (doq_exchange secure) (doq_connect net secure self) (fun _ => query)
        (resolve_doq net secure self query)).
Proof.
  intros Hdns Hself. unfold resolve_tcp, resolve_dot, resolve_doh, resolve_doq. rewrite Hdns, Hself.
  split_and!; intros Hnet; [|intros Hsecure; destruct (connects_keep _ net secure Hnet Hsecure self) as (?&?&?)..].
  - apply (cached_exchange_reuses (extract_question query)); [by apply tcp_connect_keeps|].
    intros q conn. by apply dns_exchange_keeps.
  - apply (cached_exchange_reuses (extract_question query)); auto using dot_exchange_keeps.
  - apply (cached_exchange_reuses (extract_question query)); auto using doh_exchange_keeps.
  - apply (cached_exchange_reuses (build_doq_request query)); auto using doq_exchange_keeps.
Qed.
End kept_connections.

(** ** Complete answers *)

Section complete_answers.
Context `{CodecLaws} {W Conn : Type} (net : DnsNet Conn W).

(** [response] answers [question] over a TCP connection to the server: the kept one or a
    new one. *)
Definition over_tcp (self : DnsUdpTcpClient) (question : Query) (w : W) (response : bytes) : Prop :=
  exists conn m w1 w2, client_query net conn question w1 = (Answered m, w2)
    /\ message_to_vec m = Ok response
    /\ (cget (uc_tcp_cache self) w = Some conn
        \/ exists w0, tcp_connect net (uc_address self) (uc_routing self) w0 = (Ok conn, w1)).

Lemma fresh_exchange_ok (cache : Cell W (option Conn)) exchange connect w response w' :
  fresh_exchange cache exchange connect w = (Ok response, w') ->
  exists conn m w1 w2, connect w = (Ok conn, w1) /\ exchange conn w1 = (Ok m, w2) /\ encode m = Ok response.
Proof.
  unfold fresh_exchange, tbind, mbind, mret. destruct (connect w) as [[conn|e] w1]; [|done].
  destruct (exchange conn w1) as [[m|e] w2] eqn:Hex; [|done]. destruct (cwrite _ _ _) as [[] w3].
  intros [= He _]. by exists conn, m, w1, w2.
Qed.

Lemma cached_exchange_ok (cache : Cell W (option Conn)) exchange connect w response w' :
  cached_exchange cache exchange connect w = (Ok response, w') ->
  exists conn m w1 w2, exchange conn w1 = (Ok m, w2) /\ encode m = Ok response
    /\ (cget cache w = Some conn \/ exists w0, connect w0 = (Ok conn, w1)).
Proof.
  unfold cached_exchange, mbind, cread. destruct (cget cache w) as [conn|] eqn:Hw.
  - destruct (exchange conn w) as [[m|e] w1] eqn:Hex.
    + intros [= He _]. exists conn, m, w, w1. by auto.
    + destruct (cwrite cache None w1) as [[] w2].
      intros (c & m & w3 & w4 & Hc & Hm & Henc)%fresh_exchange_ok. exists c, m, w3, w4. eauto.
  - intros (c & m & w3 & w4 & Hc & Hm & Henc)%fresh_exchange_ok. exists c, m, w3, w4. eauto.
Qed.

Lemma dns_exchange_ok question conn w m w' :
  dns_exchange net question conn w = (Ok m, w') -> client_query net conn question w = (Answered m, w').
Proof.
  unfold dns_exchange, mbind, mret. destruct (client_query net conn question w) as [[m1|e|] w1]; simpl;
    intros; by simplify_eq.
Qed.

Lemma encode_ok m b : encode m = Ok b -> message_to_vec m = Ok b.
Proof. unfold encode. destruct (message_to_vec m); simpl; intros; by simplify_eq. Qed.

Lemma mmap_err_ok {A E F} (f : E -> F) (m : M W (result A E)) w a w' :
  mmap_err f m w = (Ok a, w') -> m w = (Ok a, w').
Proof. unfold mmap_err. destruct (m w) as [[x|e] w1]; simpl; intros; by simplify_eq. Qed.

Lemma resolve_tcp_ok self query question w response w' : extract_question query = Ok question ->
  resolve_tcp net self query w = (Ok response, w') -> over_tcp self question w response.
Proof.
  intros Hq. unfold resolve_tcp. rewrite Hq. unfold tbind, mlift, mret.
  intros (conn & m & w1 & w2 & Hex & Henc & Hconn)%cached_exchange_ok.
  exists conn, m, w1, w2. split_and!; [by apply dns_exchange_ok|by apply encode_ok|].
  destruct Hconn as [?|[w0 Hw0]]; [by left|right]. exists w0. by eapply mmap_err_ok.
Qed.

(** An answer of the DNS client is complete: it is the encoding of a reply to the
    first question of the query that either came over UDP and is not truncated, or came
    over TCP. *)
Theorem answers_are_complete (self : DnsUdpTcpClient) (query response : bytes) (w w' : W) :
  dns_resolve net self query w = (Ok response, w') ->
  exists question, extract_question query = Ok question
    /\ ((exists conn m w1 w2, client_query net conn question w1 = (Answered m, w2)
           /\ message_to_vec m = Ok response /\ msg_truncated m = false)
        \/ exists w1, over_tcp self question w1 response).
Proof.
  unfold dns_resolve, resolve_udp, tbind, mlift, mret.
  destruct (extract_question query) as [question|e] eqn:Hq; [|done].
  destruct (mmap_err _ _ w) as [[conn|e] w1]; [|done].
  destruct (dns_exchange net question conn w1) as [[m|e] w2] eqn:Hex; [|done].
  apply dns_exchange_ok in Hex. destruct (encode m) as [b|e] eqn:Hb; [|done].
  apply encode_ok in Hb. rewrite (wire_decode_encode m b Hb). cbn [map_err].
  destruct (msg_truncated m) eqn:Ht.
  - intros Htcp. exists question. split; [done|]. right. exists w2. by eapply resolve_tcp_ok.
  - intros [= <- <-]. exists question. split; [done|]. left. by exists conn, m, w1, w2.
Qed.
End complete_answers.

(** ** Endpoint parsing *)

Definition host_char (c : rchar) : bool := is_ascii_alphanumeric c || (c =? ch "-")%N.

Record valid_label (l : rstr) : Prop := {
  vl_nonempty : l <> [];
  vl_length : str_len l <= 63;
  vl_first : starts_with (lit "-") l = false;
  vl_last : ends_with (lit "-") l = false;
  vl_chars : Forall (fun c => host_char c = true) l
}.

(** A host name: at most 253 characters in labels of letters, digits and inner hyphens. *)
Record valid_hostname (h : rstr) : Prop := {
  vh_nonempty : h <> [];
  vh_length : str_len h <= 253;
  vh_labels : Forall valid_label (split (ch ".") h)
}.

Section endpoint_parsing.
Context (kind : EndpointKind).

Lemma validate_label_iff l : validate_label kind l = Ok tt <-> valid_label l.
Proof.
  unfold validate_label, protocol_error. split.
  - destruct (is_empty l) eqn:He; [done|]. destruct (Nat.ltb_spec 63 (str_len l)); [done|]. cbn [orb].
    destruct (starts_with _ l) eqn:Hs; [done|]. destruct (ends_with _ l) eqn:Hd; [done|]. cbn [orb].
    destruct (forallb _ l) eqn:Hc; [|done]. intros _. constructor; try done; [by destruct l|].
    by rewrite forallb_forall, <- List.Forall_forall in Hc.
  - intros [Hne Hlen Hs Hd Hc]. destruct l as [|c l]; [done|]. rewrite Hs, Hd.
    rewrite (proj2 (Nat.ltb_ge 63 _) Hlen). cbn [is_empty orb].
    change (fun c => is_ascii_alphanumeric c || (c =? ch "-")%N) with host_char.
    replace (forallb host_char (c :: l)) with true; [done|]. symmetry.
    by rewrite forallb_forall, <- List.Forall_forall.
Qed.

Lemma validate_hostname_iff h : validate_hostname kind h = Ok tt <-> valid_hostname h.
Proof.
  assert (Hl : forall ls, validate_labels kind ls = Ok tt <-> Forall valid_label ls).
  { induction ls as [|l ls IH]; simpl; [by split|]. rewrite Forall_cons, <- validate_label_iff, <- IH.
    destruct (validate_label kind l) as [[]|]; [tauto|]. split; [done|]. by intros [? _]. }
  unfold validate_hostname, protocol_error. split.
  - destruct (is_empty h) eqn:He; [done|]. destruct (Nat.ltb_spec 253 (str_len h)); [done|].
    cbn [orb]. intros Hv. constructor; [by destruct h|lia|by apply Hl].
  - intros [Hne Hlen Hv]. destruct h as [|c h]; [done|].
    rewrite (proj2 (Nat.ltb_ge 253 _) Hlen). cbn [is_empty orb]. by apply Hl.
Qed.

Lemma validate_hostname_ok h u : validate_hostname kind h = Ok u -> valid_hostname h.
Proof. destruct u. by rewrite validate_hostname_iff. Qed.

(** *** Host names as text *)

Lemma hostname_chars h : valid_hostname h -> Forall (fun c => host_char c = true \/ c = ch ".") h.
Proof.
  intros [_ _ Hl]. rewrite <- (join_split (ch ".") h). apply Forall_join; [by right|].
  eapply Forall_impl; [exact Hl|]. intros l Hv. eapply Forall_impl; [apply Hv|]. by left.
Qed.

Lemma hostname_no_colon h : valid_hostname h -> ch ":" ∉ h.
Proof.
  intros Hv%hostname_chars Hin. rewrite Forall_forall in Hv.
  by destruct (Hv _ Hin) as [?|?].
Qed.

Lemma hostname_last h : valid_hostname h -> exists q d, h = q ++ [d] /\ d <> ch ".".
Proof.
  intros [_ _ Hl]. apply split_snoc. intros Hin. rewrite Forall_forall in Hl. by destruct (Hl _ Hin).
Qed.

Lemma hostname_no_trailing_dot h : valid_hostname h -> host_without_trailing_dot h = h.
Proof.
  intros (q & d & -> & Hd)%hostname_last. apply trim_end_by_id_last. by apply N.eqb_neq.
Qed.

Lemma host_char_not_whitespace c : host_char c = true \/ c = ch "." -> is_whitespace c = false.
Proof.
  intros [Hc| ->]; [|done]. revert Hc.
  unfold host_char, is_ascii_alphanumeric, is_ascii_digit, is_ascii_uppercase, is_ascii_lowercase,
    is_whitespace, in_range. change (ch "-") with 45%N. lia.
Qed.

Lemma hostname_trim_nonempty h t : valid_hostname h -> is_empty (trim (h ++ t)) = false.
Proof.
  intros Hv. pose proof (hostname_chars h Hv) as Hc. destruct h as [|c h]; [by destruct Hv|].
  apply Forall_cons in Hc as [Hc%host_char_not_whitespace _].
  unfold trim, trim_start_by. simpl. rewrite Hc.
  destruct (trim_end_by_prefix is_whitespace (c :: h ++ t)) as (r & Hr & Hall).
  destruct (trim_end_by is_whitespace (c :: h ++ t)); [|done]. simpl in Hr. subst r.
  apply Forall_cons in Hall as [Hw _]. by rewrite Hc in Hw.
Qed.

Lemma rsplit_once_app c a b : c ∉ b -> rsplit_once c (a ++ c :: b) = Some (a, b).
Proof.
  intros Hb. unfold rsplit_once. rewrite reverse_app, reverse_cons, <- app_assoc. simpl.
  rewrite split_once_app by set_solver. by rewrite !reverse_involutive.
Qed.

Lemma rsplit_once_Some c s a b : rsplit_once c s = Some (a, b) -> s = a ++ c :: b.
Proof.
  unfold rsplit_once. destruct (split_once c (reverse s)) as [[x y]|] eqn:Hs; [|done].
  intros [= <- <-]. apply split_once_Some in Hs as [Hs _].
  rewrite <- (reverse_involutive s), Hs, reverse_app, reverse_cons. by rewrite <- app_assoc.
Qed.

Lemma rsplit_once_None c s : c ∉ s -> rsplit_once c s = None.
Proof. intros Hs. unfold rsplit_once. by rewrite split_once_None by set_solver. Qed.

Lemma contains_char_false c s : c ∉ s -> contains_char c s = false.
Proof.
  intros Hs. apply not_true_is_false. unfold contains_char. rewrite existsb_exists.
  intros (x & Hx%list_elem_of_In & ->%N.eqb_eq). done.
Qed.

Lemma display_N_no_colon n : ch ":" ∉ display_N n.
Proof.
  intros Hin. pose proof (display_N_digits n) as Hd. rewrite Forall_forall in Hd. by specialize (Hd _ Hin).
Qed.

Lemma parse_host_ok value found : parse_hostname_with_optional_port kind value = Ok found ->
  exists h p, found = Some (h, p) /\ valid_hostname h /\ (p <= N.max u16_max (ek_default_port kind))%N.
Proof.
  unfold parse_hostname_with_optional_port. cbv zeta.
  assert (Hdefault : forall found, (let? _ := validate_hostname kind (host_without_trailing_dot value) in
      Ok (Some (host_without_trailing_dot value, ek_default_port kind))) = Ok found ->
    exists h p, found = Some (h, p) /\ valid_hostname h /\ (p <= N.max u16_max (ek_default_port kind))%N).
  { intros f. destruct (validate_hostname _ _) as [u|] eqn:Hv; [|done]. intros [= <-].
    apply validate_hostname_ok in Hv. eexists _, _. split_and!; [done..|]. lia. }
  destruct (rsplit_once _ value) as [[host port_str]|]; [|apply Hdefault].
  destruct (contains_char _ host); cbn [negb]; [apply Hdefault|].
  destruct (validate_hostname kind (host_without_trailing_dot host)) as [u|] eqn:Hv; [|intros [=]]. apply validate_hostname_ok in Hv.
  destruct (parse_u16 port_str) as [port|] eqn:Hp; [|intros [=]]. cbn [ok_or]. intros Hf. simplify_eq. eexists _, _.
  split_and!; [done..|]. apply parse_unsigned_range in Hp. etrans; [exact Hp|apply N.le_max_l].
Qed.

Lemma parse_host_port h p : valid_hostname h -> (p <= u16_max)%N ->
  parse_hostname_with_optional_port kind (h ++ ch ":" :: display_N p) = Ok (Some (h, p)).
Proof.
  intros Hv Hp. unfold parse_hostname_with_optional_port. cbv zeta.
  rewrite rsplit_once_app by apply display_N_no_colon.
  rewrite contains_char_false by by apply hostname_no_colon. cbn [negb].
  rewrite hostname_no_trailing_dot, (proj2 (validate_hostname_iff h) Hv) by done.
  unfold parse_u16. by rewrite parse_display_N.
Qed.

Lemma parse_host_default h : valid_hostname h ->
  parse_hostname_with_optional_port kind h = Ok (Some (h, ek_default_port kind)).
Proof.
  intros Hv. unfold parse_hostname_with_optional_port. cbv zeta.
  rewrite rsplit_once_None by by apply hostname_no_colon.
  by rewrite hostname_no_trailing_dot, (proj2 (validate_hostname_iff h) Hv) by done.
Qed.

(** The text names a host, not an address. *)
Definition names_host (text : rstr) : Prop := parse_socket_addr text = None /\ parse_ip text = None.

Lemma parse_endpoint_host text h p : names_host text -> is_empty (trim text) = false ->
  parse_hostname_with_optional_port kind text = Ok (Some (h, p)) -> valid_hostname h ->
  parse_endpoint kind (ek_scheme kind ++ text) = Ok (Hostname h p, h).
Proof.
  intros [Hsock Hip] Hne Hh Hv. unfold parse_endpoint. rewrite strip_prefix_app. cbn [from_option id].
  rewrite Hne, Hsock, Hip, Hh. by rewrite hostname_no_trailing_dot.
Qed.

(** C40. What a DoT or DoQ endpoint is: a parsed endpoint is a socket address whose
    certificate must name its IP address, or a well-formed host name with a 16-bit port
    whose certificate must name that host; and every well-formed host name, with or
    without a port, is parsed back to itself, the port defaulting to the protocol's. *)
Theorem endpoint_parsing_exact (value h : rstr) (p : N) (endpoint : Endpoint) (server_name : rstr) :
  (ek_default_port kind <= u16_max)%N ->
  (parse_endpoint kind value = Ok (endpoint, server_name) ->
     match endpoint with
     | Static address => server_name = display_ip (sa_ip address)
     | Hostname host port => valid_hostname host /\ server_name = host /\ (port <= u16_max)%N
     end)
  /\ (valid_hostname h -> (p <= u16_max)%N ->
      (names_host (h ++ ch ":" :: display_N p) ->
         parse_endpoint kind (ek_scheme kind ++ h ++ ch ":" :: display_N p) = Ok (Hostname h p, h))
      /\ (names_host h ->
         parse_endpoint kind (ek_scheme kind ++ h) = Ok (Hostname h (ek_default_port kind), h))).
Proof.
  intros Hdef. split.
  - unfold parse_endpoint. cbv zeta. destruct (is_empty _); [done|].
    destruct (parse_socket_addr _) as [a|]; [by intros [= <- <-]|].
    destruct (parse_ip _) as [ip|]; [by intros [= <- <-]|].
    destruct (parse_hostname_with_optional_port _ _) as [found|] eqn:Hf; [|done].
    apply parse_host_ok in Hf as (host & port & -> & Hv & Hport). intros [= <- <-].
    rewrite hostname_no_trailing_dot by done. split_and!; [done..|]. lia.
  - intros Hv Hp. split; intros Hnames.
    + apply parse_endpoint_host; [done|by apply hostname_trim_nonempty|by apply parse_host_port|done].
    + apply parse_endpoint_host; [done| |by apply parse_host_default|done].
      rewrite <- (app_nil_r h). by apply hostname_trim_nonempty.
Qed.
End endpoint_parsing.

(** The brackets of an IPv6 literal are part of [Url::host_str]. *)
Lemma bracketed_not_ip rest : parse_ip (ch "[" :: rest) = None.
Proof. reflexivity. Qed.

(** A DoH URL with an IPv6 literal, whose host is in brackets, is taken for a host
    name, brackets included, and never for the address: the client then looks the
    bracketed text up instead of connecting. *)
Theorem doh_ipv6_literal_is_a_hostname (formats : DohFormats) (url_str rest : rstr)
    (url : up_url (df_urls formats)) :
  up_parse (df_urls formats) url_str = Ok url -> up_scheme (df_urls formats) url = lit "https" ->
  up_host_str (df_urls formats) url = Some (ch "[" :: rest) ->
  exists path, parse_doh_url formats url_str
    = Ok (Hostname (ch "[" :: rest) (default DOH_DEFAULT_PORT (df_port formats url)), ch "[" :: rest, path).
Proof.
  intros Hp Hs Hh. unfold parse_doh_url. cbv zeta. rewrite Hp. cbn [map_err]. rewrite Hs, Hh.
  rewrite str_eqb_refl. cbn [negb ok_or]. rewrite bracketed_not_ip. by eexists.
Qed.

(** ** Witnesses *)

Module ClientExamples.
#[local] Existing Instance text_names.

Definition question : Query := {| q_name := lit "example.com."; q_type := RT_A; q_class := 1 |}.
Definition query_message : Message := add_query question (message_new 0 MT_Query OC_Query).
Definition full : Message :=
  add_answer {| rec_name := lit "example.com."; rec_ttl := 60; rec_data := RD_A (192, 0, 2, 1)%N |}
    (add_query question (message_new 0 MT_Response OC_Query)).
Definition truncated : Message :=
  {| msg_id := 0; msg_type := MT_Response; msg_op_code := OC_Query; msg_authoritative := false;
     msg_truncated := true; msg_recursion_desired := true; msg_recursion_available := true;
     msg_authentic_data := false; msg_checking_disabled := false; msg_response_code := NoError;
     msg_queries := [question]; msg_answers := []; msg_authorities := []; msg_additionals := [];
     msg_edns := None; msg_signature := [] |}.
#[local] Instance codec : DnsCodec := ex_codec [query_message; full; truncated].
#[local] Instance codec_laws : CodecLaws := ex_codec_laws [query_message; full; truncated].

(** Connection 0 is over UDP and truncates, 1 is over TCP, 2 is TLS; any other is dead.  The
    world is the connection that is kept. *)
Definition World : Type := option nat.
Definition kept : Cell World (option nat) := {| cget := id; cput := fun c _ => c |}.
#[local] Instance kept_laws : CellLaws kept.
Proof. by constructor. Qed.

Definition reply (conn : nat) : Reply :=
  match conn with 0 => Answered truncated | 1 | 2 => Answered full | _ => Failed (lit "closed") end.
Definition net : DnsNet nat World :=
  {| udp_connect _ _ := mret (Ok 0); tcp_connect _ _ := mret (Ok 1);
     client_query conn _ := mret (reply conn) |}.
Definition secure : SecureNet nat unit World :=
  {| lookup_host _ _ := mret (Err (lit "offline")); client_config := mret (Ok tt);
     server_name_try_from _ := Ok tt; tls_connect _ _ _ := mret (Ok 2);
     https_connect _ _ _ _ _ := mret (Ok 2); quic_socket _ _ := mret (Ok tt);
     quic_connect_with _ _ _ := mret (Ok 2); quic_connect _ _ _ := mret (Ok 2);
     secure_query conn _ := mret (reply conn); send_message conn _ := mret (reply conn);
     random_u16 := mret 7%N |}.

Definition server : SocketAddr := socket_addr (IpV4 (192, 0, 2, 53)%N) 53.
Definition dns_client : DnsUdpTcpClient :=
  {| uc_address := server; uc_tcp_cache := kept; uc_routing := no_routing |}.
Definition dot_client : SecureClient :=
  {| sc_endpoint := Static server; sc_server_name := lit "192.0.2.53"; sc_path := [];
     sc_auth_headers := None; sc_bootstrap_resolvers := default_bootstrap; sc_client_cache := kept;
     sc_routing := no_routing |}.
Definition query : bytes := [0; 0; 0; 0]%N.

(** A network on which, while a query on a dead connection waits, another query of the
    client opens connection 1 and keeps it. *)
Definition busy : DnsNet nat World :=
  {| udp_connect _ _ := mret (Ok 0); tcp_connect _ _ := mret (Ok 1);
     client_query conn _ := fun w => (reply conn, if conn =? 9 then Some 1 else w) |}.

Lemma busy_keeps : NetKeeps (proven kept (dns_exchange busy)) busy.
Proof.
  constructor; [by intros ?? w Hw..|]. intros conn q w Hw. cbn. case_match; [|done].
  intros conn' [= <-]. exists q, None, full, None. reflexivity.
Qed.
Lemma net_keeps : NetKeeps (proven kept (dot_exchange secure)) net.
Proof. constructor; intros; by intros w Hw. Qed.
Lemma secure_keeps : SecureKeeps (proven kept (dot_exchange secure)) secure.
Proof. constructor; intros; by intros w Hw. Qed.

Lemma kept_connection_answered_witness :
  resolve_tcp busy dns_client query (Some 9) = (encode full, Some 1)
  /\ reuses kept (extract_question query) (dns_exchange busy)
       (mmap_err URE_Protocol (tcp_connect busy server no_routing)) id (resolve_tcp busy dns_client query)
  /\ reuses kept (extract_question query) (dot_exchange secure) (dot_connect net secure dot_client) id
       (resolve_dot net secure dot_client query).
Proof.
  split; [reflexivity|]. split.
  - apply (kept_connection_answered kept busy secure dns_client dot_client query eq_refl eq_refl), busy_keeps.
  - apply (kept_connection_answered kept net secure dns_client dot_client query eq_refl eq_refl);
      [exact net_keeps|exact secure_keeps].
Defined.

Lemma answers_are_complete_witness :
  exists q, extract_question query = Ok q
    /\ ((exists conn m w1 w2, client_query net conn q w1 = (Answered m, w2)
           /\ message_to_vec m = Ok [0; 0; 0; 1]%N /\ msg_truncated m = false)
        \/ exists w1, over_tcp net dns_client q w1 [0; 0; 0; 1]%N).
Proof.
  exact (answers_are_complete net dns_client query [0; 0; 0; 1]%N None (Some 1) eq_refl).
Defined.

Lemma dns_example_valid : valid_hostname (lit "dns.example").
Proof. apply (validate_hostname_iff dot_endpoint). reflexivity. Qed.

Lemma endpoint_parsing_exact_witness :
  parse_endpoint dot_endpoint (lit "tls://dns.example:8853") = Ok (Hostname (lit "dns.example") 8853, lit "dns.example")
  /\ parse_endpoint doq_endpoint (lit "quic://dns.example") = Ok (Hostname (lit "dns.example") 8853, lit "dns.example").
Proof.
  split.
  - apply (endpoint_parsing_exact dot_endpoint [] (lit "dns.example") 8853 (Static server) [] ltac:(done));
      [exact dns_example_valid|done|done].
  - apply (endpoint_parsing_exact doq_endpoint [] (lit "dns.example") 8853 (Static server) [] ltac:(done));
      [exact dns_example_valid|done|done].
Defined.

Definition formats : DohFormats :=
  {| df_urls := {| up_url := rstr; up_parse := Ok; up_scheme := fun _ => lit "https";
                   up_host_str := fun _ => Some (lit "[2606:4700:4700::1111]") |};
     df_port := fun _ => None; df_path := fun _ => lit "/dns-query";
     df_header_value := fun _ => Ok tt; df_base64 := id |}.

Lemma doh_ipv6_literal_is_a_hostname_witness : exists path,
  parse_doh_url formats (lit "https://[2606:4700:4700::1111]/dns-query")
  = Ok (Hostname (lit "[2606:4700:4700::1111]") 443, lit "[2606:4700:4700::1111]", path).
Proof.
  exact (doh_ipv6_literal_is_a_hostname formats (lit "https://[2606:4700:4700::1111]/dns-query")
           (lit "2606:4700:4700::1111]") (lit "https://[2606:4700:4700::1111]/dns-query")
           eq_refl eq_refl eq_refl).
Defined.
End ClientExamples.
