(* ===== verification/Recursive.v ===== *)
(** * Recursive resolver

    [frameworks/upstream/recursive_resolver.rs]: the root hints and trust anchors it starts
    from, the families of name servers it may ask, and the answer it makes of a recursion.
    The recursion itself and the DNSSEC validation are hickory's ([RecursorApi]). *)

From S2P Require Import Prelude RustStr RustNet Outside Hickory ExampleCodec Upstream ConfigBootstrap UpstreamClients.

(** ** Root hints *)

Definition DEFAULT_ROOT_HINTS_PATHS : list rstr :=
  [lit "/usr/share/dns/root.hints"; lit "/usr/share/dns-root-data/root.hints";
   lit "/var/named/root.hints"].
Definition DEFAULT_ROOT_KEY_PATHS : list rstr :=
  [lit "/usr/share/dns/root.key"; lit "/usr/share/dns-root-data/root.key"].

Definition ROOT_HINTS_V4 : list Ipv4Addr :=
  [(198, 41, 0, 4); (199, 9, 14, 201); (192, 33, 4, 12); (199, 7, 91, 13); (192, 203, 230, 10);
   (192, 5, 5, 241); (192, 112, 36, 4); (198, 97, 190, 53); (192, 36, 148, 17); (192, 58, 128, 30);
   (193, 0, 14, 129); (199, 7, 83, 42); (202, 12, 27, 33)]%N.

Definition ROOT_HINTS_V6 : list Ipv6Addr :=
  [[0x2001; 0x503; 0xba3e; 0; 0; 0; 0x2; 0x30]; [0x2001; 0x500; 0x200; 0; 0; 0; 0; 0xb];
   [0x2001; 0x500; 0x2; 0; 0; 0; 0; 0xc]; [0x2001; 0x500; 0x2d; 0; 0; 0; 0; 0xd];
   [0x2001; 0x500; 0xa8; 0; 0; 0; 0; 0xe]; [0x2001; 0x500; 0x2f; 0; 0; 0; 0; 0xf];
   [0x2001; 0x500; 0x12; 0; 0; 0; 0; 0xd0d]; [0x2001; 0x500; 0x1; 0; 0; 0; 0; 0x53];
   [0x2001; 0x7fe; 0; 0; 0; 0; 0; 0x53]; [0x2001; 0x503; 0xc27; 0; 0; 0; 0x2; 0x30];
   [0x2001; 0x7fd; 0; 0; 0; 0; 0; 1]; [0x2001; 0x500; 0x9f; 0; 0; 0; 0; 0x42];
   [0x2001; 0xdc3; 0; 0; 0; 0; 0; 0x35]]%N.

(** One line of a hints file. *)
Definition hint_of_line (line : rstr) : option SocketAddr :=
  let line := trim line in
  if is_empty line || starts_with (lit ";") line then None
  else
    let hint rtype rdata :=
      if str_eqb rtype (lit "A") then (fun ip => socket_addr (IpV4 ip) 53) <$> parse_ipv4 rdata
      else if str_eqb rtype (lit "AAAA") then (fun ip => socket_addr (IpV6 ip) 53) <$> parse_ipv6 rdata
      else None in
    match split_whitespace line with
    | [_; _; rtype; rdata] => hint rtype rdata
    | [_; _; _; rtype; rdata] => hint rtype rdata
    | _ => None
    end.

Definition parse_root_hints (content : rstr) : list SocketAddr := omap hint_of_line (lines content).

Definition builtin_root_hints : list SocketAddr :=
  ((fun ip => socket_addr (IpV4 ip) 53) <$> ROOT_HINTS_V4)
  ++ ((fun ip => socket_addr (IpV6 ip) 53) <$> ROOT_HINTS_V6).

Section files.
Context {W : Type} (outside : Outside W).

(** The first of the well-known files that yields hints. *)
Fixpoint probe_hints (paths : list rstr) : M W (list SocketAddr) :=
  match paths with
  | [] => mret builtin_root_hints
  | path :: rest =>
      content <<- fs_read_to_string outside path ;;
      match content with
      | Some content =>
          let addrs := parse_root_hints content in
          if negb (is_empty addrs) then mret addrs else probe_hints rest
      | None => probe_hints rest
      end
  end.

Definition load_root_hints (root_hints_path : option rstr) : M W (list SocketAddr) :=
  match root_hints_path with
  | Some path =>
      content <<- fs_read_to_string outside path ;;
      match content with
      | Some content =>
          let addrs := parse_root_hints content in
          mret (if is_empty addrs then builtin_root_hints else addrs)
      | None => mret builtin_root_hints
      end
  | None => probe_hints DEFAULT_ROOT_HINTS_PATHS
  end.

(** *** Trust anchors

    [read_anchors] is [TrustAnchors::from_file]; [no_anchors] is [is_empty]. *)
Context {TrustAnchors : Type} (read_anchors : rstr -> M W (option TrustAnchors))
        (no_anchors : TrustAnchors -> bool).

Fixpoint probe_keys (paths : list rstr) : M W (option TrustAnchors) :=
  match paths with
  | [] => mret None
  | path :: rest =>
      found <<- read_anchors path ;;
      match found with
      | Some anchors => if negb (no_anchors anchors) then mret (Some anchors) else probe_keys rest
      | None => probe_keys rest
      end
  end.

Definition load_root_key (root_key_path : option rstr) : M W (option TrustAnchors) :=
  match root_key_path with
  | Some path =>
      found <<- read_anchors path ;;
      mret (match found with
            | Some anchors => if no_anchors anchors then None else Some anchors
            | None => None
            end)
  | None => probe_keys DEFAULT_ROOT_KEY_PATHS
  end.
End files.

(** ** The resolver *)

(** An address family as [deny_server] holds it: [0.0.0.0/0] or [::/0]. *)
Inductive DenyNet : Type := AllIpv4 | AllIpv6.

Inductive DnssecPolicy (TrustAnchors : Type) : Type :=
| SecurityUnaware
| ValidateWithStaticKey (trust_anchor : option TrustAnchors).
Arguments SecurityUnaware {_}.
Arguments ValidateWithStaticKey {_} _.

Definition family_allows (family : NameserverIpFamily) (ip : IpAddr) : bool :=
  match family with
  | Both => true
  | Ipv4Only => is_ipv4 ip
  | Ipv6Only => is_ipv6 ip
  end.

Definition deny_nets (family : NameserverIpFamily) : list DenyNet :=
  match family with
  | Both => []
  | Ipv4Only => [AllIpv6]
  | Ipv6Only => [AllIpv4]
  end.

(** The parts of an EDNS record the code reads, and the record it builds: the DO bit, the
    payload size, version 0. *)
Class EdnsView : Type := {
  edns_dnssec_ok : bytes -> bool;
  edns_max_payload : bytes -> N;
  edns_build : bool -> N -> bytes
}.

Section recursor.
Context `{DnsCodec}.

(** The records of a negative answer. *)
Record AuthorityData : Type := {
  ad_soa : option DnsRecord; ad_authorities : option (list DnsRecord)
}.

Record RecursorError : Type := {
  re_nx_domain : bool; re_no_records_found : bool; re_negative : option AuthorityData;
  re_display : rstr
}.

Record RecursorApi (TrustAnchors W : Type) : Type := {
  Recursor : Type;
  recursor_new : list IpAddr -> DnssecPolicy TrustAnchors -> N -> list DenyNet -> OutboundRouting ->
                 result Recursor rstr;
  recursor_resolve : Recursor -> Query -> bool -> M W (result Message RecursorError)
}.
End recursor.
Arguments Recursor {_ TrustAnchors W} _.
Arguments recursor_new {_ TrustAnchors W} _ _ _ _ _ _.
Arguments recursor_resolve {_ TrustAnchors W} _ _ _ _.

Section recursive_resolver.
Context `{DnsCodec} `{EdnsView} {W TrustAnchors : Type} (api : RecursorApi TrustAnchors W).

Definition set_edns (edns : option bytes) (m : Message) : Message :=
  {| msg_id := msg_id m; msg_type := msg_type m; msg_op_code := msg_op_code m;
     msg_authoritative := msg_authoritative m; msg_truncated := msg_truncated m;
     msg_recursion_desired := msg_recursion_desired m;
     msg_recursion_available := msg_recursion_available m;
     msg_authentic_data := msg_authentic_data m; msg_checking_disabled := msg_checking_disabled m;
     msg_response_code := msg_response_code m; msg_queries := msg_queries m;
     msg_answers := msg_answers m; msg_authorities := msg_authorities m;
     msg_additionals := msg_additionals m; msg_edns := edns; msg_signature := msg_signature m |}.

(** [with_routing]: [None] where the constructor of hickory refuses and [expect] panics. *)
Definition with_routing (root_hints : list SocketAddr) (max_hops : N) (family : NameserverIpFamily)
    (dnssec : bool) (trust_anchor : option TrustAnchors) (routing : OutboundRouting) :
    option (Recursor api) :=
  let filtered_ips := filter (fun ip => family_allows family ip = true) (sa_ip <$> root_hints) in
  let policy := if dnssec then ValidateWithStaticKey trust_anchor else SecurityUnaware in
  match recursor_new api filtered_ips policy max_hops (deny_nets family) routing with
  | Ok recursor => Some recursor
  | Err _ => None
  end.

Definition do_bit (msg : Message) : bool := default false (edns_dnssec_ok <$> msg_edns msg).

(** An EDNS record is echoed when the client sent one. *)
Definition echo_edns (msg response : Message) : Message :=
  match msg_edns msg with
  | Some client_edns =>
      set_edns (Some (edns_build (do_bit msg) (N.max (edns_max_payload client_edns) 512))) response
  | None => response
  end.

Definition adjust_response (msg response : Message) : Message :=
  let response := set_id (msg_id msg) response in
  let response := set_flags (msg_authoritative response) true true (msg_response_code response) response in
  let response := if is_empty (msg_queries response)
                  then match first_query msg with Some q => add_query q response | None => response end
                  else response in
  echo_edns msg response.

Definition negative_response (msg : Message) (e : RecursorError) : Message :=
  let response := message_new (msg_id msg) MT_Response OC_Query in
  let response := set_flags false true true NoError response in
  let response := match first_query msg with Some q => add_query q response | None => response end in
  let response := set_flags false true true (if re_nx_domain e then NXDomain else NoError) response in
  let response := echo_edns msg response in
  match re_negative e with
  | Some auth_data =>
      let response := match ad_soa auth_data with
                      | Some soa => add_authority soa response
                      | None => response
                      end in
      foldl (fun m r => add_authority r m) response (default [] (ad_authorities auth_data))
  | None => response
  end.

Definition recursive_resolve (recursor : Recursor api) (query : bytes) : M W (UResult bytes) :=
  msg <?- mlift (map_err URE_Protocol (message_from_vec query)) ;;
  (question <?- mlift (ok_or (first_query msg) (URE_Protocol (lit "query contains no questions"))) ;;
   (r <<- recursor_resolve api recursor
            {| q_name := q_name question; q_type := q_type question; q_class := 1 |} (do_bit msg) ;;
    mret (match r with
          | Ok response => encode (adjust_response msg response)
          | Err e =>
              if re_nx_domain e || re_no_records_found e then encode (negative_response msg e)
              else Err (URE_Protocol (re_display e))
          end))).

Definition recursive (recursor : Recursor api) : UpstreamResolver W :=
  {| resolve := recursive_resolve recursor; label := lit "recursive" |}.
End recursive_resolver.

(** ** Where the recursion starts *)

Section hints.
Context {W : Type} (outside : Outside W).

Definition denies (net : DenyNet) (ip : IpAddr) : bool :=
  match net with AllIpv4 => is_ipv4 ip | AllIpv6 => is_ipv6 ip end.

Lemma family_allowed_iff family ip :
  family_allows family ip = negb (existsb (fun net => denies net ip) (deny_nets family)).
Proof. by destruct family, ip. Qed.

Lemma builtin_families family :
  length (filter (fun ip => family_allows family ip = true) (sa_ip <$> builtin_root_hints))
  = match family with Both => 26 | _ => 13 end.
Proof. by destruct family. Qed.

Lemma hint_of_line_port line a : hint_of_line line = Some a -> sa_port a = 53%N.
Proof.
  unfold hint_of_line. cbv zeta. intros Ha. repeat case_match; try done;
    match goal with H : _ <$> ?o = Some _ |- _ => destruct o; by simplify_eq/= end.
Qed.

Definition on_dns_port (hints : list SocketAddr) : Prop := Forall (fun a => sa_port a = 53%N) hints.

Lemma parse_root_hints_port content : on_dns_port (parse_root_hints content).
Proof.
  unfold parse_root_hints. apply Forall_forall. intros a (line & _ & Ha)%list_elem_of_omap.
  by eapply hint_of_line_port.
Qed.

Lemma builtin_port : on_dns_port builtin_root_hints.
Proof. repeat constructor. Qed.

Lemma probe_hints_usable paths w :
  fst (probe_hints outside paths w) <> [] /\ on_dns_port (fst (probe_hints outside paths w)).
Proof.
  revert w. induction paths as [|p ps IH]; intros w; simpl; [split; [done|apply builtin_port]|].
  unfold mbind. destruct (fs_read_to_string outside p w) as [[content|] w1]; [|apply IH].
  destruct (parse_root_hints content) as [|a l] eqn:Hp; simpl; [apply IH|].
  split; [done|]. rewrite <- Hp. apply parse_root_hints_port.
Qed.

(** Whatever the files on the system hold, the recursion has a root server to start
    from: the hints are never empty and all on port 53, those of the configured file when
    it has any.  The servers that remain for a family are exactly those the deny list does
    not exclude, and of the built-in hints there remain thirteen for either family. *)
Theorem root_hints_usable (path : option rstr) (family : NameserverIpFamily) (ip : IpAddr) (w : W) :
  let hints := fst (load_root_hints outside path w) in
  hints <> [] /\ on_dns_port hints
  /\ (forall p content w1, path = Some p -> fs_read_to_string outside p w = (Some content, w1) ->
        parse_root_hints content <> [] -> hints = parse_root_hints content)
  /\ (ip ∈ filter (fun ip => family_allows family ip = true) (sa_ip <$> hints) <->
        ip ∈ sa_ip <$> hints /\ existsb (fun net => denies net ip) (deny_nets family) = false)
  /\ 13 <= length (filter (fun ip => family_allows family ip = true) (sa_ip <$> builtin_root_hints)).
Proof.
  cbv zeta. split_and!.
  - destruct path as [p|]; [|apply probe_hints_usable]. simpl. unfold mbind.
    destruct (fs_read_to_string outside p w) as [[c|] w1]; [|done].
    by destruct (parse_root_hints c) eqn:Hc; simpl; rewrite ?Hc.
  - destruct path as [p|]; [|apply probe_hints_usable]. simpl. unfold mbind.
    destruct (fs_read_to_string outside p w) as [[c|] w1]; [|apply builtin_port].
    simpl. destruct (is_empty _); [apply builtin_port|apply parse_root_hints_port].
  - intros p c w1 -> Hr Hne. simpl. unfold mbind. rewrite Hr. by destruct (parse_root_hints c).
  - rewrite list_elem_of_filter, family_allowed_iff, negb_true_iff. tauto.
  - rewrite builtin_families. destruct family; lia.
Qed.
End hints.

(** ** What the client receives *)

(** What the code builds is what is read back. *)
Class EdnsLaws `{EdnsView} : Prop := {
  edns_build_ok : forall d p, edns_dnssec_ok (edns_build d p) = d;
  edns_build_payload : forall d p, (512 <= p)%N -> edns_max_payload (edns_build d p) = p
}.

Section answers.
Context `{CodecLaws} `{EdnsLaws} {W TrustAnchors : Type} (api : RecursorApi TrustAnchors W).

(** The response is one to the query: its identifier, recursion desired and available, a
    question (the client's, if the recursion gave none), and an EDNS record with the DO
    bit of the client and at least 512 bytes if the client sent one. *)
Definition answers_query (msg m : Message) : Prop :=
  msg_id m = msg_id msg /\ msg_recursion_desired m = true /\ msg_recursion_available m = true
  /\ msg_queries m <> []
  /\ forall client_edns, msg_edns msg = Some client_edns -> exists edns, msg_edns m = Some edns
       /\ edns_dnssec_ok edns = edns_dnssec_ok client_edns
       /\ edns_max_payload edns = N.max (edns_max_payload client_edns) 512.

Lemma foldl_add_authority rs m :
  foldl (fun m r => add_authority r m) m rs
  = set_sections (msg_queries m) (msg_answers m) (msg_authorities m ++ rs) (msg_additionals m) m.
Proof.
  revert m. induction rs as [|r rs IH]; intros m; simpl.
  - rewrite app_nil_r. by destruct m.
  - rewrite IH. simpl. by rewrite <- app_assoc.
Qed.

Lemma echo_edns_spec msg m :
  msg_id (echo_edns msg m) = msg_id m /\ msg_recursion_desired (echo_edns msg m) = msg_recursion_desired m
  /\ msg_recursion_available (echo_edns msg m) = msg_recursion_available m
  /\ msg_queries (echo_edns msg m) = msg_queries m /\ msg_answers (echo_edns msg m) = msg_answers m
  /\ msg_authorities (echo_edns msg m) = msg_authorities m
  /\ msg_response_code (echo_edns msg m) = msg_response_code m
  /\ forall client_edns, msg_edns msg = Some client_edns -> exists edns,
       msg_edns (echo_edns msg m) = Some edns /\ edns_dnssec_ok edns = edns_dnssec_ok client_edns
       /\ edns_max_payload edns = N.max (edns_max_payload client_edns) 512.
Proof.
  unfold echo_edns, do_bit. destruct (msg_edns msg) as [e|] eqn:He; simpl; split_and!; try done.
  intros client [= <-]. eexists. split; [done|].
  rewrite edns_build_ok, edns_build_payload by lia. done.
Qed.

Lemma adjust_response_spec msg question response : first_query msg = Some question ->
  answers_query msg (adjust_response msg response)
  /\ msg_answers (adjust_response msg response) = msg_answers response
  /\ msg_authorities (adjust_response msg response) = msg_authorities response
  /\ msg_response_code (adjust_response msg response) = msg_response_code response.
Proof.
  intros Hq. unfold adjust_response, answers_query. cbv zeta. rewrite Hq.
  match goal with |- context [echo_edns msg ?m] => pose proof (echo_edns_spec msg m) as Hs end.
  destruct Hs as (-> & -> & -> & -> & -> & -> & -> & He). split_and!; try done;
    by destruct response as [? ? ? ? ? ? ? ? ? ? [|q qs] ? ? ? ? ?].
Qed.

Lemma negative_response_spec msg question e : first_query msg = Some question ->
  let m := negative_response msg e in
  answers_query msg m /\ msg_queries m = [question] /\ msg_answers m = []
  /\ msg_response_code m = (if re_nx_domain e then NXDomain else NoError)
  /\ msg_authorities m = match re_negative e with
                         | Some a => option_list (ad_soa a) ++ default [] (ad_authorities a)
                         | None => []
                         end.
Proof.
  intros Hq. cbv zeta. unfold negative_response, answers_query. cbv zeta. rewrite Hq.
  match goal with |- context [echo_edns msg ?m] => pose proof (echo_edns_spec msg m) as Hs end.
  destruct Hs as (Hid & Hrd & Hra & Hqs & Han & Hau & Hrc & He).
  destruct (re_negative e) as [[soa auths]|]; simpl in *; [|by rewrite Hid, Hrd, Hra, Hqs, Han, Hau, Hrc].
  rewrite foldl_add_authority. destruct soa as [soa|]; simpl;
    rewrite Hid, Hrd, Hra, Hqs, Han, Hau, Hrc; by split_and!.
Qed.

(** C30. The recursive resolver answers the client's own query: when the recursion
    succeeds, its records come back in a response to that query; when it ends in a name or
    a type that does not exist, the client gets NXDOMAIN or an empty NOERROR with the SOA
    and authority records; any other failure is an error for the next upstream.  The
    recursion is asked for the first question, with the client's DO bit. *)
Theorem recursive_answer_exact (recursor : Recursor api) (query : bytes) (msg : Message) (question : Query)
    (w : W) :
  message_from_vec query = Ok msg -> first_query msg = Some question ->
  let '(r, w') := recursor_resolve api recursor
    {| q_name := q_name question; q_type := q_type question; q_class := 1 |} (do_bit msg) w in
  exists res, recursive_resolve api recursor query w = (res, w')
    /\ match r with
       | Ok response => exists m, res = encode m /\ answers_query msg m
           /\ msg_answers m = msg_answers response /\ msg_authorities m = msg_authorities response
           /\ msg_response_code m = msg_response_code response
       | Err e =>
           if re_nx_domain e || re_no_records_found e
           then exists m, res = encode m /\ answers_query msg m /\ msg_queries m = [question]
                  /\ msg_answers m = []
                  /\ msg_response_code m = (if re_nx_domain e then NXDomain else NoError)
                  /\ msg_authorities m = match re_negative e with
                                         | Some a => option_list (ad_soa a) ++ default [] (ad_authorities a)
                                         | None => []
                                         end
           else res = Err (URE_Protocol (re_display e))
       end.
Proof.
  intros Hm Hq. unfold recursive_resolve. rewrite Hm. unfold tbind, mlift, mbind, mret. cbn [map_err].
  rewrite Hq. cbn [ok_or].
  destruct (recursor_resolve api recursor _ _ w) as [[response|e] w']; eexists; (split; [done|]).
  - eexists. split; [done|]. by apply (adjust_response_spec msg question).
  - destruct (re_nx_domain e || re_no_records_found e) eqn:Hneg; [|done].
    eexists. split; [done|]. by apply (negative_response_spec msg question).
Qed.
End answers.

(** ** Witnesses *)

Module RecursiveExamples.
#[local] Existing Instance text_names.

Definition question : Query := {| q_name := lit "nowhere.example."; q_type := RT_AAAA; q_class := 1 |}.
(** An EDNS record as its DO bit and its payload size. *)
#[local] Instance edns_view : EdnsView :=
  {| edns_dnssec_ok := fun b => match b with d :: _ => (d =? 1)%N | [] => false end;
     edns_max_payload := fun b => match b with [_; p] => p | _ => 512%N end;
     edns_build := fun d p => [if d : bool then 1%N else 0%N; p] |}.
#[local] Instance edns_laws : EdnsLaws.
Proof. constructor; [by intros []|done]. Qed.

Definition query_message : Message :=
  set_edns (Some [1; 1232]%N) (add_query question (message_new 0 MT_Query OC_Query)).
#[local] Instance codec : DnsCodec := ex_codec [query_message].
#[local] Instance codec_laws : CodecLaws := ex_codec_laws [query_message].

Definition no_such_name : RecursorError :=
  {| re_nx_domain := true; re_no_records_found := false; re_negative := None; re_display := [] |}.
Definition api : RecursorApi unit unit :=
  {| Recursor := unit; recursor_new := fun _ _ _ _ _ => Ok tt;
     recursor_resolve := fun _ _ _ => mret (Err no_such_name) |}.
Definition query : bytes := [0; 7; 0; 0]%N.

Lemma recursive_answer_exact_witness :
  exists res, recursive_resolve api tt query tt = (res, tt)
    /\ exists m, res = encode m /\ answers_query (set_id 7 query_message) m /\ msg_queries m = [question]
         /\ msg_answers m = [] /\ msg_response_code m = NXDomain /\ msg_authorities m = [].
Proof.
  exact (recursive_answer_exact api tt query (set_id 7 query_message) question tt eq_refl eq_refl).
Defined.

Definition files : Outside unit :=
  {| http_get := fun _ _ => mret None;
     fs_read_to_string := fun _ => mret (Some (lit "; no addresses"));
     now := mret 0%N; gen_range := fun _ => mret 0 |}.

Lemma root_hints_usable_witness : fst (load_root_hints files (Some (lit "/etc/hints")) tt) <> [].
Proof. exact (proj1 (root_hints_usable files (Some (lit "/etc/hints")) Both (IpV4 (1, 1, 1, 1)%N) tt)). Defined.
End RecursiveExamples.
