(* ===== verification/ControlSocket.v ===== *)
(** * Control socket

    [frameworks/control_socket.rs] and [control_client.rs]: binding the socket, the accept
    loop with its three commands, and the client of the command line.  Unix sockets, the
    file system and [serde_json] are parameters; the loop reads a sequence of events, which
    is what the [select!] of the code sees. *)

From S2P Require Import Prelude RustStr.

(** An [anyhow] error: its messages, the outermost first. *)
Abbreviation Error := (list rstr).

Definition MAX_MESSAGE_BYTES : nat := 1024.

(** ** Messages *)

(** [Value] is JSON data. *)
Record ControlResponse (Value : Type) : Type := {
  cp_status : rstr; cp_message : option rstr; cp_data : option Value
}.
Arguments cp_status {_} _.
Arguments cp_message {_} _.
Arguments cp_data {_} _.

(** What the code uses of [serde_json]. *)
Record ControlJson (Value : Type) : Type := {
  parse_request : rstr -> result rstr rstr;
  render_response : ControlResponse Value -> rstr;
  parse_response : rstr -> result (ControlResponse Value) rstr
}.
Arguments parse_request {_} _ _.
Arguments render_response {_} _ _.
Arguments parse_response {_} _ _.

(** ** Server *)

(** Files and sockets: [ce_alive] is whether a connection to the path succeeds. *)
Record ControlEnv (W : Type) : Type := {
  ce_create_dir_all : rstr -> M W (result unit rstr);
  ce_exists : rstr -> M W bool;
  ce_alive : rstr -> M W bool;
  ce_remove_file : rstr -> M W (result unit rstr);
  ce_bind : rstr -> M W (result unit rstr);
  ce_set_permissions : rstr -> N -> M W (result unit rstr);
  (** [Path::parent], displayed. *)
  ce_parent : rstr -> option rstr
}.
Arguments ce_create_dir_all {W} _ _.
Arguments ce_exists {W} _ _.
Arguments ce_alive {W} _ _.
Arguments ce_remove_file {W} _ _.
Arguments ce_bind {W} _ _.
Arguments ce_set_permissions {W} _ _ _.
Arguments ce_parent {W} _ _.

(** What a client does: it sends a line (possibly empty), the connection breaks, or it
    stalls until the timeout of five seconds. *)
Inductive ClientInput : Type :=
| Line (text : rstr)
| ReadFailed (e : rstr)
| Stalled.

(** What the [select!] of the loop sees. *)
Inductive ServerEvent : Type :=
| Cancelled
| AcceptFailed
| Accepted (input : ClientInput).

Section server.
Context {W Value : Type} (env : ControlEnv W) (json : ControlJson Value).
Context (shutdown : Cell W bool).
(** [reload_tx.send(())]: whether a receiver took it; [None] when it is still blocked at
    the timeout. *)
Context (send_reload : M W (option bool)).
Context (status_provider : option (M W Value)).

Definition ok_with_message (msg : rstr) : ControlResponse Value :=
  {| cp_status := lit "ok"; cp_message := Some msg; cp_data := None |}.
Definition ok_with_data (data : Value) : ControlResponse Value :=
  {| cp_status := lit "ok"; cp_message := None; cp_data := Some data |}.
Definition control_error (msg : rstr) : ControlResponse Value :=
  {| cp_status := lit "error"; cp_message := Some msg; cp_data := None |}.

(** A stale socket is removed, a live one refused. *)
Definition remove_stale (path : rstr) : M W (result unit Error) :=
  present <<- ce_exists env path ;;
  if present : bool then
    alive <<- ce_alive env path ;;
    if alive : bool
    then mret (Err [lit "another dns-filter daemon is already running (control socket " ++ path
                    ++ lit " is alive)"])
    else mmap_err (fun e => [lit "failed to remove stale control socket: " ++ path; e])
           (ce_remove_file env path)
  else mret (Ok tt).

Definition bind (path : rstr) : M W (result unit Error) :=
  match ce_parent env path with
  | Some parent => mmap_err (fun e => [lit "failed to create control socket directory: " ++ parent; e])
                     (ce_create_dir_all env parent)
  | None => mret (Ok tt)
  end ?;;
  (remove_stale path ?;;
   (mmap_err (fun e => [lit "failed to bind control socket: " ++ path; e]) (ce_bind env path) ?;;
    mmap_err (fun e => [lit "failed to set control socket permissions: " ++ path; e])
      (ce_set_permissions env path 432))).

(** How a connection ends: with the response written, if any, and whether the server is to
    stop; with an error; or with the timeout. *)
Inductive ConnectionEnd : Type :=
| Handled (written : option (ControlResponse Value)) (should_stop : bool)
| ConnectionError (e : Error)
| ConnectionTimeout.

Definition run_command (command : rstr) : M W ConnectionEnd :=
  if str_eqb command (lit "reload") then
    sent <<- send_reload ;;
    mret (match sent with
          | Some true => Handled (Some (ok_with_message (lit "reload triggered"))) false
          | Some false => Handled (Some (control_error (lit "reload channel closed"))) false
          | None => ConnectionTimeout
          end)
  else if str_eqb command (lit "stop") then
    cwrite shutdown true ;;;
    mret (Handled (Some (ok_with_message (lit "shutdown initiated"))) true)
  else if str_eqb command (lit "status") then
    match status_provider with
    | Some provider => data <<- provider ;; mret (Handled (Some (ok_with_data data)) false)
    | None => mret (Handled (Some (control_error (lit "status unavailable in this build"))) false)
    end
  else mret (Handled (Some (control_error (lit "unknown command: " ++ command))) false).

(** [bytes_read] counts UTF-8 bytes. *)
Definition handle_connection (input : ClientInput) : M W ConnectionEnd :=
  match input with
  | Stalled => mret ConnectionTimeout
  | ReadFailed e => mret (ConnectionError [lit "failed to read from control socket"; e])
  | Line line =>
      let bytes_read := str_len line in
      if Nat.eqb bytes_read 0 then mret (Handled None false)
      else if (MAX_MESSAGE_BYTES <? bytes_read)%nat
      then mret (Handled (Some (control_error (lit "message too large"))) false)
      else match parse_request json (trim line) with
           | Ok command => run_command command
           | Err e => mret (ConnectionError [lit "invalid control message JSON"; e])
           end
  end.

Definition cleanup (socket_path : rstr) : M W unit := ce_remove_file env socket_path ;;; mret tt.

(** The loop on the events so far: [true] once it has ended, [false] while it waits for the
    next one.  The responses are those written to the clients, in order. *)
Fixpoint serve (socket_path : rstr) (events : list ServerEvent) :
    M W (bool * list (ControlResponse Value)) :=
  cancelled <<- cread shutdown ;;
  if cancelled : bool then cleanup socket_path ;;; mret (true, [])
  else match events with
       | [] => mret (false, [])
       | Cancelled :: _ => cwrite shutdown true ;;; (cleanup socket_path ;;; mret (true, []))
       | AcceptFailed :: rest => serve socket_path rest
       | Accepted input :: rest =>
           ended <<- handle_connection input ;;
           match ended with
           | Handled written should_stop =>
               if should_stop : bool
               then cleanup socket_path ;;; mret (true, option_list written)
               else r <<- serve socket_path rest ;; mret (r.1, option_list written ++ r.2)
           | ConnectionError _ => serve socket_path rest
           | ConnectionTimeout => serve socket_path rest
           end
       end.

(** ** Client *)

(** The line [send_command] writes. *)
Definition request_line (command : rstr) : rstr :=
  lit "{" ++ [34%N] ++ lit "command" ++ [34%N] ++ lit ":" ++ [34%N] ++ command ++ [34%N] ++ lit "}" ++ [10%N].

(** [send_command] once connected: [reply] is the line the daemon answers to what was
    written, [Err] when reading it fails. *)
Definition send_command (reply : rstr -> M W (result rstr rstr)) (command : rstr) :
    M W (result (ControlResponse Value) Error) :=
  response_line <?- mmap_err (fun e => [lit "failed to read response from daemon (timed out?)"; e])
                      (reply (request_line command)) ;;
  mret (if is_empty response_line then Err [lit "daemon closed connection without responding"]
        else map_err (fun e => [lit "failed to parse daemon response"; e])
               (parse_response json (trim response_line))).

(** The daemon at the other end: the line it writes, nothing when it writes none. *)
Definition daemon_reply (line : rstr) : M W (result rstr rstr) :=
  ended <<- handle_connection (Line line) ;;
  mret (Ok (match ended with
            | Handled (Some response) _ => render_response json response ++ [10%N]
            | _ => []
            end)).
End server.

(** ** The loop ends exactly on a stop *)

Section loop.
Context {W Value : Type} (env : ControlEnv W) (json : ControlJson Value).
Context (shutdown : Cell W bool) `{!CellLaws shutdown} (send_reload : M W (option bool)).
Context (status_provider : option (M W Value)) (socket_path : rstr).

(** Asking for a reload or for the status does not shut the daemon down. *)
Context (Hreload : forall w, cget shutdown (snd (send_reload w)) = cget shutdown w).
Context (Hstatus : forall provider w, status_provider = Some provider ->
           cget shutdown (snd (provider w)) = cget shutdown w).

Abbreviation handle := (handle_connection json shutdown send_reload status_provider).
Abbreviation run := (serve env json shutdown send_reload status_provider socket_path).

(** The events that end the loop: the token is cancelled, or a client sends a request of at
    most 1024 bytes for the command [stop]. *)
Definition stop_request (line : rstr) : bool :=
  negb (Nat.eqb (str_len line) 0) && (str_len line <=? MAX_MESSAGE_BYTES)%nat
  && match parse_request json (trim line) with Ok command => str_eqb command (lit "stop") | Err _ => false end.

Definition ends_loop (e : ServerEvent) : bool :=
  match e with
  | Cancelled => true
  | Accepted (Line line) => stop_request line
  | _ => false
  end.

Definition stops_server (e : ConnectionEnd (Value := Value)) : bool :=
  match e with Handled _ should_stop => should_stop | _ => false end.

Lemma run_command_stops command w :
  stops_server (fst (run_command shutdown send_reload status_provider command w))
  = str_eqb command (lit "stop")
  /\ cget shutdown (snd (run_command shutdown send_reload status_provider command w))
     = (str_eqb command (lit "stop") || cget shutdown w).
Proof.
  unfold run_command. destruct (str_eqb_spec command (lit "reload")) as [->|Hr].
  - change (str_eqb (lit "reload") (lit "stop")) with false. unfold mbind, mret. specialize (Hreload w).
    destruct (send_reload w) as [[[|]|] w1]; by split.
  - destruct (str_eqb_spec command (lit "stop")) as [->|Hs].
    + unfold mbind, cwrite, mret. cbn [fst snd stops_server]. by rewrite cget_cput.
    + destruct (str_eqb_spec command (lit "status")); [|done].
      destruct status_provider as [provider|] eqn:Hp; [|done]. unfold mbind, mret.
      specialize (Hstatus provider w eq_refl). by destruct (provider w) as [v w1].
Qed.

Lemma handle_connection_stops input w :
  stops_server (fst (handle input w)) = ends_loop (Accepted input)
  /\ cget shutdown (snd (handle input w)) = (ends_loop (Accepted input) || cget shutdown w).
Proof.
  destruct input as [line|e|]; [|done..]. unfold handle_connection, ends_loop, stop_request. cbv zeta.
  destruct (Nat.eqb_spec (str_len line) 0); [done|].
  destruct (Nat.ltb_spec MAX_MESSAGE_BYTES (str_len line)).
  { by rewrite (proj2 (Nat.leb_gt _ _)). }
  rewrite (proj2 (Nat.leb_le _ _)) by done. cbn [negb andb].
  destruct (parse_request json (trim line)); [apply run_command_stops|done].
Qed.

Lemma serve_cons e events w : cget shutdown w = false ->
  run (e :: events) w
  = match e with
    | Cancelled => ((true, []), snd (ce_remove_file env socket_path (cput shutdown true w)))
    | AcceptFailed => run events w
    | Accepted input =>
        let '(ended, w1) := handle input w in
        match ended with
        | Handled written true => ((true, option_list written), snd (ce_remove_file env socket_path w1))
        | Handled written false => let '(r, w2) := run events w1 in ((r.1, option_list written ++ r.2), w2)
        | _ => run events w1
        end
    end.
Proof.
  intros Hw. cbn [serve]. unfold mbind at 1, cread at 1. rewrite Hw.
  destruct e as [| |input]; [|done|].
  - unfold cleanup, mbind, cwrite, mret. by destruct (ce_remove_file _ _ _).
  - unfold mbind at 1. destruct (handle input w) as [[written [|]| |] w1]; [|done..].
    unfold cleanup, mbind, mret. by destruct (ce_remove_file _ _ _).
Qed.

(** C20. The accept loop ends exactly when it must: on the first cancellation or stop
    request, after which the token is cancelled, whatever came before, and the last thing
    done is to remove the socket file; nothing else a client sends, malformed, oversized or
    stalling, ends it. *)
Theorem control_loop_ends_exactly (events : list ServerEvent) (w : W) :
  cget shutdown w = false ->
  fst (fst (run events w)) = existsb ends_loop events
  /\ (existsb ends_loop events = true ->
      exists w1, cget shutdown w1 = true /\ snd (run events w) = snd (ce_remove_file env socket_path w1))
  /\ (existsb ends_loop events = false -> cget shutdown (snd (run events w)) = false).
Proof.
  revert w. induction events as [|e events IH]; intros w Hw.
  { unfold serve, mbind, cread. by rewrite Hw. }
  rewrite (serve_cons e events w Hw). cbn [existsb]. destruct e as [| |input].
  - cbn [ends_loop orb]. split_and!; [done| |done]. intros _. exists (cput shutdown true w).
    by rewrite cget_cput.
  - by apply IH.
  - destruct (handle_connection_stops input w) as [Hstop Hcell].
    destruct (handle input w) as [ended w1]. cbn [fst snd] in Hstop, Hcell. rewrite <- Hstop in Hcell |- *.
    destruct ended as [written [|]|err|]; cbn [stops_server orb] in *; try (apply IH; congruence).
    + split_and!; [done| |done]. intros _. by exists w1.
    + assert (Hw1 : cget shutdown w1 = false) by congruence. specialize (IH w1 Hw1).
      by destruct (run events w1) as [r w2].
Qed.
End loop.

(** ** A command and its answer *)

(** A text that needs no escape in a JSON string. *)
Definition unescaped (c : rchar) : bool := (32 <=? c)%N && negb (c =? 34)%N && negb (c =? 92)%N.

(** The JSON object the client writes and, for any response, the one line the server writes. *)
Class ControlJsonLaws {Value} (json : ControlJson Value) : Prop := {
  request_read : forall command, forallb unescaped command = true ->
    parse_request json (lit "{" ++ [34%N] ++ lit "command" ++ [34%N] ++ lit ":" ++ [34%N] ++ command
                        ++ [34%N] ++ lit "}") = Ok command;
  response_read : forall r, parse_response json (render_response json r) = Ok r;
  response_solid : forall r, solid (render_response json r)
}.

Section roundtrip.
Context {W Value : Type} (json : ControlJson Value) `{!ControlJsonLaws json}.
Context (shutdown : Cell W bool) (send_reload : M W (option bool)) (status_provider : option (M W Value)).

Lemma trim_newline s : solid s -> trim (s ++ [10%N]) = s.
Proof.
  intros [(c & r & -> & Hc) (q & d & Hq & Hd)]. unfold trim, trim_start_by. simpl. rewrite Hc.
  change (c :: r ++ [10%N]) with ((c :: r) ++ [10%N]). rewrite trim_end_by_snoc by done.
  rewrite Hq. by apply trim_end_by_id_last.
Qed.

Lemma trim_request command : trim (request_line command)
  = lit "{" ++ [34%N] ++ lit "command" ++ [34%N] ++ lit ":" ++ [34%N] ++ command ++ [34%N] ++ lit "}".
Proof.
  rewrite <- trim_newline.
  - unfold request_line. by rewrite <- !app_assoc.
  - split; [by eexists _, _|].
    exists (lit "{" ++ [34%N] ++ lit "command" ++ [34%N] ++ lit ":" ++ [34%N] ++ command ++ [34%N]), 125%N.
    by rewrite <- !app_assoc.
Qed.

(** What the command line sends is what the daemon runs, and what the daemon answers
    is what the command line reports: for every command of a request of at most 1024 bytes
    that is answered in time. *)
Theorem command_roundtrip (command : rstr) (response : ControlResponse Value) (should_stop : bool) (w w' : W) :
  forallb unescaped command = true -> str_len (request_line command) <= MAX_MESSAGE_BYTES ->
  run_command shutdown send_reload status_provider command w = (Handled (Some response) should_stop, w') ->
  send_command json (daemon_reply json shutdown send_reload status_provider) command w = (Ok response, w').
Proof.
  intros Hc Hlen Hrun. unfold send_command, tbind, mmap_err, daemon_reply, mbind, handle_connection, mret.
  cbv zeta. destruct (Nat.eqb_spec (str_len (request_line command)) 0) as [He|_]; [done|].
  rewrite (proj2 (Nat.ltb_ge _ _) Hlen), trim_request, request_read by done. rewrite Hrun. cbn [map_err].
  rewrite trim_newline, response_read by apply response_solid. cbn [map_err].
  by destruct (render_response json response).
Qed.
End roundtrip.

(** ** Witnesses *)

Module ControlExamples.
(** The world: whether shutdown was asked for, and whether the socket file is there. *)
Definition World : Type := bool * bool.
Definition token : Cell World bool := {| cget := fst; cput := fun b w => (b, w.2) |}.
#[local] Instance token_laws : CellLaws token.
Proof. constructor; [done|by intros []|done]. Qed.

Definition env : ControlEnv World :=
  {| ce_create_dir_all := fun _ => mret (Ok tt); ce_exists := fun _ w => (w.2, w);
     ce_alive := fun _ => mret false; ce_remove_file := fun _ w => (Ok tt, (w.1, false));
     ce_bind := fun _ w => (Ok tt, (w.1, true)); ce_set_permissions := fun _ _ => mret (Ok tt);
     ce_parent := fun _ => None |}.

(** Requests are cut out of their frame; a response is one code between braces. *)
Definition code (r : ControlResponse unit) : positive := encode (cp_status r, cp_message r, cp_data r).
Definition decoded (p : positive) : result (ControlResponse unit) rstr :=
  match decode p with
  | Some (s, m, d) => Ok {| cp_status := s; cp_message := m; cp_data := d |}
  | None => Err (lit "invalid response")
  end.
Definition json : ControlJson unit :=
  {| parse_request := fun s => ok_or (strip_suffix [34; 125]%N (drop 12 s)) (lit "no command");
     render_response := fun r => [123%N; Npos (code r); 125%N];
     parse_response := fun s => match s with [_; Npos p; _] => decoded p | _ => Err [] end |}.

#[local] Instance json_laws : ControlJsonLaws json.
Proof.
  constructor.
  - intros command _. cbn [parse_request json]. change (drop 12 _) with (command ++ [34; 125]%N).
    by rewrite strip_suffix_app.
  - intros [s m d]. simpl. unfold decoded, code. by rewrite decode_encode.
  - intros r. split; [by eexists _, _|]. by exists [123%N; Npos (code r)], 125%N.
Qed.

Lemma control_loop_ends_exactly_witness :
  fst (fst (serve env json token (mret (Some true)) None (lit "/run/ctl")
              [AcceptFailed; Accepted Stalled; Accepted (Line (lit "junk"));
               Accepted (Line (request_line (lit "stop")))] (false, true))) = true.
Proof.
  exact (proj1 (control_loop_ends_exactly env json token (mret (Some true)) None (lit "/run/ctl")
           (fun w => eq_refl) (fun provider w (H : None = Some provider) => match H with end)
           [AcceptFailed; Accepted Stalled; Accepted (Line (lit "junk"));
            Accepted (Line (request_line (lit "stop")))] (false, true) eq_refl)).
Defined.

Lemma command_roundtrip_witness :
  send_command json (daemon_reply json token (mret (Some true)) None) (lit "stop") (false, true)
  = (Ok (ok_with_message (lit "shutdown initiated")), (true, true)).
Proof.
  apply (command_roundtrip json token (mret (Some true)) None (lit "stop")
           (ok_with_message (lit "shutdown initiated")) true); [reflexivity| |reflexivity].
  apply Nat.leb_le. reflexivity.
Defined.
End ControlExamples.
