(* ===== verification/Listeners.v ===== *)
(** * Listener set-up

    [interface_adapters/listeners/mod.rs] and [tls.rs]: bind addresses, sockets, and the TLS
    configuration of a listener with its self-signed certificate.  Files, key generation,
    PEM decoding, the host name, the network interfaces and sockets are parameters. *)

From S2P Require Import Prelude RustStr RustNet Schema UpstreamClients.

(** ** Errors *)

Inductive TlsSetupError : Type :=
| CertGeneration (message : rstr)
| CertLoad (message : rstr)
| TlsConfigError (message : rstr).

(** [InvalidAddress] without its source, the one message of [AddrParseError]. *)
Inductive ListenerSetupError : Type :=
| InvalidAddress (addr : rstr)
| BindFailed (proto : rstr) (addr : SocketAddr) (source : rstr)
| ListenerTls (e : TlsSetupError)
| Registration (message : rstr).

(** ** Addresses *)

Definition bind_text (addr : rstr) (port : N) : rstr :=
  if contains_char (ch ":") addr then lit "[" ++ addr ++ lit "]:" ++ display_N port
  else addr ++ lit ":" ++ display_N port.

Fixpoint parse_bind_addrs (addresses : list rstr) (port : N) :
    result (list SocketAddr) ListenerSetupError :=
  match addresses with
  | [] => Ok []
  | addr :: rest =>
      let raw := bind_text addr port in
      let? parsed := ok_or (parse_socket_addr raw) (InvalidAddress raw) in
      let? others := parse_bind_addrs rest port in
      Ok (parsed :: others)
  end.

(** ** Sockets *)

Inductive SocketType : Type := Dgram | Stream.
Inductive SocketOption : Type := ReuseAddress | OnlyV6 | Nonblocking.

(** [socket2]: [Sock] is a handle. *)
Record SocketEnv (W Sock : Type) : Type := {
  socket_new : bool -> SocketType -> M W (result Sock rstr);
  socket_set : Sock -> SocketOption -> M W (result unit rstr);
  socket_bind : Sock -> SocketAddr -> M W (result unit rstr);
  socket_listen : Sock -> N -> M W (result unit rstr);
  (** [from_std]: registration with the runtime. *)
  socket_from_std : Sock -> M W (result unit rstr)
}.
Arguments socket_new {W Sock} _ _ _.
Arguments socket_set {W Sock} _ _ _.
Arguments socket_bind {W Sock} _ _ _.
Arguments socket_listen {W Sock} _ _ _.
Arguments socket_from_std {W Sock} _ _.

Section sockets.
Context {W Sock : Type} (env : SocketEnv W Sock).

Definition configure_socket (socket : Sock) (addr : SocketAddr) : M W (result unit rstr) :=
  socket_set env socket ReuseAddress ?;;
  (if is_ipv6 (sa_ip addr) then socket_set env socket OnlyV6 else mret (Ok tt)).

(** [socket_new]'s flag: the domain is the one of the address. *)
Definition bind_udp (addr : SocketAddr) : M W (result Sock rstr) :=
  socket <?- socket_new env (is_ipv6 (sa_ip addr)) Dgram ;;
  configure_socket socket addr ?;; (socket_bind env socket addr ?;; mret (Ok socket)).

Definition bind_tcp (addr : SocketAddr) : M W (result Sock rstr) :=
  socket <?- socket_new env (is_ipv6 (sa_ip addr)) Stream ;;
  configure_socket socket addr ?;;
  (socket_bind env socket addr ?;; (socket_listen env socket 1024 ?;; mret (Ok socket))).

Definition bind_udp_tokio (addr : SocketAddr) : M W (result Sock rstr) :=
  std_socket <?- bind_udp addr ;;
  socket_set env std_socket Nonblocking ?;; (socket_from_std env std_socket ?;; mret (Ok std_socket)).

Definition bind_tcp_tokio (addr : SocketAddr) : M W (result Sock rstr) :=
  std_listener <?- bind_tcp addr ;;
  socket_set env std_listener Nonblocking ?;; (socket_from_std env std_listener ?;; mret (Ok std_listener)).
End sockets.

(** ** Subject alternative names *)

Inductive SanType : Type := DnsName (name : rstr) | SanIp (ip : IpAddr).

Definition is_unspecified (ip : IpAddr) : bool :=
  match ip with
  | IpV4 a => bool_decide (a = (0, 0, 0, 0)%N)
  | IpV6 a => bool_decide (a = repeat 0%N 8)
  end.

(** [seen_ips] and [seen_dns] of the code, with the names so far. *)
Record Sans : Type := { sans : list SanType; seen_ips : list IpAddr; seen_dns : list rstr }.

Definition add_ip (s : Sans) (ip : IpAddr) : Sans :=
  if is_unspecified ip then s
  else if bool_decide (ip ∈ seen_ips s) then s
  else {| sans := sans s ++ [SanIp ip]; seen_ips := ip :: seen_ips s; seen_dns := seen_dns s |}.

(** A network interface: whether it is a loopback, and its address where it is an IP. *)
Record Interface : Type := { if_loopback : bool; if_address : option IpAddr }.

(** Names of the machine, and what the code uses of [str::to_lowercase] (the Unicode one) and
    of rcgen's IA5 strings. *)
Record Machine : Type := {
  host_name : result (option rstr) rstr;
  interfaces : result (list Interface) rstr;
  to_lowercase : rstr -> rstr;
  is_ia5 : rstr -> bool
}.

Definition localhost_v4 : IpAddr := IpV4 (127, 0, 0, 1)%N.
Definition localhost_v6 : IpAddr := IpV6 [0; 0; 0; 0; 0; 0; 0; 1]%N.

Section names.
Context (m : Machine).

Definition add_dns (s : Sans) (name : rstr) : Sans :=
  let key := to_lowercase m name in
  if bool_decide (key ∈ seen_dns s) then s
  else {| sans := if is_ia5 m name then sans s ++ [DnsName name] else sans s;
          seen_ips := seen_ips s; seen_dns := key :: seen_dns s |}.

Definition add_host_name (s : Sans) : Sans :=
  match host_name m with
  | Ok (Some name_str) => if is_empty name_str then s else add_dns s name_str
  | Ok None | Err _ => s
  end.

Definition add_interface (s : Sans) (i : Interface) : Sans :=
  if if_loopback i then s else from_option (add_ip s) s (if_address i).

Definition add_extra (s : Sans) (extra : rstr) : Sans :=
  let trimmed := trim extra in
  if is_empty trimmed then s
  else match parse_ip trimmed with
       | Some ip => add_ip s ip
       | None => add_dns s trimmed
       end.

Definition collect_sans (extra_sans : list rstr) : list SanType :=
  let s := {| sans := []; seen_ips := []; seen_dns := [] |} in
  let s := add_ip (add_ip (add_dns s (lit "localhost")) localhost_v4) localhost_v6 in
  let s := add_host_name s in
  let s := match interfaces m with Ok l => foldl add_interface s l | Err _ => s end in
  sans (foldl add_extra s extra_sans).
End names.

Definition san_display (san : SanType) : rstr :=
  match san with
  | DnsName name => lit "DNS:" ++ name
  | SanIp (IpV4 a) => lit "IP:" ++ display_ipv4 a
  | SanIp (IpV6 a) => lit "IP:" ++ display_ipv6 a
  end.

(** ** Certificates *)

(** Files, [rcgen] and [rustls_pemfile].  [tf_open] is the contents of a file that opens. *)
Record TlsEnv (W : Type) : Type := {
  tf_exists : rstr -> M W bool;
  tf_create_dir_all : rstr -> M W (result unit rstr);
  tf_write : rstr -> rstr -> M W (result unit rstr);
  tf_open : rstr -> M W (result rstr rstr);
  tf_parent : rstr -> option rstr;
  (** [KeyPair::generate], [self_signed] with a common name and names, and their PEM. *)
  generate_key_pair : M W (result rstr rstr);
  self_signed : rstr -> rstr -> list SanType -> M W (result rstr rstr);
  read_certs : rstr -> list (result (list N) rstr);
  read_private_key : rstr -> result (option (list N)) rstr;
  (** [with_safe_default_protocol_versions] and [with_single_cert]. *)
  protocol_versions : result unit rstr;
  single_cert : list (list N) -> list N -> result unit rstr
}.
Arguments tf_exists {W} _ _.
Arguments tf_create_dir_all {W} _ _.
Arguments tf_write {W} _ _ _.
Arguments tf_open {W} _ _.
Arguments tf_parent {W} _ _.
Arguments generate_key_pair {W} _.
Arguments self_signed {W} _ _ _ _.
Arguments read_certs {W} _ _.
Arguments read_private_key {W} _ _.
Arguments protocol_versions {W} _.
Arguments single_cert {W} _ _ _.

(** Where a server's certificate comes from: files, or the resolver ACME writes. *)
Inductive CertSource : Type :=
| SingleCert (cert_chain : list (list N)) (key : list N)
| SharedResolver.
Record TlsServerConfig : Type := { sc_certificate : CertSource; sc_alpn_protocols : list rstr }.

Section tls.
Context {W : Type} (env : TlsEnv W) (m : Machine).

Definition create_parent (what path : rstr) : M W (result unit TlsSetupError) :=
  match tf_parent env path with
  | Some parent =>
      mmap_err (fun e => CertGeneration (lit "failed to create directory for " ++ what ++ lit ": " ++ e))
        (tf_create_dir_all env parent)
  | None => mret (Ok tt)
  end.

Definition write_pem (what path content : rstr) : M W (result unit TlsSetupError) :=
  mmap_err (fun e => CertGeneration (lit "failed to write " ++ what ++ lit " to '" ++ path ++ lit "': " ++ e))
    (tf_write env path content).

Definition generate_files (cert_path key_path : rstr) (extra_sans : list rstr) :
  M W (result unit TlsSetupError) :=
  key_pem <?- mmap_err (fun e => CertGeneration (lit "failed to generate key pair: " ++ e))
                (generate_key_pair env) ;;
  cert_pem <?- mmap_err (fun e => CertGeneration (lit "failed to generate self-signed certificate: " ++ e))
                 (self_signed env key_pem (lit "dns-filter self-signed cert") (collect_sans m extra_sans)) ;;
  create_parent (lit "cert") cert_path ?;;
  (create_parent (lit "key") key_path ?;;
   (write_pem (lit "certificate") cert_path cert_pem ?;; write_pem (lit "key") key_path key_pem)).

Definition autogenerate_tls_cert_if_missing (cert_path key_path : rstr) (extra_sans : list rstr) :
  M W (result unit TlsSetupError) :=
  cert <<- tf_exists env cert_path ;;
  key <<- (if cert : bool then tf_exists env key_path else mret false) ;;
  if key : bool then mret (Ok tt) else generate_files cert_path key_path extra_sans.

Definition tls_server_config (cert_pem key_pem : rstr) : result TlsServerConfig TlsSetupError :=
  let? cert_chain := map_err (fun e => CertLoad (lit "failed to parse certificate PEM: " ++ e))
                       (collect_results (read_certs env cert_pem)) in
  if is_empty cert_chain then Err (CertLoad (lit "certificate file contains no certificates"))
  else
    let? found := map_err (fun e => CertLoad (lit "failed to parse key PEM: " ++ e))
                    (read_private_key env key_pem) in
    let? key := ok_or found (CertLoad (lit "key file contains no private key")) in
    let? _ := map_err (fun e => TlsConfigError (lit "TLS protocol version error: " ++ e)) (protocol_versions env) in
    let? _ := map_err (fun e => TlsConfigError (lit "TLS configuration error: " ++ e))
                (single_cert env cert_chain key) in
    Ok {| sc_certificate := SingleCert cert_chain key; sc_alpn_protocols := [] |}.

Definition build_tls_server_config (cert_path key_path : rstr) : M W (result TlsServerConfig TlsSetupError) :=
  cert_file <?- mmap_err (fun e => CertLoad (lit "failed to open certificate file '" ++ cert_path ++ lit "': " ++ e))
                  (tf_open env cert_path) ;;
  key_file <?- mmap_err (fun e => CertLoad (lit "failed to open key file '" ++ key_path ++ lit "': " ++ e))
                 (tf_open env key_path) ;;
  mlift (tls_server_config cert_file key_file).

Definition build_tls_server_config_with_resolver : result TlsServerConfig TlsSetupError :=
  let? _ := map_err (fun e => TlsConfigError (lit "TLS protocol version error: " ++ e)) (protocol_versions env) in
  Ok {| sc_certificate := SharedResolver; sc_alpn_protocols := [] |}.

Definition with_alpn (alpn : list rstr) (c : TlsServerConfig) : TlsServerConfig :=
  {| sc_certificate := sc_certificate c; sc_alpn_protocols := alpn |}.
Definition https_alpn : list rstr := [lit "h2"; lit "http/1.1"].

Definition build_tls_config_plain (tls : TlsConfig) (extra_sans : list rstr) :
  M W (result TlsServerConfig ListenerSetupError) :=
  mmap_err ListenerTls
    ((if from_option id false (tls_autogenerate tls)
      then autogenerate_tls_cert_if_missing (tls_cert_path tls) (tls_key_path tls) extra_sans
      else mret (Ok tt)) ?;;
     build_tls_server_config (tls_cert_path tls) (tls_key_path tls)).

Definition build_tls_config_with_alpn (tls : TlsConfig) (extra_sans : list rstr) (alpn : rstr) :
  M W (result TlsServerConfig ListenerSetupError) :=
  config <?- build_tls_config_plain tls extra_sans ;; mret (Ok (with_alpn [alpn] config)).

Definition build_tls_config_for_https (tls : TlsConfig) (extra_sans : list rstr) :
  M W (result TlsServerConfig ListenerSetupError) :=
  config <?- build_tls_config_plain tls extra_sans ;; mret (Ok (with_alpn https_alpn config)).

Definition build_tls_config_with_resolver_plain : result TlsServerConfig ListenerSetupError :=
  map_err ListenerTls build_tls_server_config_with_resolver.
Definition build_tls_config_with_resolver_alpn (alpn : rstr) : result TlsServerConfig ListenerSetupError :=
  let? config := build_tls_config_with_resolver_plain in Ok (with_alpn [alpn] config).
Definition build_tls_config_with_resolver_https : result TlsServerConfig ListenerSetupError :=
  let? config := build_tls_config_with_resolver_plain in Ok (with_alpn https_alpn config).
End tls.

(** ** The names of a certificate *)

Section sans_spec.
Context (m : Machine).

Definition add_san (s : Sans) (san : SanType) : Sans :=
  match san with DnsName n => add_dns m s n | SanIp ip => add_ip s ip end.

(** What the sources name, in the order the code takes them. *)
Definition interface_san (i : Interface) : option SanType :=
  if if_loopback i then None else SanIp <$> if_address i.
Definition extra_san (extra : rstr) : option SanType :=
  let trimmed := trim extra in
  if is_empty trimmed then None
  else Some (from_option SanIp (DnsName trimmed) (parse_ip trimmed)).
Definition host_san : list SanType :=
  match host_name m with
  | Ok (Some name) => if is_empty name then [] else [DnsName name]
  | _ => []
  end.
Definition candidates (extra_sans : list rstr) : list SanType :=
  [DnsName (lit "localhost"); SanIp localhost_v4; SanIp localhost_v6] ++ host_san
  ++ match interfaces m with Ok l => omap interface_san l | Err _ => [] end
  ++ omap extra_san extra_sans.

Lemma foldl_omap {A} (g : A -> option SanType) (f : Sans -> A -> Sans) l s :
  (forall s a, f s a = from_option (add_san s) s (g a)) ->
  foldl f s l = foldl add_san s (omap g l).
Proof.
  intros Hf. revert s. induction l as [|a l IH]; intros s; [done|]. cbn [foldl]. rewrite IH, Hf. simpl.
  by destruct (g a).
Qed.

Lemma collect_sans_candidates extra_sans :
  collect_sans m extra_sans
  = sans (foldl add_san {| sans := []; seen_ips := []; seen_dns := [] |} (candidates extra_sans)).
Proof.
  unfold collect_sans, candidates. rewrite !foldl_app.
  assert (Hx : forall s e, add_extra m s e = from_option (add_san s) s (extra_san e)).
  { intros s e. unfold add_extra, extra_san. destruct (is_empty (trim e)); [done|].
    by destruct (parse_ip (trim e)). }
  rewrite (foldl_omap extra_san (add_extra m)) by exact Hx. do 2 f_equal.
  assert (Hh : forall s, add_host_name m s = foldl add_san s host_san).
  { intros s. unfold add_host_name, host_san. destruct (host_name m) as [[n|]|]; try done.
    by destruct (is_empty n). }
  rewrite <-Hh. destruct (interfaces m) as [l|]; [|done]. apply foldl_omap.
  intros s i. unfold add_interface, interface_san. destruct (if_loopback i); [done|].
  by destruct (if_address i).
Qed.

(** Names that are the same to a client. *)
Definition san_key (san : SanType) : SanType :=
  match san with DnsName n => DnsName (to_lowercase m n) | SanIp ip => SanIp ip end.

(** What the code has after the candidates [cs]. *)
Record SansFor (cs : list SanType) (s : Sans) : Prop := {
  sf_distinct : NoDup (san_key <$> sans s);
  sf_ip : forall ip, SanIp ip ∈ sans s <-> SanIp ip ∈ cs /\ is_unspecified ip = false;
  sf_seen_ip : forall ip, ip ∈ seen_ips s <-> SanIp ip ∈ sans s;
  sf_dns : forall n, DnsName n ∈ sans s -> DnsName n ∈ cs /\ is_ia5 m n = true;
  sf_seen_dns : forall k, k ∈ seen_dns s <-> exists n, DnsName n ∈ cs /\ to_lowercase m n = k;
  sf_cover : forall n, DnsName n ∈ cs ->
    (forall n', DnsName n' ∈ cs -> to_lowercase m n' = to_lowercase m n -> is_ia5 m n' = true) ->
    exists n', DnsName n' ∈ sans s /\ to_lowercase m n' = to_lowercase m n
}.

Lemma sans_for_nil : SansFor [] {| sans := []; seen_ips := []; seen_dns := [] |}.
Proof. split; cbn; try set_solver. constructor. Qed.

Lemma elem_of_snoc (cs : list SanType) x y : x ∈ cs ++ [y] <-> x ∈ cs \/ x = y.
Proof. by rewrite elem_of_app, list_elem_of_singleton. Qed.

Lemma distinct_snoc l x : NoDup (san_key <$> l) -> (forall y, y ∈ l -> san_key y <> san_key x) ->
  NoDup (san_key <$> (l ++ [x])).
Proof.
  intros Hd Hx. rewrite fmap_app. apply NoDup_app. split; [done|]. split; [|apply NoDup_singleton].
  intros k (y & -> & Hy)%list_elem_of_fmap Hk%list_elem_of_singleton. by apply (Hx y).
Qed.

Lemma sans_for_ip cs s ip : SansFor cs s -> SansFor (cs ++ [SanIp ip]) (add_ip s ip).
Proof.
  intros [Hd Hi Hsi Hn Hsn Hc].
  assert (Hcs : forall n, DnsName n ∈ cs ++ [SanIp ip] <-> DnsName n ∈ cs)
    by (intros n; rewrite elem_of_snoc; clear; naive_solver).
  unfold add_ip. destruct (is_unspecified ip) eqn:Hu; [|case_bool_decide as Hin; rewrite Hsi in Hin].
  - split; try (setoid_rewrite Hcs); try done. intros ip'. rewrite elem_of_snoc, Hi.
    split; [intros []; auto|]. intros [[?|[= ->]] ?]; [auto|congruence].
  - split; try (setoid_rewrite Hcs); try done. intros ip'. rewrite elem_of_snoc, Hi.
    apply Hi in Hin. clear - Hin. naive_solver.
  - assert (Hs : forall n, DnsName n ∈ sans s ++ [SanIp ip] <-> DnsName n ∈ sans s)
      by (intros n; rewrite elem_of_snoc; clear; naive_solver).
    split; cbn [sans seen_ips seen_dns]; try (setoid_rewrite Hcs); try (setoid_rewrite Hs); try done.
    + apply distinct_snoc; [done|]. intros [n|ip'] Hy; [done|]. by intros [= ->].
    + intros ip'. rewrite !elem_of_snoc, Hi. clear - Hu. naive_solver.
    + intros ip'. rewrite elem_of_cons, elem_of_snoc, Hsi. clear. naive_solver.
Qed.

(** A name that was already there in some spelling. *)
Lemma sans_for_dns_seen cs s n :
  SansFor cs s -> to_lowercase m n ∈ seen_dns s -> SansFor (cs ++ [DnsName n]) s.
Proof.
  intros [Hd Hi Hsi Hn Hsn Hc] Hin. apply Hsn in Hin as (n0 & Hn0 & Hk). split; try done.
  - intros ip. rewrite elem_of_snoc, Hi. clear. naive_solver.
  - intros n' Hn'%Hn. rewrite elem_of_snoc. clear - Hn'. naive_solver.
  - intros k. rewrite Hsn. setoid_rewrite elem_of_snoc. clear - Hn0 Hk. naive_solver.
  - intros n1 Hn1 Hall. setoid_rewrite elem_of_snoc in Hall.
    assert (exists n2, DnsName n2 ∈ cs /\ to_lowercase m n2 = to_lowercase m n1) as (n2 & Hn2 & H21).
    { apply elem_of_snoc in Hn1 as [Hn1|[= ->]]; [by exists n1|by exists n0]. }
    destruct (Hc n2 Hn2) as (n' & Hn' & He); [|exists n'; split; [done|congruence]].
    intros n' Hn' He. apply Hall; [by left|congruence].
Qed.

Lemma sans_for_dns cs s n : SansFor cs s -> SansFor (cs ++ [DnsName n]) (add_dns m s n).
Proof.
  intros Hf. unfold add_dns. case_bool_decide as Hin; [by apply sans_for_dns_seen|].
  destruct Hf as [Hd Hi Hsi Hn Hsn Hc].
  set (sans' := if is_ia5 m n then _ else _).
  assert (Hs : forall x, x ∈ sans' <-> x ∈ sans s \/ (x = DnsName n /\ is_ia5 m n = true)).
  { intros x. unfold sans'. destruct (is_ia5 m n); [rewrite elem_of_snoc|]; clear; naive_solver. }
  split; cbn [sans seen_ips seen_dns].
  - unfold sans'. destruct (is_ia5 m n); [|done]. apply distinct_snoc; [done|].
    intros [n'|ip] Hy; [|done]. intros [= He]. apply Hin, Hsn. exists n'. split; [exact (proj1 (Hn _ Hy))|done].
  - intros ip. rewrite Hs, elem_of_snoc, Hi. clear. naive_solver.
  - intros ip. rewrite Hs, Hsi. clear. naive_solver.
  - intros n'. rewrite Hs, elem_of_snoc. specialize (Hn n'). clear - Hn. naive_solver.
  - intros k. rewrite elem_of_cons, Hsn. setoid_rewrite elem_of_snoc. clear. naive_solver.
  - setoid_rewrite elem_of_snoc. setoid_rewrite Hs. intros n1 [Hn1|[= ->]] Hall.
    + destruct (Hc n1 Hn1) as (n' & Hn' & He); [|exists n'; auto].
      intros n' Hn'. apply Hall. by left.
    + exists n. split; [|done]. right. split; [done|]. apply Hall; [by right|done].
Qed.

Lemma sans_for_all cs : SansFor cs (foldl add_san {| sans := []; seen_ips := []; seen_dns := [] |} cs).
Proof.
  induction cs as [|[n|ip] cs IH] using rev_ind; [apply sans_for_nil| |]; rewrite foldl_app.
  - by apply sans_for_dns.
  - by apply sans_for_ip.
Qed.

(** C35. The names of a self-signed certificate are exactly those of its sources: an address is
    in it exactly when it is a loopback address of the defaults, an address of an interface
    that is not a loopback, or a configured one, and is not the unspecified address; every
    host name in it comes from a source and can be encoded; no two entries are the same to a
    client, who compares names without case; and a host name of a source is covered, unless
    a spelling of it cannot be encoded. *)
Theorem certificate_names_exact extra_sans :
  let names := collect_sans m extra_sans in
  let sources := candidates extra_sans in
  NoDup (san_key <$> names)
  /\ (forall ip, SanIp ip ∈ names <-> SanIp ip ∈ sources /\ is_unspecified ip = false)
  /\ (forall n, DnsName n ∈ names -> DnsName n ∈ sources /\ is_ia5 m n = true)
  /\ (forall n, DnsName n ∈ sources ->
      (forall n', DnsName n' ∈ sources -> to_lowercase m n' = to_lowercase m n -> is_ia5 m n' = true) ->
      exists n', DnsName n' ∈ names /\ to_lowercase m n' = to_lowercase m n).
Proof.
  cbn zeta. rewrite collect_sans_candidates. destruct (sans_for_all (candidates extra_sans)). auto.
Qed.
End sans_spec.
