(* ===== verification/Mcp.v ===== *)
(** * MCP server

    [interface_adapters/listeners/mcp.rs]: the tools that language models call, over the
    same [ServerOperations] as the HTTP API, the tables some of them render, and the
    settings of the server.  A tool takes
    the parameters that rmcp has deserialized and returns a text.  [serde_json] and the
    streaming HTTP service of rmcp are parameters. *)

From S2P Require Import Prelude RustStr RustNet Metrics FilterEngine Upstream ZoneForwarding ZoneRegistry.
From S2P Require Import ConfigBootstrap Schema Repositories ConfigDb ServerOperations HttpApi Listeners.

(** ** Parameters of the tools *)

Record DnsLookupParams : Type := { dp_domain : rstr }.
Record FilterToggleParams : Type := { tp_enabled : bool }.
Record ListActionParams : Type := { lp_name : rstr }.
Record OptionalListActionParams : Type := { op_name : option rstr }.
Record ZoneSearchParams : Type := {
  sp_query : rstr; sp_zone : option rstr; sp_record_type : option rstr; sp_limit : option nat;
  sp_include_presentation : option bool
}.
Record PresentationParams : Type := { pp_include_presentation : option bool }.
Record AddFilterListParams : Type := {
  af_name : rstr; af_url : rstr; af_interval : option rstr; af_enabled : option bool;
  af_list_type : option rstr
}.
Record UpdateFilterListParams : Type := {
  uf_name : rstr; uf_url : option rstr; uf_interval : option rstr; uf_enabled : option bool;
  uf_list_type : option rstr
}.
Record AddUpstreamServerParams : Type := {
  au_enabled : option bool; au_protocol : rstr; au_address : rstr; au_auth_token : option rstr;
  au_auth_username : option rstr; au_auth_password : option rstr; au_max_hops : option N;
  au_nameserver_ip_family : option rstr; au_root_hints_path : option rstr;
  au_root_key_path : option rstr; au_dnssec : option bool; au_bind_address : option rstr;
  au_fwmark : option N; au_sort_order : option Z
}.
Record UpdateUpstreamServerParams : Type := {
  uu_id : rstr; uu_enabled : option bool; uu_protocol : option rstr; uu_address : option rstr;
  uu_auth_token : option rstr; uu_auth_username : option rstr; uu_auth_password : option rstr;
  uu_max_hops : option N; uu_nameserver_ip_family : option rstr; uu_root_hints_path : option rstr;
  uu_root_key_path : option rstr; uu_dnssec : option bool; uu_bind_address : option (option rstr);
  uu_fwmark : option (option N); uu_sort_order : option Z
}.
Record UpdateResolverConfigParams : Type := {
  ur_strategy : option rstr; ur_bootstrap_resolvers : option (list rstr);
  ur_dns_cache_enabled : option bool; ur_dns_cache_min_ttl : option (option rstr);
  ur_dns_cache_max_ttl : option (option rstr)
}.
Record McpZoneServerInput : Type := {
  ms_enabled : option bool; ms_protocol : rstr; ms_address : rstr; ms_auth_token : option rstr;
  ms_auth_username : option rstr; ms_auth_password : option rstr; ms_check_interval : option rstr;
  ms_max_hops : option N; ms_nameserver_ip_family : option rstr; ms_root_hints_path : option rstr;
  ms_root_key_path : option rstr; ms_dnssec : option bool
}.
Record AddZoneParams : Type := {
  az_zone : rstr; az_enabled : option bool; az_bypass_filter : option bool;
  az_fallback_to_default_resolvers : option bool; az_strategy : option rstr;
  az_servers : option (list McpZoneServerInput)
}.
Record UpdateZoneParams : Type := {
  uzp_zone : rstr; uzp_enabled : option bool; uzp_bypass_filter : option bool;
  uzp_fallback_to_default_resolvers : option bool; uzp_strategy : option rstr;
  uzp_servers : option (list McpZoneServerInput)
}.
Record DeleteByNameParams : Type := { dn_name : rstr }.
Record DeleteZoneParams : Type := { dz_zone : rstr }.
Record AddZoneDiscoveryParams : Type := {
  ad_address : rstr; ad_enabled : option bool; ad_check_interval : option rstr;
  ad_allowed_types : option (list rstr); ad_bypass_filter : option bool;
  ad_fallback_to_default_resolvers : option bool; ad_auth_token : option rstr;
  ad_auth_username : option rstr; ad_auth_password : option rstr
}.
Record UpdateZoneDiscoveryParams : Type := {
  ud_id : rstr; ud_address : option rstr; ud_enabled : option bool; ud_check_interval : option rstr;
  ud_allowed_types : option (list rstr); ud_bypass_filter : option bool;
  ud_fallback_to_default_resolvers : option bool; ud_auth_token : option rstr;
  ud_auth_username : option rstr; ud_auth_password : option rstr
}.
Record DeleteByIdParams : Type := { di_id : rstr }.

(** A [fwmark] field that is present: [None] is the JSON [null]. *)
Inductive FwmarkFieldInput : Type := FwmarkNumber (v : N) | FwmarkString (s : rstr).

Definition deserialize_optional_fwmark_field (value : option FwmarkFieldInput) :
    result (option (option N)) rstr :=
  match value with
  | None => Ok (Some None)
  | Some (FwmarkNumber v) => Ok (Some (Some v))
  | Some (FwmarkString s) =>
      let trimmed := trim s in
      if eq_ignore_ascii_case trimmed (lit "none") || eq_ignore_ascii_case trimmed (lit "null")
      then Ok (Some None)
      else Err (lit "fwmark must be an integer, null, or the string 'None'")
  end.

(** ** Conversion to the inputs of the operations *)

Definition build_mcp_auth (token username password : option rstr) : option AuthenticationInput :=
  if bool_decide (is_Some token) || bool_decide (is_Some username) || bool_decide (is_Some password)
  then Some {| ai_token := token; ai_username := username; ai_password := password |}
  else None.

Definition mcp_server_to_input (s : McpZoneServerInput) : CreateZoneServerInput :=
  {| czs_enabled := ms_enabled s; czs_protocol := ms_protocol s; czs_address := ms_address s;
     czs_authentication := build_mcp_auth (ms_auth_token s) (ms_auth_username s) (ms_auth_password s);
     czs_check_interval := ms_check_interval s; czs_max_hops := ms_max_hops s;
     czs_nameserver_ip_family := ms_nameserver_ip_family s; czs_root_hints_path := ms_root_hints_path s;
     czs_root_key_path := ms_root_key_path s; czs_dnssec := ms_dnssec s |}.

Definition create_list_input (p : AddFilterListParams) : CreateFilterListInput :=
  {| cfl_name := af_name p; cfl_url := af_url p; cfl_interval := af_interval p;
     cfl_enabled := af_enabled p; cfl_list_type := af_list_type p |}.

Definition update_list_input (p : UpdateFilterListParams) : UpdateFilterListInput :=
  {| ufl_url := uf_url p; ufl_interval := uf_interval p; ufl_enabled := uf_enabled p;
     ufl_list_type := uf_list_type p |}.

Definition update_resolver_input (p : UpdateResolverConfigParams) : UpdateResolverConfigInput :=
  {| urc_strategy := ur_strategy p; urc_bootstrap_resolvers := ur_bootstrap_resolvers p;
     urc_dns_cache_enabled := ur_dns_cache_enabled p; urc_dns_cache_min_ttl := ur_dns_cache_min_ttl p;
     urc_dns_cache_max_ttl := ur_dns_cache_max_ttl p |}.

Definition create_upstream_input (p : AddUpstreamServerParams) : CreateUpstreamServerInput :=
  {| cus_enabled := au_enabled p; cus_protocol := au_protocol p; cus_address := au_address p;
     cus_authentication := build_mcp_auth (au_auth_token p) (au_auth_username p) (au_auth_password p);
     cus_max_hops := au_max_hops p; cus_nameserver_ip_family := au_nameserver_ip_family p;
     cus_root_hints_path := au_root_hints_path p; cus_root_key_path := au_root_key_path p;
     cus_dnssec := au_dnssec p; cus_bind_address := au_bind_address p; cus_fwmark := au_fwmark p;
     cus_sort_order := au_sort_order p |}.

Definition update_upstream_input (p : UpdateUpstreamServerParams) : UpdateUpstreamServerInput :=
  {| uus_enabled := uu_enabled p; uus_protocol := uu_protocol p; uus_address := uu_address p;
     uus_authentication := build_mcp_auth (uu_auth_token p) (uu_auth_username p) (uu_auth_password p);
     uus_max_hops := uu_max_hops p; uus_nameserver_ip_family := uu_nameserver_ip_family p;
     uus_root_hints_path := uu_root_hints_path p; uus_root_key_path := uu_root_key_path p;
     uus_dnssec := uu_dnssec p; uus_bind_address := uu_bind_address p; uus_fwmark := uu_fwmark p;
     uus_sort_order := uu_sort_order p |}.

Definition create_zone_input (p : AddZoneParams) : CreateZoneInput :=
  {| cz_zone := az_zone p; cz_enabled := az_enabled p; cz_bypass_filter := az_bypass_filter p;
     cz_fallback_to_default_resolvers := az_fallback_to_default_resolvers p;
     cz_strategy := az_strategy p;
     cz_servers := (fun servers : list McpZoneServerInput => mcp_server_to_input <$> servers) <$> az_servers p |}.

Definition update_zone_input (p : UpdateZoneParams) : UpdateZoneInput :=
  {| uz_enabled := uzp_enabled p; uz_bypass_filter := uzp_bypass_filter p;
     uz_fallback_to_default_resolvers := uzp_fallback_to_default_resolvers p;
     uz_strategy := uzp_strategy p;
     uz_servers := (fun servers : list McpZoneServerInput => mcp_server_to_input <$> servers) <$> uzp_servers p |}.

Definition create_discovery_input (p : AddZoneDiscoveryParams) : CreateZoneDiscoveryInput :=
  {| czd_enabled := ad_enabled p; czd_address := ad_address p; czd_check_interval := ad_check_interval p;
     czd_allowed_types := ad_allowed_types p; czd_bypass_filter := ad_bypass_filter p;
     czd_fallback_to_default_resolvers := ad_fallback_to_default_resolvers p;
     czd_authentication := build_mcp_auth (ad_auth_token p) (ad_auth_username p) (ad_auth_password p) |}.

Definition update_discovery_input (p : UpdateZoneDiscoveryParams) : UpdateZoneDiscoveryInput :=
  {| uzd_enabled := ud_enabled p; uzd_address := ud_address p; uzd_check_interval := ud_check_interval p;
     uzd_allowed_types := ud_allowed_types p; uzd_bypass_filter := ud_bypass_filter p;
     uzd_fallback_to_default_resolvers := ud_fallback_to_default_resolvers p;
     uzd_authentication := build_mcp_auth (ud_auth_token p) (ud_auth_username p) (ud_auth_password p) |}.

(** ** Rendering *)

Definition pipe : rchar := 124.
Definition backslash : rchar := 92.
Definition newline : rchar := 10.
Definition blank : rchar := 32.

(** [str::replace] with a char as the pattern. *)
Definition replace_char (c : rchar) (by_text : rstr) (s : rstr) : rstr :=
  s ≫= fun x => if (x =? c)%N then by_text else [x].

Definition markdown_cell (value : rstr) : rstr :=
  replace_char newline [blank] (replace_char pipe [backslash; pipe] value).

Definition optional_cell (value : option rstr) : rstr :=
  match value with Some v => markdown_cell v | None => lit "-" end.

Definition bool_cell (value : bool) : rstr := if value then lit "yes" else lit "no".

Definition number_cell (value : option Z) : rstr :=
  match value with Some v => display_Z v | None => lit "-" end.

Definition upstream_auth_mode (auth_token auth_username auth_password : option rstr) : rstr :=
  if bool_decide (is_Some auth_token) then lit "bearer"
  else if bool_decide (is_Some auth_username) || bool_decide (is_Some auth_password) then lit "basic"
  else lit "none".

(** A row [| a | b | ... |] of the format strings. *)
Definition table_row (cells : list rstr) : rstr :=
  pipe :: concat ((fun c => blank :: c ++ [blank; pipe]) <$> cells).
Definition rule (n : nat) : list rstr := replicate n (lit "---").
Definition line (s : rstr) : rstr := s ++ [newline].

Definition upstream_cells (server : UpstreamServerRecord) : list rstr :=
  [markdown_cell (usr_id server); bool_cell (usr_enabled server); markdown_cell (usr_protocol server);
   markdown_cell (usr_address server); display_Z (usr_sort_order server);
   optional_cell (usr_bind_address server); number_cell (usr_fwmark server);
   bool_cell (usr_dnssec server);
   upstream_auth_mode (usr_auth_token server) (usr_auth_username server) (usr_auth_password server);
   number_cell (usr_max_hops server); optional_cell (usr_nameserver_ip_family server);
   optional_cell (usr_root_hints_path server); optional_cell (usr_root_key_path server)].

Definition upstream_columns : list rstr :=
  [lit "id"; lit "enabled"; lit "protocol"; lit "address"; lit "sort_order"; lit "bind_address";
   lit "fwmark"; lit "dnssec"; lit "auth"; lit "max_hops"; lit "nameserver_ip_family";
   lit "root_hints_path"; lit "root_key_path"].

Definition render_upstreams_markdown (servers : list UpstreamServerRecord) : rstr :=
  if is_empty servers then lit "No upstream servers configured."
  else line (table_row upstream_columns) ++ line (table_row (rule 13))
       ++ concat ((fun s => line (table_row (upstream_cells s))) <$> servers).

(** [display_seconds] prints the [f64] of seconds that stands for a sum of nanoseconds. *)
Definition render_stats_markdown (display_seconds : N -> rstr) (stats : StatsResult) : rstr :=
  lit "## Summary" ++ [newline; newline]
  ++ line (lit "- filtering_enabled: " ++ bool_cell (sr_filtering_enabled stats))
  ++ line (lit "- uptime_seconds: " ++ display_N (sr_uptime_seconds stats))
  ++ line (lit "- queries_total: " ++ display_N (sr_queries_total stats))
  ++ line (lit "- queries_blocked: " ++ display_N (sr_queries_blocked stats))
  ++ line (lit "- queries_allowed: " ++ display_N (sr_queries_allowed stats))
  ++ line (lit "- queries_passthrough: " ++ display_N (sr_queries_passthrough stats))
  ++ line (lit "- blocklist_hits_total: " ++ display_N (sr_blocklist_hits_total stats))
  ++ line (lit "- cache_hits_total: " ++ display_N (sr_cache_hits_total stats))
  ++ line (lit "- cache_misses_total: " ++ display_N (sr_cache_misses_total stats))
  ++ [newline]
  ++ lit "## Upstreams" ++ [newline; newline]
  ++ (if is_empty (sr_upstreams stats) then line (lit "No upstream metrics available.")
      else line (table_row [lit "upstream"; lit "requests_total"; lit "errors_total";
                            lit "latency_count"; lit "latency_sum_seconds"])
           ++ line (table_row (rule 5))
           ++ concat ((fun u => line (table_row
                [markdown_cell (us_upstream u); display_N (us_requests_total u);
                 display_N (us_errors_total u); display_N (us_latency_count u);
                 display_seconds (us_latency_sum u)])) <$> sr_upstreams stats))
  ++ [newline] ++ lit "## Filter Lists" ++ [newline; newline]
  ++ line (lit "Configured lists: " ++ display_N (N.of_nat (length (sr_lists stats)))).

(** The first format string has the two characters [\n], not a line feed. *)
Definition zone_search_heading (search : ZoneSearchResultList) : rstr :=
  lit "Query: " ++ markdown_cell (zq_query search)
  ++ lit "\nTotal matches: " ++ display_N (N.of_nat (zq_total_matches search))
  ++ lit "\nReturned: " ++ display_N (N.of_nat (length (zq_results search))) ++ lit "\n\n".

Definition zone_search_columns : list rstr :=
  [lit "zone"; lit "name"; lit "type"; lit "ttl"; lit "data"; lit "score"].

Definition zone_search_cells (item : ZoneSearchResult) : list rstr :=
  let record := zsr_record item in
  [markdown_cell (ZoneForwarding.zr_zone record); markdown_cell (ZoneForwarding.zr_name record);
   markdown_cell (ZoneForwarding.zr_record_type record); display_N (ZoneForwarding.zr_ttl record);
   markdown_cell (ZoneForwarding.zr_data record); display_Z (zsr_score item)].

Definition render_zone_search_markdown (search : ZoneSearchResultList) : rstr :=
  zone_search_heading search
  ++ if is_empty (zq_results search) then line (lit "No zone records matched.")
     else line (table_row zone_search_columns) ++ line (table_row (rule 6))
          ++ concat ((fun i => line (table_row (zone_search_cells i))) <$> zq_results search).

(** ** Tools *)

(** What the tools serialize; most of it is what the API serializes as well. *)
Inductive McpData : Type :=
| ApiData (p : Payload)
| LookupData (r : DnsLookupResult)
| ZoneListData (r : ZoneListResult)
| ZoneSearchData (r : ZoneSearchResultList).

Record McpPresentation : Type := { mp_layout : rstr; mp_title : rstr; mp_markdown : rstr }.
Record McpPresentationMeta : Type := { mm_layout_version : rstr }.
Record McpPresentationEnvelope : Type := {
  me_data : McpData; me_display : McpPresentation; me_meta : McpPresentationMeta
}.

Inductive McpValue : Type :=
| PlainValue (d : McpData)
| EnvelopeValue (e : McpPresentationEnvelope).

(** [serde_json::to_string], and the text of [json!({"error": message})]. *)
Record McpJson : Type := {
  mj_to_string : McpValue -> result rstr rstr;
  mj_error_object : rstr -> rstr
}.

Record McpServerState (W : Type) : Type := {
  mcp_ops : ServerOperations W; mcp_shutdown : Cell W bool
}.
Arguments mcp_ops {W} _.
Arguments mcp_shutdown {W} _.

Definition quoted (s : rstr) : rstr := 34%N :: s ++ [34%N].
Definition serialization_failed : rstr :=
  lit "{" ++ quoted (lit "error") ++ lit ":" ++ quoted (lit "serialization failed") ++ lit "}".

Definition unwrap_or {A E} (r : result A E) (d : A) : A := match r with Ok a => a | Err _ => d end.

Section tools.
Context {W : Type} (metrics : Cell W MetricsGlobal) (db_outside : DbOutside W) (urls : UrlParser).
Context (unix_now : M W (option N)) (CARGO_PKG_VERSION : rstr) (display_seconds : N -> rstr).
Context (json : McpJson) (state : McpServerState W).

Definition mcp_value (value : McpValue) : rstr := unwrap_or (mj_to_string json value) serialization_failed.
Definition mcp_json (data : McpData) : rstr := mcp_value (PlainValue data).

Definition mcp_with_presentation (data : McpData) (display : McpPresentation) : rstr :=
  mcp_value (EnvelopeValue {| me_data := data; me_display := display;
                              me_meta := {| mm_layout_version := lit "v1" |} |}).

Definition mcp_error (e : ServerOperationError) : rstr := mj_error_object json (display_error e).

(** [match operation { Ok(result) => text, Err(e) => json!({"error": ...}).to_string() }]. *)
Definition told {A} (text : A -> rstr) (m : M W (OpResult A)) : M W rstr :=
  r <<- m ;; mret (match r with Ok a => text a | Err e => mcp_error e end).
Definition told_data {A} (wrap : A -> Payload) : M W (OpResult A) -> M W rstr :=
  told (fun a => mcp_json (ApiData (wrap a))).

Definition tool_dns_lookup (params : DnsLookupParams) : M W rstr :=
  r <<- dns_lookup (mcp_ops state) (dp_domain params) ;; mret (mcp_json (LookupData r)).
Definition tool_filter_status : M W rstr :=
  r <<- filter_status (mcp_ops state) ;; mret (mcp_json (ApiData (FilterStatusData r))).
Definition tool_filter_toggle (params : FilterToggleParams) : M W rstr :=
  r <<- set_filtering (mcp_ops state) (tp_enabled params) ;; mret (mcp_json (ApiData (ToggleData r))).
Definition tool_list_filters : M W rstr :=
  lists <<- list_filters (mcp_ops state) ;;
  mret (unwrap_or (mj_to_string json (PlainValue (ApiData (ListsData lists)))) (lit "[]")).
Definition tool_refresh_lists (params : OptionalListActionParams) : M W rstr :=
  match op_name params with
  | Some name => told_data RefreshData (op_refresh_list (mcp_ops state) name)
  | None => r <<- op_refresh_all_lists (mcp_ops state) ;; mret (mcp_json (ApiData (RefreshAllData r)))
  end.
Definition tool_get_stats : M W rstr :=
  r <<- get_stats metrics unix_now (mcp_ops state) ;; mret (mcp_json (ApiData (StatsData r))).
Definition tool_get_stats_presented (params : PresentationParams) : M W rstr :=
  r <<- get_stats metrics unix_now (mcp_ops state) ;;
  mret (if negb (default true (pp_include_presentation params)) then mcp_json (ApiData (StatsData r))
        else mcp_with_presentation (ApiData (StatsData r))
               {| mp_layout := lit "stats-summary-v1"; mp_title := lit "DNS Filter Statistics";
                  mp_markdown := render_stats_markdown display_seconds r |}).
Definition tool_get_query_log : M W rstr := told_data QueryLogData (get_query_log (mcp_ops state)).
Definition tool_reload_config : M W rstr := told_data ReloadData (trigger_reload (mcp_ops state)).
Definition tool_server_health : M W rstr :=
  r <<- server_health unix_now CARGO_PKG_VERSION (mcp_ops state) ;; mret (mcp_json (ApiData (HealthData r))).
Definition tool_enable_list (params : ListActionParams) : M W rstr :=
  told_data ListActionData (op_enable_list (mcp_ops state) (lp_name params)).
Definition tool_disable_list (params : ListActionParams) : M W rstr :=
  told_data ListActionData (op_disable_list (mcp_ops state) (lp_name params)).
Definition tool_list_zones : M W rstr :=
  told (fun r => mcp_json (ZoneListData r)) (op_list_zones (mcp_ops state)).
Definition tool_search_zone_records (params : ZoneSearchParams) : M W rstr :=
  told (fun r =>
          if default false (sp_include_presentation params)
          then mcp_with_presentation (ZoneSearchData r)
                 {| mp_layout := lit "zone-search-table-v1"; mp_title := lit "Zone Search Results";
                    mp_markdown := render_zone_search_markdown r |}
          else mcp_json (ZoneSearchData r))
    (search_zone_records (mcp_ops state) (sp_query params) (sp_zone params) (sp_record_type params)
       (sp_limit params)).

Definition tool_list_blocklists : M W rstr :=
  told_data FilterListsData (list_filter_lists (mcp_ops state) (lit "block")).
Definition tool_add_blocklist (params : AddFilterListParams) : M W rstr :=
  told_data FilterListData
    (add_filter_list db_outside (mcp_ops state) (lit "block") (create_list_input params)).
Definition tool_update_blocklist (params : UpdateFilterListParams) : M W rstr :=
  told_data FilterListData
    (update_filter_list (mcp_ops state) (uf_name params) (update_list_input params)).
Definition tool_delete_blocklist (params : DeleteByNameParams) : M W rstr :=
  told_data DeleteData (delete_filter_list (mcp_ops state) (dn_name params)).

Definition tool_list_allowlists : M W rstr :=
  told_data FilterListsData (list_filter_lists (mcp_ops state) (lit "allow")).
Definition tool_add_allowlist (params : AddFilterListParams) : M W rstr :=
  told_data FilterListData
    (add_filter_list db_outside (mcp_ops state) (lit "allow") (create_list_input params)).
Definition tool_update_allowlist (params : UpdateFilterListParams) : M W rstr :=
  told_data FilterListData
    (update_filter_list (mcp_ops state) (uf_name params) (update_list_input params)).
Definition tool_delete_allowlist (params : DeleteByNameParams) : M W rstr :=
  told_data DeleteData (delete_filter_list (mcp_ops state) (dn_name params)).

Definition tool_get_resolver_config : M W rstr :=
  told_data ResolverData (ServerOperations.get_resolver_config (mcp_ops state)).
Definition tool_update_resolver_config (params : UpdateResolverConfigParams) : M W rstr :=
  told_data ResolverData
    (ServerOperations.update_resolver_config (mcp_ops state) (update_resolver_input params)).
Definition tool_list_upstreams : M W rstr :=
  told_data UpstreamsData (list_upstream_servers (mcp_ops state)).
Definition tool_list_upstreams_presented (params : PresentationParams) : M W rstr :=
  told (fun servers =>
          if negb (default true (pp_include_presentation params))
          then mcp_json (ApiData (UpstreamsData servers))
          else mcp_with_presentation (ApiData (UpstreamsData servers))
                 {| mp_layout := lit "upstreams-table-v1"; mp_title := lit "Configured Upstreams";
                    mp_markdown := render_upstreams_markdown servers |})
    (list_upstream_servers (mcp_ops state)).
Definition tool_add_upstream (params : AddUpstreamServerParams) : M W rstr :=
  told_data UpstreamData
    (add_upstream_server db_outside urls (mcp_ops state) (create_upstream_input params)).
Definition tool_update_upstream (params : UpdateUpstreamServerParams) : M W rstr :=
  told_data UpstreamData
    (update_upstream_server urls (mcp_ops state) (uu_id params) (update_upstream_input params)).
Definition tool_delete_upstream (params : DeleteByIdParams) : M W rstr :=
  told_data DeleteData (delete_upstream_server (mcp_ops state) (di_id params)).

Definition tool_list_zone_configs : M W rstr :=
  told_data ZonesData (list_zone_configs (mcp_ops state)).
Definition tool_add_zone (params : AddZoneParams) : M W rstr :=
  told_data ZoneData (add_zone db_outside (mcp_ops state) (create_zone_input params)).
Definition tool_update_zone (params : UpdateZoneParams) : M W rstr :=
  told_data ZoneData
    (update_zone db_outside (mcp_ops state) (uzp_zone params) (update_zone_input params)).
Definition tool_delete_zone (params : DeleteZoneParams) : M W rstr :=
  told_data DeleteData (delete_zone (mcp_ops state) (dz_zone params)).

Definition tool_list_zone_discovery : M W rstr :=
  told_data DiscoveriesData (list_zone_discovery (mcp_ops state)).
Definition tool_add_zone_discovery (params : AddZoneDiscoveryParams) : M W rstr :=
  told_data DiscoveryData
    (add_zone_discovery db_outside (mcp_ops state) (create_discovery_input params)).
Definition tool_update_zone_discovery (params : UpdateZoneDiscoveryParams) : M W rstr :=
  told_data DiscoveryData
    (update_zone_discovery (mcp_ops state) (ud_id params) (update_discovery_input params)).
Definition tool_delete_zone_discovery (params : DeleteByIdParams) : M W rstr :=
  told_data DeleteData (delete_zone_discovery (mcp_ops state) (di_id params)).

(** A call as rmcp's router hands it over: the tool by its name, with its parameters. *)
Inductive ToolCall : Type :=
| DnsLookup (p : DnsLookupParams) | FilterStatus | FilterToggle (p : FilterToggleParams)
| ListFilters | RefreshLists (p : OptionalListActionParams)
| GetStats | GetStatsPresented (p : PresentationParams) | GetQueryLog | ReloadConfig | ServerHealth
| EnableList (p : ListActionParams) | DisableList (p : ListActionParams)
| ListZones | SearchZoneRecords (p : ZoneSearchParams)
| ListBlocklists | AddBlocklist (p : AddFilterListParams) | UpdateBlocklist (p : UpdateFilterListParams)
| DeleteBlocklist (p : DeleteByNameParams)
| ListAllowlists | AddAllowlist (p : AddFilterListParams) | UpdateAllowlist (p : UpdateFilterListParams)
| DeleteAllowlist (p : DeleteByNameParams)
| GetResolverConfig | UpdateResolverConfig (p : UpdateResolverConfigParams)
| ListUpstreams | ListUpstreamsPresented (p : PresentationParams)
| AddUpstream (p : AddUpstreamServerParams) | UpdateUpstream (p : UpdateUpstreamServerParams)
| DeleteUpstream (p : DeleteByIdParams)
| ListZoneConfigs | AddZone (p : AddZoneParams) | UpdateZone (p : UpdateZoneParams)
| DeleteZone (p : DeleteZoneParams)
| ListZoneDiscovery | AddZoneDiscovery (p : AddZoneDiscoveryParams)
| UpdateZoneDiscovery (p : UpdateZoneDiscoveryParams) | DeleteZoneDiscovery (p : DeleteByIdParams).

Definition call_tool (call : ToolCall) : M W rstr :=
  match call with
  | DnsLookup p => tool_dns_lookup p
  | FilterStatus => tool_filter_status
  | FilterToggle p => tool_filter_toggle p
  | ListFilters => tool_list_filters
  | RefreshLists p => tool_refresh_lists p
  | GetStats => tool_get_stats
  | GetStatsPresented p => tool_get_stats_presented p
  | GetQueryLog => tool_get_query_log
  | ReloadConfig => tool_reload_config
  | ServerHealth => tool_server_health
  | EnableList p => tool_enable_list p
  | DisableList p => tool_disable_list p
  | ListZones => tool_list_zones
  | SearchZoneRecords p => tool_search_zone_records p
  | ListBlocklists => tool_list_blocklists
  | AddBlocklist p => tool_add_blocklist p
  | UpdateBlocklist p => tool_update_blocklist p
  | DeleteBlocklist p => tool_delete_blocklist p
  | ListAllowlists => tool_list_allowlists
  | AddAllowlist p => tool_add_allowlist p
  | UpdateAllowlist p => tool_update_allowlist p
  | DeleteAllowlist p => tool_delete_allowlist p
  | GetResolverConfig => tool_get_resolver_config
  | UpdateResolverConfig p => tool_update_resolver_config p
  | ListUpstreams => tool_list_upstreams
  | ListUpstreamsPresented p => tool_list_upstreams_presented p
  | AddUpstream p => tool_add_upstream p
  | UpdateUpstream p => tool_update_upstream p
  | DeleteUpstream p => tool_delete_upstream p
  | ListZoneConfigs => tool_list_zone_configs
  | AddZone p => tool_add_zone p
  | UpdateZone p => tool_update_zone p
  | DeleteZone p => tool_delete_zone p
  | ListZoneDiscovery => tool_list_zone_discovery
  | AddZoneDiscovery p => tool_add_zone_discovery p
  | UpdateZoneDiscovery p => tool_update_zone_discovery p
  | DeleteZoneDiscovery p => tool_delete_zone_discovery p
  end.
End tools.

(** ** The server *)

Record McpServerSettings : Type := {
  mss_addrs : list SocketAddr; mss_stateful_mode : bool; mss_json_response : bool;
  mss_sse_keep_alive : option N; mss_allowed_hosts : list rstr; mss_allowed_origins : list rstr
}.

Definition mcp_default_hosts (addresses : list rstr) (port : N) : list rstr :=
  ((fun a => a ++ lit ":" ++ display_N port)
     <$> List.filter (fun a => negb (str_eqb a (lit "0.0.0.0")) && negb (str_eqb a (lit "::"))) addresses)
  ++ [lit "localhost:" ++ display_N port; lit "127.0.0.1:" ++ display_N port;
      lit "[::1]:" ++ display_N port].

(** [default_keep_alive] and [default_origins] are those of rmcp's default configuration. *)
Definition mcp_server_settings (default_keep_alive : option N) (default_origins : list rstr)
    (config : McpConfig) : result McpServerSettings ListenerSetupError :=
  let? addrs := parse_bind_addrs (mcp_addresses config) (mcp_port config) in
  Ok {| mss_addrs := addrs; mss_stateful_mode := mcp_stateful_mode config;
        mss_json_response := mcp_json_response config;
        mss_sse_keep_alive := match mcp_sse_keep_alive config with
                              | Some secs => Some secs
                              | None => default_keep_alive
                              end;
        mss_allowed_hosts := default (mcp_default_hosts (mcp_addresses config) (mcp_port config))
                               (mcp_allowed_hosts config);
        mss_allowed_origins := if is_empty (mcp_allowed_origins config) then default_origins
                               else mcp_allowed_origins config |}.

(** The application behind each address: the middleware around rmcp's service, which gets
    the tools. *)
Definition mcp_app {W} (service : (ToolCall -> M W rstr) -> HttpRequest -> M W Response)
    (tools : ToolCall -> M W rstr) (config : McpConfig) (request : HttpRequest) : M W Response :=
  bearer_auth_middleware (mcp_api_token config) request (service tools request).

(** ** Reading a table back

    A reader of the tables: a pipe ends a cell unless a backslash stands before it, and
    the blanks around a cell are not part of it. *)

Fixpoint split_cells (escaped : bool) (s : rstr) : list rstr :=
  match s with
  | [] => [[]]
  | c :: rest =>
      if (c =? pipe)%N && negb escaped then [] :: split_cells false rest
      else match split_cells (c =? backslash)%N rest with
           | cell :: cells => (c :: cell) :: cells
           | [] => [[c]]
           end
  end.

Fixpoint unescape (s : rstr) : rstr :=
  match s with
  | c :: rest =>
      match rest with
      | d :: _ => if ((c =? backslash) && (d =? pipe))%N then unescape rest else c :: unescape rest
      | [] => [c]
      end
  | [] => []
  end.

Definition read_cell (piece : rstr) : rstr := unescape (removelast (tail piece)).
Definition read_row (row : rstr) : list rstr := read_cell <$> removelast (tail (split_cells false row)).

Definition read_table (text : rstr) : list (list rstr) :=
  match split newline text with
  | _ :: _ :: rows => read_row <$> removelast rows
  | _ => []
  end.

(** What a cell keeps of a text. *)
Definition one_line (s : rstr) : rstr := replace_char newline [blank] s.
Definition escape (s : rstr) : rstr := replace_char pipe [backslash; pipe] s.

Lemma replace_char_cons c t x s :
  replace_char c t (x :: s) = (if (x =? c)%N then t else [x]) ++ replace_char c t s.
Proof. reflexivity. Qed.

Lemma markdown_cell_escape s : markdown_cell s = escape (one_line s).
Proof.
  induction s as [|x s IH]; [done|]. unfold markdown_cell, escape, one_line in *.
  rewrite !replace_char_cons. destruct (N.eqb_spec x pipe) as [->|Hp].
  - cbn [app]. rewrite !replace_char_cons. by rewrite IH.
  - cbn [app]. rewrite (replace_char_cons newline). destruct (N.eqb_spec x newline) as [->|Hn];
      cbn [app]; rewrite replace_char_cons, IH; [done|]. by rewrite (proj2 (N.eqb_neq x pipe) Hp).
Qed.

Lemma escape_cons x s : escape (x :: s) = (if (x =? pipe)%N then [backslash; pipe] else [x]) ++ escape s.
Proof. apply replace_char_cons. Qed.

Lemma escape_head s : head (escape s) <> Some pipe.
Proof.
  destruct s as [|x s]; [done|]. rewrite escape_cons. destruct (N.eqb_spec x pipe); [done|].
  simpl. congruence.
Qed.

Lemma unescape_escape s : unescape (escape s) = s.
Proof.
  induction s as [|x s IH]; [done|]. rewrite escape_cons. destruct (N.eqb_spec x pipe) as [->|Hx].
  - change (unescape (backslash :: pipe :: escape s) = pipe :: s).
    cbn [unescape]. rewrite !N.eqb_refl. cbn [andb]. rewrite <-IH at 2.
    pose proof (escape_head s) as Hh. destruct (escape s) as [|d r]; [done|].
    simpl in Hh. destruct (N.eqb_spec d pipe); [congruence|]. done.
  - cbn [app]. cbn [unescape]. pose proof (escape_head s) as Hh. destruct (escape s) as [|d r] eqn:He.
    + by rewrite <-IH.
    + simpl in Hh. destruct (N.eqb_spec d pipe); [congruence|]. by rewrite andb_false_r, IH.
Qed.

Lemma escape_whole b s : split_cells b (escape s) = [escape s].
Proof.
  revert b. induction s as [|x s IH]; intros b; [done|]. rewrite escape_cons.
  destruct (N.eqb_spec x pipe) as [->|Hx]; cbn [app split_cells].
  - change (backslash =? pipe)%N with false. rewrite !N.eqb_refl. cbn [andb negb]. by rewrite IH.
  - rewrite (proj2 (N.eqb_neq x pipe) Hx). cbn [andb]. by rewrite IH.
Qed.

Lemma split_cells_cell b a rest :
  split_cells b a = [a] -> split_cells b (a ++ blank :: pipe :: rest) = (a ++ [blank]) :: split_cells false rest.
Proof.
  revert b. induction a as [|c a IH]; intros b Ha; [done|]. cbn [app split_cells] in *.
  destruct ((c =? pipe)%N && negb b); [done|].
  destruct (split_cells (c =? backslash)%N a) as [|p ps] eqn:Hs; [by simplify_eq|].
  simplify_eq. by rewrite IH.
Qed.

Lemma split_row texts :
  split_cells false (table_row (escape <$> texts))
  = [] :: ((fun t => blank :: escape t ++ [blank]) <$> texts) ++ [[]].
Proof.
  unfold table_row. cbn [split_cells]. rewrite N.eqb_refl. cbn [andb negb]. f_equal.
  induction texts as [|t texts IH]; [done|]. cbn [fmap list_fmap concat app].
  rewrite <-app_assoc. cbn [app split_cells]. cbn [N.eqb blank pipe backslash andb].
  change (match split_cells false (escape t ++ blank :: pipe ::
            concat ((fun c : list rchar => blank :: c ++ [blank; pipe]) <$> (escape <$> texts))) with
          | cell :: cells => (blank :: cell) :: cells | [] => [[blank]] end
          = (blank :: escape t ++ [blank]) :: ((fun t => blank :: escape t ++ [blank]) <$> texts) ++ [[]]).
  by rewrite split_cells_cell, IH by apply escape_whole.
Qed.

Lemma read_row_escape texts : read_row (table_row (escape <$> texts)) = texts.
Proof.
  unfold read_row. rewrite split_row. cbn [tail]. rewrite removelast_last, <-list_fmap_compose.
  rewrite <-(list_fmap_id texts) at 2. apply list_fmap_ext. intros _ t _.
  unfold compose, read_cell. cbn [tail]. by rewrite removelast_last, unescape_escape.
Qed.

Lemma read_lines heading ruled (rows : list (list rstr)) :
  newline ∉ heading -> newline ∉ ruled -> Forall (fun r => newline ∉ table_row r) rows ->
  read_table (line heading ++ line ruled ++ concat ((fun r => line (table_row r)) <$> rows))
  = (fun r => read_row (table_row r)) <$> rows.
Proof.
  intros Hh Hr Hrows. unfold read_table, line. rewrite <-!app_assoc. cbn [app].
  rewrite !split_app_char, (split_no_sep _ heading), (split_no_sep _ ruled) by done. cbn [app].
  assert (Hs : split newline (concat ((fun r => table_row r ++ [newline]) <$> rows))
               = (table_row <$> rows) ++ [[]]).
  { induction Hrows as [|r rows Hno _ IH]; [done|]. cbn [fmap list_fmap concat].
    rewrite <-app_assoc. cbn [app]. rewrite split_app_char, (split_no_sep _ _ Hno).
    cbn [app]. f_equal. exact IH. }
  by rewrite Hs, removelast_last, <-list_fmap_compose.
Qed.

Lemma one_line_no_newline s : newline ∉ one_line s.
Proof.
  unfold one_line, replace_char. intros (x & Hx & _)%list_elem_of_bind.
  destruct (N.eqb_spec x newline); apply list_elem_of_singleton in Hx; [discriminate Hx|congruence].
Qed.

Lemma escape_no_newline s : newline ∉ s -> newline ∉ escape s.
Proof.
  intros Hs. unfold escape, replace_char. intros (x & Hx & Hin)%list_elem_of_bind.
  destruct (x =? pipe)%N; [|apply list_elem_of_singleton in Hx; congruence].
  apply elem_of_cons in Hx as [[=]|[=]%list_elem_of_singleton].
Qed.

Lemma row_no_newline texts : newline ∉ table_row (escape <$> (one_line <$> texts)).
Proof.
  unfold table_row. apply not_elem_of_cons. split; [done|].
  induction texts as [|t texts IH]; [apply not_elem_of_nil|]. cbn [fmap list_fmap concat].
  apply not_elem_of_app. split; [|done]. apply not_elem_of_cons. split; [done|].
  apply not_elem_of_app. split; [apply escape_no_newline, one_line_no_newline|]. by set_solver.
Qed.

(** A text without pipes and line ends is its own cell. *)
Definition plain_text (s : rstr) : Prop := Forall (fun c => c <> pipe /\ c <> newline) s.

Lemma replace_char_absent c t s : c ∉ s -> replace_char c t s = s.
Proof.
  induction s as [|x s IH]; [done|]. rewrite not_elem_of_cons, replace_char_cons. intros [Hx Hs].
  by rewrite (proj2 (N.eqb_neq x c)), IH by done.
Qed.

Lemma plain_cell s : plain_text s -> markdown_cell s = s.
Proof.
  intros Hs. unfold markdown_cell, plain_text in *. rewrite Forall_forall in Hs.
  rewrite (replace_char_absent pipe), replace_char_absent; [done|..]; intros Hin; by destruct (Hs _ Hin).
Qed.

Lemma display_Z_plain z : plain_text (display_Z z).
Proof.
  assert (Hn : forall n, plain_text (display_N n)).
  { intros n. eapply Forall_impl; [apply display_N_digits|]. intros c Hc.
    unfold is_ascii_digit, in_range, pipe, newline in *. cbv beta in Hc. lia. }
  unfold display_Z. case_match; [|done]. constructor; [done|apply Hn].
Qed.

(** ** The table of upstream servers *)

Definition text_or_dash (value : option rstr) : rstr := default (lit "-") value.
Definition number_or_dash (value : option Z) : rstr := default (lit "-") (display_Z <$> value).

(** What the table tells of a server, column by column; of the credentials only the mode. *)
Definition upstream_texts (s : UpstreamServerRecord) : list rstr :=
  one_line <$>
  [usr_id s; bool_cell (usr_enabled s); usr_protocol s; usr_address s; display_Z (usr_sort_order s);
   text_or_dash (usr_bind_address s); number_or_dash (usr_fwmark s); bool_cell (usr_dnssec s);
   upstream_auth_mode (usr_auth_token s) (usr_auth_username s) (usr_auth_password s);
   number_or_dash (usr_max_hops s); text_or_dash (usr_nameserver_ip_family s);
   text_or_dash (usr_root_hints_path s); text_or_dash (usr_root_key_path s)].

Definition with_credentials (token username password : option rstr) (s : UpstreamServerRecord) :
    UpstreamServerRecord :=
  {| usr_id := usr_id s; usr_enabled := usr_enabled s; usr_protocol := usr_protocol s;
     usr_address := usr_address s; usr_auth_token := token; usr_auth_username := username;
     usr_auth_password := password; usr_max_hops := usr_max_hops s;
     usr_nameserver_ip_family := usr_nameserver_ip_family s;
     usr_root_hints_path := usr_root_hints_path s; usr_root_key_path := usr_root_key_path s;
     usr_dnssec := usr_dnssec s; usr_sort_order := usr_sort_order s;
     usr_bind_address := usr_bind_address s; usr_fwmark := usr_fwmark s |}.

Lemma bool_cell_plain b : plain_text (bool_cell b).
Proof. destruct b; repeat constructor; done. Qed.

Lemma auth_mode_plain t u p : plain_text (upstream_auth_mode t u p).
Proof. unfold upstream_auth_mode. repeat case_match; repeat constructor; done. Qed.

Lemma number_cell_plain v : number_cell v = number_or_dash v /\ plain_text (number_or_dash v).
Proof. destruct v; [split; [done|apply display_Z_plain]|split; [done|repeat constructor; done]]. Qed.

Lemma optional_cell_text v : optional_cell v = markdown_cell (text_or_dash v).
Proof. by destruct v. Qed.

Lemma upstream_cells_texts s : upstream_cells s = escape <$> upstream_texts s.
Proof.
  unfold upstream_texts. rewrite <-list_fmap_compose.
  rewrite (list_fmap_ext _ markdown_cell) by (intros; symmetry; apply markdown_cell_escape).
  cbn [fmap list_fmap]. unfold upstream_cells. rewrite !optional_cell_text.
  destruct (number_cell_plain (usr_fwmark s)) as [-> Hf], (number_cell_plain (usr_max_hops s)) as [-> Hm].
  by rewrite (plain_cell _ Hf), (plain_cell _ Hm), !(plain_cell _ (bool_cell_plain _)),
    (plain_cell _ (auth_mode_plain _ _ _)), (plain_cell _ (display_Z_plain _)).
Qed.

Lemma upstream_rows servers :
  concat ((fun s => line (table_row (upstream_cells s))) <$> servers)
  = concat ((fun r => line (table_row r)) <$> (fmap escape <$> (upstream_texts <$> servers))).
Proof.
  f_equal. rewrite <-!list_fmap_compose. apply list_fmap_ext. intros _ s _. unfold compose.
  by rewrite upstream_cells_texts.
Qed.

(** [c] are other credentials of the same kind as those of [s]. *)
Definition same_mode (s : UpstreamServerRecord) (c : option rstr * option rstr * option rstr) : Prop :=
  let '(token, username, password) := c in
  upstream_auth_mode token username password
  = upstream_auth_mode (usr_auth_token s) (usr_auth_username s) (usr_auth_password s).
Definition replace_credentials (s : UpstreamServerRecord) (c : option rstr * option rstr * option rstr) :
    UpstreamServerRecord :=
  let '(token, username, password) := c in with_credentials token username password s.

Lemma replaced_cells s c : same_mode s c -> upstream_cells (replace_credentials s c) = upstream_cells s.
Proof.
  destruct c as [[t u] p]. unfold same_mode, upstream_cells. cbn. by intros ->.
Qed.

(** C36. The table of upstream servers says exactly what it should: read back, it has one
    row per server, in order, with the thirteen columns intact whatever pipes and line
    ends the values contain (a line end becomes a blank); and of tokens, user names and
    passwords it tells nothing but which kind of authentication is used: with other
    credentials of the same kind the text is the same. *)
Theorem upstream_table_exact (servers : list UpstreamServerRecord)
    (credentials : list (option rstr * option rstr * option rstr)) :
  read_table (render_upstreams_markdown servers) = upstream_texts <$> servers
  /\ (Forall2 same_mode servers credentials ->
      render_upstreams_markdown (zip_with replace_credentials servers credentials)
      = render_upstreams_markdown servers).
Proof.
  split.
  - destruct servers as [|s servers]; [reflexivity|]. unfold render_upstreams_markdown.
    cbn [is_empty]. rewrite upstream_rows, read_lines.
    + rewrite <-list_fmap_compose. etrans; [|apply list_fmap_id]. apply list_fmap_ext.
      intros _ r _. apply read_row_escape.
    + apply (row_no_newline upstream_columns).
    + apply (row_no_newline (rule 13)).
    + apply Forall_fmap, Forall_fmap, Forall_forall. intros x _. apply row_no_newline.
  - intros H. destruct H as [|s c servers credentials Hc H]; [reflexivity|].
    unfold render_upstreams_markdown. cbn [is_empty zip_with]. do 3 f_equal.
    cbn [fmap list_fmap]. rewrite replaced_cells by done. f_equal.
    induction H as [|s' c' servers credentials Hc' H IH]; [reflexivity|].
    cbn [zip_with fmap list_fmap]. by rewrite replaced_cells, IH by done.
Qed.

(** The heading of a zone search ends without a line end, so the header row of the table
    does not start a line: the first line is the heading followed by the header row. *)
Theorem zone_search_header_glued (search : ZoneSearchResultList) :
  zq_results search <> [] ->
  head (split newline (render_zone_search_markdown search))
  = Some (zone_search_heading search ++ table_row zone_search_columns).
Proof.
  intros Hne. unfold render_zone_search_markdown. destruct (zq_results search) as [|i results]; [done|].
  cbn [is_empty]. generalize (line (table_row (rule 6)) ++ concat
    ((fun i => line (table_row (zone_search_cells i))) <$> i :: results)). intros rest.
  replace (zone_search_heading search ++ line (table_row zone_search_columns) ++ rest)
    with ((zone_search_heading search ++ table_row zone_search_columns) ++ newline :: rest)
    by (unfold line; by rewrite <-!app_assoc).
  rewrite split_app_char, split_no_sep; [done|].
  assert (Hn : forall n, newline ∉ display_N n).
  { intros n Hin. pose proof (display_N_digits n) as Hd. rewrite Forall_forall in Hd.
    by specialize (Hd _ Hin). }
  unfold zone_search_heading. rewrite !not_elem_of_app, markdown_cell_escape. split_and!;
    try apply Hn; try apply escape_no_newline, one_line_no_newline;
    try (apply (bool_decide_unpack _); vm_compute; exact I).
Qed.

(** ** Two interfaces, one set of operations *)

Section agreement.
Context {W : Type} (metrics : Cell W MetricsGlobal) (db_outside : DbOutside W) (urls : UrlParser).
Context (unix_now : M W (option N)) (CARGO_PKG_VERSION : rstr) (display_seconds : N -> rstr).
Context (json : McpJson) (api : ApiState W).

(** [run_daemon] gives both servers the same operations and the same token. *)
Definition mcp_state : McpServerState W := {| mcp_ops := as_ops api; mcp_shutdown := as_shutdown api |}.

(** The handler of the HTTP API that offers what a tool offers. *)
Definition api_counterpart (call : ToolCall) : option (M W Response) :=
  match call with
  | DnsLookup _ | ListZones | SearchZoneRecords _ => None
  | GetStatsPresented _ | ListUpstreamsPresented _ => None
  | FilterStatus => Some (handle_filtering_status unix_now api)
  | FilterToggle p => Some (if tp_enabled p then handle_filtering_enable unix_now api
                            else handle_filtering_disable unix_now api)
  | ListFilters => Some (handle_list_all unix_now api)
  | RefreshLists p => Some (match op_name p with
                            | Some name => handle_refresh_single unix_now api name
                            | None => handle_refresh_all unix_now api
                            end)
  | GetStats => Some (handle_stats metrics unix_now api)
  | GetQueryLog => Some (handle_query_log unix_now api)
  | ReloadConfig => Some (handle_reload unix_now api)
  | ServerHealth => Some (handle_health unix_now CARGO_PKG_VERSION api)
  | EnableList p => Some (handle_enable_list unix_now api (lp_name p))
  | DisableList p => Some (handle_disable_list unix_now api (lp_name p))
  | ListBlocklists => Some (handle_list_blocklists unix_now api)
  | AddBlocklist p => Some (handle_add_blocklist db_outside unix_now api (create_list_input p))
  | UpdateBlocklist p => Some (handle_update_blocklist unix_now api (uf_name p) (update_list_input p))
  | DeleteBlocklist p => Some (handle_delete_blocklist unix_now api (dn_name p))
  | ListAllowlists => Some (handle_list_allowlists unix_now api)
  | AddAllowlist p => Some (handle_add_allowlist db_outside unix_now api (create_list_input p))
  | UpdateAllowlist p => Some (handle_update_allowlist unix_now api (uf_name p) (update_list_input p))
  | DeleteAllowlist p => Some (handle_delete_allowlist unix_now api (dn_name p))
  | GetResolverConfig => Some (handle_get_resolver_config unix_now api)
  | UpdateResolverConfig p => Some (handle_update_resolver_config unix_now api (update_resolver_input p))
  | ListUpstreams => Some (handle_list_upstreams unix_now api)
  | AddUpstream p => Some (handle_add_upstream db_outside urls unix_now api (create_upstream_input p))
  | UpdateUpstream p => Some (handle_update_upstream urls unix_now api (uu_id p) (update_upstream_input p))
  | DeleteUpstream p => Some (handle_delete_upstream unix_now api (di_id p))
  | ListZoneConfigs => Some (handle_list_zone_configs unix_now api)
  | AddZone p => Some (handle_add_zone db_outside unix_now api (create_zone_input p))
  | UpdateZone p => Some (handle_update_zone db_outside unix_now api (uzp_zone p) (update_zone_input p))
  | DeleteZone p => Some (handle_delete_zone unix_now api (dz_zone p))
  | ListZoneDiscovery => Some (handle_list_zone_discovery unix_now api)
  | AddZoneDiscovery p => Some (handle_add_zone_discovery db_outside unix_now api (create_discovery_input p))
  | UpdateZoneDiscovery p =>
      Some (handle_update_zone_discovery unix_now api (ud_id p) (update_discovery_input p))
  | DeleteZoneDiscovery p => Some (handle_delete_zone_discovery unix_now api (di_id p))
  end.

(** The text of a tool for the outcome of an operation. *)
Definition outcome_text (o : OpResult Payload) : rstr -> Prop := fun text =>
  match o with
  | Ok p => (exists t, mj_to_string json (PlainValue (ApiData p)) = Ok t /\ text = t)
            \/ is_ok (mj_to_string json (PlainValue (ApiData p))) = false
               /\ (text = serialization_failed \/ text = lit "[]")
  | Err e => text = mj_error_object json (display_error e)
  end.

(** The tool and the handler perform the same operation: the same outcome in the text and
    in the response, and the same world, in which the handler then reads the clock. *)
Definition agree (tool : M W rstr) (handler : M W Response) (w : W) : Prop :=
  exists o status text w1, tool w = (text, w1) /\ outcome_text o text
    /\ handler w = (outcome status id o (fst (now_unix unix_now w1)), snd (now_unix unix_now w1)).

Lemma reply_json (f : N -> Response) w :
  (timestamp <<- now_unix unix_now ;; mret (f timestamp)) w
  = (f (fst (now_unix unix_now w)), snd (now_unix unix_now w)).
Proof. unfold mbind, mret. by destruct (now_unix unix_now w). Qed.

Lemma text_of_json p d : d = serialization_failed \/ d = lit "[]" ->
  outcome_text (Ok p) (unwrap_or (mj_to_string json (PlainValue (ApiData p))) d).
Proof. intros Hd. cbn [outcome_text]. destruct (mj_to_string json _) as [t|e]; [left; by exists t|by right]. Qed.

Lemma agree_told {A} status (reply : Payload -> M W Response) (wrap : A -> Payload) (m : M W (OpResult A)) w :
  (forall p w, reply p w = (outcome (R := Payload) status id (Ok p) (fst (now_unix unix_now w)),
                            snd (now_unix unix_now w))) ->
  agree (told_data json wrap m) (respond unix_now reply wrap m) w.
Proof.
  intros Hreply. unfold agree, told_data, told, respond, mbind, mret.
  destruct (m w) as [[a|e] w1].
  - exists (Ok (wrap a)), status. do 2 eexists. split; [done|]. split; [by apply text_of_json; left|apply Hreply].
  - exists (Err e), status. do 2 eexists. split; [done|]. split; [done|].
    apply (reply_json (outcome (R := Payload) status id (Err e))).
Qed.

Lemma agree_ok {A} (text : A -> rstr) (wrap : A -> Payload) (m : M W A) w :
  (forall a, outcome_text (Ok (wrap a)) (text a)) ->
  agree (a <<- m ;; mret (text a)) (a <<- m ;; json_ok unix_now (wrap a)) w.
Proof.
  intros Ht. unfold agree, mbind at 1 2, mret at 1. destruct (m w) as [a w1].
  exists (Ok (wrap a)), OK. do 2 eexists. split; [done|]. split; [apply Ht|].
  apply (reply_json (outcome (R := Payload) OK id (Ok (wrap a)))).
Qed.

Lemma agree_reload w : agree (tool_reload_config json mcp_state) (handle_reload unix_now api) w.
Proof.
  unfold agree, tool_reload_config, told_data, told, handle_reload, trigger_reload, mbind, mret.
  cbn [mcp_ops mcp_state]. destruct (so_send_reload (as_ops api) w) as [[] w1].
  - eexists (Ok (ReloadData _)), OK. do 2 eexists. split; [done|]. split; [by apply text_of_json; left|].
    apply (reply_json (outcome (R := Payload) OK id (Ok _))).
  - exists (Err ChannelClosed), OK. do 2 eexists. split; [done|]. split; [done|].
    apply (reply_json (outcome (R := Payload) OK id (Err ChannelClosed))).
Qed.

(** Whatever can be done through the HTTP API and through MCP is the same thing: each
    tool with a counterpart in the API performs the operation of its counterpart on the
    converted parameters, reports the same record or the same error message, and leaves
    the same state behind. *)
Theorem mcp_agrees_with_api (call : ToolCall) (handler : M W Response) (w : W) :
  api_counterpart call = Some handler ->
  agree (call_tool metrics db_outside urls unix_now CARGO_PKG_VERSION display_seconds json mcp_state call)
    handler w.
Proof.
  intros Hc.
  assert (Hok : forall p w, json_ok unix_now p w
    = (outcome (R := Payload) OK id (Ok p) (fst (now_unix unix_now w)), snd (now_unix unix_now w))).
  { intros p ?. apply (reply_json (outcome (R := Payload) OK id (Ok p))). }
  assert (Hcreated : forall p w, json_created unix_now p w
    = (outcome (R := Payload) CREATED id (Ok p) (fst (now_unix unix_now w)), snd (now_unix unix_now w))).
  { intros p ?. apply (reply_json (outcome (R := Payload) CREATED id (Ok p))). }
  destruct call; cbn [api_counterpart call_tool] in *; simplify_eq;
    try (eapply agree_told; eassumption);
    try (eapply agree_ok; intros; apply text_of_json; by auto).
  - destruct p as [[]]; eapply agree_ok; intros; apply text_of_json; by left.
  - destruct p as [[name|]]; [eapply agree_told, Hok|eapply agree_ok; intros; apply text_of_json; by left].
  - apply agree_reload.
Qed.
End agreement.

(** ** Witnesses *)

Module McpExamples.
Definition server : UpstreamServerRecord :=
  {| usr_id := lit "u1"; usr_enabled := true; usr_protocol := lit "doh";
     usr_address := lit "https://dns.example/a|b" ++ [newline] ++ lit "c";
     usr_auth_token := Some (lit "secret-token"); usr_auth_username := None; usr_auth_password := None;
     usr_max_hops := None; usr_nameserver_ip_family := Some (lit "ipv4"); usr_root_hints_path := None;
     usr_root_key_path := None; usr_dnssec := true; usr_sort_order := 10;
     usr_bind_address := Some (lit "10.0.0.2"); usr_fwmark := Some 42%Z |}.

Lemma upstream_table_exact_witness :
  read_table (render_upstreams_markdown [server]) = [upstream_texts server]
  /\ render_upstreams_markdown [with_credentials (Some (lit "other")) None None server]
     = render_upstreams_markdown [server].
Proof.
  destruct (upstream_table_exact [server] [(Some (lit "other"), None, None)]) as [Hread Hsame].
  split; [exact Hread|]. apply Hsame. repeat constructor.
Defined.

Definition search : ZoneSearchResultList :=
  {| zq_query := lit "www";
     zq_results := [{| zsr_record := {| ZoneForwarding.zr_name := lit "www.example.com";
                                        ZoneForwarding.zr_record_type := lit "A";
                                        ZoneForwarding.zr_ttl := 300;
                                        ZoneForwarding.zr_data := lit "203.0.113.10";
                                        ZoneForwarding.zr_zone := lit "example.com" |};
                       zsr_score := 123 |}];
     zq_total_matches := 1; zq_limit := 50 |}.

Lemma zone_search_header_glued_witness :
  head (split newline (render_zone_search_markdown search))
  = Some (lit "Query: www\nTotal matches: 1\nReturned: 1\n\n| zone | name | type | ttl | data | score |").
Proof. exact (zone_search_header_glued search ltac:(discriminate)). Defined.

Definition json : McpJson :=
  {| mj_to_string := fun _ => Ok (lit "{}"); mj_error_object := fun message => message |}.

Lemma mcp_agrees_with_api_witness :
  agree ex_clock json
    (call_tool ex_metrics ex_db_outside ex_urls ex_clock (lit "1.0.0") display_N json (mcp_state ex_api)
       (DeleteBlocklist {| dn_name := lit "ads" |}))
    (handle_delete_blocklist ex_clock ex_api (lit "ads")) ex_listed.
Proof.
  exact (mcp_agrees_with_api ex_metrics ex_db_outside ex_urls ex_clock (lit "1.0.0") display_N json ex_api
           (DeleteBlocklist {| dn_name := lit "ads" |}) _ ex_listed eq_refl).
Defined.

(** A table with a pipe and a line end in an address. *)
Lemma rendered_address :
  head (tail (tail (split newline (render_upstreams_markdown [server]))))
  = Some (lit "| u1 | yes | doh | https://dns.example/a\|b c | 10 | 10.0.0.2 | 42 | yes | bearer | - | ipv4 | - | - |").
Proof. reflexivity. Qed.
End McpExamples.
