(* ===== verification/Admin.v ===== *)
(** * Admin and metrics servers

    [interface_adapters/listeners/admin.rs], [metrics.rs] and [collect_metrics] of
    [frameworks/metrics/mod.rs]: the admin pages with the API on the same origin, the
    redirection to HTTPS, and the plain-text metrics endpoint.  Sockets and TLS are events
    or parameters; the page template and the text encoder are parameters. *)

From S2P Require Import Prelude RustStr RustNet Metrics FilterEngine Upstream ZoneForwarding ZoneRegistry.
From S2P Require Import ConfigBootstrap Schema Repositories ConfigDb ServerOperations HttpApi UpstreamClients Listeners.

(** ** Text *)

(** [str::replace]; the fuel is the length of the text, which every step shortens. *)
Fixpoint replace_fuel (fuel : nat) (pat to s : rstr) : rstr :=
  match fuel with
  | O => s
  | S fuel =>
      match strip_prefix pat s with
      | Some rest => to ++ replace_fuel fuel pat to rest
      | None => match s with [] => [] | c :: rest => c :: replace_fuel fuel pat to rest end
      end
  end.
Definition replace (pat to s : rstr) : rstr := replace_fuel (length s) pat to s.

Definition render_admin_html (ADMIN_PAGE_TEMPLATE : rstr) : rstr :=
  replace (lit "{{API_BASE_URL}}") [] ADMIN_PAGE_TEMPLATE.

(** ** The admin server *)

Record AdminState (W : Type) : Type := {
  ad_ops : ServerOperations W; ad_admin_html : rstr; ad_api_token : option rstr; ad_shutdown : Cell W bool
}.
Arguments ad_ops {W} _.
Arguments ad_admin_html {W} _.
Arguments ad_api_token {W} _.
Arguments ad_shutdown {W} _.

Record RedirectState : Type := { rd_tls_port : N }.
Definition MOVED_PERMANENTLY : N := 301.
Record Redirection : Type := { re_status : N; re_location : rstr }.

(** [host] is the value of the header, [path] the path of the URI. *)
Definition handle_redirect (state : RedirectState) (host : option (list N)) (path : rstr) : Redirection :=
  let host := default (lit "localhost") (let?o v := host in to_str v) in
  let hostname := default host (head (split (ch ":") host)) in
  let location :=
    if (rd_tls_port state =? 443)%N then lit "https://" ++ hostname ++ path
    else lit "https://" ++ hostname ++ lit ":" ++ display_N (rd_tls_port state) ++ path in
  {| re_status := MOVED_PERMANENTLY; re_location := location |}.

Section admin.
Context {W : Type} (metrics : Cell W MetricsGlobal) (db_outside : DbOutside W) (urls : UrlParser).
Context (unix_now : M W (option N)) (CARGO_PKG_VERSION : rstr).
Context (openapi : rstr) (extract : Extractors) (fallback : HttpRequest -> Response).
(** [serde_json::to_string] of a health result. *)
Context (health_json : HealthResult -> option rstr).
Context (state : AdminState W).

Definition handle_admin_page : M W Response :=
  mret {| rs_status := OK; rs_body := RawBody (ad_admin_html state) |}.

Definition quote : rstr := [34%N].
Definition handle_admin_health : M W Response :=
  result <<- server_health unix_now CARGO_PKG_VERSION (ad_ops state) ;;
  mret {| rs_status := OK;
          rs_body := RawBody (default (lit "{" ++ quote ++ lit "status" ++ quote ++ lit ":" ++ quote
                                       ++ lit "error" ++ quote ++ lit "}") (health_json result)) |}.

Definition admin_api_state : ApiState W :=
  {| as_ops := ad_ops state; as_api_token := ad_api_token state; as_shutdown := ad_shutdown state |}.

Definition admin_routes : list (@Route W) := [
  route "/" GET (plain handle_admin_page);
  route "/admin" GET (plain handle_admin_page);
  route "/health" GET (plain handle_admin_health)].

(** The pages merged with the API and its layer. *)
Definition admin_router (request : HttpRequest) : M W Response :=
  match path_routes admin_routes (rq_path request) with
  | [] => default (mret (fallback request))
            (api_router metrics db_outside urls unix_now openapi extract admin_api_state request)
  | routes => method_router routes request
  end.
End admin.

(** ** Serving *)

(** What the [select!] of an HTTPS server sees. *)
Inductive HttpsEvent : Type :=
| HttpsAcceptFailed
| HttpsAccepted (handshake : bool) (requests : list HttpRequest)
| HttpsShutdown.

Section serving.
Context {W Sock : Type} (app : HttpRequest -> M W Response) (sockets : SocketEnv W Sock).

(** The requests of a connection, in order. *)
Fixpoint serve_connection (requests : list HttpRequest) : M W (list Response) :=
  match requests with
  | [] => mret []
  | request :: rest =>
      response <<- app request ;; responses <<- serve_connection rest ;; mret (response :: responses)
  end.

(** The responses, connection by connection, and whether the server has stopped. *)
Fixpoint serve_https (events : list HttpsEvent) : M W (list (list Response) * bool) :=
  match events with
  | [] => mret ([], false)
  | HttpsShutdown :: _ => mret ([], true)
  | HttpsAcceptFailed :: rest => serve_https rest
  | HttpsAccepted handshake requests :: rest =>
      served <<- (if handshake : bool then serve_connection requests else mret []) ;;
      others <<- serve_https rest ;;
      mret (served :: fst others, snd others)
  end.

(** The socket of a server; a failure ends the process with the text. *)
Definition open_listener (bind_text nonblocking_text create_text : rstr) (addr : SocketAddr) :
  M W (result Sock rstr) :=
  std_listener <?- mmap_err (fun e => bind_text ++ lit ": " ++ e) (bind_tcp sockets addr) ;;
  mmap_err (fun e => nonblocking_text ++ lit ": " ++ e) (socket_set sockets std_listener Nonblocking) ?;;
  (mmap_err (fun e => create_text ++ lit ": " ++ e) (socket_from_std sockets std_listener) ?;;
   mret (Ok std_listener)).

Definition on_addr (text : rstr) (addr : SocketAddr) : rstr := text ++ display_socket_addr addr.
Definition open_api_listener (addr : SocketAddr) : M W (result Sock rstr) :=
  open_listener (on_addr (lit "failed to bind HTTP API on ") addr)
    (lit "failed to set non-blocking on HTTP socket")
    (lit "failed to create tokio listener from socket") addr.
(** [name] is [HTTP], [HTTPS] or [HTTP redirect]. *)
Definition open_admin_listener (name : rstr) (addr : SocketAddr) : M W (result Sock rstr) :=
  open_listener (on_addr (lit "failed to bind admin " ++ name ++ lit " on ") addr)
    (lit "failed to set non-blocking on admin " ++ name ++ lit " socket")
    (lit "failed to create tokio listener for admin " ++ name) addr.
End serving.

(** The CORS layer of the API: [AnyOrigin] where no origin is given. *)
Inductive AllowOrigin : Type := AnyOrigin | OriginList (origins : list rstr).
Record CorsLayer : Type := { cors_origin : AllowOrigin; cors_methods : list rstr; cors_headers : list rstr }.
(** [valid] is whether a text is a header value. *)
Definition build_cors_layer (valid : rstr -> bool) (allowed_origins : list rstr) : CorsLayer :=
  {| cors_origin := if is_empty allowed_origins then AnyOrigin else OriginList (List.filter valid allowed_origins);
     cors_methods := [lit "GET"; lit "POST"; lit "PUT"; lit "DELETE"; lit "OPTIONS"];
     cors_headers := [lit "authorization"; lit "content-type"] |}.

(** Each server binds its socket, then serves its application; [axum::serve] is a library
    call, the TLS servers run their own loop. *)
Section servers.
Context {W Sock : Type} (metrics : Cell W MetricsGlobal) (db_outside : DbOutside W) (urls : UrlParser).
Context (unix_now : M W (option N)) (CARGO_PKG_VERSION : rstr).
Context (openapi : rstr) (extract : Extractors) (fallback : HttpRequest -> Response).
Context (health_json : HealthResult -> option rstr) (sockets : SocketEnv W Sock).
Context (axum_serve : Sock -> (HttpRequest -> M W Response) -> M W (result unit rstr)).
Context (axum_serve_redirects : Sock -> (option (list N) -> rstr -> Redirection) -> M W (result unit rstr)).
Context (valid_header : rstr -> bool) (cors_service : CorsLayer -> HttpRequest -> option Response).

Definition start_http_admin_server (addr : SocketAddr) (state : AdminState W) : M W (result unit rstr) :=
  listener <?- open_admin_listener sockets (lit "HTTP") addr ;;
  axum_serve listener (admin_router metrics db_outside urls unix_now CARGO_PKG_VERSION openapi extract
                         fallback health_json state).

Definition start_https_admin_server (addr : SocketAddr) (state : AdminState W) (events : list HttpsEvent) :
  M W (result (list (list Response) * bool) rstr) :=
  open_admin_listener sockets (lit "HTTPS") addr ?;;
  (served <<- serve_https (admin_router metrics db_outside urls unix_now CARGO_PKG_VERSION openapi extract
                             fallback health_json state) events ;;
   mret (Ok served)).

Definition start_redirect_server (addr : SocketAddr) (tls_port : N) : M W (result unit rstr) :=
  listener <?- open_admin_listener sockets (lit "HTTP redirect") addr ;;
  axum_serve_redirects listener (handle_redirect {| rd_tls_port := tls_port |}).

(** The events matter with TLS only. *)
Definition start_api_server (addr : SocketAddr) (state : ApiState W) (tls_config : option TlsServerConfig)
  (allowed_origins : list rstr) (events : list HttpsEvent) : M W (result unit rstr) :=
  let cors := build_cors_layer valid_header allowed_origins in
  let app := api_app metrics db_outside urls unix_now CARGO_PKG_VERSION openapi extract fallback
               (cors_service cors) state in
  listener <?- open_api_listener sockets addr ;;
  match tls_config with
  | Some _ => serve_https app events ;;; mret (Ok tt)
  | None => axum_serve listener app
  end.
End servers.

(** The servers of a configuration: with TLS the pages and the API are on the TLS address
    only, and the HTTP address redirects. *)
Inductive AdminServer : Type :=
| AdminHttp (addr : SocketAddr)
| AdminHttps (addr : SocketAddr) (tls : TlsServerConfig)
| AdminRedirect (addr : SocketAddr) (tls_port : N).

(** [None]: the [expect] on a missing TLS address panics. *)
Definition start_admin_servers (http_addr : SocketAddr) (tls_addr : option SocketAddr)
  (tls_config : option TlsServerConfig) (tls_port : N) : option (list AdminServer) :=
  match tls_config with
  | Some tls_cfg =>
      let?o tls_addr := tls_addr in
      Some [AdminRedirect http_addr tls_port; AdminHttps tls_addr tls_cfg]
  | None => Some [AdminHttp http_addr]
  end.

(** ** Metrics *)

Definition READ_LIMIT : nat := 4096.

Section metrics_server.
Context {W : Type}.
(** [collect_metrics] encodes the registry ([gather] and [TextEncoder] of prometheus);
    [None] is an error. *)
Context (encode_registry : M W (option (list N))).

Definition collect_metrics : M W (option rstr) :=
  buffer <<- encode_registry ;; mret (let?o b := buffer in
    let s := from_utf8_lossy b in if bool_decide (as_bytes s = b) then Some s else None).

Definition crlf : rstr := [13; 10]%N.
Definition http_text (status content_type body : rstr) : rstr :=
  lit "HTTP/1.1 " ++ status ++ crlf ++ lit "Content-Type: " ++ content_type ++ crlf
  ++ lit "Content-Length: " ++ display_N (N.of_nat (str_len body)) ++ crlf
  ++ lit "Connection: close" ++ crlf ++ crlf ++ body.

Definition metrics_response (first_line : rstr) : M W rstr :=
  if starts_with (lit "GET /metrics ") first_line || str_eqb first_line (lit "GET /metrics") then
    body <<- collect_metrics ;;
    mret (http_text (lit "200 OK") (lit "text/plain; version=0.0.4") (default [] body))
  else mret (http_text (lit "404 Not Found") (lit "text/plain; charset=utf-8") (lit "Not Found")).

(** [chunk] is what the first read returned: at most [READ_LIMIT] bytes.  [None] is a
    connection closed without a response. *)
Definition metrics_connection (chunk : list N) : M W (option rstr) :=
  if is_empty chunk then mret None
  else
    let req := from_utf8_lossy (take READ_LIMIT chunk) in
    let first_line := default [] (head (lines req)) in
    response <<- metrics_response first_line ;; mret (Some response).

(** One connection of the TLS server; a failed handshake ends it. *)
Definition metrics_tls_connection (handshake : bool) (chunk : list N) : M W (option rstr) :=
  if handshake then metrics_connection chunk else mret None.

(** [accept] returning an error ends the server. *)
Fixpoint metrics_loop (connections : list (option (list N))) : M W (list (option rstr)) :=
  match connections with
  | [] => mret []
  | None :: _ => mret []
  | Some chunk :: rest =>
      response <<- metrics_connection chunk ;; others <<- metrics_loop rest ;; mret (response :: others)
  end.
End metrics_server.

(** The length of the text is enough fuel: more of it changes nothing. *)
Lemma replace_fuel_enough pat to : pat <> [] ->
  forall fuel fuel' s, length s <= fuel -> length s <= fuel' -> replace_fuel fuel pat to s = replace_fuel fuel' pat to s.
Proof.
  intros Hpat. induction fuel as [|fuel IH]; intros fuel' s Hs Hs'.
  - destruct s; [|simpl in Hs; lia]. destruct fuel'; [done|]. simpl.
    destruct (strip_prefix pat []) as [rest|] eqn:Hp; [|done].
    apply strip_prefix_Some in Hp. by destruct pat.
  - destruct fuel' as [|fuel'].
    { destruct s; [|simpl in Hs'; lia]. simpl. destruct (strip_prefix pat []) as [rest|] eqn:Hp; [|done].
      apply strip_prefix_Some in Hp. by destruct pat. }
    simpl. destruct (strip_prefix pat s) as [rest|] eqn:Hp.
    + apply strip_prefix_Some in Hp as ->. rewrite length_app in Hs, Hs'.
      destruct pat; [done|]. simpl in Hs, Hs'. f_equal. apply IH; lia.
    + destruct s as [|c s]; [done|]. simpl in Hs, Hs'. f_equal. apply IH; lia.
Qed.

(** The loop of a TLS server ends exactly on the cancellation: neither failed connections
    nor failed handshakes end it. *)
Lemma serve_https_ends {W} (app : HttpRequest -> M W Response) events w :
  snd (fst (serve_https app events w)) = true <-> HttpsShutdown ∈ events.
Proof.
  revert w. induction events as [|[|handshake requests|] events IH]; intros w.
  - split; [done|]. intros H. by apply not_elem_of_nil in H.
  - rewrite elem_of_cons. cbn [serve_https]. rewrite IH. naive_solver.
  - rewrite elem_of_cons. cbn [serve_https]. unfold mbind.
    match goal with |- context [let '(_, _) := ?m w in _] => destruct (m w) as [served w1] end.
    specialize (IH w1).
    destruct (serve_https app events w1) as [others w2]. cbn in *. naive_solver.
  - rewrite elem_of_cons. naive_solver.
Qed.

(** ** One origin for the pages and the API *)

Lemma match_plain pattern path captures :
  forallb (negb ∘ is_param) (split slash pattern) = true ->
  match_path pattern path = Some captures -> path = pattern.
Proof.
  intros Hp H%match_literal; [|done]. by rewrite <-(join_split slash path), H, join_split.
Qed.

Lemma no_match pattern path :
  forallb (negb ∘ is_param) (split slash pattern) = true -> path <> pattern -> match_path pattern path = None.
Proof.
  intros Hp Hne. destruct (match_path pattern path) eqn:Hm; [|done]. by apply match_plain in Hm.
Qed.

Section same_api.
Context {W : Type} (metrics : Cell W MetricsGlobal) (db_outside : DbOutside W) (urls : UrlParser).
Context (unix_now : M W (option N)) (CARGO_PKG_VERSION : rstr).
Context (openapi : rstr) (extract : Extractors) (fallback : HttpRequest -> Response).
Context (cors : HttpRequest -> option Response) `{!CorsService cors}.
Context (health_json : HealthResult -> option rstr) (state : AdminState W).

Abbreviation admin := (admin_router metrics db_outside urls unix_now CARGO_PKG_VERSION openapi extract
                         fallback health_json state).
Abbreviation api := (api_app metrics db_outside urls unix_now CARGO_PKG_VERSION openapi extract
                       fallback cors (admin_api_state state)).
Abbreviation routes := (api_routes metrics db_outside urls unix_now openapi extract (admin_api_state state)).
Abbreviation pages := [lit "/"; lit "/admin"; lit "/health"].

Lemma admin_router_routed request w : rq_path request ∉ pages ->
  admin request w = match path_routes routes (rq_path request) with
                    | [] => (fallback request, w)
                    | found => if authorized (ad_api_token state) request
                               then method_router found request w else (denied request, w)
                    end.
Proof.
  rewrite !not_elem_of_cons. intros (H1 & H2 & H3 & _).
  unfold admin_router, api_router. unfold path_routes at 1, admin_routes, route. cbn [omap list_omap rt_path].
  rewrite !no_match by (assumption || reflexivity). cbn [fmap option_fmap option_map].
  destruct (path_routes routes _) as [|rc found]; [done|]. cbn [from_option id]. by rewrite bearer_auth_exact.
Qed.

Lemma admin_page_served request w : rq_path request = lit "/" \/ rq_path request = lit "/admin" ->
  rq_method request = GET ->
  admin request w = ({| rs_status := OK; rs_body := RawBody (ad_admin_html state) |}, w).
Proof.
  intros Hpath Hget. unfold admin_router, path_routes, admin_routes, route. cbn [omap list_omap rt_path].
  assert (Hself : forall p, p = lit "/" \/ p = lit "/admin" -> match_path p p = Some [])
    by (intros p [-> | ->]; reflexivity).
  assert (Hne : lit "/" <> lit "/admin") by discriminate.
  assert (Hacc : accepts GET GET = true) by reflexivity.
  destruct Hpath as [Hp|Hp]; rewrite Hp, (no_match (lit "/health")) by (discriminate || reflexivity).
  - rewrite Hself, no_match by (auto || reflexivity). cbn [fmap option_fmap option_map].
    unfold method_router. cbn [List.find fst rt_method rt_endpoint]. by rewrite Hget, Hacc.
  - rewrite Hself, no_match by (auto || reflexivity). cbn [fmap option_fmap option_map].
    unfold method_router. cbn [List.find fst rt_method rt_endpoint]. by rewrite Hget, Hacc.
Qed.

(** C39. The admin server adds pages to the API and takes nothing from its protection: a
    request for a page is answered with the page and changes nothing; a request for any
    other path, with any method, is refused with nothing changed unless it carries the
    token; and with any method but OPTIONS, which the CORS layer of the API server answers
    by itself and the admin server does not have, it is answered as the API server with the
    same token answers it, up to the headers of that layer. *)
Theorem admin_serves_same_api request w :
  let served := admin_router metrics db_outside urls unix_now CARGO_PKG_VERSION openapi extract
                  fallback health_json state request w in
  (rq_path request = lit "/" \/ rq_path request = lit "/admin" -> rq_method request = GET ->
   served = ({| rs_status := OK; rs_body := RawBody (ad_admin_html state) |}, w))
  /\ (rq_path request ∉ pages ->
      (rq_method request <> OPTIONS -> served = api request w)
      /\ (authorized (ad_api_token state) request = false ->
          snd served = w /\ (fst served = denied request \/ fst served = fallback request))).
Proof.
  cbn zeta. split; [apply admin_page_served|]. intros Hpath. rewrite admin_router_routed by done. split.
  - intros Hm. symmetry. apply api_app_routed; [done|intros He; apply Hpath; rewrite He; set_solver|done].
  - intros Hauth. rewrite Hauth. destruct (path_routes _ _); [by split; [|right]|by split; [|left]].
Qed.
End same_api.

(** ** Redirection *)

(** The address of a page on the TLS port. *)
Definition https_url (name : rstr) (tls_port : N) (path : rstr) : rstr :=
  lit "https://" ++ name ++ (if (tls_port =? 443)%N then [] else lit ":" ++ display_N tls_port) ++ path.

(** A host name, with or without a port, is kept with the path. *)
Lemma redirect_location tls_port name port path :
  forallb visible name = true -> ch ":" ∉ name ->
  re_location (handle_redirect {| rd_tls_port := tls_port |} (Some name) path) = https_url name tls_port path
  /\ re_location (handle_redirect {| rd_tls_port := tls_port |}
                    (Some (name ++ lit ":" ++ display_N port)) path) = https_url name tls_port path.
Proof.
  intros Hv Hc. unfold handle_redirect, https_url, to_str. cbn [rd_tls_port re_location].
  rewrite forallb_app, Hv.
  assert (forallb visible (lit ":" ++ display_N port) = true) as ->.
  { rewrite forallb_app. apply andb_true_iff. split; [done|]. apply forallb_forall.
    intros c Hin%list_elem_of_In. pose proof (display_N_digits port) as Hd. rewrite Forall_forall in Hd.
    apply Hd in Hin. unfold is_ascii_digit, in_range, visible in *. lia. }
  cbn [andb from_option id]. rewrite split_no_sep by done.
  change (name ++ lit ":" ++ display_N port) with (name ++ ch ":" :: display_N port).
  rewrite split_app_char, (split_no_sep _ name) by done. cbn [app head from_option id].
  by destruct (tls_port =? 443)%N.
Qed.

(** An IPv6 literal is not: the name ends at its first colon. *)
Lemma redirect_ipv6_literal :
  re_location (handle_redirect {| rd_tls_port := 8443 |} (Some (lit "[::1]:8080")) (lit "/admin"))
  = lit "https://[:8443/admin".
Proof. by vm_compute. Qed.

(** ** Rendering *)

Lemma render_no_placeholder : render_admin_html (lit "a{{API_BASE_URL}}b{{API_BASE_URL}}") = lit "ab".
Proof. by vm_compute. Qed.

(** The admin server over the database of the API examples. *)
Definition ex_admin : AdminState Database :=
  {| ad_ops := ex_ops; ad_admin_html := lit "<html>"; ad_api_token := Some (lit "secret");
     ad_shutdown := {| cget := fun _ => false; cput := fun _ w => w |} |}.

Lemma admin_serves_same_api_witness :
  let request := ex_http_request DELETE (lit "/api/v1/blocklists/ads") (Some (lit "Bearer secret")) in
  admin_router ex_metrics ex_db_outside ex_urls ex_clock (lit "1.0.0") (lit "{}") ex_extract
    (fun _ => {| rs_status := NOT_FOUND; rs_body := NoBody |}) (fun _ => None) ex_admin request ex_listed
  = ex_app request ex_listed.
Proof.
  pose proof (admin_serves_same_api ex_metrics ex_db_outside ex_urls ex_clock (lit "1.0.0") (lit "{}") ex_extract
    (fun _ => {| rs_status := NOT_FOUND; rs_body := NoBody |}) ex_cors (fun _ => None) ex_admin
    (ex_http_request DELETE (lit "/api/v1/blocklists/ads") (Some (lit "Bearer secret"))) ex_listed) as [_ H].
  apply H; [|discriminate]. apply (bool_decide_unpack _). vm_compute. exact I.
Defined.
