(* ===== verification/CertTime.v ===== *)
(** * Certificate expiry

    The pure part of [frameworks/acme/mod.rs]: the reader of durations, the minimal DER
    reader that finds the end of validity of an X.509 certificate, and the conversion of an
    ASN.1 time to seconds since the epoch.  Bytes and positions are [N]; [get] is
    [slice::get].  The calendar of the theorems is stated on its own ([next_date]). *)

From S2P Require Import Prelude RustStr FilterEngine.

(** ** Errors of [frameworks/acme] *)

Inductive DnsProviderError : Type :=
| ProviderHttp (message : rstr)
| ProviderApi (status : N) (message : rstr)
| ZoneNotFound (domain : rstr)
| ProviderConfig (message : rstr).

Inductive AcmeError : Type :=
| AcmeProtocol (message : rstr)
| AcmeDnsProvider (e : DnsProviderError)
| AcmeIo (message : rstr)
| AcmeKey (message : rstr)
| AcmeExpired
| AcmeConfigError (message : rstr).

(** ** Durations, in seconds *)

Definition invalid_number (s : rstr) : AcmeError :=
  AcmeConfigError (lit "invalid duration '" ++ s ++ lit "': not a valid number").

Definition parse_duration (s : rstr) : result N AcmeError :=
  let s := trim s in
  if is_empty s then Err (AcmeConfigError (lit "empty duration string"))
  else
    let? split :=
      match strip_suffix (lit "d") s with
      | Some n => Ok (n, 86400%N)
      | None =>
          match strip_suffix (lit "h") s with
          | Some n => Ok (n, 3600%N)
          | None =>
              match strip_suffix (lit "m") s with
              | Some n => Ok (n, 60%N)
              | None =>
                  match strip_suffix (lit "s") s with
                  | Some n => Ok (n, 1%N)
                  | None => Err (AcmeConfigError (lit "invalid duration '" ++ s
                                   ++ lit "': must end with d, h, m, or s"))
                  end
              end
          end
      end in
    let '(num_str, unit) := split in
    let? num := ok_or (parse_u64 num_str) (invalid_number s) in
    Ok (wrapping_mul_u64 num unit).

(** ** DER *)

Definition get (der : list N) (pos : N) : option N :=
  if (pos <? N.of_nat (length der))%N then der !! N.to_nat pos else None.

(** [der.get(pos..pos + len)]. *)
Definition get_range (der : list N) (pos len : N) : option (list N) :=
  if (pos + len <=? N.of_nat (length der))%N
  then Some (take (N.to_nat len) (drop (N.to_nat pos) der)) else None.

(** [usize] has 64 bits: the shift drops what leaves them. *)
Fixpoint read_length_bytes (der : list N) (count : nat) (len pos : N) : option (N * N) :=
  match count with
  | O => Some (len, pos)
  | S count =>
      let?o b := get der pos in
      let len := ((len * 256) mod u64_modulus + b)%N in
      if (len <? u64_modulus)%N then read_length_bytes der count len (pos + 1) else None
  end.

Definition parse_asn1_length (der : list N) (pos : N) : option (N * N) :=
  let?o first := get der pos in
  if (first <? 128)%N then Some (first, pos + 1)%N
  else
    let num_bytes := N.land first 127 in
    if (4 <? num_bytes)%N then None
    else read_length_bytes der (N.to_nat num_bytes) 0 (pos + 1).

Definition skip_tag_and_length (der : list N) (pos expected_tag : N) : option N :=
  let?o tag := get der pos in
  if (tag =? expected_tag)%N then snd <$> parse_asn1_length der (pos + 1) else None.

Definition skip_tlv (der : list N) (pos : N) : option N :=
  let?o (len, pos) := parse_asn1_length der (pos + 1) in Some (pos + len)%N.

(** ** Times *)

(** [std::str::from_utf8]: the bytes are valid exactly when decoding loses nothing. *)
Definition from_utf8 (bytes : list N) : option rstr :=
  let s := from_utf8_lossy bytes in
  if bool_decide (as_bytes s = bytes) then Some s else None.

(** [s.split_at] at a byte offset, where it is the boundary of a char. *)
Fixpoint split_at_byte (s : rstr) (n : nat) : option (rstr * rstr) :=
  match n, s with
  | O, _ => Some ([], s)
  | _, [] => None
  | _, c :: rest =>
      if Nat.leb (len_utf8 c) n
      then let?o (a, b) := split_at_byte rest (n - len_utf8 c) in Some (c :: a, b)
      else None
  end.

(** [s.get(from..to)] and [s.get(from..)]. *)
Definition str_get (s : rstr) (from to : nat) : option rstr :=
  let?o (_, rest) := split_at_byte s from in fst <$> split_at_byte rest (to - from).
Definition str_get_from (s : rstr) (from : nat) : option rstr := snd <$> split_at_byte s from.

Definition u64_of (z : Z) : Z := (z mod 2 ^ 64)%Z.

(** The intermediate values are [u64]s and wrap. *)
Definition days_from_civil (year month day : Z) : Z :=
  let y := if (month <=? 2)%Z then (year - 1)%Z else year in
  let era := Z.quot (if (0 <=? y)%Z then y else y - 399) 400 in
  let yoe := u64_of (y - era * 400) in
  let m := u64_of month in
  let doy := u64_of (if (2 <? m)%Z then (153 * (m - 3) + 2) / 5 + u64_of day - 1
                     else (153 * (m + 9) + 2) / 5 + u64_of day - 1) in
  let doe := u64_of (yoe * 365 + yoe / 4 - yoe / 100 + doy) in
  (era * 146097 + as_i64 doe)%Z.

Definition two_digits (s : rstr) (from : nat) : option Z :=
  let?o t := str_get s from (from + 2) in Z.of_N <$> parse_u32 t.

(** The number of seconds since the epoch. *)
Definition parse_asn1_time (tag : N) (bytes : list N) : option N :=
  let?o s := from_utf8 bytes in
  let?o (year, rest) :=
    if (tag =? 0x17)%N then
      let?o y := two_digits s 0 in
      let?o rest := str_get_from s 2 in
      Some (if (50 <=? y)%Z then 1900 + y else 2000 + y, rest)%Z
    else if (tag =? 0x18)%N then
      let?o t := str_get s 0 4 in
      let?o year := Z.of_N <$> parse_u32 t in
      let?o rest := str_get_from s 4 in
      Some (year, rest)
    else None in
  let?o month := two_digits rest 0 in
  let?o day := two_digits rest 2 in
  let?o hour := two_digits rest 4 in
  let?o minute := two_digits rest 6 in
  let?o second := two_digits rest 8 in
  let days := days_from_civil year month day in
  let secs := (days * 86400 + hour * 3600 + minute * 60 + second)%Z in
  let unix_epoch_days := days_from_civil 1970 1 1 in
  let unix_secs := (secs - unix_epoch_days * 86400)%Z in
  if (unix_secs <? 0)%Z then None else Some (Z.to_N unix_secs).

Definition parse_x509_not_after (der : list N) : option N :=
  let?o pos := skip_tag_and_length der 0 0x30 in
  let?o pos := skip_tag_and_length der pos 0x30 in
  let?o b := get der pos in
  let?o pos := if (b =? 0xA0)%N then skip_tlv der pos else Some pos in
  let?o pos := skip_tlv der pos in
  let?o pos := skip_tlv der pos in
  let?o pos := skip_tlv der pos in
  let?o pos := skip_tag_and_length der pos 0x30 in
  let?o pos := skip_tlv der pos in
  let?o tag := get der pos in
  let?o (len, pos) := parse_asn1_length der (pos + 1) in
  let?o time_bytes := get_range der pos len in
  parse_asn1_time tag time_bytes.
Definition x509_parser_not_after (der : list N) : option N := parse_x509_not_after der.

Definition nanos : N := 10 ^ 9.

(** What is left of a certificate at the time [now] (nanoseconds since the epoch), in
    nanoseconds; [None] for an expired one too. *)
Definition cert_time_remaining (chain : list (list N)) (now : N) : option N :=
  let?o cert_der := head chain in
  let?o expiry := x509_parser_not_after cert_der in
  if (now <=? expiry * nanos)%N then Some (expiry * nanos - now)%N else None.

Lemma utc_time_example : parse_asn1_time 0x17 (as_bytes (lit "250101120000Z")) = Some 1735732800%N.
Proof. vm_compute. reflexivity. Qed.

(** ** The calendar *)

Definition is_leap (year : Z) : bool :=
  ((year mod 4 =? 0) && negb (year mod 100 =? 0) || (year mod 400 =? 0))%Z.

Definition days_in_month (year month : Z) : Z :=
  if (month =? 2)%Z then (if is_leap year then 29 else 28)
  else if ((month =? 4) || (month =? 6) || (month =? 9) || (month =? 11))%Z then 30 else 31.

Record Date : Type := { year : Z; month : Z; day : Z }.

Definition valid_date (d : Date) : Prop :=
  (1 <= year d /\ 1 <= month d <= 12 /\ 1 <= day d <= days_in_month (year d) (month d))%Z.

Definition next_date (d : Date) : Date :=
  if (day d <? days_in_month (year d) (month d))%Z
  then {| year := year d; month := month d; day := day d + 1 |}
  else if (month d <? 12)%Z then {| year := year d; month := month d + 1; day := 1 |}
  else {| year := year d + 1; month := 1; day := 1 |}.

(** The day [n] days after the first of January 1970. *)
Definition epoch : Date := {| year := 1970; month := 1; day := 1 |}.
Definition date_of_day (n : nat) : Date := Nat.iter n next_date epoch.

Definition civil_days (d : Date) : Z := days_from_civil (year d) (month d) (day d).

Lemma days_in_month_range y m : (28 <= days_in_month y m <= 31)%Z.
Proof. unfold days_in_month. repeat case_match; lia. Qed.

(** The years from March to February before the date, and the days since the first of March. *)
Definition march_year (d : Date) : Z := if (month d <=? 2)%Z then (year d - 1)%Z else year d.
Definition march_month (d : Date) : Z := if (month d <=? 2)%Z then (month d + 9)%Z else (month d - 3)%Z.

Lemma u64_of_small z : (0 <= z < 2 ^ 64)%Z -> u64_of z = z.
Proof. intros. by apply Z.mod_small. Qed.

Lemma civil_days_spec d : valid_date d ->
  let y := march_year d in
  civil_days d = (365 * y + y / 4 - y / 100 + y / 400 + (153 * march_month d + 2) / 5 + day d - 1)%Z.
Proof.
  intros (Hy & Hm & Hd). pose proof (days_in_month_range (year d) (month d)).
  unfold civil_days, days_from_civil, march_year, march_month.
  destruct d as [y m d]. cbn [year month day] in *.
  set (Y := if (m <=? 2)%Z then (y - 1)%Z else y). assert (0 <= Y)%Z as HY by (unfold Y; destruct (Z.leb_spec m 2); lia).
  clearbody Y. cbv zeta. rewrite (proj2 (Z.leb_le 0 Y)) by done. rewrite Z.quot_div_nonneg by lia.
  assert (Hyoe : (Y - Y / 400 * 400 = Y mod 400)%Z) by (pose proof (Z.div_mod Y 400); lia).
  rewrite Hyoe. pose proof (Z.mod_pos_bound Y 400).
  rewrite (u64_of_small (Y mod 400)), (u64_of_small m), (u64_of_small d) by lia.
  set (doy := if (2 <? m)%Z then _ else _). set (mm := if (m <=? 2)%Z then (m + 9)%Z else (m - 3)%Z).
  assert (Hdoy : (doy = (153 * mm + 2) / 5 + d - 1)%Z).
  { unfold doy, mm. destruct (Z.leb_spec m 2), (Z.ltb_spec 2 m); lia. }
  assert (0 <= mm <= 11)%Z by (unfold mm; destruct (Z.leb_spec m 2); lia). clearbody mm doy.
  assert (0 <= doy <= 400)%Z by (rewrite Hdoy; Z.to_euclidean_division_equations; lia).
  rewrite (u64_of_small doy) by lia.
  assert (Hdoe : (0 <= Y mod 400 * 365 + Y mod 400 / 4 - Y mod 400 / 100 + doy < 2 ^ 32)%Z)
    by (Z.to_euclidean_division_equations; lia).
  rewrite u64_of_small by lia. unfold as_i64. rewrite Z.mod_small by lia.
  rewrite Hdoy. clear Hdoe. Z.to_euclidean_division_equations; lia.
Qed.

Lemma next_date_valid d : valid_date d -> valid_date (next_date d).
Proof.
  unfold valid_date, next_date. intros (Hy & Hm & Hd). pose proof (days_in_month_range (year d) (month d)).
  pose proof (days_in_month_range (year d) (month d + 1)). pose proof (days_in_month_range (year d + 1) 1).
  destruct (Z.ltb_spec (day d) (days_in_month (year d) (month d))); [simpl; lia|].
  destruct (Z.ltb_spec (month d) 12); simpl; lia.
Qed.

Lemma civil_days_next d : valid_date d -> civil_days (next_date d) = (civil_days d + 1)%Z.
Proof.
  intros Hv. rewrite (civil_days_spec _ Hv), (civil_days_spec _ (next_date_valid _ Hv)).
  destruct Hv as (Hy & Hm & Hd). unfold next_date, march_year, march_month.
  destruct d as [y m d]. cbn [year month day] in *.
  assert (m = 1 \/ m = 2 \/ m = 3 \/ m = 4 \/ m = 5 \/ m = 6 \/ m = 7 \/ m = 8 \/ m = 9 \/ m = 10
          \/ m = 11 \/ m = 12)%Z as Hcases by lia.
  unfold days_in_month, is_leap in *.
  repeat destruct Hcases as [->|Hcases]; try subst m;
    cbn [Z.eqb Z.leb Z.ltb Z.compare Pos.compare Pos.compare_cont Pos.eqb orb] in *;
    repeat case_match; cbn [year month day] in *;
    repeat case_match; Z.to_euclidean_division_equations; lia.
Qed.

Lemma epoch_valid : valid_date epoch.
Proof. unfold valid_date, epoch, days_in_month. simpl. lia. Qed.

Lemma date_of_day_valid n : valid_date (date_of_day n).
Proof. induction n as [|n IH]; [apply epoch_valid|]. by apply next_date_valid. Qed.

Lemma date_of_day_year n : (1970 <= year (date_of_day n))%Z.
Proof.
  induction n as [|n IH]; [done|]. change (date_of_day (S n)) with (next_date (date_of_day n)).
  unfold next_date. repeat case_match; simpl; lia.
Qed.

(** The day count of a date is its distance from the epoch in the calendar. *)
Lemma civil_days_of_day n : (civil_days (date_of_day n) - civil_days epoch = Z.of_nat n)%Z.
Proof.
  induction n as [|n IH]; [change (date_of_day 0) with epoch; lia|].
  change (date_of_day (S n)) with (next_date (date_of_day n)).
  rewrite civil_days_next by apply date_of_day_valid. lia.
Qed.

(** ** Reading back what a printer writes *)

Definition digit_pair (n : Z) : rstr := [48 + Z.to_N (n / 10); 48 + Z.to_N (n mod 10)]%N.

Record TimeOfDay : Type := { hour : Z; minute : Z; second : Z }.
Definition valid_time (t : TimeOfDay) : Prop :=
  (0 <= hour t < 24 /\ 0 <= minute t < 60 /\ 0 <= second t < 60)%Z.
Definition seconds_of (t : TimeOfDay) : Z := (hour t * 3600 + minute t * 60 + second t)%Z.

(** The [UTCTime] and [GeneralizedTime] of a moment, with their tags. *)
Definition after_year (d : Date) (t : TimeOfDay) : rstr :=
  digit_pair (month d) ++ digit_pair (day d) ++ digit_pair (hour t) ++ digit_pair (minute t)
  ++ digit_pair (second t) ++ lit "Z".
Definition utc_time (d : Date) (t : TimeOfDay) : list N := digit_pair (year d mod 100) ++ after_year d t.
Definition generalized_time (d : Date) (t : TimeOfDay) : list N :=
  digit_pair (year d / 100) ++ digit_pair (year d mod 100) ++ after_year d t.

(** RFC 5280: [UTCTime] up to 2049, [GeneralizedTime] afterwards. *)
Definition encoded_time (d : Date) (t : TimeOfDay) : N * list N :=
  if (year d <? 2050)%Z then (0x17%N, utc_time d t) else (0x18%N, generalized_time d t).

Lemma from_utf8_ascii s : ascii s -> from_utf8 s = Some s.
Proof.
  intros Hs. assert (Hl : from_utf8_lossy s = s).
  { unfold from_utf8_lossy. induction Hs as [|c s Hc _ IH]; [done|].
    cbn [length from_utf8_lossy_fuel]. rewrite (proj2 (N.ltb_lt c 128) Hc). by rewrite IH. }
  unfold from_utf8. rewrite Hl. by rewrite bool_decide_eq_true_2 by by apply as_bytes_ascii.
Qed.

Lemma split_at_byte_app a b : ascii a -> split_at_byte (a ++ b) (length a) = Some (a, b).
Proof.
  induction 1 as [|c a Hc _ IH]; [by destruct b|]. cbn [app length split_at_byte].
  unfold len_utf8. rewrite (proj2 (N.ltb_lt c 128) Hc). cbn [Nat.leb Nat.sub].
  by rewrite Nat.sub_0_r, IH.
Qed.

Lemma digit_pair_ascii n : (0 <= n < 100)%Z -> ascii (digit_pair n).
Proof.
  intros. unfold digit_pair. repeat constructor; Z.to_euclidean_division_equations; lia.
Qed.

Lemma digits_value_pair v n : (0 <= n < 100)%Z ->
  digits_value 10 v (digit_pair n) = Some (v * 100 + Z.to_N n)%N.
Proof.
  intros Hn. unfold digit_pair. cbn [digits_value].
  rewrite !to_digit_dec by (Z.to_euclidean_division_equations; lia).
  f_equal. Z.to_euclidean_division_equations; lia.
Qed.

(** A row of digit pairs is read as a number of at most 32 bits. *)
Lemma parse_digits s v : digits_value 10 0 s = Some v -> (v <= 2 ^ 32 - 1)%N -> s <> [] ->
  head s <> Some 43%N -> parse_u32 s = Some v.
Proof.
  intros Hs Hv Hne Hplus. unfold parse_u32, parse_unsigned.
  assert (match s with 43%N :: rest => rest | _ => s end = s) as ->.
  { destruct s as [|c s]; [done|]. simpl in Hplus. repeat case_match; congruence. }
  destruct s as [|c s]; [done|]. cbn [is_empty]. rewrite Hs. by rewrite (proj2 (N.leb_le _ _) Hv).
Qed.

Lemma parse_digit_pair n : (0 <= n < 100)%Z -> parse_u32 (digit_pair n) = Some (Z.to_N n).
Proof.
  intros Hn. apply parse_digits; [by apply digits_value_pair|lia|done|].
  simpl. injection. lia.
Qed.

Lemma parse_four n : (0 <= n < 10000)%Z ->
  parse_u32 (digit_pair (n / 100) ++ digit_pair (n mod 100)) = Some (Z.to_N n).
Proof.
  intros Hn. apply parse_digits; [|lia|done|simpl; injection; lia].
  rewrite digits_value_app, digits_value_pair by (Z.to_euclidean_division_equations; lia).
  cbn [base.mbind option_bind].
  rewrite digits_value_pair by (Z.to_euclidean_division_equations; lia).
  f_equal. Z.to_euclidean_division_equations; lia.
Qed.

Lemma two_digits_at pre n rest :
  ascii pre -> (0 <= n < 100)%Z -> two_digits (pre ++ digit_pair n ++ rest) (length pre) = Some n.
Proof.
  intros Hpre Hn. unfold two_digits, str_get. rewrite split_at_byte_app by done.
  replace (length pre + 2 - length pre) with (length (digit_pair n)) by (simpl; lia).
  rewrite split_at_byte_app by by apply digit_pair_ascii. cbn [fmap option_fmap option_map fst].
  rewrite parse_digit_pair by done. simpl. f_equal. lia.
Qed.

Lemma digit_pairs_ascii ns : Forall (fun n => 0 <= n < 100)%Z ns -> ascii (concat (digit_pair <$> ns)).
Proof.
  induction 1 as [|n ns Hn _ IH]; [constructor|]. apply Forall_app. by split; [apply digit_pair_ascii|].
Qed.

(** The pair number [i] of a row of pairs. *)
Lemma two_digits_row ns i n rest k :
  Forall (fun n => 0 <= n < 100)%Z ns -> ns !! i = Some n -> k = 2 * i ->
  two_digits (concat (digit_pair <$> ns) ++ rest) k = Some n.
Proof.
  intros Hns Hi ->. apply list_elem_of_split_length in Hi as (before & after & -> & ->).
  apply Forall_app in Hns as [Hb [Hn _]%Forall_cons].
  rewrite fmap_app, concat_app, <-app_assoc. cbn [fmap list_fmap concat]. rewrite <-app_assoc.
  replace (2 * length before) with (length (concat (digit_pair <$> before))).
  { apply two_digits_at; [by apply digit_pairs_ascii|done]. }
  clear Hb. induction before as [|m before IH]; [done|]. cbn [fmap list_fmap concat].
  rewrite length_app, IH. simpl. lia.
Qed.

Definition fields (d : Date) (t : TimeOfDay) : list Z := [month d; day d; hour t; minute t; second t].

Lemma fields_range d t : valid_date d -> valid_time t -> Forall (fun n => 0 <= n < 100)%Z (fields d t).
Proof.
  intros (_ & Hm & Hd) (Hh & Hmi & Hs). pose proof (days_in_month_range (year d) (month d)).
  repeat constructor; lia.
Qed.

Lemma after_year_fields d t : after_year d t = concat (digit_pair <$> fields d t) ++ lit "Z".
Proof. reflexivity. Qed.

Lemma str_get_from_app a b : ascii a -> str_get_from (a ++ b) (length a) = Some b.
Proof. intros Ha. unfold str_get_from. by rewrite split_at_byte_app. Qed.

Lemma after_year_ascii d t : valid_date d -> valid_time t -> ascii (after_year d t).
Proof.
  intros Hd Ht. rewrite after_year_fields. apply Forall_app. split; [|by repeat constructor].
  by apply digit_pairs_ascii, fields_range.
Qed.

(** The seconds since the epoch of a moment on the day [n]. *)
Definition unix_seconds (n : nat) (t : TimeOfDay) : N := Z.to_N (Z.of_nat n * 86400 + seconds_of t).

(** What the code computes once it has read the year. *)
Lemma time_after_year y n t :
  let d := date_of_day n in valid_time t -> y = year d ->
  (let?o month := two_digits (after_year d t) 0 in
   let?o day := two_digits (after_year d t) 2 in
   let?o hour := two_digits (after_year d t) 4 in
   let?o minute := two_digits (after_year d t) 6 in
   let?o second := two_digits (after_year d t) 8 in
   let days := days_from_civil y month day in
   let secs := (days * 86400 + hour * 3600 + minute * 60 + second)%Z in
   let unix_secs := (secs - days_from_civil 1970 1 1 * 86400)%Z in
   if (unix_secs <? 0)%Z then None else Some (Z.to_N unix_secs)) = Some (unix_seconds n t).
Proof.
  intros d Ht ->. pose proof (date_of_day_valid n) as Hd. fold d in Hd.
  pose proof (fields_range d t Hd Ht) as Hf. rewrite after_year_fields. unfold fields in *.
  rewrite (two_digits_row _ 0 (month d)), (two_digits_row _ 1 (day d)), (two_digits_row _ 2 (hour t)),
    (two_digits_row _ 3 (minute t)), (two_digits_row _ 4 (second t)) by done.
  pose proof (civil_days_of_day n) as Hn. unfold civil_days in Hn. fold d in Hn.
  cbn [epoch year month day] in Hn. cbv zeta. destruct Ht as (Hh & Hm & Hs).
  unfold unix_seconds, seconds_of. destruct (Z.ltb_spec
    (days_from_civil (year d) (month d) (day d) * 86400 + hour t * 3600 + minute t * 60 + second t
     - days_from_civil 1970 1 1 * 86400) 0); [lia|]. f_equal. f_equal. lia.
Qed.

(** Reading an encoded moment gives its seconds since the epoch. *)
Lemma parse_encoded_time n t :
  let d := date_of_day n in (year d < 10000)%Z -> valid_time t ->
  parse_asn1_time (fst (encoded_time d t)) (snd (encoded_time d t)) = Some (unix_seconds n t).
Proof.
  intros d Hy Ht. pose proof (date_of_day_valid n) as Hd. fold d in Hd.
  assert (1970 <= year d)%Z as H1970 by apply date_of_day_year.
  pose proof (after_year_ascii d t Hd Ht) as Ha. pose proof (Z.mod_pos_bound (year d) 100) as Hmod.
  assert (Hp : ascii (digit_pair (year d mod 100))) by (apply digit_pair_ascii; lia).
  unfold encoded_time. destruct (Z.ltb_spec (year d) 2050); cbn [fst snd]; unfold parse_asn1_time.
  - unfold utc_time. rewrite from_utf8_ascii by (apply Forall_app; by split). cbn [N.eqb Pos.eqb].
    pose proof (two_digits_at [] (year d mod 100) (after_year d t) (Forall_nil_2 _) ltac:(lia)) as Hyy.
    cbn [app length] in Hyy. rewrite Hyy.
    rewrite (str_get_from_app (digit_pair _)) by done. apply time_after_year; [done|].
    fold d. destruct (Z.leb_spec 50 (year d mod 100)); Z.to_euclidean_division_equations; lia.
  - unfold generalized_time.
    assert (Hq : ascii (digit_pair (year d / 100)))
      by (apply digit_pair_ascii; Z.to_euclidean_division_equations; lia).
    rewrite from_utf8_ascii by (apply Forall_app; split; [done|]; apply Forall_app; by split).
    cbn [N.eqb Pos.eqb]. rewrite app_assoc. set (yy := digit_pair _ ++ digit_pair _).
    assert (Hyy : ascii yy) by (apply Forall_app; by split).
    unfold str_get. change (split_at_byte (yy ++ after_year d t) 0) with (Some ([] : rstr, yy ++ after_year d t)).
    cbv iota beta. change (4 - 0) with (length yy).
    rewrite (split_at_byte_app yy) by done. cbn [fmap option_fmap option_map fst].
    change (str_get_from (yy ++ after_year d t) 4) with (str_get_from (yy ++ after_year d t) (length yy)).
    rewrite (str_get_from_app yy) by done. unfold yy. rewrite parse_four by lia.
    cbn [fmap option_fmap option_map]. apply time_after_year; [done|fold d; lia].
Qed.

(** ** DER round trip *)

(** The length octets of X.690, for contents of less than four gigabytes. *)
Definition der_length (n : N) : list N :=
  if (n <? 128)%N then [n]
  else if (n <? 2 ^ 8)%N then [129; n]%N
  else if (n <? 2 ^ 16)%N then [130; n / 2 ^ 8; n mod 2 ^ 8]%N
  else if (n <? 2 ^ 24)%N then [131; n / 2 ^ 16; (n / 2 ^ 8) mod 2 ^ 8; n mod 2 ^ 8]%N
  else [132; n / 2 ^ 24; (n / 2 ^ 16) mod 2 ^ 8; (n / 2 ^ 8) mod 2 ^ 8; n mod 2 ^ 8]%N.

Definition size_of (s : list N) : N := N.of_nat (length s).
Definition der_tlv (tag : N) (content : list N) : list N := tag :: der_length (size_of content) ++ content.

Lemma get_app pre b rest : get (pre ++ b :: rest) (size_of pre) = Some b.
Proof.
  unfold get, size_of. rewrite (proj2 (N.ltb_lt _ _)) by (rewrite length_app; simpl; lia).
  by rewrite Nat2N.id, lookup_app_r, Nat.sub_diag by lia.
Qed.

Lemma size_of_app a b : size_of (a ++ b) = (size_of a + size_of b)%N.
Proof. unfold size_of. rewrite length_app. lia. Qed.

Definition be_value (len : N) (bs : list N) : N := foldl (fun l b => l * 256 + b)%N len bs.

Lemma read_length_bytes_app pre bs rest len :
  Forall (fun b => (b < 256)%N) bs -> ((len + 1) * 256 ^ size_of bs <= u64_modulus)%N ->
  read_length_bytes (pre ++ bs ++ rest) (length bs) len (size_of pre)
  = Some (be_value len bs, size_of (pre ++ bs)).
Proof.
  intros Hbs. revert pre len. induction Hbs as [|b bs Hb _ IH]; intros pre len Hlen.
  { by rewrite app_nil_r. }
  cbn [length read_length_bytes app]. rewrite get_app.
  replace (size_of (b :: bs)) with (N.succ (size_of bs)) in Hlen by (unfold size_of; simpl; lia).
  rewrite N.pow_succ_r' in Hlen. pose proof (N.pow_nonzero 256 (size_of bs)).
  assert (Hstep : ((len * 256 + b + 1) * 256 ^ size_of bs <= u64_modulus)%N) by nia.
  assert (Hsmall : (len * 256 + b < u64_modulus)%N) by nia.
  rewrite N.mod_small by lia. rewrite (proj2 (N.ltb_lt _ _)) by lia.
  specialize (IH (pre ++ [b]) (len * 256 + b)%N Hstep).
  rewrite <-!app_assoc in IH. cbn [app] in IH. rewrite size_of_app in IH at 1. exact IH.
Qed.

Lemma parse_long_length pre first bs rest n :
  Forall (fun b => (b < 256)%N) bs -> 1 <= length bs <= 4 -> first = (128 + size_of bs)%N -> be_value 0 bs = n ->
  parse_asn1_length (pre ++ (first :: bs) ++ rest) (size_of pre) = Some (n, size_of (pre ++ first :: bs)).
Proof.
  intros Hbs Hlen -> <-. unfold parse_asn1_length. cbn [app]. rewrite get_app.
  assert (Hland : N.land (128 + size_of bs) 127 = size_of bs).
  { unfold size_of. destruct bs as [|b1 [|b2 [|b3 [|b4 [|b5 bs]]]]]; simpl in *; done || lia. }
  rewrite Hland. rewrite (proj2 (N.ltb_ge _ _)) by lia.
  rewrite (proj2 (N.ltb_ge _ _)) by (unfold size_of; lia).
  pose proof (read_length_bytes_app (pre ++ [128 + size_of bs]%N) bs rest 0 Hbs) as Hread.
  rewrite <-!app_assoc, size_of_app in Hread. cbn [app] in Hread.
  replace (N.to_nat (size_of bs)) with (length bs) by (unfold size_of; lia). apply Hread.
  assert (size_of bs <= 4)%N as Hs by (unfold size_of; lia).
  apply (N.le_trans _ (256 ^ 4)); [|by vm_compute]. rewrite N.mul_1_l. apply N.pow_le_mono_r; lia.
Qed.

(** Reading the length octets at the end of [pre] gives the length and the position after
    them. *)
Lemma parse_der_length pre n rest : (n < 2 ^ 32)%N ->
  parse_asn1_length (pre ++ der_length n ++ rest) (size_of pre) = Some (n, size_of (pre ++ der_length n)).
Proof.
  intros Hn. unfold der_length. destruct (N.ltb_spec n 128) as [H|H].
  { unfold parse_asn1_length. cbn [app]. rewrite get_app, (proj2 (N.ltb_lt _ _)) by done.
    by rewrite size_of_app. }
  repeat match goal with |- context [N.ltb ?a ?b] => destruct (N.ltb_spec a b) end;
    (apply parse_long_length;
     [repeat apply Forall_cons_2; try apply Forall_nil_2; zify; Z.to_euclidean_division_equations; lia
     |simpl; lia|done
     |unfold be_value; cbn [foldl]; zify; Z.to_euclidean_division_equations; lia]).
Qed.

Definition der_header (tag : N) (content : list N) : list N := tag :: der_length (size_of content).

Lemma der_tlv_header tag content : der_tlv tag content = der_header tag content ++ content.
Proof. done. Qed.

(** The reader stands at [pos] in [der], before the bytes [rest]. *)
Definition reads (der : list N) (pos : N) (rest : list N) : Prop :=
  (size_of der < 2 ^ 32)%N /\ exists pre, der = pre ++ rest /\ pos = size_of pre.

Lemma reads_content der pos tag content rest :
  reads der pos (der_tlv tag content ++ rest) -> (size_of content < 2 ^ 32)%N.
Proof.
  intros [Hsize (pre & -> & _)]. rewrite der_tlv_header, !size_of_app in Hsize. lia.
Qed.

Lemma reads_tag der pos tag rest : reads der pos (tag :: rest) -> get der pos = Some tag.
Proof. intros [_ (pre & -> & ->)]. apply get_app. Qed.

(** The length of a value and the position of its contents. *)
Lemma read_header der pos tag content rest : reads der pos (der_tlv tag content ++ rest) ->
  exists pos', parse_asn1_length der (pos + 1) = Some (size_of content, pos')
               /\ reads der pos' (content ++ rest).
Proof.
  intros Hr. pose proof (reads_content _ _ _ _ _ Hr) as Hn. destruct Hr as [Hsize (pre & -> & ->)].
  exists (size_of (pre ++ der_header tag content)). split.
  - pose proof (parse_der_length (pre ++ [tag]) (size_of content) (content ++ rest) Hn) as H.
    rewrite size_of_app, <-!app_assoc in H. cbn [app] in H. unfold der_tlv. cbn [app].
    rewrite <-app_assoc. exact H.
  - split; [done|]. exists (pre ++ der_header tag content).
    by rewrite der_tlv_header, <-!app_assoc.
Qed.

Lemma enter_value der pos tag content rest : reads der pos (der_tlv tag content ++ rest) ->
  exists pos', skip_tag_and_length der pos tag = Some pos' /\ reads der pos' (content ++ rest).
Proof.
  intros Hr. destruct (read_header _ _ _ _ _ Hr) as (pos' & Hp & Hr'). exists pos'. split; [|done].
  unfold skip_tag_and_length. rewrite (reads_tag _ _ _ _ Hr), N.eqb_refl, Hp. done.
Qed.

Lemma reads_app der pos a rest : reads der pos (a ++ rest) -> reads der (pos + size_of a) rest.
Proof.
  intros [Hsize (pre & -> & ->)]. split; [done|]. exists (pre ++ a). by rewrite <-app_assoc, size_of_app.
Qed.

Lemma skip_value der pos tag content rest : reads der pos (der_tlv tag content ++ rest) ->
  exists pos', skip_tlv der pos = Some pos' /\ reads der pos' rest.
Proof.
  intros Hr. destruct (read_header _ _ _ _ _ Hr) as (pos' & Hp & Hr').
  exists (pos' + size_of content)%N. unfold skip_tlv. rewrite Hp. split; [done|]. by apply reads_app.
Qed.

Lemma get_content der pos content rest :
  reads der pos (content ++ rest) -> get_range der pos (size_of content) = Some content.
Proof.
  intros [_ (pre & -> & ->)]. unfold get_range.
  rewrite (proj2 (N.leb_le _ _)) by (unfold size_of; rewrite !length_app; lia).
  unfold size_of. rewrite !Nat2N.id, drop_app_length. by rewrite take_app_length.
Qed.

(** *** X.509 certificates (RFC 5280, section 4.1) *)

Record DerValue : Type := { tag_of : N; content_of : list N }.
Definition der_value (v : DerValue) : list N := der_tlv (tag_of v) (content_of v).

Record X509 : Type := {
  version : option (list N);
  serial_number : DerValue;
  signature : DerValue;
  issuer : DerValue;
  not_before : DerValue;
  not_after : DerValue;
  after_validity : list N;
  after_tbs : list N
}.

Definition validity (c : X509) : list N := der_value (not_before c) ++ der_value (not_after c).
Definition tbs_certificate (c : X509) : list N :=
  match version c with Some v => der_tlv 0xA0 v | None => [] end
  ++ der_value (serial_number c) ++ der_value (signature c) ++ der_value (issuer c)
  ++ der_tlv 0x30 (validity c) ++ after_validity c.
Definition certificate_der (c : X509) : list N :=
  der_tlv 0x30 (der_tlv 0x30 (tbs_certificate c) ++ after_tbs c).

Definition well_formed_x509 (c : X509) : Prop :=
  tag_of (serial_number c) <> 0xA0%N /\ (size_of (certificate_der c) < 2 ^ 32)%N.

(** Steps over one value, from what the reader stands before. *)
Ltac step_into lem H :=
  let pos := fresh "pos" in let Hp := fresh "Hp" in
  apply lem in H as (pos & Hp & H); rewrite Hp; clear Hp.

(** The optional version and the serial number are gone over. *)
Lemma skip_version c der pos rest :
  tag_of (serial_number c) <> 0xA0%N ->
  reads der pos (match version c with Some v => der_tlv 0xA0 v | None => [] end
                 ++ der_value (serial_number c) ++ rest) ->
  exists pos', (let?o b := get der pos in if (b =? 0xA0)%N then skip_tlv der pos else Some pos) = Some pos'
               /\ reads der pos' (der_value (serial_number c) ++ rest).
Proof.
  intros Ht Hr. destruct (version c) as [v|].
  - rewrite (reads_tag _ _ _ _ Hr). cbn [N.eqb Pos.eqb]. by apply skip_value in Hr.
  - cbn [app] in Hr. unfold der_value, der_tlv in Hr. cbn [app] in Hr.
    rewrite (reads_tag _ _ _ _ Hr), (proj2 (N.eqb_neq _ _) Ht). by exists pos.
Qed.

(** C34. The end of validity the renewal task works with is the certificate's: for every
    X.509 certificate laid out as RFC 5280 says (with or without a version, any serial
    number, algorithm and issuer, up to four gigabytes) whose notAfter is the moment [t] of
    the day number [n] of the calendar, up to the year 9999, the hand-written DER reader
    finds exactly the seconds from the epoch to that moment. *)
Theorem certificate_expiry_exact c n t :
  well_formed_x509 c -> (year (date_of_day n) < 10000)%Z -> valid_time t ->
  (tag_of (not_after c), content_of (not_after c)) = encoded_time (date_of_day n) t ->
  parse_x509_not_after (certificate_der c) = Some (unix_seconds n t).
Proof.
  intros [Htag Hsize] Hy Ht Hafter.
  assert (Hr : reads (certificate_der c) 0 (certificate_der c ++ [])).
  { split; [done|]. exists []. by rewrite app_nil_r. }
  set (der := certificate_der c) in *. unfold parse_x509_not_after.
  unfold der at 2, certificate_der in Hr. step_into enter_value Hr. rewrite <-app_assoc in Hr.
  step_into enter_value Hr. unfold tbs_certificate in Hr. rewrite <-!app_assoc in Hr.
  apply skip_version in Hr as (pos1 & Hp & Hr); [|done].
  destruct (get der pos0) as [b|]; [|done]. rewrite Hp. clear Hp.
  do 3 step_into skip_value Hr. step_into enter_value Hr.
  unfold validity in Hr. rewrite <-app_assoc in Hr. step_into skip_value Hr.
  pose proof (reads_tag _ _ _ _ Hr) as Hg. rewrite Hg. step_into read_header Hr.
  rewrite (get_content _ _ _ _ Hr).
  pose proof (parse_encoded_time n t Hy Ht) as Hparse. by rewrite <-Hafter in Hparse.
Qed.

Definition example_x509 : X509 := {|
  version := Some [2; 1; 2]%N;
  serial_number := {| tag_of := 2; content_of := repeat 7%N 20 |};
  signature := {| tag_of := 0x30; content_of := repeat 1%N 13 |};
  issuer := {| tag_of := 0x30; content_of := repeat 65%N 300 |};
  not_before := {| tag_of := 0x17; content_of := as_bytes (lit "240101000000Z") |};
  not_after := {| tag_of := 0x17; content_of := as_bytes (lit "240229123456Z") |};
  after_validity := repeat 9%N 200; after_tbs := [0x30; 0]%N |}.

Lemma certificate_expiry_exact_witness :
  parse_x509_not_after (certificate_der example_x509) = Some 1709210096%N.
Proof.
  apply (certificate_expiry_exact example_x509 19782 {| hour := 12; minute := 34; second := 56 |}).
  - split; vm_compute; done.
  - vm_compute. done.
  - vm_compute. repeat split; congruence.
  - vm_compute. done.
Defined.
