(* ===== verification/Cloudflare.v ===== *)
(** * DNS providers for ACME

    [frameworks/acme/cloudflare.rs]: the trait of providers of challenge records and its
    implementation on the Cloudflare API.  The HTTP client, the decoding of JSON and the
    environment are parameters; what the service promises is the class [CloudflareService],
    what a provider promises to the ACME flow the class [TxtProvider]. *)

From S2P Require Import Prelude RustStr CertTime.

(** ** The trait *)

Record DnsProvider (W : Type) : Type := {
  create_txt_record : rstr -> rstr -> M W (result rstr DnsProviderError);
  delete_txt_record : rstr -> M W (result unit DnsProviderError)
}.
Arguments create_txt_record {W} _ _ _.
Arguments delete_txt_record {W} _ _.

(** A provider that keeps its word on the records it serves: a successful creation adds a
    record under a new identifier, a successful deletion removes it.  An error promises
    little: the answer may have been lost, so a failed creation may have added one record, of
    an identifier the caller does not learn, and a failed deletion may have removed its own. *)
Class TxtProvider {W : Type} (p : DnsProvider W) (records : W -> gset rstr) : Prop := {
  created_fresh : forall domain value w id w',
    create_txt_record p domain value w = (Ok id, w') ->
    id ∉ records w /\ records w' = {[id]} ∪ records w;
  create_failed : forall domain value w e w',
    create_txt_record p domain value w = (Err e, w') ->
    records w' = records w \/ exists id, id ∉ records w /\ records w' = {[id]} ∪ records w;
  deleted_gone : forall id w w',
    delete_txt_record p id w = (Ok tt, w') -> records w' = records w ∖ {[id]};
  delete_failed : forall id w e w',
    delete_txt_record p id w = (Err e, w') -> records w' = records w \/ records w' = records w ∖ {[id]}
}.

(** ** Cloudflare *)

Record CloudflareZone : Type := { cz_id : rstr; cz_name : rstr }.
Record CloudflareRecord : Type := { crec_id : rstr }.
Record CloudflareBaseResponse : Type := { cb_success : bool; cb_errors : list rstr }.
Record CloudflareListResponse : Type := {
  cl_success : bool; cl_errors : list rstr; cl_result : list CloudflareZone
}.
Record CloudflareRecordResponse : Type := {
  crr_success : bool; crr_errors : list rstr; crr_result : option CloudflareRecord
}.

(** What the client sends: the requests of the API, each with the token. *)
Record TxtPayload : Type := { tp_type : rstr; tp_name : rstr; tp_content : rstr; tp_ttl : N }.
Inductive ApiRequest : Type :=
| ApiGet (url : rstr)
| ApiPost (url : rstr) (payload : TxtPayload)
| ApiDelete (url : rstr).
Record CfResponse : Type := { ar_status : N; ar_body : rstr }.
Definition is_success (status : N) : bool := in_range 200 299 status.

(** [reqwest] with the JSON of the responses. *)
Record ApiClient (W : Type) : Type := {
  api_send : rstr -> ApiRequest -> M W (result CfResponse rstr);
  json_list : rstr -> result CloudflareListResponse rstr;
  json_record : rstr -> result CloudflareRecordResponse rstr;
  json_base : rstr -> result CloudflareBaseResponse rstr
}.
Arguments api_send {W} _ _ _.
Arguments json_list {W} _ _.
Arguments json_record {W} _ _.
Arguments json_base {W} _ _.

Record CloudflareDnsProvider : Type := { cf_api_token : rstr; cf_zone_id : option rstr }.

(** [env] is [std::env::var]. *)
Definition expand_env_var (env : rstr -> option rstr) (value : rstr) : rstr :=
  let trimmed := trim value in
  if starts_with (lit "${") trimmed && ends_with (lit "}") trimmed
  then from_option id [] (env (take (length trimmed - 3) (drop 2 trimmed)))
  else value.

(** [client]: whether the HTTP client can be built. *)
Definition cloudflare_new (env : rstr -> option rstr) (client : result unit rstr)
  (api_token : rstr) (zone_id : option rstr) : result CloudflareDnsProvider DnsProviderError :=
  let resolved_token := expand_env_var env api_token in
  if is_empty resolved_token
  then Err (ProviderConfig (lit "api_token is empty (check environment variable)"))
  else let? _ := map_err ProviderHttp client in
       Ok {| cf_api_token := resolved_token; cf_zone_id := zone_id |}.

Definition zones_url (candidate : rstr) : rstr :=
  lit "https://api.cloudflare.com/client/v4/zones?name=" ++ candidate ++ lit "&status=active".
Definition records_url (zone_id : rstr) : rstr :=
  lit "https://api.cloudflare.com/client/v4/zones/" ++ zone_id ++ lit "/dns_records".
Definition record_url (zone_id record_id : rstr) : rstr :=
  lit "https://api.cloudflare.com/client/v4/zones/" ++ zone_id ++ lit "/dns_records/" ++ record_id.

Section cloudflare.
Context {W : Type} (api : ApiClient W) (cf : CloudflareDnsProvider).

Definition cf_send (request : ApiRequest) : M W (result CfResponse DnsProviderError) :=
  mmap_err ProviderHttp (api_send api (cf_api_token cf) request).

Definition api_error (status : N) (errors : list rstr) : DnsProviderError :=
  ProviderApi status (join_str (lit "; ") errors).

(** One round of the walk: [Some id] ends it. *)
Definition lookup_zone (candidate : rstr) : M W (result (option rstr) DnsProviderError) :=
  resp <?- cf_send (ApiGet (zones_url candidate)) ;;
  mlift (let? body := map_err ProviderHttp (json_list api (ar_body resp)) in
         if cl_success body then Ok (cz_id <$> head (cl_result body))
         else Err (api_error (ar_status resp) (cl_errors body))).

Fixpoint walk_zones (domain : rstr) (candidates : list rstr) : M W (result rstr DnsProviderError) :=
  match candidates with
  | [] => mret (Err (ZoneNotFound domain))
  | candidate :: rest =>
      found <?- lookup_zone candidate ;;
      match found with
      | Some zone_id => mret (Ok zone_id)
      | None => walk_zones domain rest
      end
  end.

(** [parts[i..].join(".")] for [i] in [0..parts.len().saturating_sub(1)]. *)
Definition zone_candidates (domain : rstr) : list rstr :=
  let parts := split (ch ".") domain in
  (fun i => join (ch ".") (drop i parts)) <$> seq 0 (length parts - 1).

Definition find_zone_id (domain : rstr) : M W (result rstr DnsProviderError) :=
  walk_zones domain (zone_candidates domain).

Definition resolve_zone_id (domain : rstr) : M W (result rstr DnsProviderError) :=
  match cf_zone_id cf with
  | Some zone_id => mret (Ok zone_id)
  | None => find_zone_id domain
  end.

Definition challenge_record (domain value : rstr) : TxtPayload :=
  {| tp_type := lit "TXT"; tp_name := lit "_acme-challenge." ++ domain; tp_content := value; tp_ttl := 120 |}.

(** The identifier in the answer to a creation. *)
Definition created_id (resp : CfResponse) : result rstr DnsProviderError :=
  let? body := map_err ProviderHttp (json_record api (ar_body resp)) in
  if crr_success body
  then ok_or (crec_id <$> crr_result body) (ProviderApi (ar_status resp) (lit "no record ID in response"))
  else Err (api_error (ar_status resp) (crr_errors body)).

Definition composite (zone_id record_id : rstr) : rstr := zone_id ++ lit "/" ++ record_id.

Definition cloudflare_create (domain value : rstr) : M W (result rstr DnsProviderError) :=
  zone_id <?- resolve_zone_id domain ;;
  resp <?- cf_send (ApiPost (records_url zone_id) (challenge_record domain value)) ;;
  mlift (let? record_id := created_id resp in Ok (composite zone_id record_id)).

Definition cloudflare_delete (record_id : rstr) : M W (result unit DnsProviderError) :=
  match split_once (ch "/") record_id with
  | None => mret (Err (ProviderConfig (lit "invalid record_id format")))
  | Some (zone_id, actual_record_id) =>
      resp <?- cf_send (ApiDelete (record_url zone_id actual_record_id)) ;;
      mlift (if is_success (ar_status resp) then Ok tt
             else let? body := map_err ProviderHttp (json_base api (ar_body resp)) in
                  Err (api_error (ar_status resp) (cb_errors body)))
  end.

Definition cloudflare_provider : DnsProvider W :=
  {| create_txt_record := cloudflare_create; delete_txt_record := cloudflare_delete |}.

(** ** What the service promises

    [stored] are the records of the account, by zone and identifier.  Identifiers of zones
    have no slash.  A creation that answers with an identifier has added the record under it,
    which is new, and a deletion answered with a success status has removed the record.  An
    answer that is an error, that cannot be read or that never comes tells nothing: the record
    may have been added, or removed, all the same.  Nobody else changes the records of the
    account meanwhile. *)

Class CloudflareService (stored : W -> gset (rstr * rstr)) : Prop := {
  get_keeps : forall token url w,
    stored (snd (api_send api token (ApiGet url) w)) = stored w;
  stored_plain : forall w zone id, (zone, id) ∈ stored w -> ch "/" ∉ zone;
  post_creates : forall token zone payload w,
    let '(answer, w') := api_send api token (ApiPost (records_url zone) payload) w in
    match (let? resp := map_err ProviderHttp answer in created_id resp) with
    | Ok id => (zone, id) ∉ stored w /\ stored w' = {[(zone, id)]} ∪ stored w
    | Err _ => stored w' = stored w \/ exists id, (zone, id) ∉ stored w /\ stored w' = {[(zone, id)]} ∪ stored w
    end;
  delete_removes : forall token zone id w,
    ch "/" ∉ zone ->
    let '(answer, w') := api_send api token (ApiDelete (record_url zone id)) w in
    stored w' = stored w ∖ {[(zone, id)]}
    \/ (stored w' = stored w
        /\ match answer with Ok resp => is_success (ar_status resp) = false | Err _ => True end)
}.

(** The composite identifiers of the stored records. *)
Definition composites (s : gset (rstr * rstr)) : gset rstr := set_map (fun p => composite p.1 p.2) s.

Lemma composite_cons zone id : composite zone id = zone ++ ch "/" :: id.
Proof. reflexivity. Qed.

Lemma split_composite zone id : ch "/" ∉ zone -> split_once (ch "/") (composite zone id) = Some (zone, id).
Proof. intros Hz. rewrite composite_cons. by apply split_once_app. Qed.

Context (stored : W -> gset (rstr * rstr)) `{!CloudflareService stored}.
Implicit Types w : W.

Definition served (w : W) : gset rstr := composites (stored w).

Lemma elem_of_served zone id w : ch "/" ∉ zone -> composite zone id ∈ served w <-> (zone, id) ∈ stored w.
Proof.
  intros Hz. unfold served, composites. rewrite elem_of_map. split.
  - intros ([z i] & He & Hin). simpl in He. pose proof (split_composite zone id Hz) as H1.
    rewrite He, (split_composite z i) in H1 by by eapply stored_plain. by simplify_eq.
  - intros Hin. by exists (zone, id).
Qed.

Lemma cf_send_get url w resp w' : cf_send (ApiGet url) w = (resp, w') -> stored w' = stored w.
Proof.
  unfold cf_send, mmap_err. pose proof (get_keeps (cf_api_token cf) url w) as H.
  destruct (api_send _ _ _ w) as [r w1]. intros [= _ <-]. exact H.
Qed.

Lemma walk_zones_keeps domain candidates w r w' :
  walk_zones domain candidates w = (r, w') -> stored w' = stored w.
Proof.
  revert w. induction candidates as [|c cs IH]; intros w; cbn [walk_zones]; [by intros [= _ <-]|].
  unfold tbind, lookup_zone, tbind. destruct (cf_send (ApiGet (zones_url c)) w) as [[resp|e] w1] eqn:Hs;
    apply cf_send_get in Hs; [|by intros [= _ <-]].
  unfold mlift, mret. destruct (let? body := _ in _) as [[z|]|e]; try by intros [= _ <-].
  intros H. apply IH in H. by rewrite H.
Qed.

Lemma resolve_zone_id_keeps domain w r w' : resolve_zone_id domain w = (r, w') -> stored w' = stored w.
Proof.
  unfold resolve_zone_id, find_zone_id. destruct (cf_zone_id cf); [by intros [= _ <-]|].
  apply walk_zones_keeps.
Qed.

(** A creation, from the records of the account. *)
Lemma cloudflare_create_effect domain value w :
  let '(r, w') := cloudflare_create domain value w in
  match r with
  | Ok cid => exists zone id, cid = composite zone id /\ (zone, id) ∉ stored w
                              /\ stored w' = {[(zone, id)]} ∪ stored w
  | Err _ => stored w' = stored w
             \/ exists zone id, (zone, id) ∉ stored w /\ stored w' = {[(zone, id)]} ∪ stored w
  end.
Proof.
  unfold cloudflare_create, tbind. destruct (resolve_zone_id domain w) as [[zone|e] w1] eqn:Hz;
    pose proof (resolve_zone_id_keeps _ _ _ _ Hz) as H1; [|by left].
  pose proof (post_creates (cf_api_token cf) zone (challenge_record domain value) w1) as Hp.
  unfold cf_send, mmap_err. destruct (api_send _ _ _ w1) as [[resp|e] w2]; cbn [map_err] in *.
  - unfold mlift, mret. rewrite H1 in Hp. destruct (created_id resp) as [id|e]; [by exists zone, id|].
    destruct Hp as [?|[id ?]]; [by left|right; by exists zone, id].
  - rewrite H1 in Hp. destruct Hp as [?|[id ?]]; [by left|right; by exists zone, id].
Qed.

Lemma cloudflare_delete_effect zone id w : ch "/" ∉ zone ->
  let '(r, w') := cloudflare_delete (composite zone id) w in
  stored w' = stored w ∖ {[(zone, id)]} \/ (is_ok r = false /\ stored w' = stored w).
Proof.
  intros Hz. unfold cloudflare_delete. rewrite split_composite by done.
  pose proof (delete_removes (cf_api_token cf) zone id w Hz) as Hd.
  unfold tbind, cf_send, mmap_err. destruct (api_send _ _ _ w) as [[resp|e] w1]; cbn [map_err].
  - unfold mlift, mret. destruct Hd as [Hd|[Hd Hs]]; [by left|right]. rewrite Hs. split; [|done].
    by destruct (map_err _ _) as [body|e].
  - destruct Hd as [Hd|[Hd _]]; [by left|by right].
Qed.

Lemma served_delete zone id w : ch "/" ∉ zone ->
  composites (stored w ∖ {[(zone, id)]}) = served w ∖ {[composite zone id]}.
Proof.
  intros Hz. apply set_eq. intros cid. unfold served, composites.
  rewrite elem_of_difference, !elem_of_map, elem_of_singleton. split.
  - intros ([z i] & -> & [Hin Hne]%elem_of_difference). rewrite elem_of_singleton in Hne. simpl.
    split; [by exists (z, i)|]. intros He. pose proof (split_composite zone id Hz) as H1.
    rewrite <-He, split_composite in H1 by by eapply stored_plain. by simplify_eq.
  - intros [([z i] & -> & Hin) Hne]. exists (z, i). split; [done|].
    apply elem_of_difference. split; [done|]. rewrite elem_of_singleton. intros [= -> ->]. by apply Hne.
Qed.

Lemma served_add zone id w : (zone, id) ∉ stored w -> ch "/" ∉ zone ->
  composite zone id ∉ served w /\ composites ({[(zone, id)]} ∪ stored w) = {[composite zone id]} ∪ served w.
Proof.
  intros Hnew Hz. split; [by rewrite elem_of_served|]. unfold served, composites.
  by rewrite set_map_union_L, set_map_singleton_L.
Qed.

(** The Cloudflare provider keeps the promise the ACME flow relies on. *)
#[export] Instance cloudflare_txt_provider : TxtProvider cloudflare_provider served.
Proof.
  assert (forall zone id w w', stored w' = {[(zone, id)]} ∪ stored w -> ch "/" ∉ zone) as Hplain.
  { intros zone id w w' Hs. apply (stored_plain w' zone id). rewrite Hs. set_solver. }
  split.
  - intros domain value w cid w' H. pose proof (cloudflare_create_effect domain value w) as He.
    simpl in H. rewrite H in He. destruct He as (zone & id & -> & Hnew & Hs).
    unfold served at 2. rewrite Hs. eauto using served_add.
  - intros domain value w e w' H. pose proof (cloudflare_create_effect domain value w) as He.
    simpl in H. rewrite H in He. destruct He as [He|(zone & id & Hnew & Hs)].
    + left. unfold served. by rewrite He.
    + right. exists (composite zone id). unfold served at 2. rewrite Hs. eauto using served_add.
  - intros cid w w' H. simpl in H. destruct (split_once (ch "/") cid) as [[zone id]|] eqn:Hs;
      [|unfold cloudflare_delete in H; by rewrite Hs in H].
    apply split_once_Some in Hs as [-> Hz]. rewrite <-composite_cons in *.
    pose proof (cloudflare_delete_effect zone id w Hz) as He. rewrite H in He.
    destruct He as [He|[? _]]; [|done]. unfold served at 1. rewrite He. by apply served_delete.
  - intros cid w e w' H. simpl in H. destruct (split_once (ch "/") cid) as [[zone id]|] eqn:Hs;
      [|unfold cloudflare_delete in H; rewrite Hs in H; left; by injection H as _ <-].
    apply split_once_Some in Hs as [-> Hz]. rewrite <-composite_cons in *.
    pose proof (cloudflare_delete_effect zone id w Hz) as He. rewrite H in He.
    unfold served. destruct He as [-> |[_ ->]]; [right; by apply served_delete|by left].
Qed.
End cloudflare.

(** ** The walk up the domain *)

Section walk.
Context {W : Type} (api : ApiClient W) (cf : CloudflareDnsProvider).

(** The candidates are the domain and its parents, down to two labels. *)
Lemma zone_candidates_parents domain c :
  c ∈ zone_candidates domain <->
  exists i, c = join (ch ".") (drop i (split (ch ".") domain)) /\ i + 2 <= length (split (ch ".") domain).
Proof.
  unfold zone_candidates. rewrite list_elem_of_fmap. setoid_rewrite elem_of_seq.
  split; intros (i & -> & Hi); exists i; split; try done; lia.
Qed.

(** The walk asks for the candidates in order and ends with the first zone found. *)
Lemma walk_zones_first domain before candidate after id w w1 w2 :
  (fix none (cs : list rstr) (w : W) : Prop :=
     match cs with
     | [] => w = w1
     | c :: cs => exists w', lookup_zone api cf c w = (Ok None, w') /\ none cs w'
     end) before w ->
  lookup_zone api cf candidate w1 = (Ok (Some id), w2) ->
  walk_zones api cf domain (before ++ candidate :: after) w = (Ok id, w2).
Proof.
  revert w. induction before as [|c cs IH]; intros w Hn Hf; cbn [app walk_zones]; unfold tbind.
  - subst. by rewrite Hf.
  - destruct Hn as (w' & Hc & Hn). rewrite Hc. by apply IH.
Qed.
End walk.
