(* ===== verification/Acme.v ===== *)
(** * ACME certificates

    [frameworks/acme/mod.rs] and [cert_resolver.rs], with the ACME part of [run_daemon] in
    [main.rs]: loading or obtaining a certificate, the order flow with its DNS-01 challenge
    records, the background renewal with its backoff, and the cell TLS handshakes read.  The
    protocol client (instant_acme), PEM and key decoding, files and clocks are parameters. *)

From S2P Require Import Prelude RustStr CertTime Cloudflare ChrootPaths.

(** ** Configuration ([AcmeConfig] of schema.rs) *)

Record AcmeDnsProviderConfig : Type := {
  adp_provider_type : rstr; adp_api_token : rstr; adp_zone_id : option rstr
}.
Record AcmeConfig : Type := {
  ac_enabled : bool; ac_directory_url : rstr; ac_domains : list rstr; ac_email : rstr;
  ac_cert_path : rstr; ac_key_path : rstr; ac_account_credentials_path : rstr;
  ac_renew_before_expiry : rstr; ac_dns_provider : AcmeDnsProviderConfig
}.
Definition default_acme_directory_url : rstr := lit "https://acme-v02.api.letsencrypt.org/directory".
Definition default_acme_cert_path : rstr := lit "certs/acme-cert.pem".
Definition default_acme_key_path : rstr := lit "certs/acme-key.pem".
Definition default_acme_account_path : rstr := lit "certs/acme-account.json".
Definition default_acme_renew_before_expiry : rstr := lit "30d".

(** [Display] of the errors. *)
Definition display_provider_error (e : DnsProviderError) : rstr :=
  match e with
  | ProviderHttp m => lit "HTTP request failed: " ++ m
  | ProviderApi status m => lit "API error (" ++ display_N status ++ lit "): " ++ m
  | ZoneNotFound d => lit "zone not found for domain: " ++ d
  | ProviderConfig m => lit "invalid configuration: " ++ m
  end.
Definition display_acme_error (e : AcmeError) : rstr :=
  match e with
  | AcmeProtocol m => lit "ACME protocol error: " ++ m
  | AcmeDnsProvider e => lit "DNS provider error: " ++ display_provider_error e
  | AcmeIo m => lit "certificate I/O error: " ++ m
  | AcmeKey m => lit "TLS key error: " ++ m
  | AcmeExpired => lit "certificate expired and renewal failed"
  | AcmeConfigError m => lit "invalid configuration: " ++ m
  end.

(** ** Certificates *)

(** The chain, leaf first, and the private key, in DER. *)
Record CertifiedKey : Type := { ck_cert : list (list N); ck_key : list N }.

(** [rustls_pemfile] and the key types the TLS library signs with. *)
Record PemReader : Type := {
  pem_certs : rstr -> list (result (list N) rstr);
  pem_private_key : rstr -> result (option (list N)) rstr;
  any_supported_type : list N -> result unit rstr
}.

Definition load_certified_key_from_pem (pem : PemReader) (cert_pem key_pem : rstr) :
  result CertifiedKey AcmeError :=
  let? cert_chain := map_err (fun e => AcmeKey (lit "failed to parse certificate PEM: " ++ e))
                       (collect_results (pem_certs pem cert_pem)) in
  if is_empty cert_chain then Err (AcmeKey (lit "certificate PEM contains no certificates"))
  else
    let? found := map_err (fun e => AcmeKey (lit "failed to parse key PEM: " ++ e))
                    (pem_private_key pem key_pem) in
    let? key := ok_or found (AcmeKey (lit "key PEM contains no private key")) in
    let? _ := map_err (fun e => AcmeKey (lit "unsupported key type: " ++ e)) (any_supported_type pem key) in
    Ok {| ck_cert := cert_chain; ck_key := key |}.

Lemma loaded_not_empty pem cert_pem key_pem key :
  load_certified_key_from_pem pem cert_pem key_pem = Ok key -> ck_cert key <> [].
Proof.
  unfold load_certified_key_from_pem. destruct (map_err _ (collect_results _)) as [[|cert chain]|e]; [done| |done].
  cbn [is_empty]. destruct (map_err _ (pem_private_key _ _)) as [found|e]; [|done].
  destruct (ok_or _ _) as [k|e]; [|done]. destruct (map_err _ (any_supported_type _ _)); [|done].
  by intros [= <-].
Qed.

(** [SharedCertResolver]: the [ArcSwap] a handshake reads. *)
Section resolver.
Context {W : Type} (certified_key : Cell W CertifiedKey).
Definition resolver_new (key : CertifiedKey) : M W unit := cwrite certified_key key.
Definition resolver_update (key : CertifiedKey) : M W unit := cwrite certified_key key.
Definition resolver_current : M W CertifiedKey := cread certified_key.
Definition resolver_resolve : M W (option CertifiedKey) := k <<- cread certified_key ;; mret (Some k).
End resolver.

(** ** The outside *)

Inductive AuthorizationStatus : Type :=
| AuthPending | AuthValid | AuthInvalid | AuthRevoked | AuthExpired | AuthDeactivated.
Definition debug_auth_status (s : AuthorizationStatus) : rstr :=
  match s with
  | AuthPending => lit "Pending" | AuthValid => lit "Valid" | AuthInvalid => lit "Invalid"
  | AuthRevoked => lit "Revoked" | AuthExpired => lit "Expired" | AuthDeactivated => lit "Deactivated"
  end.
Inductive OrderStatus : Type := OrderPending | OrderReady | OrderProcessing | OrderValid | OrderInvalid.
Definition debug_order_status (s : OrderStatus) : rstr :=
  match s with
  | OrderPending => lit "Pending" | OrderReady => lit "Ready" | OrderProcessing => lit "Processing"
  | OrderValid => lit "Valid" | OrderInvalid => lit "Invalid"
  end.

(** The DNS-01 challenge of an authorization. *)
Record Challenge : Type := { chal_url : rstr; chal_identifier : rstr; chal_dns_value : rstr }.
Record Authorization : Type := { az_status : AuthorizationStatus; az_dns01 : option Challenge }.

(** [instant_acme]: an order has the authorizations it was created with, fetched one by one;
    [Credentials] are an account's, [Account] an open account. *)
Record AcmeClient (W Account Credentials : Type) : Type := {
  account_builder : M W (result unit rstr);
  from_credentials : Credentials -> M W (result Account rstr);
  create_account : rstr -> rstr -> M W (result (Account * Credentials) rstr);
  new_order : Account -> list rstr -> M W (result (rstr * list rstr) rstr);
  fetch_authorization : rstr -> M W (result Authorization rstr);
  set_ready : Challenge -> M W (result unit rstr);
  poll_ready : rstr -> M W (result OrderStatus rstr);
  finalize : rstr -> M W (result rstr rstr);
  poll_certificate : rstr -> M W (result rstr rstr);
  credentials_of_json : rstr -> result Credentials rstr;
  credentials_to_json : Credentials -> result rstr rstr
}.
Arguments account_builder {W Account Credentials} _.
Arguments from_credentials {W Account Credentials} _ _.
Arguments create_account {W Account Credentials} _ _ _.
Arguments new_order {W Account Credentials} _ _ _.
Arguments fetch_authorization {W Account Credentials} _ _.
Arguments set_ready {W Account Credentials} _ _.
Arguments poll_ready {W Account Credentials} _ _.
Arguments finalize {W Account Credentials} _ _.
Arguments poll_certificate {W Account Credentials} _ _.
Arguments credentials_of_json {W Account Credentials} _ _.
Arguments credentials_to_json {W Account Credentials} _ _.

(** Files, clocks and the cancellation token. *)
Record AcmeEnv (W : Type) : Type := {
  ae_exists : rstr -> M W bool;
  ae_read_to_string : rstr -> M W (result rstr rstr);
  ae_create_dir_all : rstr -> M W (result unit rstr);
  ae_write : rstr -> rstr -> M W (result unit rstr);
  (** [Path::parent]. *)
  ae_parent : rstr -> option rstr;
  (** [SystemTime::now], in nanoseconds since the epoch. *)
  ae_system_now : M W N;
  (** [sleep], in seconds. *)
  ae_sleep : N -> M W unit;
  (** [select!] of the cancellation and of a sleep: whether the cancellation came first. *)
  ae_cancelled_within : N -> M W bool
}.
Arguments ae_exists {W} _ _.
Arguments ae_read_to_string {W} _ _.
Arguments ae_create_dir_all {W} _ _.
Arguments ae_write {W} _ _ _.
Arguments ae_parent {W} _ _.
Arguments ae_system_now {W} _.
Arguments ae_sleep {W} _ _.
Arguments ae_cancelled_within {W} _ _.

(** ** The manager *)

Record AcmeManager (W : Type) : Type := { am_config : AcmeConfig; am_dns_provider : DnsProvider W }.
Arguments am_config {W} _.
Arguments am_dns_provider {W} _.

Definition manager_new {W} (api : ApiClient W) (env : rstr -> option rstr) (http_client : result unit rstr)
  (config : AcmeConfig) : result (AcmeManager W) AcmeError :=
  let provider := ac_dns_provider config in
  if str_eqb (adp_provider_type provider) (lit "cloudflare") then
    let? cf := map_err AcmeDnsProvider
                 (cloudflare_new env http_client (adp_api_token provider) (adp_zone_id provider)) in
    Ok {| am_config := config; am_dns_provider := cloudflare_provider api cf |}
  else Err (AcmeConfigError (lit "unsupported DNS provider type: '" ++ adp_provider_type provider
                             ++ lit "' (supported: cloudflare)")).

Section manager.
Context {W Account Credentials : Type} (acme : AcmeClient W Account Credentials) (env : AcmeEnv W).
Context (pem : PemReader) (certified_key : Cell W CertifiedKey).
Context (am : AcmeManager W).
Abbreviation config := (am_config am).

Definition protocol (what e : rstr) : AcmeError := AcmeProtocol (what ++ lit ": " ++ e).

Definition save_file (path content : rstr) : M W (result unit AcmeError) :=
  match ae_parent env path with
  | Some parent => mmap_err AcmeIo (ae_create_dir_all env parent)
  | None => mret (Ok tt)
  end ?;; mmap_err AcmeIo (ae_write env path content).

Definition load_cert_from_disk : M W (result CertifiedKey AcmeError) :=
  cert_pem <?- mmap_err AcmeIo (ae_read_to_string env (ac_cert_path config)) ;;
  key_pem <?- mmap_err AcmeIo (ae_read_to_string env (ac_key_path config)) ;;
  mlift (load_certified_key_from_pem pem cert_pem key_pem).

Definition save_cert_to_disk (cert_pem key_pem : rstr) : M W (result unit AcmeError) :=
  save_file (ac_cert_path config) cert_pem ?;; save_file (ac_key_path config) key_pem.

Definition restore_account : M W (result Account AcmeError) :=
  creds_json <?- mmap_err AcmeIo (ae_read_to_string env (ac_account_credentials_path config)) ;;
  credentials <?- mlift (map_err (fun e => AcmeConfigError (lit "failed to parse account credentials: " ++ e))
                           (credentials_of_json acme creds_json)) ;;
  mmap_err (protocol (lit "failed to build account")) (account_builder acme) ?;;
  mmap_err (protocol (lit "failed to restore account")) (from_credentials acme credentials).

Definition register_account : M W (result Account AcmeError) :=
  let contact := lit "mailto:" ++ ac_email config in
  mmap_err (protocol (lit "failed to build account")) (account_builder acme) ?;;
  (created <?- mmap_err (protocol (lit "failed to create account"))
                 (create_account acme contact (ac_directory_url config)) ;;
   let '(account, credentials) := created in
   creds_json <?- mlift (map_err (fun e => AcmeConfigError (lit "failed to serialize account credentials: " ++ e))
                           (credentials_to_json acme credentials)) ;;
   save_file (ac_account_credentials_path config) creds_json ?;;
   mret (Ok account)).

Definition get_or_create_account : M W (result Account AcmeError) :=
  present <<- ae_exists env (ac_account_credentials_path config) ;;
  if present : bool then restore_account else register_account.

(** One round of the loop over the authorizations; [Ok None] is [continue]. *)
Definition challenge_of (authz : Authorization) : result (option Challenge) AcmeError :=
  match az_status authz with
  | AuthValid => Ok None
  | AuthPending =>
      let? challenge := ok_or (az_dns01 authz) (AcmeProtocol (lit "no DNS-01 challenge available")) in
      Ok (Some challenge)
  | other => Err (AcmeProtocol (lit "unexpected authorization status: " ++ debug_auth_status other))
  end.

(** The identifiers of the records created are kept on every way out of the loop. *)
Fixpoint process_authorizations (urls : list rstr) (record_ids : list rstr) :
  M W (list rstr * result unit AcmeError) :=
  match urls with
  | [] => mret (record_ids, Ok tt)
  | url :: rest =>
      fetched <<- mmap_err (protocol (lit "authorization error")) (fetch_authorization acme url) ;;
      match (let? authz := fetched in challenge_of authz) with
      | Err e => mret (record_ids, Err e)
      | Ok None => process_authorizations rest record_ids
      | Ok (Some challenge) =>
          created <<- create_txt_record (am_dns_provider am) (chal_identifier challenge)
                        (chal_dns_value challenge) ;;
          match created with
          | Err e => mret (record_ids, Err (AcmeDnsProvider e))
          | Ok record_id =>
              let record_ids := record_ids ++ [record_id] in
              ae_sleep env 60 ;;;
              (ready <<- mmap_err (protocol (lit "failed to set challenge ready")) (set_ready acme challenge) ;;
               match ready with
               | Err e => mret (record_ids, Err e)
               | Ok _ => process_authorizations rest record_ids
               end)
          end
      end
  end.

(** A failed deletion is only logged. *)
Fixpoint cleanup_records (record_ids : list rstr) : M W unit :=
  match record_ids with
  | [] => mret tt
  | record_id :: rest => delete_txt_record (am_dns_provider am) record_id ;;; cleanup_records rest
  end.

(** From the order to the certificate. *)
Definition complete_order (order : rstr) : M W (result unit AcmeError) :=
  status <?- mmap_err (protocol (lit "order did not become ready")) (poll_ready acme order) ;;
  match status with
  | OrderReady =>
      private_key_pem <?- mmap_err (protocol (lit "failed to finalize order")) (finalize acme order) ;;
      cert_chain_pem <?- mmap_err (protocol (lit "failed to get certificate")) (poll_certificate acme order) ;;
      save_cert_to_disk cert_chain_pem private_key_pem ?;;
      (key <?- mlift (load_certified_key_from_pem pem cert_chain_pem private_key_pem) ;;
       resolver_update certified_key key ;;; mret (Ok tt))
  | status => mret (Err (AcmeProtocol (lit "unexpected order status: " ++ debug_order_status status)))
  end.

Definition run_acme_flow : M W (result unit AcmeError) :=
  account <?- get_or_create_account ;;
  created <?- mmap_err (protocol (lit "failed to create order")) (new_order acme account (ac_domains config)) ;;
  let '(order, urls) := created in
  processed <<- process_authorizations urls [] ;;
  let '(record_ids, cleanup_result) := processed in
  cleanup_records record_ids ;;;
  (mlift cleanup_result ?;; complete_order order).

(** [cert_time_remaining], in nanoseconds. *)
Definition time_remaining (key : CertifiedKey) : M W (option N) :=
  now <<- ae_system_now env ;; mret (cert_time_remaining (ck_cert key) now).

Definition seconds_to_nanos (secs : N) : N := (secs * nanos)%N.

(** The certificate on disk, where it can be used for longer than the renewal window. *)
Definition usable_on_disk : M W (result (option CertifiedKey) AcmeError) :=
  cert <<- ae_exists env (ac_cert_path config) ;;
  key <<- (if cert : bool then ae_exists env (ac_key_path config) else mret false) ;;
  if key : bool then
    loaded <<- load_cert_from_disk ;;
    match loaded with
    | Err _ => mret (Ok None)
    | Ok certified =>
        renewal_duration <?- mlift (parse_duration (ac_renew_before_expiry config)) ;;
        remaining <<- time_remaining certified ;;
        mret (Ok (match remaining with
                  | Some remaining =>
                      if (seconds_to_nanos renewal_duration <? remaining)%N then Some certified else None
                  | None => None
                  end))
    end
  else mret (Ok None).

Definition obtain_or_load_certificate : M W (result unit AcmeError) :=
  found <?- usable_on_disk ;;
  match found with
  | Some certified => resolver_update certified_key certified ;;; mret (Ok tt)
  | None => run_acme_flow
  end.

(** ** Renewal *)

Definition HOUR : N := 3600.
Definition CHECK_INTERVAL : N := 12 * HOUR.
Definition MAX_BACKOFF : N := 24 * HOUR.

Definition renewal_duration : N :=
  match parse_duration (ac_renew_before_expiry config) with Ok d => d | Err _ => 30 * 86400 end.

Definition needs_renewal (remaining : option N) : bool :=
  match remaining with
  | Some remaining => (remaining <=? seconds_to_nanos renewal_duration)%N
  | None => true
  end.

(** One round of the task: the next backoff, or [None] when the task returns. *)
Definition renewal_round (backoff : N) : M W (option N) :=
  cancelled <<- ae_cancelled_within env CHECK_INTERVAL ;;
  if cancelled : bool then mret None
  else
    current <<- resolver_current certified_key ;;
    remaining <<- time_remaining current ;;
    if negb (needs_renewal remaining) then mret (Some HOUR)
    else
      renewed <<- run_acme_flow ;;
      match renewed with
      | Ok _ => mret (Some HOUR)
      | Err _ =>
          cancelled <<- ae_cancelled_within env backoff ;;
          mret (if cancelled : bool then None else Some (N.min (backoff * 2) MAX_BACKOFF))
      end.

(** The first [rounds] rounds; [Some backoff] while the task is still running. *)
Fixpoint renewal_task (rounds : nat) (backoff : N) : M W (option N) :=
  match rounds with
  | O => mret (Some backoff)
  | S rounds =>
      next <<- renewal_round backoff ;;
      match next with
      | None => mret None
      | Some backoff => renewal_task rounds backoff
      end
  end.

Definition spawn_renewal_task (rounds : nat) : M W (option N) := renewal_task rounds HOUR.
End manager.

(** ** The temporary certificate

    What the code uses of rcgen (a new key, a certificate for it, both in DER) and of rustls
    (whether the key has a supported type). *)

Record Rcgen (W : Type) : Type := {
  rc_key_pair : M W (result (list N) rstr);
  rc_self_signed : list N -> M W (result (list N) rstr);
  rc_any_supported_type : list N -> result unit rstr
}.
Arguments rc_key_pair {W} _.
Arguments rc_self_signed {W} _ _.
Arguments rc_any_supported_type {W} _ _.

Definition generate_temp_certified_key {W} (rcgen : Rcgen W) : M W (result CertifiedKey rstr) :=
  key <?- mmap_err (fun e => lit "key generation failed: " ++ e) (rc_key_pair rcgen) ;;
  cert <?- mmap_err (fun e => lit "self-signed cert generation failed: " ++ e) (rc_self_signed rcgen key) ;;
  mlift (map_err (fun e => lit "key type error: " ++ e) (rc_any_supported_type rcgen key)) ?;;
  mret (Ok {| ck_cert := [cert]; ck_key := key |}).

(** ** Start ([run_daemon] of main.rs)

    A failure that ends the process is [Err] with what is printed. *)

Section start.
Context {W Account Credentials : Type} (acme : AcmeClient W Account Credentials) (env : AcmeEnv W).
Context (pem : PemReader) (certified_key : Cell W CertifiedKey).
Context (api : ApiClient W) (env_var : rstr -> option rstr) (http_client : result unit rstr).
Context (rcgen : Rcgen W).

Definition resolve_acme_path (will_chroot : bool) (chroot_dir path : rstr) : result rstr Error :=
  if will_chroot then resolve_path_for_chroot_runtime path chroot_dir
  else resolve_path_for_chroot_host path chroot_dir.

Definition runtime_acme_config (will_chroot : bool) (chroot_dir : rstr) (c : AcmeConfig) :
  result AcmeConfig (list rstr) :=
  let? cert_path := map_err (fun e => [lit "invalid acme.cert_path: " ++ display_chain e])
                      (resolve_acme_path will_chroot chroot_dir (ac_cert_path c)) in
  let? key_path := map_err (fun e => [lit "invalid acme.key_path: " ++ display_chain e])
                     (resolve_acme_path will_chroot chroot_dir (ac_key_path c)) in
  let? account_path := map_err (fun e => [lit "invalid acme.account_credentials_path: " ++ display_chain e])
                         (resolve_acme_path will_chroot chroot_dir (ac_account_credentials_path c)) in
  Ok {| ac_enabled := true; ac_directory_url := ac_directory_url c; ac_domains := ac_domains c;
        ac_email := ac_email c; ac_cert_path := cert_path; ac_key_path := key_path;
        ac_account_credentials_path := account_path; ac_renew_before_expiry := ac_renew_before_expiry c;
        ac_dns_provider := ac_dns_provider c |}.

Definition temporary_key : M W (result CertifiedKey (list rstr)) :=
  mmap_err (fun e => [lit "failed to generate temporary cert: " ++ e]) (generate_temp_certified_key rcgen).

Definition read_pair (c : AcmeConfig) : M W (result CertifiedKey rstr) :=
  cert <?- ae_read_to_string env (ac_cert_path c) ;;
  key <?- ae_read_to_string env (ac_key_path c) ;;
  mlift (map_err display_acme_error (load_certified_key_from_pem pem cert key)).

Definition initial_key (c : AcmeConfig) : M W (result CertifiedKey (list rstr)) :=
  cert <<- ae_exists env (ac_cert_path c) ;;
  key <<- (if cert : bool then ae_exists env (ac_key_path c) else mret false) ;;
  if key : bool then
    loaded <<- read_pair c ;;
    match loaded with
    | Ok ck => mret (Ok ck)
    | Err _ => temporary_key
    end
  else temporary_key.

(** A failed acquisition is only logged: the listeners start with the initial key. *)
Definition setup_acme (will_chroot : bool) (chroot_dir : rstr) (acme_config : option AcmeConfig) :
  M W (result (option (AcmeManager W)) (list rstr)) :=
  match acme_config with
  | Some c =>
      if ac_enabled c then
        runtime <?- mlift (runtime_acme_config will_chroot chroot_dir c) ;;
        key <?- initial_key runtime ;;
        resolver_new certified_key key ;;;
        (am <?- mlift (map_err (fun e => [lit "failed to initialize ACME manager: " ++ display_acme_error e])
                         (manager_new api env_var http_client runtime)) ;;
         obtain_or_load_certificate acme env pem certified_key am ;;;
         mret (Ok (Some am)))
      else mret (Ok None)
  | None => mret (Ok None)
  end.
End start.

(** ** What the outside leaves alone

    [OutsideKeeps f]: neither the protocol client nor the files and clocks change what [f]
    reads. *)

Class OutsideKeeps {W Account Credentials T : Type} (acme : AcmeClient W Account Credentials)
  (env : AcmeEnv W) (f : W -> T) : Prop := {
  keeps_builder : keeps f (account_builder acme);
  keeps_from : forall c, keeps f (from_credentials acme c);
  keeps_create : forall a b, keeps f (create_account acme a b);
  keeps_new_order : forall a ds, keeps f (new_order acme a ds);
  keeps_fetch : forall u, keeps f (fetch_authorization acme u);
  keeps_set_ready : forall c, keeps f (set_ready acme c);
  keeps_poll_ready : forall o, keeps f (poll_ready acme o);
  keeps_finalize : forall o, keeps f (finalize acme o);
  keeps_poll_certificate : forall o, keeps f (poll_certificate acme o);
  keeps_exists : forall p, keeps f (ae_exists env p);
  keeps_read : forall p, keeps f (ae_read_to_string env p);
  keeps_mkdir : forall p, keeps f (ae_create_dir_all env p);
  keeps_write : forall p c, keeps f (ae_write env p c);
  keeps_now : keeps f (ae_system_now env);
  keeps_sleep : forall n, keeps f (ae_sleep env n);
  keeps_wait : forall n, keeps f (ae_cancelled_within env n)
}.
#[export] Hint Resolve keeps_builder keeps_from keeps_create keeps_new_order keeps_fetch keeps_set_ready
  keeps_poll_ready keeps_finalize keeps_poll_certificate keeps_exists keeps_read keeps_mkdir keeps_write
  keeps_now keeps_sleep keeps_wait : keeps.

(** Follows the shape of an operation. *)
Ltac keeping :=
  repeat first
    [ solve [eauto with keeps typeclass_instances]
    | apply keeps_tbind; [|intros ?] | apply keeps_mbind; [|intros ?] | apply keeps_mmap_err
    | case_goal ].

Section frame.
Context {W Account Credentials T : Type} (acme : AcmeClient W Account Credentials) (env : AcmeEnv W).
Context (pem : PemReader) (certified_key : Cell W CertifiedKey) (am : AcmeManager W).
Context (f : W -> T) `{!OutsideKeeps acme env f}.

Lemma save_file_keeps path content : keeps f (save_file env path content).
Proof. unfold save_file. keeping. Qed.
#[local] Hint Resolve save_file_keeps : keeps.

Lemma get_or_create_account_keeps : keeps f (get_or_create_account acme env am).
Proof. unfold get_or_create_account, restore_account, register_account. keeping. Qed.

Lemma complete_order_keeps order : (forall key, keeps f (cwrite certified_key key)) ->
  keeps f (complete_order acme env pem certified_key am order).
Proof. intros Hw. unfold complete_order, save_cert_to_disk, resolver_update. keeping. Qed.
End frame.

(** ** Challenge records *)

Section challenges.
Context {W Account Credentials : Type} (acme : AcmeClient W Account Credentials) (env : AcmeEnv W).
Context (pem : PemReader) (certified_key : Cell W CertifiedKey) (am : AcmeManager W).
Context (records : W -> gset rstr) `{!TxtProvider (am_dns_provider am) records}.
Context `{!OutsideKeeps acme env records}.

(** [w'] has the records of [w], those of [new] and [stray], none of which [w] had. *)
Definition added (w w' : W) (new : list rstr) (stray : gset rstr) : Prop :=
  records w' = records w ∪ list_to_set new ∪ stray /\ list_to_set new ∪ stray ## records w.

Lemma added_none w w' : records w' = records w -> added w w' [] ∅.
Proof. unfold added. simpl. set_solver. Qed.

Lemma added_cons w w1 w' id new stray :
  id ∉ records w -> records w1 = {[id]} ∪ records w -> added w1 w' new stray -> added w w' (id :: new) stray.
Proof. unfold added. simpl. set_solver. Qed.

Lemma added_from w w1 w' new stray : records w1 = records w -> added w1 w' new stray -> added w w' new stray.
Proof. unfold added. intros ->. done. Qed.

(** What the loop has created is in its list, on every way out, but for one record that a
    creation answered with an error may have added; the error is then that of the loop. *)
Definition provider_error (r : result unit AcmeError) : Prop := exists e, r = Err (AcmeDnsProvider e).

Definition strayed (stray : gset rstr) (r : result unit AcmeError) : Prop :=
  stray = ∅ \/ (provider_error r /\ size stray = 1).

Lemma create_failed_added domain value w e w' :
  create_txt_record (am_dns_provider am) domain value w = (Err e, w') ->
  exists stray, added w w' [] stray /\ strayed stray (Err (AcmeDnsProvider e)).
Proof.
  intros [Hr|(id & Hnew & Hr)]%create_failed; [exists ∅|exists {[id]}]; unfold added, strayed; simpl.
  - split; [set_solver|by left].
  - split; [set_solver|right]. split; [by exists e|exact (size_singleton (C := gset rstr) id)].
Qed.

Lemma process_effect urls ids w :
  let '((ids', r), w') := process_authorizations acme env am urls ids w in
  exists new stray, ids' = ids ++ new /\ added w w' new stray /\ strayed stray r.
Proof.
  revert ids w. induction urls as [|url urls IH]; intros ids w; cbn [process_authorizations].
  { exists [], ∅. rewrite app_nil_r. split_and!; [done|by apply added_none|by left]. }
  unfold mbind at 1. pose proof (keeps_mmap_err records (protocol (lit "authorization error")) _ (keeps_fetch url) w) as H1.
  destruct (mmap_err _ _ w) as [fetched w1]. simpl in H1.
  destruct (let? authz := fetched in challenge_of authz) as [[challenge|]|e].
  - unfold mbind at 1. destruct (create_txt_record _ _ _ w1) as [[id|e] w2] eqn:Hc.
    + apply created_fresh in Hc as [Hnew Hadd]. rewrite H1 in Hnew, Hadd.
      unfold mbind. pose proof (keeps_sleep 60 w2) as H3. destruct (ae_sleep env 60 w2) as [[] w3]. simpl in H3.
      pose proof (keeps_mmap_err records (protocol (lit "failed to set challenge ready")) _ (keeps_set_ready challenge) w3) as H4.
      destruct (mmap_err _ _ w3) as [[[]|e] w4]; simpl in H4.
      * specialize (IH (ids ++ [id]) w4). destruct (process_authorizations _ _ _ urls _ w4) as [[ids' r] w'].
        destruct IH as (new & stray & -> & Ha & Hs). exists (id :: new), stray. split; [by rewrite <-app_assoc|].
        split; [|done]. eapply added_cons; [done| |exact Ha]. congruence.
      * exists [id], ∅. split_and!; [done| |by left]. eapply added_cons; [done| |apply added_none; reflexivity]. congruence.
    + apply create_failed_added in Hc as (stray & Ha & Hs). exists [], stray. rewrite app_nil_r.
      split_and!; [done|by eapply added_from|done].
  - specialize (IH ids w1). destruct (process_authorizations _ _ _ urls _ w1) as [[ids' r] w'].
    destruct IH as (new & stray & -> & Ha & Hs). exists new, stray. split_and!; [done|by eapply added_from|done].
  - exists [], ∅. rewrite app_nil_r. split_and!; [done|by apply added_none|by left].
Qed.

Lemma cleanup_cons id ids w :
  cleanup_records am (id :: ids) w = cleanup_records am ids (snd (delete_txt_record (am_dns_provider am) id w)).
Proof. cbn [cleanup_records]. unfold mbind. by destruct (delete_txt_record _ _ w). Qed.

Lemma delete_effect id w :
  let '(r, w') := delete_txt_record (am_dns_provider am) id w in
  records w' = records w ∖ {[id]} \/ (is_ok r = false /\ records w' = records w).
Proof.
  destruct (delete_txt_record _ _ w) as [[[]|e] w'] eqn:Hd; [left; by apply deleted_gone|].
  apply delete_failed in Hd as [Hd|Hd]; [by right|by left].
Qed.

(** Cleaning up deletes at most the records of its list. *)
Lemma cleanup_bound ids w :
  records w ∖ list_to_set ids ⊆ records (snd (cleanup_records am ids w))
  /\ records (snd (cleanup_records am ids w)) ⊆ records w.
Proof.
  revert w. induction ids as [|id ids IH]; intros w; [cbn; set_solver|].
  rewrite cleanup_cons. pose proof (delete_effect id w) as Hd.
  destruct (delete_txt_record _ _ w) as [r w1]. simpl. specialize (IH w1).
  destruct Hd as [Hd|[_ Hd]]; rewrite Hd in IH; set_solver.
Qed.

(** Where no deletion of a record fails it deletes all of them. *)
Lemma cleanup_all ids w : (forall id w, id ∈ records w -> is_ok (fst (delete_txt_record (am_dns_provider am) id w)) = true) ->
  records (snd (cleanup_records am ids w)) = records w ∖ list_to_set ids.
Proof.
  intros Hok. revert w. induction ids as [|id ids IH]; intros w; [cbn; set_solver|].
  rewrite cleanup_cons. pose proof (delete_effect id w) as Hd. specialize (Hok id w).
  destruct (delete_txt_record _ _ w) as [r w1]; simpl in *; rewrite IH.
  destruct Hd as [->|[Herr ->]]; [set_solver|].
  destruct (decide (id ∈ records w)) as [Hin|Hout]; [|set_solver]. specialize (Hok Hin). congruence.
Qed.

(** The records of [w] are still there; where deletions do not fail there is no other, but
    for one where the outcome is an error of the provider. *)
Definition tidied (w : W) (r : result unit AcmeError) (w' : W) : Prop :=
  records w ⊆ records w'
  /\ ((forall id w, id ∈ records w -> is_ok (fst (delete_txt_record (am_dns_provider am) id w)) = true) ->
      records w' = records w \/ (provider_error r /\ exists id, records w' = {[id]} ∪ records w)).

Lemma tidied_same w r w' : records w' = records w -> tidied w r w'.
Proof. intros Hr. split; [by rewrite Hr|by left]. Qed.

(** The records between the creation of the order and its outcome. *)
Lemma order_records order urls w :
  (forall key, keeps records (cwrite certified_key key)) ->
  let '(r, w') := (processed <<- process_authorizations acme env am urls [] ;;
                   let '(record_ids, cleanup_result) := processed in
                   cleanup_records am record_ids ;;;
                   (mlift cleanup_result ?;; complete_order acme env pem certified_key am order)) w in
  tidied w r w'.
Proof.
  intros Hcell. unfold mbind at 1. pose proof (process_effect urls [] w) as Hp.
  destruct (process_authorizations _ _ _ urls [] w) as [[ids r] w1].
  destruct Hp as (new & stray & -> & [Hadd Hnew] & Hstray).
  cbn [app]. unfold mbind. pose proof (cleanup_bound new w1) as Hb. pose proof (cleanup_all new w1) as Ha.
  destruct (cleanup_records am new w1) as [[] w2]. cbn [snd] in *.
  assert (Hk : keeps records (mlift r ?;; complete_order acme env pem certified_key am order)).
  { apply keeps_tbind; [apply keeps_mlift|]. intros _. by apply complete_order_keeps. }
  specialize (Hk w2). assert (provider_error r -> fst ((mlift r ?;; complete_order acme env pem certified_key am order) w2) = r) as Hr.
  { by intros [e ->]. }
  destruct ((mlift r ?;; complete_order acme env pem certified_key am order) w2) as [r' w']. simpl in *.
  unfold tidied. rewrite Hk. split; [set_solver|]. intros Hok. rewrite (Ha Hok), Hadd.
  destruct Hstray as [->|[Hpe [id Hone]%size_1_elem_of]]; [left; set_solver|].
  fold_leibniz. subst stray. destruct (decide (id ∈ (list_to_set new : gset rstr))); [left; set_solver|].
  right. rewrite (Hr Hpe). split; [done|]. exists id. set_solver.
Qed.
End challenges.

(** ** The served certificate *)

Section served.
Context {W Account Credentials : Type} (acme : AcmeClient W Account Credentials) (env : AcmeEnv W).
Context (pem : PemReader) (certified_key : Cell W CertifiedKey) (am : AcmeManager W).
Context `{!CellLaws certified_key}.
Abbreviation current := (cget certified_key).
Context `{!OutsideKeeps acme env current}.
Context (Hcreate : forall d v, keeps current (create_txt_record (am_dns_provider am) d v)).
Context (Hdelete : forall id, keeps current (delete_txt_record (am_dns_provider am) id)).

(** A certificate that was issued: the chain and the key that an order for the configured
    domains gave, after it had become ready, both read whole. *)
Definition given_by (order : rstr) (key : CertifiedKey) : Prop :=
  exists key_pem cert_pem w1 w2 w3 w4,
    poll_ready acme order w1 = (Ok OrderReady, w2)
    /\ finalize acme order w2 = (Ok key_pem, w3)
    /\ poll_certificate acme order w3 = (Ok cert_pem, w4)
    /\ load_certified_key_from_pem pem cert_pem key_pem = Ok key.
Definition issued (key : CertifiedKey) : Prop :=
  exists account order urls w0 w1,
    new_order acme account (ac_domains (am_config am)) w0 = (Ok (order, urls), w1) /\ given_by order key.

Lemma process_keeps_current urls ids : keeps current (process_authorizations acme env am urls ids).
Proof using Hcreate OutsideKeeps0. revert ids. induction urls; intros ids; cbn [process_authorizations]; keeping. Qed.

Lemma cleanup_keeps_current ids : keeps current (cleanup_records am ids).
Proof using Hdelete. induction ids; cbn [cleanup_records]; keeping. Qed.

(** The served certificate after an operation that may replace it by one of [P]. *)
Definition flow_serves {A E} (P : CertifiedKey -> Prop) (m : M W (result A E)) (w : W) : Prop :=
  let '(r, w') := m w in
  match r with Ok _ => P (current w') | Err _ => current w' = current w end.

Lemma flow_serves_tbind {A B E} P (m : M W (result A E)) (k : A -> M W (result B E)) w :
  keeps current m -> (forall a w1, m w = (Ok a, w1) -> flow_serves P (k a) w1) -> flow_serves P (tbind m k) w.
Proof.
  intros Hm Hk. unfold flow_serves, tbind. specialize (Hm w). destruct (m w) as [[a|e] w1]; [|done].
  simpl in Hm. specialize (Hk a w1 eq_refl). unfold flow_serves in Hk.
  destruct (k a w1) as [[b|e] w2]; [done|congruence].
Qed.

Lemma flow_serves_mbind {A B E} P (m : M W A) (k : A -> M W (result B E)) w :
  keeps current m -> (forall a w1, flow_serves P (k a) w1) -> flow_serves P (mbind m k) w.
Proof.
  intros Hm Hk. unfold flow_serves, mbind. specialize (Hm w). destruct (m w) as [a w1]. simpl in Hm.
  specialize (Hk a w1). unfold flow_serves in Hk. destruct (k a w1) as [[b|e] w2]; [done|congruence].
Qed.

Lemma mmap_err_eq {A E F} (f : E -> F) (m : M W (result A E)) w a w' :
  mmap_err f m w = (Ok a, w') -> m w = (Ok a, w').
Proof. unfold mmap_err. destruct (m w) as [[x|e] w1]; [|done]. by intros [= -> ->]. Qed.

Lemma complete_order_serves order w :
  flow_serves (given_by order) (complete_order acme env pem certified_key am order) w.
Proof using CellLaws0 OutsideKeeps0.
  unfold complete_order. apply flow_serves_tbind; [keeping|]. intros [| | | |] w1 H1%mmap_err_eq; try done.
  apply flow_serves_tbind; [keeping|]. intros key_pem w2 H2%mmap_err_eq.
  apply flow_serves_tbind; [keeping|]. intros cert_pem w3 H3%mmap_err_eq.
  apply flow_serves_tbind; [apply keeps_tbind; [|intros _]; by apply (save_file_keeps acme)|]. intros _ w4 _.
  unfold flow_serves, tbind, mlift, mret.
  destruct (load_certified_key_from_pem pem cert_pem key_pem) as [key|e] eqn:Hl; [|done].
  cbn. rewrite cget_cput. by exists key_pem, cert_pem, w, w1, w2, w3.
Qed.

Lemma flow_serves_weaken {A E} (P Q : CertifiedKey -> Prop) (m : M W (result A E)) w :
  (forall key, P key -> Q key) -> flow_serves P m w -> flow_serves Q m w.
Proof. unfold flow_serves. destruct (m w) as [[a|e] w1]; auto. Qed.

Lemma run_acme_flow_serves w : flow_serves issued (run_acme_flow acme env pem certified_key am) w.
Proof using All.
  unfold run_acme_flow. apply flow_serves_tbind; [by apply get_or_create_account_keeps|]. intros account w0 _.
  apply flow_serves_tbind; [keeping|]. intros [order urls] w1 Hno%mmap_err_eq.
  apply flow_serves_mbind; [apply process_keeps_current|]. intros [ids r] w2.
  apply flow_serves_mbind; [apply cleanup_keeps_current|]. intros _ w3.
  apply flow_serves_tbind; [apply keeps_mlift|]. intros _ w4 _.
  eapply flow_serves_weaken; [|apply complete_order_serves]. intros key Hk. by exists account, order, urls, w0, w1.
Qed.

(** *** Rounds

    The wait before the retry after the failure number [k + 1] in a row: an hour doubled for
    every failure before it, up to a day. *)
Definition retry_wait (k : nat) : N := N.min (HOUR * 2 ^ N.of_nat k) MAX_BACKOFF.

Lemma retry_wait_next k : N.min (retry_wait k * 2) MAX_BACKOFF = retry_wait (S k).
Proof.
  unfold retry_wait. rewrite Nnat.Nat2N.inj_succ, N.pow_succ_r', (N.mul_comm 2), N.mul_assoc.
  assert (MAX_BACKOFF > 0)%N by done. lia.
Qed.

(** A round begins: the task was not cancelled, the clock is read, the served certificate has
    [remaining] left. *)
Definition round_begins (w : W) (remaining : option N) (w' : W) : Prop :=
  exists w1 now, ae_cancelled_within env CHECK_INTERVAL w = (false, w1)
    /\ ae_system_now env w1 = (now, w') /\ remaining = cert_time_remaining (ck_cert (current w1)) now.

(** Whether it is time to renew: the certificate ends within the configured window, or its
    end is not known. *)
Definition due (remaining : option N) : Prop :=
  forall r, remaining = Some r -> (r <= seconds_to_nanos (renewal_duration am))%N.

Lemma needs_renewal_due remaining : needs_renewal am remaining = true <-> due remaining.
Proof.
  unfold needs_renewal, due. destruct remaining as [r|]; [|done]. rewrite N.leb_le.
  split; [by intros H ? [= <-]|by intros H; apply H].
Qed.

(** [rounds n k w k' w']: [n] rounds lead from [w] to [w'] and from [k] failures in a row to
    [k']. *)
Inductive rounds : nat -> nat -> W -> nat -> W -> Prop :=
| rounds_none k w : rounds 0 k w k w
| rounds_idle n k w remaining w1 k' w' :
    round_begins w remaining w1 -> ~ due remaining -> rounds n 0 w1 k' w' -> rounds (S n) k w k' w'
| rounds_renewed n k w remaining w1 u w2 k' w' :
    round_begins w remaining w1 -> due remaining ->
    run_acme_flow acme env pem certified_key am w1 = (Ok u, w2) ->
    rounds n 0 w2 k' w' -> rounds (S n) k w k' w'
| rounds_failed n k w remaining w1 e w2 w3 k' w' :
    round_begins w remaining w1 -> due remaining ->
    run_acme_flow acme env pem certified_key am w1 = (Err e, w2) ->
    ae_cancelled_within env (retry_wait k) w2 = (false, w3) ->
    rounds n (S k) w3 k' w' -> rounds (S n) k w k' w'.

(** The task is cancelled: at the check, or while it waits to retry. *)
Definition cancelled (k : nat) (w w' : W) : Prop :=
  ae_cancelled_within env CHECK_INTERVAL w = (true, w')
  \/ exists remaining w1 e w2, round_begins w remaining w1 /\ due remaining
       /\ run_acme_flow acme env pem certified_key am w1 = (Err e, w2)
       /\ ae_cancelled_within env (retry_wait k) w2 = (true, w').

Lemma renewal_round_cases k w :
  let '(next, w') := renewal_round acme env pem certified_key am (retry_wait k) w in
  (current w' = current w \/ issued (current w'))
  /\ match next with
     | None => cancelled k w w'
     | Some b => exists k1, b = retry_wait k1 /\ forall n k' w'', rounds n k1 w' k' w'' -> rounds (S n) k w k' w''
     end.
Proof using All.
  assert (HOUR = retry_wait 0) as Hh by done.
  unfold renewal_round. unfold mbind at 1. pose proof (keeps_wait (acme := acme) (f := current) CHECK_INTERVAL w) as H1.
  destruct (ae_cancelled_within _ _ w) as [[|] w1] eqn:Hcw; simpl in H1; [split; by left|].
  unfold resolver_current, mbind at 1, cread. unfold mbind at 1, time_remaining at 1, mbind at 1.
  pose proof (keeps_now (acme := acme) (f := current) w1) as H2.
  destruct (ae_system_now env w1) as [now w2] eqn:Hnow. simpl in H2. unfold mret at 1.
  assert (round_begins w (cert_time_remaining (ck_cert (current w1)) now) w2) as Hbegin by (by exists w1, now).
  destruct (needs_renewal _ _) eqn:Hn; cbn [negb].
  2: { split; [left; simpl; congruence|]. exists 0. split; [done|]. intros n k' w''. eapply rounds_idle; [done|].
       by rewrite <- needs_renewal_due, Hn. }
  apply needs_renewal_due in Hn.
  unfold mbind at 1. pose proof (run_acme_flow_serves w2) as Hf. unfold flow_serves in Hf.
  destruct (run_acme_flow _ _ _ _ _ w2) as [[u|e] w3] eqn:Hflow.
  { split; [by right|]. exists 0. split; [done|]. intros n k' w''. by eapply rounds_renewed. }
  unfold mbind. pose proof (keeps_wait (acme := acme) (f := current) (retry_wait k) w3) as H4.
  destruct (ae_cancelled_within _ _ w3) as [[|] w4] eqn:Hc2; simpl in H4 |- *; (split; [left; congruence|]).
  - right. by exists (cert_time_remaining (ck_cert (current w1)) now), w2, e, w3.
  - exists (S k). split; [apply retry_wait_next|]. intros n k' w''. by eapply rounds_failed.
Qed.

(** What holds at the end of any number of rounds. *)
Lemma renewal_task_serves n k w :
  let '(next, w') := renewal_task acme env pem certified_key am n (retry_wait k) w in
  (current w' = current w \/ issued (current w'))
  /\ match next with
     | Some b => exists k', b = retry_wait k' /\ rounds n k w k' w'
     | None => exists m k' w1, m < n /\ rounds m k w k' w1 /\ cancelled k' w1 w'
     end.
Proof using All.
  revert k w. induction n as [|n IH]; intros k w; cbn [renewal_task].
  { split; [by left|]. exists k. split; [done|constructor]. }
  unfold mbind. pose proof (renewal_round_cases k w) as Hr.
  destruct (renewal_round _ _ _ _ _ (retry_wait k) w) as [[b|] w1]; destruct Hr as [Hc Hr].
  2: { split; [done|]. exists 0, k, w. split_and!; [lia|constructor|done]. }
  destruct Hr as (k1 & -> & Hext). specialize (IH k1 w1).
  destruct (renewal_task _ _ _ _ _ n (retry_wait k1) w1) as [next w']. destruct IH as [Hc' Hn]. split.
  { destruct Hc' as [->|Hc']; [done|by right]. }
  destruct next as [b|]; [destruct Hn as (k' & -> & Hn); exists k'; auto|].
  destruct Hn as (m & k' & w2 & Hm & Hrs & Hcan). exists (S m), k', w2. split_and!; [lia|auto|done].
Qed.
End served.

(** ** Rounds without a renewal *)

Section idle.
Context {W Account Credentials T : Type} (acme : AcmeClient W Account Credentials) (env : AcmeEnv W).
Context (pem : PemReader) (certified_key : Cell W CertifiedKey) (am : AcmeManager W).

(** Once the token is cancelled the task ends at its next wait, without an attempt. *)
Lemma renewal_task_stops n b w w' :
  ae_cancelled_within env CHECK_INTERVAL w = (true, w') ->
  renewal_task acme env pem certified_key am (S n) b w = (None, w').
Proof. intros Hc. cbn [renewal_task]. unfold mbind, renewal_round, mbind. by rewrite Hc. Qed.

Context (f : W -> T) (key : CertifiedKey).
Context (Hf1 : forall s, keeps f (ae_cancelled_within env s)) (Hf2 : keeps f (ae_system_now env)).
Context (Hc1 : forall s, keeps (cget certified_key) (ae_cancelled_within env s)).
Context (Hc2 : keeps (cget certified_key) (ae_system_now env)).
(** The clock shows the certificate outside the renewal window. *)
Context (Hfar : forall w,
  needs_renewal am (cert_time_remaining (ck_cert key) (fst (ae_system_now env w))) = false).

Lemma idle_round b w : cget certified_key w = key ->
  exists next w', renewal_round acme env pem certified_key am b w = (next, w')
                  /\ f w' = f w /\ cget certified_key w' = key.
Proof using All.
  intros Hkey. unfold renewal_round, mbind at 1.
  pose proof (Hf1 CHECK_INTERVAL w) as H1. pose proof (Hc1 CHECK_INTERVAL w) as H2.
  destruct (ae_cancelled_within _ _ w) as [[|] w1]; simpl in H1, H2.
  { exists None, w1. split; [done|]. by rewrite H1, H2. }
  unfold resolver_current, mbind at 1, cread. unfold mbind at 1, time_remaining, mbind at 1.
  pose proof (Hf2 w1) as H3. pose proof (Hc2 w1) as H4. pose proof (Hfar w1) as Hn.
  rewrite H2, Hkey. destruct (ae_system_now env w1) as [now w2]. simpl in H3, H4, Hn.
  unfold mret at 1. rewrite Hn. exists (Some HOUR), w2. split; [done|]. split; congruence.
Qed.

(** No round starts an order: the task changes only what waiting and reading the clock
    change.  A certificate that ends in the year 4096, as the temporary one of a first start
    does, is never replaced. *)
Lemma idle_rounds n b w : cget certified_key w = key ->
  let w' := snd (renewal_task acme env pem certified_key am n b w) in
  f w' = f w /\ cget certified_key w' = key.
Proof using All.
  revert b w. induction n as [|n IH]; intros b w Hkey; [done|]. cbn zeta. cbn [renewal_task]. unfold mbind.
  destruct (idle_round b w Hkey) as (next & w1 & -> & H1 & H2). destruct next as [b1|]; [|done].
  destruct (IH b1 w1 H2) as [Ha Hb]. split; [congruence|done].
Qed.
End idle.

(** ** Claims *)

Section claims.
Context {W Account Credentials : Type} (acme : AcmeClient W Account Credentials) (env : AcmeEnv W).
Context (pem : PemReader) (certified_key : Cell W CertifiedKey) (am : AcmeManager W).

(** C32. An ACME order cleans up after itself: with a provider that keeps its promise on TXT
    records, and whatever the protocol client answers (an error of any step included), the
    order flow never deletes a record that was there before it.  Where no deletion of a record
    fails, the records after the flow are those before it, whether it succeeded or not, unless
    it ends with an error of the provider: then a creation whose answer was an error may have
    left its one record, whose identifier the flow never learned. *)
Theorem challenge_records_removed (records : W -> gset rstr) `{!TxtProvider (am_dns_provider am) records}
  `{!OutsideKeeps acme env records} w :
  (forall key, keeps records (cwrite certified_key key)) ->
  let '(r, w') := run_acme_flow acme env pem certified_key am w in
  records w ⊆ records w'
  /\ ((forall id w, id ∈ records w -> is_ok (fst (delete_txt_record (am_dns_provider am) id w)) = true) ->
      records w' = records w
      \/ ((exists e, r = Err (AcmeDnsProvider e)) /\ exists id, records w' = {[id]} ∪ records w)).
Proof.
  intros Hcell.
  enough (let '(r, w') := run_acme_flow acme env pem certified_key am w in tidied am records w r w') as Ht
    by (destruct (run_acme_flow _ _ _ _ _ w); exact Ht).
  unfold run_acme_flow, tbind at 1. pose proof (get_or_create_account_keeps acme env am records w) as H1.
  destruct (get_or_create_account _ _ _ w) as [[account|e] w1]; simpl in H1; [|by apply tidied_same].
  unfold tbind at 1. pose proof (keeps_mmap_err records (protocol (lit "failed to create order")) _
    (keeps_new_order (acme := acme) (env := env) account (ac_domains (am_config am))) w1) as H2.
  destruct (mmap_err _ _ w1) as [[[order urls]|e] w2]; simpl in H2; [|apply tidied_same; simpl; congruence].
  pose proof (order_records acme env pem certified_key am records order urls w2 Hcell) as Ho.
  destruct (mbind _ _ w2) as [r w']. unfold tidied in *. by rewrite H2, H1 in Ho.
Qed.

(** C33. Renewal never leaves the listeners without a good certificate: after any number of
    rounds of the renewal task, whatever the protocol client, the provider, the files and
    the clock answer, the certificate handshakes are given is the one from before the task
    or the chain and key that an order for the configured domains gave, read whole, with at
    least one certificate in it.  The back-off is exact: every round tries to renew when the
    served certificate is within its renewal window; after a failure the task waits one hour,
    doubled for each failure in a row before it, at most a day, and one hour again after a
    round without a failure; it ends only by its cancellation. *)
Theorem renewal_keeps_good_certificate `{!CellLaws certified_key}
  `{!OutsideKeeps acme env (cget certified_key)} n w :
  (forall d v, keeps (cget certified_key) (create_txt_record (am_dns_provider am) d v)) ->
  (forall id, keeps (cget certified_key) (delete_txt_record (am_dns_provider am) id)) ->
  ck_cert (cget certified_key w) <> [] ->
  let '(next, w') := spawn_renewal_task acme env pem certified_key am n w in
  (cget certified_key w' = cget certified_key w \/ issued acme pem am (cget certified_key w'))
  /\ fst (resolver_resolve certified_key w') = Some (cget certified_key w')
  /\ ck_cert (cget certified_key w') <> []
  /\ match next with
     | Some b => exists k, b = retry_wait k /\ rounds acme env pem certified_key am n 0 w k w'
     | None => exists m k w1, m < n /\ rounds acme env pem certified_key am m 0 w k w1
                              /\ cancelled acme env pem certified_key am k w1 w'
     end.
Proof.
  intros Hc Hd Hne. unfold spawn_renewal_task.
  pose proof (renewal_task_serves acme env pem certified_key am Hc Hd n 0 w) as Hs.
  change (retry_wait 0) with HOUR in Hs. destruct (renewal_task _ _ _ _ _ n HOUR w) as [next w'].
  destruct Hs as [Hserved Hb]. split; [done|]. split; [done|]. split; [|done].
  destruct Hserved as [->|(a & o & u & w0 & w1 & _ & key_pem & cert_pem & w2 & w3 & w4 & w5 & _ & _ & _ & Hl)]; [done|].
  by eapply loaded_not_empty.
Qed.
End claims.

(** ** A small world

    A Cloudflare account with one zone, an order with one pending authorization whose
    validation fails, and a clock that stands still. *)

Module Example.
Record World : Type := { stored : gset (rstr * rstr); served_key : CertifiedKey }.

Definition zone : rstr := lit "zone1".
Lemma zone_plain : ch "/" ∉ zone.
Proof. apply (bool_decide_unpack _). by vm_compute. Qed.
Definition api_prefix : rstr := lit "https://api.cloudflare.com/client/v4/zones/".

(** The zone and the identifier in the URL of a record. *)
Definition record_of_url (url : rstr) : option (rstr * rstr) :=
  let?o rest := strip_prefix api_prefix url in
  let?o (z, rest) := split_once (ch "/") rest in
  let?o id := strip_prefix (lit "dns_records/") rest in Some (z, id).

Lemma record_of_url_record z id : ch "/" ∉ z -> record_of_url (record_url z id) = Some (z, id).
Proof.
  intros Hz. unfold record_of_url.
  replace (record_url z id) with (api_prefix ++ z ++ ch "/" :: (lit "dns_records/" ++ id)) by reflexivity.
  rewrite strip_prefix_app, (split_once_app _ _ _ Hz), strip_prefix_app. done.
Qed.

Definition with_stored (s : gset (rstr * rstr)) (w : World) : World :=
  {| stored := s; served_key := served_key w |}.

(** One identifier is given out: a second creation is refused. *)
Definition send_request (_ : rstr) (request : ApiRequest) : M World (result CfResponse rstr) := fun w =>
  match request with
  | ApiGet _ => (Ok {| ar_status := 200; ar_body := lit "zones" |}, w)
  | ApiPost url _ =>
      if str_eqb url (records_url zone) && bool_decide ((zone, lit "r1") ∉ stored w)
      then (Ok {| ar_status := 200; ar_body := lit "created" |},
            with_stored ({[(zone, lit "r1")]} ∪ stored w) w)
      else (Ok {| ar_status := 409; ar_body := lit "refused" |}, w)
  | ApiDelete url =>
      match record_of_url url with
      | Some record => (Ok {| ar_status := 200; ar_body := [] |}, with_stored (stored w ∖ {[record]}) w)
      | None => (Ok {| ar_status := 200; ar_body := [] |}, w)
      end
  end.

Definition api : ApiClient World := {|
  api_send := send_request;
  json_list := fun _ => Ok {| cl_success := true; cl_errors := [];
                              cl_result := [{| cz_id := zone; cz_name := lit "example.org" |}] |};
  json_record := fun body =>
    if str_eqb body (lit "created")
    then Ok {| crr_success := true; crr_errors := []; crr_result := Some {| crec_id := lit "r1" |} |}
    else Ok {| crr_success := false; crr_errors := [lit "conflict"]; crr_result := None |};
  json_base := fun _ => Ok {| cb_success := true; cb_errors := [] |}
|}.

(** Only records of plain zones are kept. *)
Definition visible (w : World) : gset (rstr * rstr) := filter (fun p => ch "/" ∉ p.1) (stored w).

#[local] Instance service : CloudflareService api visible.
Proof.
  split.
  - done.
  - intros w z id. unfold visible. rewrite elem_of_filter. by intros [H _].
  - intros token z payload w. unfold api at 1, api_send, send_request.
    destruct (str_eqb_spec (records_url z) (records_url zone)) as [He|He]; [|by left].
    case_bool_decide as Hn; [|by left].
    assert (z = zone) as -> by (unfold records_url in He; by apply app_inv_head, app_inv_tail in He).
    change ((zone, lit "r1") ∉ visible w /\
            visible (with_stored ({[(zone, lit "r1")]} ∪ stored w) w) = {[(zone, lit "r1")]} ∪ visible w).
    split; [unfold visible; rewrite elem_of_filter; naive_solver|].
    apply set_eq. intros p. unfold visible. cbn [stored with_stored].
    rewrite elem_of_union, !elem_of_filter, elem_of_union, elem_of_singleton.
    split; [intros [? [->|?]]; auto|intros [->|[? ?]]; split; auto using zone_plain].
  - intros token z id w Hz. unfold api, api_send, send_request. rewrite record_of_url_record by done.
    left. change (visible (with_stored (stored w ∖ {[(z, id)]}) w) = visible w ∖ {[(z, id)]}).
    apply set_eq. intros p. unfold visible. cbn [stored with_stored].
    rewrite elem_of_difference, !elem_of_filter, elem_of_difference. naive_solver.
Qed.
Definition cf : CloudflareDnsProvider := {| cf_api_token := lit "token"; cf_zone_id := None |}.
Definition config : AcmeConfig := {|
  ac_enabled := true; ac_directory_url := default_acme_directory_url;
  ac_domains := [lit "dns.example.org"]; ac_email := lit "admin@example.org";
  ac_cert_path := default_acme_cert_path; ac_key_path := default_acme_key_path;
  ac_account_credentials_path := default_acme_account_path;
  ac_renew_before_expiry := default_acme_renew_before_expiry;
  ac_dns_provider := {| adp_provider_type := lit "cloudflare"; adp_api_token := lit "token";
                        adp_zone_id := None |} |}.
Definition am : AcmeManager World := {| am_config := config; am_dns_provider := cloudflare_provider api cf |}.

Definition ready_answer (ready : bool) : result OrderStatus rstr :=
  if ready then Ok OrderReady else Err (lit "validation failed").

(** [ready]: whether the validation succeeds. *)
Definition acme (ready : bool) : AcmeClient World unit unit := {|
  account_builder := mret (Ok tt);
  from_credentials := fun _ => mret (Ok tt);
  create_account := fun _ _ => mret (Ok (tt, tt));
  new_order := fun _ _ => mret (Ok (lit "order", [lit "authz"]));
  fetch_authorization := fun _ => mret (Ok {|
    az_status := AuthPending;
    az_dns01 := Some {| chal_url := lit "chal"; chal_identifier := lit "dns.example.org";
                        chal_dns_value := lit "digest" |} |});
  set_ready := fun _ => mret (Ok tt);
  poll_ready := fun _ => mret (ready_answer ready);
  finalize := fun _ => mret (Ok (lit "key"));
  poll_certificate := fun _ => mret (Ok (lit "chain"));
  credentials_of_json := fun _ => Ok tt;
  credentials_to_json := fun _ => Ok (lit "{}")
|}.

Definition env : AcmeEnv World := {|
  ae_exists := fun _ => mret false;
  ae_read_to_string := fun _ => mret (Err (lit "not found"));
  ae_create_dir_all := fun _ => mret (Ok tt);
  ae_write := fun _ _ => mret (Ok tt);
  ae_parent := fun _ => Some (lit "certs");
  ae_system_now := mret (1700000000 * nanos)%N;
  ae_sleep := fun _ => mret tt;
  ae_cancelled_within := fun _ => mret false
|}.

(** Every chain is [CertTime.example_x509]. *)
Definition pem : PemReader := {|
  pem_certs := fun _ => [Ok (certificate_der example_x509)];
  pem_private_key := fun _ => Ok (Some [1%N]);
  any_supported_type := fun _ => Ok tt
|}.
Definition certified_key : Cell World CertifiedKey := {|
  cget := served_key; cput := fun k w => {| stored := stored w; served_key := k |}
|}.
#[local] Instance certified_key_laws : CellLaws certified_key.
Proof. by split; [| |]; try intros []. Qed.

Definition old_key : CertifiedKey := {| ck_cert := [[]]; ck_key := [] |}.
Definition world : World := {| stored := {[(zone, lit "www")]}; served_key := old_key |}.
Definition records : World -> gset rstr := served visible.

Lemma outside_keeps {T} ready (f : World -> T) : OutsideKeeps (acme ready) env f.
Proof. by split. Qed.

(** The order fails after its record was created: the record is gone, the other one stays. *)
Lemma challenge_records_removed_witness :
  fst (run_acme_flow (acme false) env pem certified_key am world)
    = Err (AcmeProtocol (lit "order did not become ready: validation failed"))
  /\ records (snd (run_acme_flow (acme false) env pem certified_key am world)) = records world.
Proof.
  assert (Hf : fst (run_acme_flow (acme false) env pem certified_key am world)
    = Err (AcmeProtocol (lit "order did not become ready: validation failed"))) by (by vm_compute).
  split; [exact Hf|].
  pose proof (challenge_records_removed (acme false) env pem certified_key am records
           (TxtProvider0 := cloudflare_txt_provider api cf visible)
           (OutsideKeeps0 := outside_keeps false records) world (fun _ _ => eq_refl)) as H.
  destruct (run_acme_flow (acme false) env pem certified_key am world) as [r w']. simpl in Hf. rewrite Hf in H.
  destruct H as [_ H]. destruct H as [Hsame|[[e He] _]]; [|exact Hsame|discriminate He].
  intros id w Hin. unfold records, served, composites in Hin. apply elem_of_map in Hin as ([z i] & -> & Hz).
  unfold visible in Hz. apply elem_of_filter in Hz as [Hz _]. simpl in Hz |- *. unfold cloudflare_delete.
  rewrite split_composite by done. unfold tbind, cf_send, mmap_err. unfold api at 1, api_send, send_request.
  by rewrite record_of_url_record.
Defined.

Lemma api_keeps_key token request : keeps served_key (api_send api token request).
Proof. intros w. destruct request; simpl; repeat case_match; done. Qed.

Lemma walk_keeps_key domain candidates : keeps served_key (walk_zones api cf domain candidates).
Proof.
  induction candidates; cbn [walk_zones]; [apply keeps_mret|].
  unfold lookup_zone, cf_send. repeat (keeping; try apply api_keeps_key).
Qed.

Lemma create_keeps_key d v : keeps served_key (create_txt_record (am_dns_provider am) d v).
Proof.
  cbn. unfold cloudflare_create, resolve_zone_id, find_zone_id, cf_send.
  apply keeps_tbind; [apply walk_keeps_key|]. intros z. apply keeps_tbind; [|intros; apply keeps_mlift].
  apply keeps_mmap_err, api_keeps_key.
Qed.

Lemma delete_keeps_key id : keeps served_key (delete_txt_record (am_dns_provider am) id).
Proof.
  cbn. unfold cloudflare_delete, cf_send. case_match; [|apply keeps_mret]. case_match.
  apply keeps_tbind; [|intros; apply keeps_mlift]. apply keeps_mmap_err, api_keeps_key.
Qed.

(** The old certificate cannot be read: the task replaces it. *)
Lemma renewal_keeps_good_certificate_witness :
  let w' := snd (spawn_renewal_task (acme true) env pem certified_key am 2 world) in
  ck_cert (served_key w') = [certificate_der example_x509] /\ ck_cert (served_key w') <> [].
Proof.
  split; [by vm_compute|].
  pose proof (renewal_keeps_good_certificate (acme true) env pem certified_key am
    (OutsideKeeps0 := outside_keeps true _) 2 world create_keeps_key delete_keeps_key) as H.
  destruct (spawn_renewal_task _ _ _ _ _ 2 world) as [next w'].
  by destruct H as (_ & _ & Hr & _).
Defined.
End Example.
