(* ===== verification/Logging.v ===== *)
(** * Logging

    [frameworks/logging/mod.rs] and [syslog.rs]: which layers a configuration installs with
    which filters, and the background task that sends messages to syslog.  The syslog crate,
    sockets, TLS and the log file are parameters; a filter is the directive string given to
    tracing's [EnvFilter]. *)

From S2P Require Import Prelude RustStr Schema.

Abbreviation Error := (list rstr).

(** ** Levels and facilities *)

Inductive Level : Type := ERROR | WARN | INFO | DEBUG | TRACE.
#[export] Instance Level_eq_dec : EqDecision Level.
Proof. solve_decision. Defined.

Definition display_level (l : Level) : rstr :=
  match l with
  | ERROR => lit "ERROR" | WARN => lit "WARN" | INFO => lit "INFO" | DEBUG => lit "DEBUG" | TRACE => lit "TRACE"
  end.

Inductive Facility : Type :=
| LOG_KERN | LOG_USER | LOG_MAIL | LOG_DAEMON | LOG_AUTH | LOG_SYSLOG | LOG_LPR | LOG_NEWS | LOG_UUCP
| LOG_CRON | LOG_AUTHPRIV | LOG_LOCAL0 | LOG_LOCAL1 | LOG_LOCAL2 | LOG_LOCAL3 | LOG_LOCAL4 | LOG_LOCAL5
| LOG_LOCAL6 | LOG_LOCAL7.

Definition unknown_facility (facility : rstr) : Error := [lit "unknown syslog facility: " ++ facility].

(** The value of the first name that matches: [match] on a string. *)
Fixpoint match_name {A} (table : list (rstr * A)) (s : rstr) : option A :=
  match table with
  | [] => None
  | (name, a) :: rest => if str_eqb s name then Some a else match_name rest s
  end.

Definition facility_codes : list (rstr * N) := [
  (lit "kern", 0); (lit "user", 1); (lit "mail", 2); (lit "daemon", 3); (lit "auth", 4);
  (lit "syslog", 5); (lit "lpr", 6); (lit "news", 7); (lit "uucp", 8); (lit "cron", 9);
  (lit "authpriv", 10); (lit "local0", 16); (lit "local1", 17); (lit "local2", 18); (lit "local3", 19);
  (lit "local4", 20); (lit "local5", 21); (lit "local6", 22); (lit "local7", 23)]%N.
Definition facility_code (facility : rstr) : result N Error :=
  ok_or (match_name facility_codes (to_ascii_lowercase facility)) (unknown_facility facility).

Definition facilities : list (rstr * Facility) := [
  (lit "kern", LOG_KERN); (lit "user", LOG_USER); (lit "mail", LOG_MAIL); (lit "daemon", LOG_DAEMON);
  (lit "auth", LOG_AUTH); (lit "syslog", LOG_SYSLOG); (lit "lpr", LOG_LPR); (lit "news", LOG_NEWS);
  (lit "uucp", LOG_UUCP); (lit "cron", LOG_CRON); (lit "authpriv", LOG_AUTHPRIV);
  (lit "local0", LOG_LOCAL0); (lit "local1", LOG_LOCAL1); (lit "local2", LOG_LOCAL2);
  (lit "local3", LOG_LOCAL3); (lit "local4", LOG_LOCAL4); (lit "local5", LOG_LOCAL5);
  (lit "local6", LOG_LOCAL6); (lit "local7", LOG_LOCAL7)].
Definition facility_from_str (facility : rstr) : result Facility Error :=
  ok_or (match_name facilities (to_ascii_lowercase facility)) (unknown_facility facility).

Definition severity_code (level : Level) : N :=
  match level with ERROR => 3 | WARN => 4 | INFO => 6 | DEBUG => 7 | TRACE => 7 end.

(** [str::to_lowercase] is the Unicode one; no character outside ASCII lowers to a letter of
    these names. *)
Definition level_names : list (rstr * Level) := [
  (lit "error", ERROR); (lit "warn", WARN); (lit "warning", WARN); (lit "info", INFO);
  (lit "debug", DEBUG); (lit "trace", TRACE)].
Definition level_from_str (s : rstr) : option Level := match_name level_names (to_ascii_lowercase s).

(** ** Transports *)

Inductive SyslogTransport : Type :=
| Unix (path : rstr)
| Udp (addr : rstr)
| Tcp (addr : rstr)
| Tls (addr ca_cert_path : rstr).

Definition transport_from_config (transport_opt server_opt tls_cert_path : option rstr) :
  result SyslogTransport Error :=
  let transport := default (lit "unix") transport_opt in
  if str_eqb transport (lit "unix") then Ok (Unix (default (lit "/dev/log") server_opt))
  else if str_eqb transport (lit "udp") then Ok (Udp (default (lit "127.0.0.1:514") server_opt))
  else if str_eqb transport (lit "tcp") then Ok (Tcp (default (lit "127.0.0.1:514") server_opt))
  else if str_eqb transport (lit "tls") then
    let? ca_path := ok_or tls_cert_path [lit "tls transport requires ca_cert_path in syslog config"] in
    Ok (Tls (default (lit "127.0.0.1:601") server_opt) ca_path)
  else Err [lit "unknown syslog transport: " ++ transport].

Record SyslogMessage : Type := { sm_level : Level; sm_msg : rstr }.

(** [Formatter3164] or [Formatter5424] of the syslog crate. *)
Inductive Format : Type := Rfc3164 | Rfc5424.
Record Formatter : Type := {
  fm_format : Format; fm_facility : Facility; fm_hostname : option rstr; fm_process : rstr
}.

(** The syslog crate and a TLS stream.  [Client] is a connected logger; its send takes the
    severity of the method the code calls. *)
Record SyslogEnv (W Client Stream : Type) : Type := {
  unix_custom : Formatter -> rstr -> M W (result Client rstr);
  udp : Formatter -> rstr -> rstr -> M W (result Client rstr);
  tcp : Formatter -> rstr -> M W (result Client rstr);
  client_send : Client -> N -> rstr -> M W (result unit rstr);
  (** Reading the CA file, connecting and the handshake of a TLS connection. *)
  load_roots : rstr -> M W (result unit Error);
  tls_connect : rstr -> rstr -> M W (result Stream Error);
  write_all : Stream -> list N -> M W (result unit rstr);
  hostname_var : option rstr
}.
Arguments unix_custom {W Client Stream} _ _ _.
Arguments udp {W Client Stream} _ _ _ _.
Arguments tcp {W Client Stream} _ _ _.
Arguments client_send {W Client Stream} _ _ _ _.
Arguments load_roots {W Client Stream} _ _.
Arguments tls_connect {W Client Stream} _ _ _.
Arguments write_all {W Client Stream} _ _ _.
Arguments hostname_var {W Client Stream} _.

Section sender.
Context {W Client Stream : Type} (env : SyslogEnv W Client Stream).

Definition format_of (format : rstr) : Format :=
  if eq_ignore_ascii_case format (lit "rfc5424") then Rfc5424 else Rfc3164.
Definition formatter (format : rstr) (facility : Facility) (hostname : option rstr) : Formatter :=
  {| fm_format := format_of format; fm_facility := facility; fm_hostname := hostname;
     fm_process := lit "dns-filter" |}.
Definition crate_error (e : rstr) : Error := [e].

Definition native_client_unix (path : rstr) (facility : Facility) (format : rstr) : M W (result Client Error) :=
  mmap_err crate_error (unix_custom env (formatter format facility None) path).
Definition native_client_udp (addr : rstr) (facility : Facility) (format : rstr) : M W (result Client Error) :=
  mmap_err crate_error (udp env (formatter format facility (hostname_var env)) (lit "0.0.0.0:0") addr).
Definition native_client_tcp (addr : rstr) (facility : Facility) (format : rstr) : M W (result Client Error) :=
  mmap_err crate_error (tcp env (formatter format facility (hostname_var env)) addr).

(** [logger.err], [warning], [info] and [debug] send with the severities 3, 4, 6 and 7. *)
Definition send_native (client : Client) (level : Level) (msg : rstr) : M W (result unit Error) :=
  mmap_err crate_error
    (client_send env client (match level with ERROR => 3 | WARN => 4 | INFO => 6 | DEBUG | TRACE => 7 end)%N msg).

(** [while let Some(msg) = rx.recv().await] with errors dropped: [queue] is what the channel
    delivers until it is closed. *)
Fixpoint send_all (client : Client) (queue : list SyslogMessage) : M W unit :=
  match queue with
  | [] => mret tt
  | msg :: rest => send_native client (sm_level msg) (sm_msg msg) ;;; send_all client rest
  end.

(** A sender loop returns with the messages that are still in the channel. *)
Definition native_sender_loop (connect : M W (result Client Error)) (queue : list SyslogMessage) :
  M W (result unit Error * list SyslogMessage) :=
  connected <<- connect ;;
  match connected with
  | Ok client => send_all client queue ;;; mret (Ok tt, [])
  | Err e => mret (Err e, queue)
  end.

Definition unix_sender_loop (queue : list SyslogMessage) (path : rstr) (facility : Facility) (format : rstr) :
  M W (result unit Error * list SyslogMessage) :=
  native_sender_loop (native_client_unix path facility format) queue.
Definition udp_sender_loop (queue : list SyslogMessage) (addr : rstr) (facility : Facility) (format : rstr) :
  M W (result unit Error * list SyslogMessage) :=
  native_sender_loop (native_client_udp addr facility format) queue.
Definition tcp_sender_loop (queue : list SyslogMessage) (addr : rstr) (facility : Facility) (format : rstr) :
  M W (result unit Error * list SyslogMessage) :=
  native_sender_loop (native_client_tcp addr facility format) queue.

(** The message with its newline; facility, severity and format are not sent. *)
Definition tls_line (msg : SyslogMessage) : list N := as_bytes (sm_msg msg ++ [10%N]).

(** One connection: a message whose write failed has left the channel. *)
Fixpoint tls_session (stream : Stream) (queue : list SyslogMessage) :
  M W (result unit Error * list SyslogMessage) :=
  match queue with
  | [] => mret (Ok tt, [])
  | msg :: rest =>
      written <<- write_all env stream (tls_line msg) ;;
      match written with
      | Ok _ => tls_session stream rest
      | Err e => mret (Err [e], rest)
      end
  end.

(** The first connection; with the channel closed the loop of the code connects again. *)
Definition tls_sender_loop (queue : list SyslogMessage) (addr ca_path : rstr) :
  M W (result unit Error * list SyslogMessage) :=
  roots <<- load_roots env ca_path ;;
  match roots with
  | Err e => mret (Err e, queue)
  | Ok _ =>
      let server_name := default [] (head (split (ch ":") addr)) in
      connected <<- tls_connect env addr server_name ;;
      match connected with
      | Err e => mret (Err e, queue)
      | Ok stream => tls_session stream queue
      end
  end.

Definition sender_round (queue : list SyslogMessage) (transport : SyslogTransport) (facility : Facility)
  (format : rstr) : M W (result unit Error * list SyslogMessage) :=
  match transport with
  | Unix path => unix_sender_loop queue path facility format
  | Udp addr => udp_sender_loop queue addr facility format
  | Tcp addr => tcp_sender_loop queue addr facility format
  | Tls addr ca_path => tls_sender_loop queue addr ca_path
  end.

(** The first [rounds] rounds: the messages not yet taken from the channel. *)
Fixpoint sender_loop (rounds : nat) (queue : list SyslogMessage) (transport : SyslogTransport)
  (facility : Facility) (format : rstr) : M W (list SyslogMessage) :=
  match rounds with
  | O => mret queue
  | S rounds =>
      round <<- sender_round queue transport facility format ;;
      sender_loop rounds (snd round) transport facility format
  end.
End sender.

(** ** Events *)

(** [SyslogLayer::on_event]: the field [message], the last of that name; the fields are
    given with their [Debug] text. *)
Definition visit_message (fields : list (rstr * rstr)) : rstr :=
  foldl (fun message field => if str_eqb (fst field) (lit "message") then snd field else message) [] fields.
Definition on_event (level : Level) (fields : list (rstr * rstr)) : SyslogMessage :=
  {| sm_level := level; sm_msg := visit_message fields |}.

(** ** Layers *)

(** A layer of the subscriber with the directives of its filter. *)
Inductive LogLayer : Type :=
| StdoutLayer (directives : rstr)
| FileLayer (location : rstr) (directives : rstr)
| SyslogLayer (transport : SyslogTransport) (facility : Facility) (format : rstr) (directives : rstr)
| StderrLayer (directives : rstr).

Definition build_env_filter (level : Level) (debug : bool) : rstr :=
  if debug then display_level level
  else display_level level
       ++ lit ",hickory_proto=error,hickory_resolver=error,hickory_net=error,hickory_recursor=error,hickory_server=error".

Section init.
Context {W : Type}.
(** Opening the log file for appending. *)
Context (open_log : rstr -> M W (result unit rstr)).

Definition level_or {A} (get : A -> rstr) (fallback : Level) (section : option A) : Level :=
  default fallback (let?o s := section in level_from_str (get s)).

Definition stdout_layer (c : LoggingConfig) (debug : bool) : list LogLayer :=
  match lg_stdout c with
  | Some s => if sd_enabled s then [StdoutLayer (build_env_filter (level_or sd_level INFO (lg_stdout c)) debug)]
              else []
  | None => []
  end.

Definition file_layer (c : LoggingConfig) (debug : bool) : M W (result (list LogLayer) Error) :=
  match lg_file c with
  | Some f =>
      if fi_enabled f then
        mmap_err (fun e => [lit "opening log file " ++ fi_location f; e]) (open_log (fi_location f)) ?;;
        mret (Ok [FileLayer (fi_location f) (build_env_filter (level_or fi_level DEBUG (lg_file c)) debug)])
      else mret (Ok [])
  | None => mret (Ok [])
  end.

Definition syslog_layer (c : LoggingConfig) (debug : bool) : result (list LogLayer) Error :=
  match lg_syslog c with
  | Some s =>
      if sl_enabled s then
        let? transport := map_err (cons (lit "building syslog transport"))
                            (transport_from_config (sl_transport s) (sl_server s) (sl_tls s ≫= st_ca_cert_path)) in
        let? facility := map_err (cons (lit "parsing syslog facility")) (facility_from_str (sl_facility s)) in
        let format := default (lit "rfc3164") (sl_format s) in
        let level := if debug then DEBUG else level_or sl_level INFO (lg_syslog c) in
        Ok [SyslogLayer transport facility format (build_env_filter level debug)]
      else Ok []
  | None => Ok []
  end.

(** The layers installed. *)
Definition init_logging (config : DnsFilterConfig) (debug : bool) : M W (result (list LogLayer) Error) :=
  let c := dc_logging config in
  let fallback_level := if debug then DEBUG else INFO in
  file <?- file_layer c debug ;;
  syslog <?- mlift (syslog_layer c debug) ;;
  let layers := stdout_layer c debug ++ file ++ syslog in
  mret (Ok (if is_empty layers then [StderrLayer (build_env_filter fallback_level debug)] else layers)).
End init.

(** ** The two tables of facilities *)

Definition code_of (f : Facility) : N :=
  match f with
  | LOG_KERN => 0 | LOG_USER => 1 | LOG_MAIL => 2 | LOG_DAEMON => 3 | LOG_AUTH => 4 | LOG_SYSLOG => 5
  | LOG_LPR => 6 | LOG_NEWS => 7 | LOG_UUCP => 8 | LOG_CRON => 9 | LOG_AUTHPRIV => 10
  | LOG_LOCAL0 => 16 | LOG_LOCAL1 => 17 | LOG_LOCAL2 => 18 | LOG_LOCAL3 => 19 | LOG_LOCAL4 => 20
  | LOG_LOCAL5 => 21 | LOG_LOCAL6 => 22 | LOG_LOCAL7 => 23
  end.

Lemma match_name_fmap {A B} (f : A -> B) table s :
  match_name ((fun na => (fst na, f (snd na))) <$> table) s = f <$> match_name table s.
Proof.
  induction table as [|[name a] table IH]; [done|]. cbn [fmap list_fmap match_name fst snd].
  rewrite IH. by destruct (str_eqb s name).
Qed.

(** The code of a name is the code of its facility. *)
Lemma facility_tables_agree s :
  facility_code s = match facility_from_str s with Ok f => Ok (code_of f) | Err e => Err e end.
Proof.
  unfold facility_code, facility_from_str.
  change facility_codes with ((fun na => (fst na, code_of (snd na))) <$> facilities).
  rewrite match_name_fmap. by destruct (match_name facilities _).
Qed.

(** ** What reaches a TLS log server *)

Section tls_sender.
Context {W Client Stream : Type} (env : SyslogEnv W Client Stream).
(** The lines the server has received: a write that succeeds adds one, a failed one none. *)
Context (received : W -> list (list N)).
Context (Hwrite : forall stream line w,
  let '(r, w') := write_all env stream line w in
  received w' = match r with Ok _ => received w ++ [line] | Err _ => received w end).
Context (Hroots : forall path, keeps received (load_roots env path)).
Context (Hconnect : forall addr name, keeps received (tls_connect env addr name)).

(** [rest] is left of [queue] and [sent] was received; at most [lost] messages are neither. *)
Definition accounted (queue rest : list SyslogMessage) (lost : nat) (w w' : W) : Prop :=
  exists sent, received w' = received w ++ (tls_line <$> sent)
               /\ sublist (sent ++ rest) queue /\ length queue <= length (sent ++ rest) + lost.

Lemma accounted_refl queue lost w w' : received w' = received w -> accounted queue queue lost w w'.
Proof. intros Hr. exists []. simpl. rewrite app_nil_r, Hr. split; [done|]. split; [done|lia]. Qed.

Lemma accounted_trans q1 q2 q3 l1 l2 w1 w2 w3 :
  accounted q1 q2 l1 w1 w2 -> accounted q2 q3 l2 w2 w3 -> accounted q1 q3 (l1 + l2) w1 w3.
Proof.
  intros (s1 & H1 & Hs1 & Hl1) (s2 & H2 & Hs2 & Hl2). exists (s1 ++ s2).
  rewrite H2, H1, fmap_app, <-!app_assoc. split; [done|]. split.
  - etransitivity; [|exact Hs1]. by apply sublist_app.
  - rewrite !length_app in *. lia.
Qed.

Lemma tls_session_accounted stream queue w :
  let '((r, rest), w') := tls_session env stream queue w in
  accounted queue rest (match r with Ok _ => 0 | Err _ => 1 end) w w'.
Proof using Hwrite.
  revert w. induction queue as [|msg queue IH]; intros w; cbn [tls_session].
  { by apply accounted_refl. }
  unfold mbind. specialize (Hwrite stream (tls_line msg) w) as Hw.
  destruct (write_all _ _ _ w) as [[u|e] w1].
  - specialize (IH w1). destruct (tls_session _ _ queue w1) as [[r rest] w'].
    destruct IH as (sent & Hr & Hs & Hl). exists (msg :: sent). rewrite Hr, Hw, <-app_assoc.
    split; [done|]. split; [by apply sublist_skip|simpl; lia].
  - exists []. simpl. rewrite app_nil_r, Hw. split; [done|]. split; [by apply sublist_cons|lia].
Qed.

Lemma tls_sender_accounted queue addr ca_path w :
  let '((r, rest), w') := tls_sender_loop env queue addr ca_path w in accounted queue rest 1 w w'.
Proof using All.
  unfold tls_sender_loop, mbind. specialize (Hroots ca_path w) as H1.
  destruct (load_roots _ _ w) as [[u|e] w1]; simpl in H1; [|by apply accounted_refl].
  set (name := default [] _). specialize (Hconnect addr name w1) as H2.
  destruct (tls_connect _ _ _ w1) as [[stream|e] w2]; simpl in H2; [|apply accounted_refl; congruence].
  pose proof (tls_session_accounted stream queue w2) as Hs.
  destruct (tls_session _ _ queue w2) as [[r rest] w'].
  destruct Hs as (sent & Hr & Hsub & Hl). exists sent. split; [congruence|]. split; [done|].
  destruct r; lia.
Qed.

Lemma tls_rounds_accounted rounds queue addr ca_path facility format w :
  let '(rest, w') := sender_loop env rounds queue (Tls addr ca_path) facility format w in
  accounted queue rest rounds w w'.
Proof using All.
  revert queue w. induction rounds as [|rounds IH]; intros queue w; cbn [sender_loop].
  { by apply accounted_refl. }
  unfold mbind, sender_round. pose proof (tls_sender_accounted queue addr ca_path w) as H1.
  destruct (tls_sender_loop _ _ _ _ w) as [[r rest1] w1]. specialize (IH rest1 w1). cbn [snd].
  destruct (sender_loop _ _ _ _ _ _ w1) as [rest w']. change (S rounds) with (1 + rounds).
  by eapply accounted_trans.
Qed.

(** What a TLS log server receives is what was logged: whatever connections and writes
    fail, the lines received are messages of the channel in their order, none of them twice,
    each with one newline; and every connection attempt loses at most one message. *)
Theorem tls_log_in_order rounds queue addr ca_path facility format w :
  let '(rest, w') := sender_loop env rounds queue (Tls addr ca_path) facility format w in
  exists sent, received w' = received w ++ (tls_line <$> sent)
               /\ sublist (sent ++ rest) queue
               /\ length queue <= length sent + length rest + rounds.
Proof using All.
  pose proof (tls_rounds_accounted rounds queue addr ca_path facility format w) as H.
  destruct (sender_loop _ _ _ _ _ _ w) as [rest w']. destruct H as (sent & Hr & Hs & Hl).
  exists sent. rewrite length_app in Hl. auto.
Qed.
End tls_sender.

(** ** The layers of a configuration *)

(** A target that is enabled has its layer, with the directives of its level; and some layer
    is always installed. *)
Lemma init_logging_layers {W} (open_log : rstr -> M W (result unit rstr)) config debug w layers w' :
  init_logging open_log config debug w = (Ok layers, w') ->
  let c := dc_logging config in
  layers <> []
  /\ (forall s, lg_stdout c = Some s -> sd_enabled s = true ->
      StdoutLayer (build_env_filter (default INFO (level_from_str (sd_level s))) debug) ∈ layers)
  /\ (forall f, lg_file c = Some f -> fi_enabled f = true ->
      FileLayer (fi_location f) (build_env_filter (default DEBUG (level_from_str (fi_level f))) debug) ∈ layers)
  /\ (forall s, lg_syslog c = Some s -> sl_enabled s = true -> exists transport facility,
      facility_from_str (sl_facility s) = Ok facility
      /\ SyslogLayer transport facility (default (lit "rfc3164") (sl_format s))
           (build_env_filter (if debug then DEBUG else default INFO (level_from_str (sl_level s))) debug) ∈ layers).
Proof.
  intros H. apply tbind_ok in H as (file & w1 & Hf & H). apply tbind_ok in H as (syslog & w2 & Hs & H).
  injection Hs as Hs <-. injection H as <- <-.
  set (all := stdout_layer _ debug ++ file ++ syslog).
  assert (Hsub : forall l, l ∈ all -> l ∈ (if is_empty all then [StderrLayer (build_env_filter (if debug then DEBUG else INFO) debug)] else all)).
  { intros l Hl. destruct all; [by apply not_elem_of_nil in Hl|done]. }
  split; [by destruct all|]. split; [|split].
  - intros s Hc He. apply Hsub. unfold all, stdout_layer, level_or. rewrite Hc, He.
    apply elem_of_app. left. apply list_elem_of_singleton. reflexivity.
  - intros f Hc He. apply Hsub. unfold file_layer, level_or in Hf. rewrite Hc, He in Hf.
    apply tbind_ok in Hf as (u & w0 & _ & [= <- _]). unfold all. rewrite !elem_of_app. right. left.
    apply list_elem_of_singleton. reflexivity.
  - intros s Hc He. unfold syslog_layer, level_or in Hs. rewrite Hc, He in Hs.
    destruct (map_err _ (transport_from_config _ _ _)) as [transport|e]; [|done].
    destruct (facility_from_str (sl_facility s)) as [facility|e]; [|done]. cbn [map_err] in Hs.
    injection Hs as <-. exists transport, facility. split; [done|]. apply Hsub.
    unfold all. rewrite !elem_of_app. right. right. apply list_elem_of_singleton. reflexivity.
Qed.

(** ** A log server that refuses one line *)

Module Example.
Definition refused : list N := as_bytes (lit "two" ++ [10%N]).
Definition env : SyslogEnv (list (list N)) unit unit := {|
  unix_custom := fun _ _ => mret (Err (lit "no socket"));
  udp := fun _ _ _ => mret (Err (lit "no socket"));
  tcp := fun _ _ => mret (Err (lit "no socket"));
  client_send := fun _ _ _ => mret (Ok tt);
  load_roots := fun _ => mret (Ok tt);
  tls_connect := fun _ _ => mret (Ok tt);
  write_all := fun _ line w =>
    if bool_decide (line = refused) then (Err (lit "broken pipe"), w) else (Ok tt, w ++ [line]);
  hostname_var := None
|}.

Lemma env_write (stream : unit) line w :
  let '(r, w') := write_all env stream line w in
  id w' = match r with Ok _ => id w ++ [line] | Err _ => id w end.
Proof. simpl. by case_bool_decide. Qed.

Definition info (text : rstr) : SyslogMessage := {| sm_level := INFO; sm_msg := text |}.
Definition queue : list SyslogMessage := [info (lit "one"); info (lit "two"); info (lit "three")].

Lemma tls_log_in_order_witness :
  fst (sender_loop env 2 queue (Tls (lit "log:601") (lit "ca.pem")) LOG_LOCAL0 (lit "rfc5424") []) = []
  /\ exists sent,
     snd (sender_loop env 2 queue (Tls (lit "log:601") (lit "ca.pem")) LOG_LOCAL0 (lit "rfc5424") [])
       = tls_line <$> sent
     /\ sublist (sent ++ []) queue.
Proof.
  pose proof (tls_log_in_order env id env_write (fun _ _ => eq_refl) (fun _ _ _ => eq_refl) 2 queue
    (lit "log:601") (lit "ca.pem") LOG_LOCAL0 (lit "rfc5424") []) as H.
  assert (Hr : fst (sender_loop env 2 queue (Tls (lit "log:601") (lit "ca.pem")) LOG_LOCAL0 (lit "rfc5424") []) = [])
    by (vm_compute; reflexivity).
  destruct (sender_loop _ _ _ _ _ _ _) as [rest w']. simpl in Hr. subst rest. split; [reflexivity|].
  destruct H as (sent & H1 & H2 & _). exists sent. split; [exact H1|exact H2].
Defined.
End Example.
