(* ===== verification/Privileges.v ===== *)
(** * Privileges and signals

    [frameworks/privileges.rs] and [signal_handler.rs].  The system calls are parameters;
    the class [LinuxCredentials] states what they do to the credentials of the process
    (credentials(7), capabilities(7), prctl(2)). *)

From S2P Require Import Prelude RustStr.

Abbreviation Error := (list rstr).

Inductive Capability : Type := CAP_NET_BIND_SERVICE | CAP_NET_ADMIN | CAP_SETUID | CAP_SETGID | CAP_SYS_CHROOT
| OtherCapability (name : rstr).
#[export] Instance Capability_eq_dec : EqDecision Capability.
Proof. solve_decision. Defined.

Inductive CapSet : Type := Permitted | Effective.

Record PrivilegeDropConfig : Type := { pd_user : rstr; pd_group : rstr; pd_chroot_dir : option rstr }.
Definition DEFAULT_USER : rstr := lit "nobody".
Definition DEFAULT_GROUP : rstr := lit "nogroup".

(** [nix] and [caps]: each call fails with a text. *)
Record PrivEnv (W : Type) : Type := {
  getuid : M W N;
  getgid : M W N;
  user_from_name : rstr -> M W (result (option N) rstr);
  group_from_name : rstr -> M W (result (option N) rstr);
  chroot : rstr -> M W (result unit rstr);
  chdir : rstr -> M W (result unit rstr);
  set_keepcaps : bool -> M W (result unit rstr);
  setgroups : list N -> M W (result unit rstr);
  setgid : N -> M W (result unit rstr);
  setuid : N -> M W (result unit rstr);
  caps_set : CapSet -> list Capability -> M W (result unit rstr)
}.
Arguments getuid {W} _.
Arguments getgid {W} _.
Arguments user_from_name {W} _ _.
Arguments group_from_name {W} _ _.
Arguments chroot {W} _ _.
Arguments chdir {W} _ _.
Arguments set_keepcaps {W} _ _.
Arguments setgroups {W} _ _.
Arguments setgid {W} _ _.
Arguments setuid {W} _ _.
Arguments caps_set {W} _ _ _.

Section drop.
Context {W : Type} (env : PrivEnv W).

(** [.context(what)?]. *)
Definition call {A} (what : rstr) (m : M W (result A rstr)) : M W (result A Error) :=
  mmap_err (fun e => [what; e]) m.

Definition lookup_id (kind name : rstr) (m : M W (result (option N) rstr)) : M W (result N Error) :=
  found <?- call (lit "looking up " ++ kind ++ lit " '" ++ name ++ lit "'") m ;;
  mlift (ok_or found [kind ++ lit " '" ++ name ++ lit "' not found"]).

Definition enter_chroot (chroot_dir : option rstr) : M W (result unit Error) :=
  match chroot_dir with
  | Some dir =>
      call (lit "chroot to " ++ dir) (chroot env dir) ?;;
      call (lit "chdir to / after chroot") (chdir env (lit "/"))
  | None => mret (Ok tt)
  end.

Definition retained : list Capability := [CAP_NET_BIND_SERVICE; CAP_NET_ADMIN].
Definition retain_network_capabilities : M W (result unit Error) :=
  call (lit "setting permitted capabilities") (caps_set env Permitted retained) ?;;
  call (lit "setting effective capabilities") (caps_set env Effective retained).

Definition verify_privilege_drop (expected_uid expected_gid : N) : M W (result unit Error) :=
  actual_uid <<- getuid env ;;
  actual_gid <<- getgid env ;;
  mret (if negb (actual_uid =? expected_uid)%N
        then Err [lit "privilege drop verification failed: expected uid " ++ display_N expected_uid
                  ++ lit ", got " ++ display_N actual_uid]
        else if negb (actual_gid =? expected_gid)%N
        then Err [lit "privilege drop verification failed: expected gid " ++ display_N expected_gid
                  ++ lit ", got " ++ display_N actual_gid]
        else Ok tt).

Definition become (uid gid : N) : M W (result unit Error) :=
  call (lit "prctl(PR_SET_KEEPCAPS, 1)") (set_keepcaps env true) ?;;
  (call (lit "setgroups") (setgroups env [gid]) ?;;
   (call (lit "setgid(" ++ display_N gid ++ lit ")") (setgid env gid) ?;;
    (call (lit "setuid(" ++ display_N uid ++ lit ")") (setuid env uid) ?;;
     (retain_network_capabilities ?;;
      (call (lit "prctl(PR_SET_KEEPCAPS, 0)") (set_keepcaps env false) ?;;
       verify_privilege_drop uid gid))))).

Definition drop_privileges (config : PrivilegeDropConfig) : M W (result unit Error) :=
  current_uid <<- getuid env ;;
  if negb (current_uid =? 0)%N then mret (Ok tt)
  else
    uid <?- lookup_id (lit "user") (pd_user config) (user_from_name env (pd_user config)) ;;
    gid <?- lookup_id (lit "group") (pd_group config) (group_from_name env (pd_group config)) ;;
    enter_chroot (pd_chroot_dir config) ?;; become uid gid.
End drop.

(** ** Signals

    The tasks read the signals of the process in order. *)

Section signals.
Context {W : Type}.
(** [tx.send(())]: whether the receiver is there. *)
Context (send_reload : M W bool) (shutdown : Cell W bool).

(** The task of [setup_sighup_handler] on [n] signals: it ends at the first failed send. *)
Fixpoint forward_sighup (n : nat) : M W unit :=
  match n with
  | O => mret tt
  | S n => sent <<- send_reload ;; if sent : bool then forward_sighup n else mret tt
  end.

Inductive Signal : Type := SIGTERM | SIGINT.
(** The task of [setup_shutdown_signals]: the first signal cancels, the task ends. *)
Definition on_shutdown_signals (signals : list Signal) : M W unit :=
  match signals with
  | [] => mret tt
  | (SIGTERM | SIGINT) :: _ => cwrite shutdown true
  end.
End signals.

(** ** What the calls do *)

(** The credentials of the process and its root directory. *)
Record Credentials : Type := {
  cr_uid : N; cr_gid : N; cr_groups : list N; cr_permitted : list Capability; cr_effective : list Capability;
  cr_keepcaps : bool; cr_root : rstr
}.

(** [passwd] and [group] are the databases under a root directory. *)
Class LinuxCredentials {W : Type} (env : PrivEnv W) (creds : W -> Credentials)
  (passwd group : rstr -> rstr -> option N) : Prop := {
  getuid_reads : forall w, getuid env w = (cr_uid (creds w), w);
  getgid_reads : forall w, getgid env w = (cr_gid (creds w), w);
  user_looked_up : forall name w r w',
    user_from_name env name w = (Ok r, w') -> r = passwd (cr_root (creds w)) name /\ creds w' = creds w;
  group_looked_up : forall name w r w',
    group_from_name env name w = (Ok r, w') -> r = group (cr_root (creds w)) name /\ creds w' = creds w;
  chroot_moves : forall dir w w', chroot env dir w = (Ok tt, w') ->
    creds w' = {| cr_uid := cr_uid (creds w); cr_gid := cr_gid (creds w); cr_groups := cr_groups (creds w);
                  cr_permitted := cr_permitted (creds w); cr_effective := cr_effective (creds w);
                  cr_keepcaps := cr_keepcaps (creds w); cr_root := dir |};
  chdir_keeps : forall dir w w', chdir env dir w = (Ok tt, w') -> creds w' = creds w;
  keepcaps_sets : forall b w w', set_keepcaps env b w = (Ok tt, w') ->
    creds w' = {| cr_uid := cr_uid (creds w); cr_gid := cr_gid (creds w); cr_groups := cr_groups (creds w);
                  cr_permitted := cr_permitted (creds w); cr_effective := cr_effective (creds w);
                  cr_keepcaps := b; cr_root := cr_root (creds w) |};
  setgroups_sets : forall gs w w', setgroups env gs w = (Ok tt, w') ->
    creds w' = {| cr_uid := cr_uid (creds w); cr_gid := cr_gid (creds w); cr_groups := gs;
                  cr_permitted := cr_permitted (creds w); cr_effective := cr_effective (creds w);
                  cr_keepcaps := cr_keepcaps (creds w); cr_root := cr_root (creds w) |};
  setgid_sets : forall g w w', setgid env g w = (Ok tt, w') ->
    creds w' = {| cr_uid := cr_uid (creds w); cr_gid := g; cr_groups := cr_groups (creds w);
                  cr_permitted := cr_permitted (creds w); cr_effective := cr_effective (creds w);
                  cr_keepcaps := cr_keepcaps (creds w); cr_root := cr_root (creds w) |};
  (** Leaving user 0 clears the effective set, and the permitted one unless it is kept. *)
  setuid_sets : forall u w w', setuid env u w = (Ok tt, w') ->
    let leaves := (cr_uid (creds w) =? 0)%N && negb (u =? 0)%N in
    creds w' = {| cr_uid := u; cr_gid := cr_gid (creds w); cr_groups := cr_groups (creds w);
                  cr_permitted := if leaves && negb (cr_keepcaps (creds w)) then [] else cr_permitted (creds w);
                  cr_effective := if leaves then [] else cr_effective (creds w);
                  cr_keepcaps := cr_keepcaps (creds w); cr_root := cr_root (creds w) |};
  (** A set can only be lowered: the permitted one, and the effective one within it. *)
  caps_sets : forall set caps w w', caps_set env set caps w = (Ok tt, w') ->
    (forall c, c ∈ caps -> c ∈ cr_permitted (creds w))
    /\ creds w' = {| cr_uid := cr_uid (creds w); cr_gid := cr_gid (creds w); cr_groups := cr_groups (creds w);
                     cr_permitted := match set with Permitted => caps | Effective => cr_permitted (creds w) end;
                     cr_effective := match set with
                                     | Permitted => filter (fun c => c ∈ caps) (cr_effective (creds w))
                                     | Effective => caps
                                     end;
                     cr_keepcaps := cr_keepcaps (creds w); cr_root := cr_root (creds w) |}
}.

Section dropped.
Context {W : Type} (env : PrivEnv W) (creds : W -> Credentials) (passwd group : rstr -> rstr -> option N).
Context `{!LinuxCredentials env creds passwd group}.

Lemma call_ok {A} what (m : M W (result A rstr)) w a w' : call what m w = (Ok a, w') -> m w = (Ok a, w').
Proof. unfold call, mmap_err. destruct (m w) as [[x|e] w1]; [|done]. by intros [= -> ->]. Qed.

Lemma lookup_id_ok kind name (m : M W (result (option N) rstr)) w id w' : lookup_id kind name m w = (Ok id, w') -> m w = (Ok (Some id), w').
Proof.
  intros H. apply tbind_ok in H as (found & w1 & Hm%call_ok & H). destruct found as [x|]; [|done].
  injection H as -> ->. done.
Qed.

Lemma enter_chroot_ok dir w w' : enter_chroot env dir w = (Ok tt, w') ->
  creds w' = {| cr_uid := cr_uid (creds w); cr_gid := cr_gid (creds w); cr_groups := cr_groups (creds w);
                cr_permitted := cr_permitted (creds w); cr_effective := cr_effective (creds w);
                cr_keepcaps := cr_keepcaps (creds w); cr_root := default (cr_root (creds w)) dir |}.
Proof using All.
  destruct dir as [dir|]; cbn [enter_chroot].
  - intros H. apply tbind_ok in H as ([] & w1 & H1%call_ok & H2%call_ok).
    apply chroot_moves in H1. apply chdir_keeps in H2. by rewrite H2, H1.
  - intros [= <-]. by destruct (creds w).
Qed.

Lemma become_ok uid gid w w' : cr_uid (creds w) = 0%N -> become env uid gid w = (Ok tt, w') ->
  creds w' = {| cr_uid := uid; cr_gid := gid; cr_groups := [gid]; cr_permitted := retained;
                cr_effective := retained; cr_keepcaps := false; cr_root := cr_root (creds w) |}.
Proof using All.
  intros Hroot H. unfold become, retain_network_capabilities in H.
  apply tbind_ok in H as ([] & w1 & H1%call_ok & H). apply tbind_ok in H as ([] & w2 & H2%call_ok & H).
  apply tbind_ok in H as ([] & w3 & H3%call_ok & H). apply tbind_ok in H as ([] & w4 & H4%call_ok & H).
  apply tbind_ok in H as ([] & w6 & Hcaps & H). apply tbind_ok in Hcaps as ([] & w5 & H5%call_ok & H6%call_ok).
  apply tbind_ok in H as ([] & w7 & H7%call_ok & H).
  assert (w' = w7) as ->.
  { unfold verify_privilege_drop, mbind in H. rewrite getuid_reads, getgid_reads in H.
    injection H as _ <-. done. }
  apply keepcaps_sets in H1, H7. apply setgroups_sets in H2. apply setgid_sets in H3. apply setuid_sets in H4.
  apply caps_sets in H5 as [_ H5], H6 as [_ H6].
  rewrite H7, H6, H5. cbn [cr_uid cr_gid cr_groups cr_permitted cr_effective cr_keepcaps cr_root].
  rewrite H4, H3, H2, H1. done.
Qed.

(** The credentials after a successful drop by root. *)
Definition dropped (config : PrivilegeDropConfig) (before after : Credentials) : Prop :=
  exists uid gid,
    passwd (cr_root before) (pd_user config) = Some uid
    /\ group (cr_root before) (pd_group config) = Some gid
    /\ after = {| cr_uid := uid; cr_gid := gid; cr_groups := [gid];
                  cr_permitted := [CAP_NET_BIND_SERVICE; CAP_NET_ADMIN];
                  cr_effective := [CAP_NET_BIND_SERVICE; CAP_NET_ADMIN]; cr_keepcaps := false;
                  cr_root := default (cr_root before) (pd_chroot_dir config) |}.

Lemma drop_privileges_effect config w w' :
  drop_privileges env config w = (Ok tt, w') ->
  if (cr_uid (creds w) =? 0)%N then dropped config (creds w) (creds w') else w' = w.
Proof using All.
  unfold drop_privileges, mbind. rewrite getuid_reads.
  destruct (N.eqb_spec (cr_uid (creds w)) 0) as [Hroot|]; cbn [negb]; [|by intros [= <-]].
  intros H. apply tbind_ok in H as (uid & w1 & H1%lookup_id_ok & H).
  apply tbind_ok in H as (gid & w2 & H2%lookup_id_ok & H). apply tbind_ok in H as ([] & w3 & H3 & H4).
  apply user_looked_up in H1 as [Hu H1]. apply group_looked_up in H2 as [Hg H2]. rewrite H1 in Hg.
  apply enter_chroot_ok in H3. rewrite H2, H1 in H3. exists uid, gid. split; [done|]. split; [done|].
  apply become_ok in H4; [|by rewrite H3]. by rewrite H4, H3.
Qed.

(** C27. Dropping privileges leaves none of root's.  For a process that does not run as root
    nothing happens.  When the drop succeeds for one that does, the configured user and group
    exist in the databases of the original root directory, looked up before it is left; the
    process runs as that user and group, with that group as its only one, in the configured
    chroot, with no capability but the two network ones, the one to bind privileged ports
    still in effect, and without the flag that would keep capabilities. *)
Theorem privileges_dropped_exactly config w w' :
  drop_privileges env config w = (Ok tt, w') ->
  if (cr_uid (creds w) =? 0)%N
  then exists uid gid,
    passwd (cr_root (creds w)) (pd_user config) = Some uid
    /\ group (cr_root (creds w)) (pd_group config) = Some gid
    /\ cr_uid (creds w') = uid /\ cr_gid (creds w') = gid /\ cr_groups (creds w') = [gid]
    /\ cr_root (creds w') = default (cr_root (creds w)) (pd_chroot_dir config)
    /\ cr_keepcaps (creds w') = false
    /\ (forall cap, cap ∈ cr_permitted (creds w') \/ cap ∈ cr_effective (creds w') ->
          cap = CAP_NET_BIND_SERVICE \/ cap = CAP_NET_ADMIN)
    /\ CAP_NET_BIND_SERVICE ∈ cr_effective (creds w')
  else w' = w.
Proof using All.
  intros Hd%drop_privileges_effect. destruct (_ =? _)%N; [|done].
  destruct Hd as (uid & gid & Hu & Hg & ->). exists uid, gid. split_and!; [done..| |left].
  cbn [cr_permitted cr_effective]. intros cap [Hc|Hc]; rewrite !elem_of_cons, elem_of_nil in Hc; tauto.
Qed.
End dropped.

(** ** A kernel that checks capabilities *)

Module Example.
Abbreviation World := Credentials.

Definition needs (cap : Capability) (next : World) : M World (result unit rstr) := fun w =>
  if bool_decide (cap ∈ cr_effective w) then (Ok tt, next) else (Err (lit "EPERM"), w).

(** The user databases are only there under the real root. *)
Definition ids (root name : rstr) : option N :=
  if str_eqb root (lit "/") && (str_eqb name (lit "nobody") || str_eqb name (lit "nogroup"))
  then Some 65534%N else None.

Definition kernel : PrivEnv World := {|
  getuid := fun w => (cr_uid w, w);
  getgid := fun w => (cr_gid w, w);
  user_from_name := fun name w => (Ok (ids (cr_root w) name), w);
  group_from_name := fun name w => (Ok (ids (cr_root w) name), w);
  chroot := fun dir w => needs CAP_SYS_CHROOT
    {| cr_uid := cr_uid w; cr_gid := cr_gid w; cr_groups := cr_groups w; cr_permitted := cr_permitted w;
       cr_effective := cr_effective w; cr_keepcaps := cr_keepcaps w; cr_root := dir |} w;
  chdir := fun _ w => (Ok tt, w);
  set_keepcaps := fun b w => (Ok tt,
    {| cr_uid := cr_uid w; cr_gid := cr_gid w; cr_groups := cr_groups w; cr_permitted := cr_permitted w;
       cr_effective := cr_effective w; cr_keepcaps := b; cr_root := cr_root w |});
  setgroups := fun gs w => needs CAP_SETGID
    {| cr_uid := cr_uid w; cr_gid := cr_gid w; cr_groups := gs; cr_permitted := cr_permitted w;
       cr_effective := cr_effective w; cr_keepcaps := cr_keepcaps w; cr_root := cr_root w |} w;
  setgid := fun g w => needs CAP_SETGID
    {| cr_uid := cr_uid w; cr_gid := g; cr_groups := cr_groups w; cr_permitted := cr_permitted w;
       cr_effective := cr_effective w; cr_keepcaps := cr_keepcaps w; cr_root := cr_root w |} w;
  setuid := fun u w =>
    let leaves := (cr_uid w =? 0)%N && negb (u =? 0)%N in needs CAP_SETUID
    {| cr_uid := u; cr_gid := cr_gid w; cr_groups := cr_groups w;
       cr_permitted := if leaves && negb (cr_keepcaps w) then [] else cr_permitted w;
       cr_effective := if leaves then [] else cr_effective w;
       cr_keepcaps := cr_keepcaps w; cr_root := cr_root w |} w;
  caps_set := fun set caps w =>
    if forallb (fun c => bool_decide (c ∈ cr_permitted w)) caps
    then (Ok tt, {| cr_uid := cr_uid w; cr_gid := cr_gid w; cr_groups := cr_groups w;
                    cr_permitted := match set with Permitted => caps | Effective => cr_permitted w end;
                    cr_effective := match set with
                                    | Permitted => filter (fun c => c ∈ caps) (cr_effective w)
                                    | Effective => caps
                                    end;
                    cr_keepcaps := cr_keepcaps w; cr_root := cr_root w |})
    else (Err (lit "EPERM"), w)
|}.

#[local] Instance kernel_credentials : LinuxCredentials kernel id ids ids.
Proof.
  split; simpl; unfold needs; try done; try (intros ? [] ? H; case_bool_decide; by simplify_eq).
  - by intros name w r w' [= <- <-].
  - by intros name w r w' [= <- <-].
  - by intros dir w w' [= <-].
  - by intros b w w' [= <-].
  - intros set caps w w'. destruct (forallb _ _) eqn:Hf; [|done]. intros [= <-]. split; [|done].
    intros c Hc. rewrite forallb_forall in Hf. apply list_elem_of_In, Hf, bool_decide_eq_true in Hc. done.
Qed.

Definition root_process : Credentials := {|
  cr_uid := 0; cr_gid := 0; cr_groups := [0; 1]%N;
  cr_permitted := [CAP_SETUID; CAP_SETGID; CAP_SYS_CHROOT; CAP_NET_BIND_SERVICE; CAP_NET_ADMIN;
                   OtherCapability (lit "CAP_SYS_ADMIN")];
  cr_effective := [CAP_SETUID; CAP_SETGID; CAP_SYS_CHROOT; CAP_NET_BIND_SERVICE; CAP_NET_ADMIN;
                   OtherCapability (lit "CAP_SYS_ADMIN")];
  cr_keepcaps := false; cr_root := lit "/" |}.
Definition drop : PrivilegeDropConfig :=
  {| pd_user := DEFAULT_USER; pd_group := DEFAULT_GROUP; pd_chroot_dir := Some (lit "/var/lib/dns-filter") |}.
Definition dropped_process : Credentials := snd (drop_privileges kernel drop root_process).

Lemma privileges_dropped_exactly_witness :
  cr_uid dropped_process = 65534%N /\ cr_root dropped_process = lit "/var/lib/dns-filter"
  /\ forall cap, cap ∈ cr_permitted dropped_process \/ cap ∈ cr_effective dropped_process ->
       cap = CAP_NET_BIND_SERVICE \/ cap = CAP_NET_ADMIN.
Proof.
  destruct (privileges_dropped_exactly kernel id ids ids drop root_process dropped_process eq_refl)
    as (uid & gid & Hu & _ & Huid & _ & _ & Hroot & _ & Hcaps & _).
  split; [|split; [exact Hroot|exact Hcaps]]. injection Hu as Hu. rewrite Hu. exact Huid.
Defined.
End Example.
