(* ===== verification/Cli.v ===== *)
(** * Command line

    The commands of [main.rs] other than [start], with [frameworks/control_client.rs]: what
    each prints, its exit status, and the socket path it uses.  Argument parsing (clap),
    sockets, files and JSON are parameters. *)

From S2P Require Import Prelude RustStr Outside ChrootPaths Schema Repositories Daemon ControlSocket Merger.

Definition DEFAULT_CONFIG_PATH : rstr := lit "/etc/dns-filter/config.yaml".

(** ** Arguments *)

Inductive Commands : Type :=
| CmdStart (config_path : rstr) (debug direct : bool)
| CmdStop (config_path : rstr) (socket_path : option rstr) (direct : bool)
| CmdReload (config_path : rstr) (socket_path : option rstr)
| CmdStatus (config_path : rstr) (socket_path : option rstr)
| CmdMergeConfig (config_path : rstr) (overwrite : bool).
Record CliArgs : Type := { ca_version : bool; ca_command : option Commands }.

Inductive CliAction : Type :=
| Start (config_path : rstr) (debug direct : bool)
| Stop (config_path : rstr) (socket_path : option rstr) (direct : bool)
| Reload (config_path : rstr) (socket_path : option rstr)
| Status (config_path : rstr) (socket_path : option rstr)
| MergeConfig (config_path : rstr) (overwrite : bool)
| Version.

Definition usage : rstr :=
  lit "no subcommand provided. Usage: dns-filter <start|stop|reload|status|merge-config> [OPTIONS]".

(** [try_parse_from] is clap's. *)
Definition parse_cli_args (try_parse_from : list rstr -> result CliArgs rstr) (args : list rstr) :
  result CliAction rstr :=
  let? parsed := try_parse_from args in
  if ca_version parsed then Ok Version
  else match ca_command parsed with
       | Some (CmdStart config_path debug direct) => Ok (Start config_path debug direct)
       | Some (CmdStop config_path socket_path direct) => Ok (Stop config_path socket_path direct)
       | Some (CmdReload config_path socket_path) => Ok (Reload config_path socket_path)
       | Some (CmdStatus config_path socket_path) => Ok (Status config_path socket_path)
       | Some (CmdMergeConfig config_path overwrite) => Ok (MergeConfig config_path overwrite)
       | None => Err usage
       end.

(** ** Output *)

(** What a command prints, line by line ([co_raw]: text printed without a newline), and its
    exit status. *)
Record CommandOutput : Type := { co_out : list rstr; co_raw : rstr; co_err : list rstr; co_code : N }.
Definition succeed (out : list rstr) : CommandOutput := {| co_out := out; co_raw := []; co_err := []; co_code := 0 |}.
Definition fail_with (err : list rstr) : CommandOutput := {| co_out := []; co_raw := []; co_err := err; co_code := 1 |}.
Definition warned (err : list rstr) (o : CommandOutput) : CommandOutput :=
  {| co_out := co_out o; co_raw := co_raw o; co_err := err ++ co_err o; co_code := co_code o |}.

(** ** The control client *)

Inductive ConnectFailure : Type :=
| InvalidSocketPath (e : rstr)
| SocketNotFound
| SocketRefused
| SocketDenied
| SocketFailed (e : rstr).

Definition connect_error (socket_path : rstr) (f : ConnectFailure) : Error :=
  match f with
  | InvalidSocketPath e => [lit "invalid control socket path"; e]
  | SocketNotFound =>
      [lit "control socket not found at " ++ socket_path ++ newline
       ++ lit "Hint: is the dns-filter daemon running? Start it with: dns-filter start"]
  | SocketRefused =>
      [lit "connection refused at " ++ socket_path ++ newline
       ++ lit "Hint: the daemon may have crashed. Check logs and restart."]
  | SocketDenied =>
      [lit "permission denied connecting to " ++ socket_path ++ newline
       ++ lit "Hint: the control socket is restricted. Try running as root or the daemon's user/group."]
  | SocketFailed e => [lit "failed to connect to control socket " ++ socket_path ++ lit ": " ++ e]
  end.

(** A socket of the client; [uc_reply] is the line read after the request was written. *)
Record UnixClient (W : Type) : Type := {
  uc_connect : rstr -> M W (result unit ConnectFailure);
  uc_set_timeouts : M W (result unit Error);
  uc_write : rstr -> M W (result unit Error);
  uc_reply : rstr -> rstr -> M W (result rstr rstr)
}.
Arguments uc_connect {W} _ _.
Arguments uc_set_timeouts {W} _.
Arguments uc_write {W} _ _.
Arguments uc_reply {W} _ _ _.

Record StatusPayload : Type := {
  st_uptime_seconds : N; st_filtering_enabled : bool; st_queries_total : N; st_queries_blocked : N;
  st_queries_allowed : N; st_queries_passthrough : N; st_lists : list rstr
}.

Section commands.
Context {W Value K : Type} `{EqDecision K}.
Context (outside : Outside W) (parse_yaml : rstr -> result DnsFilterConfig YamlError) (io_error : rstr).
Context (client : UnixClient W) (json : ControlJson Value) (from_value : Value -> result StatusPayload rstr).
Context (fs_write : rstr -> rstr -> M W (result unit rstr)).
Context (string_key : rstr -> K) (from_str : rstr -> result (YValue K) rstr)
        (to_string : YValue K -> result rstr rstr) (EXAMPLE_CONFIG CARGO_PKG_VERSION : rstr).

Definition send_control (socket_path command : rstr) : M W (result (ControlResponse Value) Error) :=
  mmap_err (connect_error socket_path) (uc_connect client socket_path) ?;;
  (uc_set_timeouts client ?;;
   (uc_write client (request_line command) ?;; send_command json (uc_reply client socket_path) command)).

(** [Err] is an exit with what is printed; the path comes with warnings. *)
Definition resolve_control_socket_path (config_path : rstr) (socket_override : option rstr) :
  M W (result (list rstr * rstr) (list rstr)) :=
  match socket_override with
  | Some path => mret (Ok ([], path))
  | None =>
      loaded <<- load_config outside parse_yaml io_error config_path ;;
      mret (match loaded with
            | Ok cfg =>
                let chroot_dir := default DEFAULT_CHROOT_DIR (dc_security cfg ≫= se_chroot_dir) in
                match resolve_path_for_chroot_host (socket_path (path_config cfg)) chroot_dir with
                | Ok path => Ok ([], path)
                | Err e => Err [lit "invalid control socket path in config: " ++ display_chain e]
                end
            | Err e =>
                Ok ([lit "failed to load config: " ++ display_outer e; lit "using default control socket path"],
                    match resolve_path_for_chroot_host DEFAULT_CONTROL_SOCKET_PATH DEFAULT_CHROOT_DIR with
                    | Ok path => path
                    | Err _ => DEFAULT_CONTROL_SOCKET_PATH
                    end)
            end)
  end.

(** The part two commands share: the socket path, then the exchange. *)
Definition exchange (config_path : rstr) (socket_override : option rstr) (command : rstr)
  (k : ControlResponse Value -> CommandOutput) : M W CommandOutput :=
  resolved <<- resolve_control_socket_path config_path socket_override ;;
  match resolved with
  | Err printed => mret (fail_with printed)
  | Ok (warnings, path) =>
      sent <<- send_control path command ;;
      mret (warned warnings
              (match sent with
               | Ok resp =>
                   if str_eqb (cp_status resp) (lit "ok") then k resp
                   else fail_with [lit "daemon returned error: " ++ default [] (cp_message resp)]
               | Err e => fail_with [display_outer e]
               end))
  end.

Definition run_control_command (config_path : rstr) (socket_override : option rstr) (command : rstr) :
  M W CommandOutput :=
  exchange config_path socket_override command (fun resp =>
    succeed [default (command ++ lit " command sent successfully") (cp_message resp)]).

Definition print_status (payload : StatusPayload) : list rstr := [
  lit "Daemon status: healthy";
  lit "Uptime (s): " ++ display_N (st_uptime_seconds payload);
  lit "Filtering enabled: " ++ display_bool (st_filtering_enabled payload);
  lit "Queries total: " ++ display_N (st_queries_total payload);
  lit "Queries blocked: " ++ display_N (st_queries_blocked payload);
  lit "Queries allowed: " ++ display_N (st_queries_allowed payload);
  lit "Queries passthrough: " ++ display_N (st_queries_passthrough payload);
  lit "Filter lists: " ++ display_N (N.of_nat (length (st_lists payload)));
  lit "List names: " ++ if is_empty (st_lists payload) then lit "(none)" else join_str (lit ", ") (st_lists payload)].

Definition run_status_command (config_path : rstr) (socket_override : option rstr) : M W CommandOutput :=
  exchange config_path socket_override (lit "status") (fun resp =>
    match cp_data resp with
    | None => fail_with [lit "daemon did not return status data"]
    | Some data =>
        match from_value data with
        | Ok payload => succeed (print_status payload)
        | Err e => fail_with [lit "failed to decode status payload: " ++ e]
        end
    end).

Definition run_stop_command (config_path : rstr) (socket_override : option rstr) (_direct : bool) :
  M W CommandOutput := run_control_command config_path socket_override (lit "stop").

Definition run_merge_config (config_path : rstr) (overwrite : bool) : M W CommandOutput :=
  content <<- fs_read_to_string outside config_path ;;
  match content with
  | None => mret (fail_with [lit "failed to read config file " ++ config_path ++ lit ": " ++ io_error])
  | Some user_config =>
      match merge_with_example string_key from_str to_string EXAMPLE_CONFIG user_config with
      | Err e => mret (fail_with [lit "failed to merge config: " ++ display_outer e])
      | Ok merged =>
          if overwrite then
            written <<- fs_write config_path merged ;;
            mret (match written with
                  | Err e => fail_with [lit "failed to write merged config to " ++ config_path ++ lit ": " ++ e]
                  | Ok _ => {| co_out := []; co_raw := [];
                               co_err := [lit "merged config written to " ++ config_path]; co_code := 0 |}
                  end)
          else mret {| co_out := []; co_raw := merged; co_err := []; co_code := 0 |}
      end
  end.

(** [run_daemon] is an argument: it is in Startup.v. *)
Definition cli_main (try_parse_from : list rstr -> result CliArgs rstr)
  (run_daemon : rstr -> bool -> M W CommandOutput) (args : list rstr) : M W CommandOutput :=
  match parse_cli_args try_parse_from args with
  | Err e => mret {| co_out := []; co_raw := []; co_err := [e]; co_code := 2 |}
  | Ok Version => mret (succeed [lit "dns-filter " ++ CARGO_PKG_VERSION])
  | Ok (Start config_path debug _) => run_daemon config_path debug
  | Ok (Stop config_path socket_path direct) => run_stop_command config_path socket_path direct
  | Ok (Reload config_path socket_path) => run_control_command config_path socket_path (lit "reload")
  | Ok (Status config_path socket_path) => run_status_command config_path socket_path
  | Ok (MergeConfig config_path overwrite) => run_merge_config config_path overwrite
  end.
End commands.
