(* ===== verification/Startup.v ===== *)
(** * Starting the daemon

    [run_daemon] of [main.rs] with the servers it spawns, and [database/pool.rs]: from the
    configuration file to the registered listeners, in the order of the code.  Every failure
    ends the process; the state at that point is the result's world.  What builds the request
    pipeline is [Daemon.start_daemon], ACME is [Acme.setup_acme]; both are arguments of the
    sequence, and [dns_filter_daemon] puts them in. *)

From S2P Require Import Mcp.
From S2P Require Import Prelude RustStr RustNet Outside ChrootPaths Schema Repositories ConfigDb Daemon ControlSocket.
From S2P Require Import Hickory Metrics FilterEngine ServerOperations UpstreamClients Listeners Admin Logging Privileges Cloudflare Acme Cli.

(** How the process ends early: a printed message and status 1, or a panic. *)
Inductive Halt : Type := Exit (printed : rstr) | Panic (message : rstr).

(** ** Texts *)

Definition display_tls_error (e : TlsSetupError) : rstr :=
  match e with
  | CertGeneration m => lit "certificate generation failed: " ++ m
  | CertLoad m => lit "certificate loading failed: " ++ m
  | TlsConfigError m => lit "TLS configuration error: " ++ m
  end.
Definition display_listener_error (e : ListenerSetupError) : rstr :=
  match e with
  | InvalidAddress addr => lit "invalid bind address '" ++ addr ++ lit "': invalid socket address syntax"
  | BindFailed proto addr source =>
      lit "failed to bind " ++ proto ++ lit " on " ++ display_socket_addr addr ++ lit ": " ++ source
  | ListenerTls e => lit "TLS configuration error: " ++ display_tls_error e
  | Registration m => lit "listener registration error: " ++ m
  end.

(** [unwrap_or_else(|e| { eprintln!(..); exit(1) })]. *)
Definition or_exit {W A E} (what : rstr) (show : E -> rstr) (m : M W (result A E)) : M W (result A Halt) :=
  mmap_err (fun e => Exit (what ++ show e)) m.

(** ** The database pool *)

Record PoolEnv (W Pool : Type) : Type := {
  po_create_dir_all : rstr -> M W (result unit rstr);
  po_parent : rstr -> option rstr;
  po_parse_url : rstr -> result unit rstr;
  po_connect : rstr -> M W (result Pool rstr);
  po_migrate : Pool -> M W (result unit rstr)
}.
Arguments po_create_dir_all {W Pool} _ _.
Arguments po_parent {W Pool} _ _.
Arguments po_parse_url {W Pool} _ _.
Arguments po_connect {W Pool} _ _.
Arguments po_migrate {W Pool} _ _.

Definition connect_url (url : rstr) : rstr :=
  if contains (lit "mode=") url then url
  else if contains_char (ch "?") url then url ++ lit "&mode=rwc"
  else url ++ lit "?mode=rwc".

Section pool.
Context {W Pool : Type} (env : PoolEnv W Pool).

Definition create_database_dir (url : rstr) : M W (result unit Error) :=
  match strip_prefix (lit "sqlite://") url with
  | Some path =>
      match po_parent env path with
      | Some parent =>
          if is_empty parent then mret (Ok tt)
          else mmap_err (fun e => [lit "failed to create database directory '" ++ parent ++ lit "'"; e])
                 (po_create_dir_all env parent)
      | None => mret (Ok tt)
      end
  | None => mret (Ok tt)
  end.

Definition run_migrations (pool : Pool) : M W (result unit Error) :=
  mmap_err (fun e => [lit "failed to run database migrations"; e]) (po_migrate env pool).

Definition init_pool (url : rstr) : M W (result Pool Error) :=
  create_database_dir url ?;;
  (mlift (map_err (fun e => [lit "failed to parse database URL: " ++ url; e]) (po_parse_url env (connect_url url))) ?;;
   (pool <?- mmap_err (fun e => [lit "failed to connect to database at " ++ url; e])
               (po_connect env (connect_url url)) ;;
    run_migrations pool ?;; mret (Ok pool))).
End pool.

(** ** Registered listeners *)

Inductive Registered (Sock : Type) : Type :=
| RegUdp (socket : Sock)
| RegTcp (socket : Sock) (timeout buffer : N)
| RegTls (socket : Sock) (tls : TlsServerConfig)
| RegHttps (socket : Sock) (tls : TlsServerConfig) (path : rstr)
| RegQuic (socket : Sock) (tls : TlsServerConfig).
Arguments RegUdp {Sock} _.
Arguments RegTcp {Sock} _ _ _.
Arguments RegTls {Sock} _ _.
Arguments RegHttps {Sock} _ _ _.
Arguments RegQuic {Sock} _ _.

Definition handshake_timeout : N := 5.
Definition tcp_response_buffer_size : N := 65535.

(** ** The MCP server *)

Section mcp.
Context {W Sock : Type} (sockets : SocketEnv W Sock).
(** The keep-alive and the origins of a [StreamableHttpServerConfig] that sets none. *)
Context (default_keep_alive : option N) (default_origins : list rstr).

Definition open_mcp_listener (addr : SocketAddr) : M W (result Sock rstr) :=
  open_listener sockets (on_addr (lit "failed to bind MCP server on ") addr)
    (lit "failed to set non-blocking on MCP socket")
    (on_addr (lit "failed to create tokio listener for MCP on ") addr) addr.

(** The listeners, each of which then serves [Mcp.mcp_app]; [None] is a server that does not
    start because an address does not parse, a socket that fails ends the process. *)
Definition start_mcp_server (config : McpConfig) : M W (result (option (McpServerSettings * list Sock)) Halt) :=
  match mcp_server_settings default_keep_alive default_origins config with
  | Err _ => mret (Ok None)
  | Ok settings =>
      listeners <?- mmap_err Exit (map_each open_mcp_listener (mss_addrs settings)) ;;
      mret (Ok (Some (settings, listeners)))
  end.
End mcp.

Section startup.
Context {W Sock Pool D A : Type}.
Context (outside : Outside W) (parse_yaml : rstr -> result DnsFilterConfig YamlError) (io_error : rstr).
Context (open_log : rstr -> M W (result unit rstr)) (priv : PrivEnv W) (pool_env : PoolEnv W Pool).
Context (repositories_of : Pool -> Repositories W).
(** [Daemon.start_daemon] and [Acme.setup_acme]. *)
Context (start : DnsFilterConfig -> Repositories W -> M W (result D Error)).
Context (setup_acme : bool -> rstr -> M W (result (option A) (list rstr))).
Context (sockets : SocketEnv W Sock) (tls_env : TlsEnv W) (machine : Machine) (control_env : ControlEnv W).
(** [server.register_*]: hickory's server; and [Metrics.init_prometheus_metrics] on its cell. *)
Context (register : Registered Sock -> M W (result unit rstr)).
Context (setup_shutdown_signals setup_sighup_handler init_metrics : M W (result unit rstr)).

(** [if will_chroot { runtime } else { host }]. *)
Definition runtime_path (will_chroot : bool) (chroot_dir path : rstr) : result rstr Error :=
  if will_chroot then resolve_path_for_chroot_runtime path chroot_dir
  else resolve_path_for_chroot_host path chroot_dir.

Definition chroot_dir_of (config : DnsFilterConfig) : rstr :=
  default ChrootPaths.DEFAULT_CHROOT_DIR (dc_security config ≫= se_chroot_dir).

Definition privilege_config (config : DnsFilterConfig) : PrivilegeDropConfig :=
  {| pd_user := default DEFAULT_USER (dc_security config ≫= se_user);
     pd_group := default DEFAULT_GROUP (dc_security config ≫= se_group);
     pd_chroot_dir := Some (chroot_dir_of config) |}.

(** The file read for reloads, then loaded and validated. *)
Definition read_configuration (config_path : rstr) : M W (result (rstr * DnsFilterConfig) Halt) :=
  content <<- fs_read_to_string outside config_path ;;
  match content with
  | None => mret (Err (Exit (lit "Could not read the config file." ++ newline ++ lit "  File: " ++ config_path
                             ++ newline ++ lit "  Reason: " ++ io_error)))
  | Some cached_yaml =>
      config <?- or_exit [] display_outer (load_config outside parse_yaml io_error config_path) ;;
      config <?- or_exit (lit "invalid configuration: ") display_chain (mlift (validate_dns_config config)) ;;
      mret (Ok (cached_yaml, config))
  end.

(** Whether the process is in the chroot afterwards. *)
Definition confine (config : DnsFilterConfig) : M W (result bool Halt) :=
  uid <<- getuid priv ;;
  or_exit (lit "failed to drop privileges: ") display_chain (drop_privileges priv (privilege_config config)) ?;;
  mret (Ok (uid =? 0)%N).

Definition open_database (will_chroot : bool) (config : DnsFilterConfig) : M W (result (Repositories W) Halt) :=
  let db_url := default DEFAULT_DATABASE_URL (da_url <$> dc_database config) in
  url <?- or_exit (lit "invalid database.url for chroot runtime: ") display_chain
            (mlift (if will_chroot then sqlite_url_for_chroot_runtime db_url (chroot_dir_of config)
                    else sqlite_url_for_chroot_host db_url (chroot_dir_of config))) ;;
  pool <?- or_exit (lit "failed to initialize database: ") display_chain (init_pool pool_env url) ;;
  mret (Ok (repositories_of pool)).

(** *** Listeners *)

Definition bind_addrs (what : rstr) (addresses : list rstr) (port : N) : M W (result (list SocketAddr) Halt) :=
  or_exit (lit "failed to parse " ++ what ++ lit " bind addresses: ") display_listener_error
    (mlift (parse_bind_addrs addresses port)).

Definition bind_socket (proto : rstr) (bind : SocketAddr -> M W (result Sock rstr)) (addr : SocketAddr) :
  M W (result Sock Halt) :=
  or_exit (lit "failed to bind " ++ proto ++ lit " on " ++ display_socket_addr addr ++ lit ": ") id (bind addr).

(** The registrations of the plain listeners cannot fail. *)
Definition dns_listener (addr : SocketAddr) : M W (result unit Halt) :=
  socket <?- bind_socket (lit "UDP") (bind_udp_tokio sockets) addr ;;
  register (RegUdp socket) ;;;
  (listener <?- bind_socket (lit "TCP") (bind_tcp_tokio sockets) addr ;;
   register (RegTcp listener handshake_timeout tcp_response_buffer_size) ;;; mret (Ok tt)).

Definition dns_listeners (config : DnsFilterConfig) : M W (result unit Halt) :=
  match lc_dns (dc_listen config) with
  | Some dns_config =>
      if so_enabled dns_config then
        addrs <?- bind_addrs (lit "DNS") (so_addresses dns_config) (so_port dns_config) ;;
        for_each dns_listener addrs
      else mret (Err (Exit (lit "listen.dns must be configured with enabled: true")))
  | None => mret (Err (Exit (lit "listen.dns must be configured with enabled: true")))
  end.

(** A listener on TLS: its name, what its certificate configuration is with ACME and with
    files, how its socket is bound, and what it registers. *)
Record TlsListener : Type := {
  tl_name : rstr;
  tl_acme : result TlsServerConfig ListenerSetupError;
  tl_files : TlsConfig -> list rstr -> M W (result TlsServerConfig ListenerSetupError);
  tl_bind : SocketAddr -> M W (result Sock rstr);
  tl_register : Sock -> TlsServerConfig -> Registered Sock
}.

Definition dot_listener : TlsListener := {|
  tl_name := lit "DoT"; tl_acme := build_tls_config_with_resolver_alpn tls_env (lit "dot");
  tl_files := fun tls sans => build_tls_config_with_alpn tls_env machine tls sans (lit "dot");
  tl_bind := bind_tcp_tokio sockets; tl_register := RegTls |}.
Definition doh_listener : TlsListener := {|
  tl_name := lit "DoH"; tl_acme := build_tls_config_with_resolver_https tls_env;
  tl_files := fun tls sans => build_tls_config_with_alpn tls_env machine tls sans (lit "h2");
  tl_bind := bind_tcp_tokio sockets; tl_register := fun s c => RegHttps s c (lit "/dns-query") |}.
Definition doq_listener : TlsListener := {|
  tl_name := lit "DoQ"; tl_acme := build_tls_config_with_resolver_alpn tls_env (lit "doq");
  tl_files := fun tls sans => build_tls_config_with_alpn tls_env machine tls sans (lit "doq");
  tl_bind := bind_udp_tokio sockets; tl_register := RegQuic |}.

(** The files of the listener, where the process will find them. *)
Definition runtime_tls (l : TlsListener) (will_chroot : bool) (chroot_dir : rstr) (tls : TlsConfig) :
  result TlsConfig Halt :=
  let? cert_path := map_err (fun e => Exit (lit "invalid " ++ tl_name l ++ lit " tls.cert_path: " ++ display_chain e))
                      (runtime_path will_chroot chroot_dir (tls_cert_path tls)) in
  let? key_path := map_err (fun e => Exit (lit "invalid " ++ tl_name l ++ lit " tls.key_path: " ++ display_chain e))
                     (runtime_path will_chroot chroot_dir (tls_key_path tls)) in
  Ok {| tls_cert_path := cert_path; tls_key_path := key_path; tls_autogenerate := tls_autogenerate tls |}.

Definition listener_tls (l : TlsListener) (acme will_chroot : bool) (chroot_dir : rstr) (c : TlsSocketConfig) :
  M W (result TlsServerConfig Halt) :=
  if acme
  then or_exit (lit "failed to configure " ++ tl_name l ++ lit " TLS (ACME): ") display_listener_error
         (mlift (tl_acme l))
  else
    tls <?- mlift (runtime_tls l will_chroot chroot_dir (ts_tls c)) ;;
    or_exit (lit "failed to configure " ++ tl_name l ++ lit " TLS: ") display_listener_error
      (tl_files l tls (ts_addresses c)).

Definition tls_listener (l : TlsListener) (tls : TlsServerConfig) (addr : SocketAddr) : M W (result unit Halt) :=
  socket <?- bind_socket (tl_name l) (tl_bind l) addr ;;
  or_exit (lit "failed to register " ++ tl_name l ++ lit " listener on " ++ display_socket_addr addr ++ lit ": ")
    id (register (tl_register l socket tls)).

Definition tls_listeners (l : TlsListener) (acme will_chroot : bool) (chroot_dir : rstr)
  (c : option TlsSocketConfig) : M W (result unit Halt) :=
  match c with
  | Some c =>
      if ts_enabled c then
        addrs <?- bind_addrs (tl_name l) (ts_addresses c) (ts_port c) ;;
        tls <?- listener_tls l acme will_chroot chroot_dir c ;;
        for_each (tls_listener l tls) addrs
      else mret (Ok tt)
  | None => mret (Ok tt)
  end.

(** The three blocks of [run_daemon]. *)
Definition dot_listeners (acme will_chroot : bool) (config : DnsFilterConfig) : M W (result unit Halt) :=
  tls_listeners dot_listener acme will_chroot (chroot_dir_of config) (lc_dot (dc_listen config)).
Definition doh_listeners (acme will_chroot : bool) (config : DnsFilterConfig) : M W (result unit Halt) :=
  tls_listeners doh_listener acme will_chroot (chroot_dir_of config) (lc_doh (dc_listen config)).
Definition doq_listeners (acme will_chroot : bool) (config : DnsFilterConfig) : M W (result unit Halt) :=
  tls_listeners doq_listener acme will_chroot (chroot_dir_of config) (lc_doq (dc_listen config)).

Definition control_socket (will_chroot : bool) (config : DnsFilterConfig) : M W (result rstr Halt) :=
  path <?- or_exit (lit "invalid control.socket_path for chroot runtime: ") display_chain
             (mlift (runtime_path will_chroot (chroot_dir_of config) (socket_path (path_config config)))) ;;
  or_exit (lit "failed to bind control socket: ") display_chain (ControlSocket.bind control_env path) ?;;
  mret (Ok path).

(** *** Servers besides DNS *)

Definition optional_tls {B} (build : B -> M W (result TlsServerConfig Halt)) (tls : option B) :
  M W (result (option TlsServerConfig) Halt) :=
  match tls with Some t => c <?- build t ;; mret (Ok (Some c)) | None => mret (Ok None) end.

Definition spawn_metrics_servers (metrics_config : option MetricsConfig) :
  M W (result (list (SocketAddr * option TlsServerConfig)) Halt) :=
  match metrics_config with
  | Some c =>
      if mc_enabled c then
        addrs <?- bind_addrs (lit "metrics") (mc_addresses c) (mc_port c) ;;
        tls <?- optional_tls (fun tls => or_exit (lit "failed to configure metrics TLS: ") display_listener_error
                                (build_tls_config_plain tls_env machine tls (mc_addresses c))) (mc_tls c) ;;
        mret (Ok ((fun addr => (addr, tls)) <$> addrs))
      else mret (Ok [])
  | None => mret (Ok [])
  end.

(** The address of the API is not put in brackets. *)
Definition spawn_api_server (api_config : option ApiConfig) :
  M W (result (option (SocketAddr * option TlsServerConfig * option rstr)) Halt) :=
  match api_config with
  | Some c =>
      if api_enabled c then
        addr <?- mlift (ok_or (parse_socket_addr (api_address c ++ lit ":" ++ display_N (api_port c)))
                          (Exit (lit "invalid API bind address: invalid socket address syntax"))) ;;
        tls <?- optional_tls (fun tls => or_exit (lit "failed to configure API TLS: ") display_listener_error
                                (build_tls_config_for_https tls_env machine tls [api_address c])) (api_tls c) ;;
        mret (Ok (Some (addr, tls, api_token c)))
      else mret (Ok None)
  | None => mret (Ok None)
  end.

Definition first_addr (message : rstr) (addrs : list SocketAddr) : M W (result SocketAddr Halt) :=
  mlift (ok_or (head addrs) (Panic message)).

Definition admin_tls (c : AdminConfig) (tls : TlsConfig) : M W (result (TlsServerConfig * SocketAddr) Halt) :=
  cfg <?- or_exit (lit "failed to configure admin TLS: ") display_listener_error
            (build_tls_config_for_https tls_env machine tls (ad_addresses c)) ;;
  addrs <?- bind_addrs (lit "admin HTTPS") (ad_addresses c) (ad_tls_port c) ;;
  addr <?- first_addr (lit "admin TLS must have at least one bind address") addrs ;;
  mret (Ok (cfg, addr)).

(** The servers and the token of the API they embed. *)
Definition spawn_admin_server (admin_config : option AdminConfig) (api_config : option ApiConfig) :
  M W (result (option (list AdminServer * option rstr)) Halt) :=
  match admin_config with
  | Some c =>
      if ad_enabled c then
        let token := api_config ≫= api_token in
        http_addrs <?- bind_addrs (lit "admin HTTP") (ad_addresses c) (ad_port c) ;;
        http_addr <?- first_addr (lit "admin must have at least one bind address") http_addrs ;;
        tls <?- match ad_tls c with
                | Some tls => t <?- admin_tls c tls ;; mret (Ok (Some t))
                | None => mret (Ok None)
                end ;;
        servers <?- mlift (ok_or (start_admin_servers http_addr (snd <$> tls) (fst <$> tls) (ad_tls_port c))
                             (Panic (lit "tls_addr required when tls_config is provided"))) ;;
        mret (Ok (Some (servers, token)))
      else mret (Ok None)
  | None => mret (Ok None)
  end.

Definition spawn_mcp_server (mcp_config : option McpConfig) : option McpConfig :=
  match mcp_config with
  | Some c => if mcp_enabled c then Some c else None
  | None => None
  end.

(** *** The sequence *)

(** What a started daemon has besides its pipeline. *)
Record Started : Type := {
  su_daemon : D; su_cached_yaml : rstr; su_confined : bool; su_control_path : rstr; su_acme : option A;
  su_api : option (SocketAddr * option TlsServerConfig * option rstr);
  su_admin : option (list AdminServer * option rstr);
  su_metrics : list (SocketAddr * option TlsServerConfig); su_mcp : option McpConfig
}.

(** From the pipeline to the signal handlers. *)
Definition open_listeners (will_chroot : bool) (config : DnsFilterConfig) : M W (result (rstr * option A) Halt) :=
  dns_listeners config ?;;
  (acme <?- mmap_err (fun printed => Exit (join_str newline printed))
              (setup_acme will_chroot (chroot_dir_of config)) ;;
   let resolver := match acme with Some _ => true | None => false end in
   dot_listeners resolver will_chroot config ?;;
   (doh_listeners resolver will_chroot config ?;;
    (doq_listeners resolver will_chroot config ?;;
     (control_path <?- control_socket will_chroot config ;;
      or_exit (lit "failed to set up shutdown signal handlers: ") id setup_shutdown_signals ?;;
      (or_exit (lit "failed to set up signal handler: ") id setup_sighup_handler ?;;
       mret (Ok (control_path, acme))))))).

Definition after_privileges (cached_yaml : rstr) (config : DnsFilterConfig) (will_chroot : bool) :
  M W (result Started Halt) :=
  repos <?- open_database will_chroot config ;;
  daemon <?- or_exit [] display_chain (start config repos) ;;
  opened <?- open_listeners will_chroot config ;;
  let '(control_path, acme) := opened in
  api <?- spawn_api_server (dc_api config) ;;
  admin <?- spawn_admin_server (lc_admin (dc_listen config)) (dc_api config) ;;
  or_exit (lit "failed to initialize metrics: ") id init_metrics ?;;
  (metrics <?- spawn_metrics_servers (lc_metrics (dc_listen config)) ;;
  mret (Ok {| su_daemon := daemon; su_cached_yaml := cached_yaml; su_confined := will_chroot;
              su_control_path := control_path; su_acme := acme; su_api := api; su_admin := admin;
              su_metrics := metrics;
              su_mcp := spawn_mcp_server (dc_mcp config) |})).

Definition run_daemon (config_path : rstr) (debug : bool) : M W (result Started Halt) :=
  read <?- read_configuration config_path ;;
  let '(cached_yaml, config) := read in
  or_exit (lit "failed to initialize logging: ") display_chain (init_logging open_log config debug) ?;;
  (will_chroot <?- confine config ;;
   after_privileges cached_yaml config will_chroot).

(** *** The end *)

(** What the last [select!] of the daemon sees first. *)
Inductive DaemonEnd : Type := ShutdownSignal | DnsServerDone | ReloadTaskDone | ControlTaskDone | ApiTaskDone
| AdminTaskDone | McpTaskDone.
Definition daemon_exit (e : DaemonEnd) : CommandOutput :=
  match e with
  | ReloadTaskDone => fail_with [lit "Reload task exited unexpectedly"]
  | _ => succeed []
  end.
End startup.

(** ** The status of the daemon *)

(** The members of the JSON object the status command answers with. *)
Record DaemonStatus : Type := {
  ds_uptime_seconds : N; ds_filtering_enabled : bool; ds_snapshot : MetricsSnapshot; ds_lists : list ListInfo
}.

Definition status_provider {W} (metrics : Cell W MetricsGlobal) (unix_now : M W (option N))
  (filtering_enabled : Cell W bool) (domain_filter : FilterControl W) (start_time : N) : M W DaemonStatus :=
  global <<- cread metrics ;;
  now <<- unix_now ;;
  enabled <<- cread filtering_enabled ;;
  lists <<- ctl_list_names domain_filter ;;
  mret {| ds_uptime_seconds := (default 0 now - start_time)%N; ds_filtering_enabled := enabled;
          ds_snapshot := metrics_snapshot global; ds_lists := lists |}.

(** The members the client reads of it. *)
Definition status_payload (s : DaemonStatus) : StatusPayload :=
  {| st_uptime_seconds := ds_uptime_seconds s; st_filtering_enabled := ds_filtering_enabled s;
     st_queries_total := ms_queries_total (ds_snapshot s); st_queries_blocked := ms_queries_blocked (ds_snapshot s);
     st_queries_allowed := ms_queries_allowed (ds_snapshot s);
     st_queries_passthrough := ms_queries_passthrough (ds_snapshot s); st_lists := li_name <$> ds_lists s |}.

(** ** The whole *)

Section whole.
Context `{DnsCodec} {W Sock Pool Account AccountCredentials : Type}.
Context (outside : Outside W) (parse_yaml : rstr -> result DnsFilterConfig YamlError) (io_error : rstr).
Context (open_log : rstr -> M W (result unit rstr)) (priv : PrivEnv W) (pool_env : PoolEnv W Pool).
Context (repositories_of : Pool -> Repositories W).
Context (metrics : Cell W MetricsGlobal) (db_outside : DbOutside W) (builders : Builders W).
Context (heap : nat -> Cell W EngineHeap) (spawned : Cell W (list ListRuntime)).
Context (filtering_enabled : Cell W bool) (query_log_cell : Cell W QueryLog).
Context (send_reload : M W bool) (unix_now : M W (option N)).
Context (acme : AcmeClient W Account AccountCredentials) (acme_env : AcmeEnv W) (pem : PemReader).
Context (certified_key : Cell W CertifiedKey) (api : ApiClient W) (env_var : rstr -> option rstr).
Context (http_client : result unit rstr) (rcgen : Rcgen W).
Context (acme_config : option AcmeConfig).
Context (sockets : SocketEnv W Sock) (tls_env : TlsEnv W) (machine : Machine) (control_env : ControlEnv W).
Context (register : Registered Sock -> M W (result unit rstr)).
Context (setup_shutdown_signals setup_sighup_handler : M W (result unit rstr)).

(** [acme_config] is the section [acme] of the configuration file. *)
Definition dns_filter_daemon : rstr -> bool -> M W (result Started Halt) :=
  run_daemon outside parse_yaml io_error open_log priv pool_env repositories_of
    (start_daemon metrics db_outside builders heap spawned filtering_enabled query_log_cell send_reload unix_now)
    (fun will_chroot chroot_dir =>
       Acme.setup_acme acme acme_env pem certified_key api env_var http_client rcgen
         will_chroot chroot_dir acme_config)
    sockets tls_env machine control_env register setup_shutdown_signals setup_sighup_handler
    (cmodify metrics init_prometheus_metrics ;;; mret (Ok tt)).
End whole.

(** ** Order and paths *)

Lemma or_exit_ok {W A E} what (show : E -> rstr) (m : M W (result A E)) w a w' :
  or_exit what show m w = (Ok a, w') -> m w = (Ok a, w').
Proof. unfold or_exit, mmap_err. destruct (m w) as [[x|e] w1]; [|done]. by intros [= -> ->]. Qed.

(** A status command prints what the status provider of the daemon returned. *)
Lemma status_command_prints {W Value : Type} (outside : Outside W)
  (parse_yaml : rstr -> result DnsFilterConfig YamlError) io_error (client : UnixClient W)
  (json : ControlJson Value) (to_value : DaemonStatus -> Value) (from_value : Value -> result StatusPayload rstr)
  config_path socket_override warnings path s w w1 w2 :
  (forall s, from_value (to_value s) = Ok (status_payload s)) ->
  resolve_control_socket_path outside parse_yaml io_error config_path socket_override w
  = (Ok (warnings, path), w1) ->
  send_control client json path (lit "status") w1 = (Ok (ok_with_data (to_value s)), w2) ->
  run_status_command outside parse_yaml io_error client json from_value config_path socket_override w
  = (warned warnings (succeed (print_status (status_payload s))), w2).
Proof.
  intros Hjson Hr Hs. unfold run_status_command, exchange, mbind. rewrite Hr, Hs. unfold mret, ok_with_data.
  cbn [cp_status cp_data]. assert (He : str_eqb (lit "ok") (lit "ok") = true) by reflexivity.
  by rewrite He, Hjson.
Qed.

Section order.
Context {W Sock Pool D A : Type}.
Context (outside : Outside W) (parse_yaml : rstr -> result DnsFilterConfig YamlError) (io_error : rstr).
Context (open_log : rstr -> M W (result unit rstr)) (priv : PrivEnv W) (pool_env : PoolEnv W Pool).
Context (repositories_of : Pool -> Repositories W).
Context (start : DnsFilterConfig -> Repositories W -> M W (result D Error)).
Context (setup_acme : bool -> rstr -> M W (result (option A) (list rstr))).
Context (sockets : SocketEnv W Sock) (tls_env : TlsEnv W) (machine : Machine) (control_env : ControlEnv W).
Context (register : Registered Sock -> M W (result unit rstr)).
Context (setup_shutdown_signals setup_sighup_handler init_metrics : M W (result unit rstr)).

Abbreviation run := (run_daemon outside parse_yaml io_error open_log priv pool_env repositories_of start
  setup_acme sockets tls_env machine control_env register setup_shutdown_signals setup_sighup_handler init_metrics).
Abbreviation later := (after_privileges pool_env repositories_of start setup_acme sockets tls_env machine
  control_env register setup_shutdown_signals setup_sighup_handler init_metrics).

Lemma read_configuration_ok config_path w cached config w' :
  read_configuration outside parse_yaml io_error config_path w = (Ok (cached, config), w') ->
  exists w1, load_config outside parse_yaml io_error config_path w1 = (Ok config, w').
Proof.
  unfold read_configuration, mbind. destruct (fs_read_to_string _ _ w) as [[y|] w1]; [|done].
  intros H. apply tbind_ok in H as (c & w2 & Hl%or_exit_ok & H).
  apply tbind_ok in H as (c' & w3 & Hv%or_exit_ok & [= <- <- <-]). exists w1.
  injection Hv as Hv <-. unfold validate_dns_config in Hv. destruct (validate_config _); [|done].
  by injection Hv as ->.
Qed.

(** A started daemon: the configuration it loaded, the drop of privileges, then the rest. *)
Lemma run_daemon_ok config_path debug w s w' :
  run config_path debug w = (Ok s, w') ->
  exists cached config w1 w2 w3 w4 layers,
    load_config outside parse_yaml io_error config_path w1 = (Ok config, w2)
    /\ init_logging open_log config debug w2 = (Ok layers, w3)
    /\ confine priv config w3 = (Ok (su_confined s), w4)
    /\ later cached config (su_confined s) w4 = (Ok s, w').
Proof.
  intros H. apply tbind_ok in H as ([cached config] & w2 & Hr & H).
  apply read_configuration_ok in Hr as (w1 & Hr).
  apply tbind_ok in H as (layers & w3 & Hl%or_exit_ok & H). apply tbind_ok in H as (confined & w4 & Hc & H).
  assert (confined = su_confined s) as ->.
  { clear - H. unfold after_privileges in H. apply tbind_ok in H as (repos & w5 & _ & H).
    apply tbind_ok in H as (d & w6 & _ & H). apply tbind_ok in H as ([p a] & w7 & _ & H).
    apply tbind_ok in H as (api & w8 & _ & H). apply tbind_ok in H as (ad & w9 & _ & H).
    apply tbind_ok in H as ([] & w10 & _ & H). apply tbind_ok in H as (m & w11 & _ & [= <- _]). done. }
  by exists cached, config, w1, w2, w3, w4, layers.
Qed.

(** The control socket a started daemon has bound. *)
Lemma control_path_ok cached config confined w s w' :
  later cached config confined w = (Ok s, w') ->
  runtime_path confined (chroot_dir_of config) (socket_path (path_config config)) = Ok (su_control_path s).
Proof.
  unfold after_privileges. intros H. apply tbind_ok in H as (repos & w5 & _ & H).
  apply tbind_ok in H as (d & w6 & _ & H). apply tbind_ok in H as ([p a] & w7 & Ho & H).
  assert (su_control_path s = p) as ->.
  { apply tbind_ok in H as (api & w8 & _ & H). apply tbind_ok in H as (ad & w9 & _ & H).
    apply tbind_ok in H as ([] & w10 & _ & H). apply tbind_ok in H as (m & w11 & _ & [= <- _]). done. }
  unfold open_listeners in Ho. clear H. apply tbind_ok in Ho as ([] & w8 & _ & H).
  apply tbind_ok in H as (acme & w9 & _ & H). apply tbind_ok in H as ([] & w10 & _ & H).
  apply tbind_ok in H as ([] & w11 & _ & H). apply tbind_ok in H as ([] & w12 & _ & H).
  apply tbind_ok in H as (p' & w13 & Hc & H). apply tbind_ok in H as ([] & w14 & _ & H).
  apply tbind_ok in H as ([] & w15 & _ & [= <- <- _]).
  apply tbind_ok in Hc as (q & w16 & Hq%or_exit_ok & Hc). apply tbind_ok in Hc as ([] & w17 & _ & [= <- _]).
  by injection Hq as ->.
Qed.

(** The path a client computes for the socket the daemon has bound. *)
Lemma client_path config_path config wc wc' confined bound :
  load_config outside parse_yaml io_error config_path wc = (Ok config, wc') ->
  runtime_path confined (chroot_dir_of config) (socket_path (path_config config)) = Ok bound ->
  exists path,
    resolve_control_socket_path outside parse_yaml io_error config_path None wc = (Ok ([], path), wc')
    /\ (if confined
        then exists base rel,
          parse_chroot_dir (chroot_dir_of config) = Ok base
          /\ components path = RootDir :: (Normal <$> pb_parts base ++ rel)
          /\ components bound = RootDir :: (Normal <$> rel)
        else path = bound).
Proof.
  intros Hl Hr. unfold resolve_control_socket_path, mbind. rewrite Hl. unfold mret.
  unfold runtime_path, chroot_dir_of in *. destruct confined.
  - destruct (runtime_resolves_host _ _ _ Hr) as (host & Hh). rewrite Hh. exists host. split; [done|].
    destruct (resolve_both _ _ _ Hh) as (base & rel & Hb & Hall & Hrel & -> & Hin).
    rewrite Hin in Hr. injection Hr as <-. exists base, rel. split; [done|].
    split; by apply components_print.
  - rewrite Hr. exists bound. done.
Qed.

(** C38. A control command reaches the daemon it is meant for: when the daemon has started,
    every client that loads the configuration the daemon loaded computes, without warnings,
    the path of the socket the daemon has bound; where the daemon runs in its chroot, that
    is the chroot followed by the path inside it. *)
Theorem clients_find_daemon_socket config_path debug w s w' :
  run config_path debug w = (Ok s, w') ->
  exists config w1 w2,
    load_config outside parse_yaml io_error config_path w1 = (Ok config, w2)
    /\ forall wc wc', load_config outside parse_yaml io_error config_path wc = (Ok config, wc') ->
       exists path,
         resolve_control_socket_path outside parse_yaml io_error config_path None wc = (Ok ([], path), wc')
         /\ (if su_confined s
             then exists base rel,
               parse_chroot_dir (chroot_dir_of config) = Ok base
               /\ components path = RootDir :: (Normal <$> pb_parts base ++ rel)
               /\ components (su_control_path s) = RootDir :: (Normal <$> rel)
             else path = su_control_path s).
Proof.
  intros (cached & config & w1 & w2 & w3 & w4 & layers & Hl & _ & _ & Hrest)%run_daemon_ok.
  exists config, w1, w2. split; [done|]. intros wc wc' Hwc. eapply client_path; [exact Hwc|].
  by eapply control_path_ok.
Qed.

(** Nothing is opened with root's privileges but the configuration and the log: once they
    are read, the daemon drops its privileges, and its database, certificates, sockets and
    listeners are opened from the state after a successful drop, in which a process that was
    root is the configured user in its chroot with the two network capabilities only; where
    dropping them fails, the process exits with nothing done after the failed call. *)
Theorem started_with_dropped_privileges (creds : W -> Credentials) (passwd group : rstr -> rstr -> option N)
  `{!LinuxCredentials priv creds passwd group} config_path debug w cached config w2 layers w3 :
  read_configuration outside parse_yaml io_error config_path w = (Ok (cached, config), w2) ->
  init_logging open_log config debug w2 = (Ok layers, w3) ->
  let root := (cr_uid (creds w3) =? 0)%N in
  match drop_privileges priv (privilege_config config) w3 with
  | (Err e, w4) =>
      run config_path debug w = (Err (Exit (lit "failed to drop privileges: " ++ display_chain e)), w4)
  | (Ok _, w4) =>
      run config_path debug w = later cached config root w4
      /\ (root = true ->
          dropped passwd group (privilege_config config) (creds w3) (creds w4)
          /\ cr_root (creds w4) = chroot_dir_of config)
  end.
Proof.
  intros Hr Hl. cbn zeta. unfold run_daemon, tbind. rewrite Hr. unfold or_exit, mmap_err. rewrite Hl.
  cbn [map_err]. unfold confine, mbind. rewrite (getuid_reads w3). unfold tbind, or_exit, mmap_err.
  pose proof (drop_privileges_effect priv creds passwd group (privilege_config config) w3) as He.
  destruct (drop_privileges _ _ w3) as [[[]|e] w4]; cbn [map_err]; [|done]. split; [done|].
  intros Hroot. specialize (He w4 eq_refl). rewrite Hroot in He. split; [done|].
  destruct He as (uid & gid & _ & _ & ->). done.
Qed.
End order.

(** ** A small machine *)

Module Example.
(** The process of [Privileges.Example], which is root; nothing else of the machine matters. *)
Abbreviation World := Credentials.
Definition kernel : PrivEnv World := Privileges.Example.kernel.
#[local] Existing Instance Privileges.Example.kernel_credentials.

Definition config : DnsFilterConfig := {|
  dc_listen := {| lc_dns := Some {| so_enabled := true; so_addresses := default_public_addresses; so_port := 53 |};
                  lc_dot := Some {| ts_enabled := true; ts_addresses := [lit "127.0.0.1"]; ts_port := 853;
                                    ts_tls := {| tls_cert_path := lit "certs/dot.pem";
                                                 tls_key_path := lit "certs/dot.key";
                                                 tls_autogenerate := Some true |} |};
                  lc_doh := None; lc_doq := None; lc_admin := None; lc_metrics := None |};
  dc_blocklists := []; dc_allowlists := []; dc_filtering := None;
  dc_resolvers := dc_resolvers ex_dns_config; dc_plugins := [];
  dc_logging := {| lg_syslog := None; lg_file := None; lg_stdout := None |};
  dc_security := None; dc_api := None; dc_control := None; dc_mcp := None; dc_database := None;
  dc_outbound := None |}.

Definition fine {B} (b : B) : M World (result B rstr) := mret (Ok b).
Definition outside : Outside World := {|
  http_get := fun _ _ => mret None; fs_read_to_string := fun _ => mret (Some (lit "listen:"));
  now := mret 0%N; gen_range := fun _ => mret 0 |}.
Definition pool_env : PoolEnv World unit := {|
  po_create_dir_all := fun _ => fine tt; po_parent := fun _ => Some (lit "/db"); po_parse_url := fun _ => Ok tt;
  po_connect := fun _ => fine tt; po_migrate := fun _ => fine tt |}.
Definition db : Cell World Database := {| cget := fun _ => ex_listed; cput := fun _ w => w |}.
Definition db_outside : DbOutside World := {|
  db_fault := mret None; db_message := fun _ => []; new_v4 := mret [] |}.
Definition sockets : SocketEnv World unit := {|
  socket_new := fun _ _ => fine tt; socket_set := fun _ _ => fine tt; socket_bind := fun _ _ => fine tt;
  socket_listen := fun _ _ => fine tt; socket_from_std := fun _ => fine tt |}.
Definition tls_env : TlsEnv World := {|
  tf_exists := fun _ => mret false; tf_create_dir_all := fun _ => fine tt; tf_write := fun _ _ => fine tt;
  tf_open := fun _ => fine (lit "pem"); tf_parent := fun _ => None; generate_key_pair := fine (lit "key");
  self_signed := fun _ _ _ => fine (lit "cert"); read_certs := fun _ => [Ok [1%N]];
  read_private_key := fun _ => Ok (Some [2%N]); protocol_versions := Ok tt; single_cert := fun _ _ => Ok tt |}.
Definition machine : Machine := {|
  host_name := Ok (Some (lit "gateway")); interfaces := Ok []; to_lowercase := to_ascii_lowercase;
  is_ia5 := fun _ => true |}.
Definition control_env : ControlEnv World := {|
  ce_create_dir_all := fun _ => fine tt; ce_exists := fun _ => mret false; ce_alive := fun _ => mret false;
  ce_remove_file := fun _ => fine tt; ce_bind := fun _ => fine tt; ce_set_permissions := fun _ _ => fine tt;
  ce_parent := fun _ => Some (lit "/run") |}.
Definition parse_yaml (_ : rstr) : result DnsFilterConfig YamlError := Ok config.

Definition daemon : M World (result Started Halt) :=
  run_daemon (A := unit) outside parse_yaml [] (fun _ => fine tt) kernel pool_env
    (fun _ => sqlx_repositories db db_outside) (fun _ _ => mret (Ok tt)) (fun _ _ => mret (Ok None)) sockets tls_env
    machine control_env (fun _ => fine tt) (fine tt) (fine tt) (fine tt) DEFAULT_CONFIG_PATH false.

Abbreviation process := Privileges.Example.root_process.

Lemma clients_find_daemon_socket_witness :
  exists s w', daemon process = (Ok s, w') /\ su_confined s = true
  /\ exists config w1 w2,
    load_config outside parse_yaml [] DEFAULT_CONFIG_PATH w1 = (Ok config, w2)
    /\ forall wc wc', load_config outside parse_yaml [] DEFAULT_CONFIG_PATH wc = (Ok config, wc') ->
       exists path,
         resolve_control_socket_path outside parse_yaml [] DEFAULT_CONFIG_PATH None wc = (Ok ([], path), wc')
         /\ (if su_confined s
             then exists base rel,
               parse_chroot_dir (chroot_dir_of config) = Ok base
               /\ components path = RootDir :: (Normal <$> pb_parts base ++ rel)
               /\ components (su_control_path s) = RootDir :: (Normal <$> rel)
             else path = su_control_path s).
Proof.
  assert (Hc : match daemon process with (Ok s, _) => su_confined s | _ => false end = true)
    by (vm_compute; reflexivity).
  destruct (daemon process) as [[s|h] w'] eqn:H; [|discriminate Hc].
  exists s, w'. split; [reflexivity|]. split; [exact Hc|]. unfold daemon in H.
  apply clients_find_daemon_socket in H. exact H.
Defined.

Lemma started_with_dropped_privileges_witness :
  exists w4, drop_privileges kernel (privilege_config config) process = (Ok tt, w4)
  /\ daemon process
     = after_privileges pool_env (fun _ => sqlx_repositories db db_outside) (fun _ _ => mret (Ok tt))
         (fun _ _ => mret (Ok None)) sockets tls_env machine control_env (fun _ => fine tt) (fine tt) (fine tt) (fine tt)
         (lit "listen:") config true w4
  /\ cr_root w4 = lit "/var/lib/dns-filter".
Proof.
  pose proof (started_with_dropped_privileges (A := unit) outside parse_yaml [] (fun _ => fine tt) kernel pool_env
    (fun _ => sqlx_repositories db db_outside) (fun _ _ => mret (Ok tt)) (fun _ _ => mret (Ok None)) sockets tls_env
    machine control_env (fun _ => fine tt) (fine tt) (fine tt) (fine tt) id Privileges.Example.ids Privileges.Example.ids
    DEFAULT_CONFIG_PATH false process (lit "listen:") config process _ process eq_refl eq_refl) as H.
  cbn zeta in H. assert (Hd : fst (drop_privileges kernel (privilege_config config) process) = Ok tt)
    by (vm_compute; reflexivity).
  destruct (drop_privileges kernel (privilege_config config) process) as [[[]|e] w4]; [|discriminate Hd].
  destruct H as [Hrun Hdropped]. exists w4. split; [reflexivity|]. split; [exact Hrun|].
  destruct (Hdropped eq_refl) as [_ Hroot]. exact Hroot.
Defined.
End Example.
