(* ===== verification/Routing.v ===== *)
(** * Outbound routing and plugins

    [frameworks/upstream/runtime.rs]: the sockets of upstream connections with a source
    address and a firewall mark; and the scaffold of [frameworks/plugin_runtime],
    [use_cases/plugin_handler.rs] and [entities/plugin.rs].  Sockets and tokio's provider are
    parameters. *)

From S2P Require Import Prelude RustStr RustNet Outside Hickory Metrics Upstream Pipeline ConfigBootstrap UpstreamClients.
From S2P Require Import Privileges.

(** ** Sockets with a route *)

Definition routing_new (bind_address : option IpAddr) (fwmark : option N) : OutboundRouting :=
  {| or_bind_address := bind_address; or_fwmark := fwmark |}.
Definition routing_is_empty (r : OutboundRouting) : bool :=
  match or_bind_address r, or_fwmark r with None, None => true | _, _ => false end.

Inductive OutType : Type := OutUdp | OutTcp.
(** [socket2], and the provider that is used without a route. *)
Record OutboundEnv (W Sock : Type) : Type := {
  out_new : bool -> OutType -> M W (result Sock rstr);
  out_set_mark : Sock -> N -> M W (result unit rstr);
  out_bind : Sock -> SocketAddr -> M W (result unit rstr);
  out_set_nodelay : Sock -> M W (result unit rstr);
  out_set_nonblocking : Sock -> M W (result unit rstr);
  (** [connect] under a timeout in seconds: [None] when it runs out. *)
  out_connect : Sock -> SocketAddr -> N -> M W (option (result unit rstr));
  out_from_std : Sock -> M W (result unit rstr);
  inner_connect_tcp : SocketAddr -> option SocketAddr -> option N -> M W (result Sock rstr);
  inner_bind_udp : SocketAddr -> SocketAddr -> M W (result Sock rstr)
}.
Arguments out_new {W Sock} _ _ _.
Arguments out_set_mark {W Sock} _ _ _.
Arguments out_bind {W Sock} _ _ _.
Arguments out_set_nodelay {W Sock} _ _.
Arguments out_set_nonblocking {W Sock} _ _.
Arguments out_connect {W Sock} _ _ _ _.
Arguments out_from_std {W Sock} _ _.
Arguments inner_connect_tcp {W Sock} _ _ _ _.
Arguments inner_bind_udp {W Sock} _ _ _.

Definition any_port (ip : IpAddr) : SocketAddr := {| sa_ip := ip; sa_scope := 0; sa_port := 0 |}.

Section provider.
Context {W Sock : Type} (env : OutboundEnv W Sock) (routing : OutboundRouting).

Definition apply_socket_mark (socket : Sock) (mark : N) : M W (result unit rstr) := out_set_mark env socket mark.

Definition apply_fwmark (socket : Sock) : M W (result unit rstr) :=
  match or_fwmark routing with Some mark => apply_socket_mark socket mark | None => mret (Ok tt) end.

Definition bind_source (socket : Sock) (bind_addr : option SocketAddr) : M W (result unit rstr) :=
  let effective_bind := match or_bind_address routing with Some ip => Some (any_port ip) | None => bind_addr end in
  match effective_bind with Some bind => out_bind env socket bind | None => mret (Ok tt) end.

Definition connect_within (socket : Sock) (server_addr : SocketAddr) (timeout : option N) :
  M W (result unit rstr) :=
  connected <<- out_connect env socket server_addr (default 5%N timeout) ;;
  mret (match connected with Some r => r | None => Err (lit "TCP connect timed out") end).

Definition connect_tcp (server_addr : SocketAddr) (bind_addr : option SocketAddr) (timeout : option N) :
  M W (result Sock rstr) :=
  if routing_is_empty routing then inner_connect_tcp env server_addr bind_addr timeout
  else
    socket <?- out_new env (is_ipv6 (sa_ip server_addr)) OutTcp ;;
    apply_fwmark socket ?;;
    (bind_source socket bind_addr ?;;
     (out_set_nodelay env socket ?;;
      (out_set_nonblocking env socket ?;;
       (connect_within socket server_addr timeout ?;; mret (Ok socket))))).

Definition route_udp (local_addr server_addr : SocketAddr) : M W (result Sock rstr) :=
  if routing_is_empty routing then inner_bind_udp env local_addr server_addr
  else
    let effective_local := match or_bind_address routing with Some ip => any_port ip | None => local_addr end in
    socket <?- out_new env (is_ipv6 (sa_ip effective_local)) OutUdp ;;
    apply_fwmark socket ?;;
    (out_set_nonblocking env socket ?;;
     (out_bind env socket effective_local ?;; (out_from_std env socket ?;; mret (Ok socket)))).
End provider.

(** ** Capabilities, for the log *)

(** [has_cap] of the effective set; an error counts as missing. *)
Definition has_cap_net_admin (effective : result (list Capability) rstr) : bool :=
  match effective with Ok caps => bool_decide (CAP_NET_ADMIN ∈ caps) | Err _ => false end.

(** Whether the warning is logged. *)
Definition warn_if_fwmark_without_cap_net_admin (effective : result (list Capability) rstr) (fwmark : option N) :
  bool := match fwmark with Some _ => negb (has_cap_net_admin effective) | None => false end.

Record CapabilityLines : Type := {
  cl_eff : option rstr; cl_prm : option rstr; cl_bnd : option rstr; cl_amb : option rstr
}.
Definition no_lines : CapabilityLines := {| cl_eff := None; cl_prm := None; cl_bnd := None; cl_amb := None |}.

Definition read_capability_line (c : CapabilityLines) (line : rstr) : CapabilityLines :=
  match strip_prefix (lit "CapEff:") line with
  | Some rest => {| cl_eff := Some (trim rest); cl_prm := cl_prm c; cl_bnd := cl_bnd c; cl_amb := cl_amb c |}
  | None =>
      match strip_prefix (lit "CapPrm:") line with
      | Some rest => {| cl_eff := cl_eff c; cl_prm := Some (trim rest); cl_bnd := cl_bnd c; cl_amb := cl_amb c |}
      | None =>
          match strip_prefix (lit "CapBnd:") line with
          | Some rest => {| cl_eff := cl_eff c; cl_prm := cl_prm c; cl_bnd := Some (trim rest); cl_amb := cl_amb c |}
          | None =>
              match strip_prefix (lit "CapAmb:") line with
              | Some rest => {| cl_eff := cl_eff c; cl_prm := cl_prm c; cl_bnd := cl_bnd c;
                                cl_amb := Some (trim rest) |}
              | None => c
              end
          end
      end
  end.
Definition parse_capability_lines (status : rstr) : CapabilityLines :=
  foldl read_capability_line no_lines (lines status).

(** [/proc/self/status], where it can be read. *)
Definition current_process_capabilities (status : option rstr) : CapabilityLines :=
  from_option parse_capability_lines no_lines status.

(** ** Plugins *)

Inductive PluginVerdict : Type := Pass | Block | Allow | Rewrite (target : rstr).
Record PluginQuery : Type := { pq_domain : rstr; pq_qtype : N; pq_client_ip : rstr }.
Record WasmPlugin : Type := { wp_name : rstr; wp_enabled : bool }.
Record WasmPluginRuntime : Type := { plugins : list WasmPlugin }.
Definition plugin_runtime_new : WasmPluginRuntime := {| plugins := [] |}.
Definition plugin_count (r : WasmPluginRuntime) : nat := length (plugins r).

Inductive PluginLoadError : Type :=
| NotImplemented
| PluginIoError (e : rstr)
| CompileError (e : rstr)
| MissingExport (name : rstr).
Definition display_plugin_error (e : PluginLoadError) : rstr :=
  match e with
  | NotImplemented => lit "WASM plugin system is not yet implemented"
  | PluginIoError e => lit "failed to read plugin file: " ++ e
  | CompileError e => lit "failed to compile WASM module: " ++ e
  | MissingExport name => lit "plugin missing required export: " ++ name
  end.
Definition load_plugin (path name : rstr) : result WasmPlugin PluginLoadError := Err NotImplemented.

(** The stage passes every request on. *)
Definition plugin_stage {W} (_ : DnsPipelineRequest) : M W (result (option DnsPipelineResponse) DnsPipelineError) :=
  mret (Ok None).

(** A plugin stage anywhere in the pipeline changes nothing. *)
Lemma plugin_stage_transparent {W} (before after : list (AsyncRequestStage W _ _ _)) request w :
  run_stages (before ++ plugin_stage :: after) request w = run_stages (before ++ after) request w.
Proof.
  revert w. induction before as [|stage before IH]; intros w; [done|]. cbn [app run_stages]. unfold mbind.
  destruct (stage request w) as [[[response|]|e] w1]; [done|apply IH|done].
Qed.

(** ** A routed socket carries its route *)

(** A socket: its mark and its source address. *)
Record SocketState : Type := { ss_mark : option N; ss_local : option SocketAddr }.

Class OutboundSockets {W Sock : Type} (env : OutboundEnv W Sock) (state : W -> Sock -> SocketState) : Prop := {
  new_plain : forall v6 t w s w', out_new env v6 t w = (Ok s, w') ->
    state w' s = {| ss_mark := None; ss_local := None |};
  mark_set : forall s mark w w', out_set_mark env s mark w = (Ok tt, w') ->
    state w' s = {| ss_mark := Some mark; ss_local := ss_local (state w s) |};
  bind_set : forall s addr w w', out_bind env s addr w = (Ok tt, w') ->
    state w' s = {| ss_mark := ss_mark (state w s); ss_local := Some addr |};
  nodelay_keeps : forall s w w', out_set_nodelay env s w = (Ok tt, w') -> state w' s = state w s;
  nonblocking_keeps : forall s w w', out_set_nonblocking env s w = (Ok tt, w') -> state w' s = state w s;
  connect_keeps : forall s addr t w w', out_connect env s addr t w = (Some (Ok tt), w') -> state w' s = state w s;
  from_std_keeps : forall s w w', out_from_std env s w = (Ok tt, w') -> state w' s = state w s
}.

Section routed.
Context {W Sock : Type} (env : OutboundEnv W Sock) (state : W -> Sock -> SocketState).
Context `{!OutboundSockets env state} (routing : OutboundRouting).

Lemma apply_fwmark_ok s w w' : apply_fwmark env routing s w = (Ok tt, w') ->
  ss_mark (state w s) = None ->
  state w' s = {| ss_mark := or_fwmark routing; ss_local := ss_local (state w s) |}.
Proof using OutboundSockets0.
  unfold apply_fwmark. destruct (or_fwmark routing) as [mark|]; [intros H _; by apply mark_set in H|].
  intros [= <-]. by destruct (state w s) as [m l]; simpl; intros ->.
Qed.

(** Every upstream socket opened with a route has it: a TCP connection or a UDP socket
    that the provider hands out, under a route that is not empty, has the mark of the route,
    and the source address of the route with any port, or without one the address asked
    for. *)
Theorem routed_sockets_carry_route server bind_addr timeout local w s w' :
  routing_is_empty routing = false ->
  (connect_tcp env routing server bind_addr timeout w = (Ok s, w') ->
   state w' s = {| ss_mark := or_fwmark routing;
                   ss_local := match or_bind_address routing with Some ip => Some (any_port ip) | None => bind_addr end |})
  /\ (route_udp env routing local server w = (Ok s, w') ->
      state w' s = {| ss_mark := or_fwmark routing;
                      ss_local := Some (match or_bind_address routing with Some ip => any_port ip | None => local end) |}).
Proof using OutboundSockets0.
  intros He. unfold connect_tcp, route_udp. rewrite He. split; intros H.
  - apply tbind_ok in H as (s0 & w1 & Hn%new_plain & H). apply tbind_ok in H as ([] & w2 & Hm & H).
    apply tbind_ok in H as ([] & w3 & Hb & H). apply tbind_ok in H as ([] & w4 & H4%nodelay_keeps & H).
    apply tbind_ok in H as ([] & w5 & H5%nonblocking_keeps & H). apply tbind_ok in H as ([] & w6 & Hc & [= <- <-]).
    apply apply_fwmark_ok in Hm; [|by rewrite Hn].
    assert (H6 : state w6 s0 = state w5 s0).
    { unfold connect_within, mbind in Hc. destruct (out_connect _ _ _ _ w5) as [[[[]|e]|] w7] eqn:Hcon; try done.
      injection Hc as <-. by apply connect_keeps in Hcon. }
    rewrite H6, H5, H4. unfold bind_source in Hb.
    destruct (match or_bind_address routing with Some ip => Some (any_port ip) | None => bind_addr end) as [a|].
    + apply bind_set in Hb. by rewrite Hb, Hm.
    + injection Hb as <-. by rewrite Hm, Hn.
  - apply tbind_ok in H as (s0 & w1 & Hn%new_plain & H). apply tbind_ok in H as ([] & w2 & Hm & H).
    apply tbind_ok in H as ([] & w3 & H3%nonblocking_keeps & H). apply tbind_ok in H as ([] & w4 & Hb%bind_set & H).
    apply tbind_ok in H as ([] & w5 & H5%from_std_keeps & [= <- <-]).
    apply apply_fwmark_ok in Hm; [|by rewrite Hn]. by rewrite H5, Hb, H3, Hm.
Qed.
End routed.
