(* ===== verification/System.v ===== *)
(** * The daemon with its reload channel

    Management changes the database and asks for a reload through a channel; one task
    takes the requests, reads the database, builds the new parts and puts them in the
    pipeline slot ([run_daemon] of [main.rs], [reload_after_mutation] of
    [server_operations.rs]).  Management calls, signals, queries and refreshes go on
    while the task reads and builds.  This file composes [Daemon], [ServerOperations] and
    [Repositories] into one transition system and shows that a daemon at rest serves what
    its database says.

    The channel is a counter, or closed: its messages carry nothing, and its capacity of
    four only makes a sender wait, which its caller cannot tell from a slower call.  It is
    closed when the reload task has panicked, which it may at any time; a task that hangs is
    one that takes no further step.  A management call is one step, or a change of the
    database ([step_statement]) followed later by its request ([step_signal]); one that fails
    after changing the database never sends a request ([step_half_done]).  The reading of the
    database is not one step: a change that arrives while it is under way makes its result
    arbitrary. *)

From S2P Require Import Prelude RustStr RustNet Outside Hickory Metrics FilterEngine Upstream Pipeline.
From S2P Require Import ZoneForwarding ZoneAuthority ZoneRegistry ChrootPaths ConfigBootstrap Schema.
From S2P Require Import ExampleCodec Repositories ConfigDb ServerOperations.
From S2P Require Import Daemon.

(** The calls of [ServerOperations] that change the configuration, and the reload call. *)
Inductive Operation : Type :=
| OpTriggerReload
| OpAddFilterList (kind : rstr) (input : CreateFilterListInput)
| OpUpdateFilterList (name : rstr) (input : UpdateFilterListInput)
| OpDeleteFilterList (name : rstr)
| OpUpdateResolverConfig (input : UpdateResolverConfigInput)
| OpAddUpstreamServer (input : CreateUpstreamServerInput)
| OpUpdateUpstreamServer (id : rstr) (input : UpdateUpstreamServerInput)
| OpDeleteUpstreamServer (id : rstr)
| OpAddZone (input : CreateZoneInput)
| OpUpdateZone (zone_name : rstr) (input : UpdateZoneInput)
| OpDeleteZone (zone_name : rstr)
| OpAddZoneDiscovery (input : CreateZoneDiscoveryInput)
| OpUpdateZoneDiscovery (id : rstr) (input : UpdateZoneDiscoveryInput)
| OpDeleteZoneDiscovery (id : rstr).

(** The reload task: waiting for a request, reading and building ([disturbed]: the
    configuration was changed since it took the request), about to install, or ended by a
    panic. *)
Inductive ReloadTask (W : Type) : Type :=
| Waiting
| Reading (disturbed : bool)
| Built (reloaded : result (ReloadedConfig W) Error)
| Stopped.
Arguments Waiting {W}.
Arguments Reading {W} _.
Arguments Built {W} _.
Arguments Stopped {W}.

(** [sy_last]: whether the last reload succeeded; [sy_untold]: whether the configuration was
    changed, since the last reload began, by a call that has not asked for a reload (yet, or
    never because it failed). *)
Record System (W : Type) : Type := MkSystem {
  sy_daemon : Daemon W; sy_world : W; sy_task : ReloadTask W; sy_last : bool; sy_untold : bool
}.
Arguments MkSystem {W} _ _ _ _ _.
Arguments sy_daemon {W} _.
Arguments sy_world {W} _.
Arguments sy_task {W} _.
Arguments sy_last {W} _.
Arguments sy_untold {W} _.

(** The tables a configuration is read from: all but the cached documents. *)
Definition operational (d : Database) : Database := with_filter_cache_documents d [].

Section system.
Context `{DnsCodec} {W : Type} (metrics : Cell W MetricsGlobal).
Context (parse_yaml : rstr -> result DnsFilterConfig YamlError) (urls : UrlParser).
Context (builders : Builders W) (blocking_failure : M W (option rstr)).
Context (heap : nat -> Cell W EngineHeap) (spawned : Cell W (list ListRuntime)).
Context (filtering_enabled : Cell W bool) (query_log_cell : Cell W QueryLog) (unix_now : M W (option N)).
Context (cached_yaml : rstr).
Context (db : Cell W Database) (db_outside : DbOutside W) (requests : Cell W (option nat)).

#[local] Notation repos := (sqlx_repositories db db_outside).

(** [reload_tx.send(()).await.is_ok()]: it fails when the receiver is gone. *)
Definition send_reload : M W bool :=
  channel <<- cread requests ;;
  match channel with
  | Some n => cwrite requests (Some (S n)) ;;; mret true
  | None => mret false
  end.

Definition op_done {A} (m : M W (OpResult A)) : M W (OpResult unit) := m ?;; mret (Ok tt).

Definition run_operation (self : ServerOperations W) (o : Operation) : M W (OpResult unit) :=
  match o with
  | OpTriggerReload => op_done (trigger_reload self)
  | OpAddFilterList kind input => op_done (add_filter_list db_outside self kind input)
  | OpUpdateFilterList name input => op_done (update_filter_list self name input)
  | OpDeleteFilterList name => op_done (delete_filter_list self name)
  | OpUpdateResolverConfig input => op_done (update_resolver_config self input)
  | OpAddUpstreamServer input => op_done (add_upstream_server db_outside urls self input)
  | OpUpdateUpstreamServer id input => op_done (update_upstream_server urls self id input)
  | OpDeleteUpstreamServer id => op_done (delete_upstream_server self id)
  | OpAddZone input => op_done (add_zone db_outside self input)
  | OpUpdateZone zone_name input => op_done (update_zone db_outside self zone_name input)
  | OpDeleteZone zone_name => op_done (delete_zone self zone_name)
  | OpAddZoneDiscovery input => op_done (add_zone_discovery db_outside self input)
  | OpUpdateZoneDiscovery id input => op_done (update_zone_discovery self id input)
  | OpDeleteZoneDiscovery id => op_done (delete_zone_discovery self id)
  end.

(** A change while the task reads. *)
Definition disturb (t : ReloadTask W) : ReloadTask W :=
  match t with Reading _ => Reading true | _ => t end.

(** [w'] differs from [w] neither in the channel nor in the configuration. *)
Definition unrelated (w w' : W) : Prop :=
  cget requests w' = cget requests w /\ operational (cget db w') = operational (cget db w)
  /\ (schema_ok (cget db w) -> schema_ok (cget db w')).

#[local] Notation rebuild d :=
  (reload_config_from_db_cached parse_yaml builders blocking_failure (S (dm_generation d)) cached_yaml repos).
#[local] Notation installed := (install metrics heap filtering_enabled).

(** The reload task.  A step may never come: the task may hang, and it may panic. *)
Inductive task_step : System W -> System W -> Prop :=
| task_take d w last untold n :
    cget requests w = Some (S n) ->
    task_step (MkSystem d w Waiting last untold)
      (MkSystem d (cput requests (Some n) w) (Reading false) last false)
| task_read d w last untold reloaded w' :
    rebuild d w = (reloaded, w') ->
    task_step (MkSystem d w (Reading false) last untold) (MkSystem d w' (Built reloaded) last untold)
| task_read_disturbed d w last untold reloaded w' :
    unrelated w w' ->
    task_step (MkSystem d w (Reading true) last untold) (MkSystem d w' (Built reloaded) last untold)
| task_install d w last untold reloaded :
    task_step (MkSystem d w (Built reloaded) last untold)
      (MkSystem (installed reloaded d) w Waiting (is_ok reloaded) untold)
| task_panic d w t last untold :
    task_step (MkSystem d w t last untold) (MkSystem d (cput requests None w) Stopped last untold).

(** Everything: the reload task, management, [SIGHUP] and the control socket, and what
    leaves the configuration alone (queries, refreshes, reads). *)
Inductive system_step : System W -> System W -> Prop :=
| step_task s s' : task_step s s' -> system_step s s'
| step_operation d w t last untold o w' :
    run_operation (dm_ops d) o w = (Ok tt, w') ->
    system_step (MkSystem d w t last untold) (MkSystem d w' (disturb t) last untold)
| step_refused d w t last untold o e w' :
    run_operation (dm_ops d) o w = (Err e, w') ->
    operational (cget db w') = operational (cget db w) ->
    system_step (MkSystem d w t last untold) (MkSystem d w' t last untold)
| step_half_done d w t last untold o e w' :
    run_operation (dm_ops d) o w = (Err e, w') ->
    system_step (MkSystem d w t last untold) (MkSystem d w' (disturb t) last true)
| step_statement d w t last untold d' :
    schema_ok d' ->
    system_step (MkSystem d w t last untold) (MkSystem d (cput db d' w) (disturb t) last true)
| step_signal d w t last untold :
    system_step (MkSystem d w t last untold) (MkSystem d (snd (send_reload w)) t last untold)
| step_unrelated d w t last untold w' :
    unrelated w w' ->
    system_step (MkSystem d w t last untold) (MkSystem d w' t last untold).

(** ** What the tasks rely on *)

(** The channel, the database and the rest of the world are apart. *)
Class Channel : Prop := {
  channel_cell :: CellLaws requests;
  channel_db : cell_frame requests db;
  db_channel : cell_frame db requests;
  fresh_channel : keeps (cget requests) (new_v4 db_outside);
  upstream_unrelated : forall n config w, unrelated w (snd (b_upstream_resolver builders n config w));
  filter_unrelated : forall n config repo w, unrelated w (snd (b_domain_filter builders n config repo w));
  zones_unrelated : forall n config w, unrelated w (snd (b_zone_entries builders n config w));
  blocking_unrelated : forall w, unrelated w (snd (blocking_failure w));
  flag_unrelated : forall b w, unrelated w (cput filtering_enabled b w);
  log_unrelated : forall l w, unrelated w (cput query_log_cell l w);
  clock_unrelated : forall w, unrelated w (snd (unix_now w))
}.
Context `{!QuietDb db db_outside} `{!Channel}.

#[export] Instance unrelated_preorder : PreOrder unrelated.
Proof.
  split; [intros w; by split_and!|]. intros w1 w2 w3 (? & ? & ?) (? & ? & ?). split_and!; [congruence..|auto].
Qed.

(** *** Management asks for a reload exactly when it succeeds *)

Definition asks {A E} (m : M W (result A E)) : Prop := forall w,
  cget requests (snd (m w)) = (if is_ok (fst (m w)) then S <$> cget requests w else cget requests w).

Lemma send_reload_cases w :
  (exists n, cget requests w = Some n /\ send_reload w = (true, cput requests (Some (S n)) w))
  \/ (cget requests w = None /\ send_reload w = (false, w)).
Proof.
  unfold send_reload, mbind, cread, cwrite, mret. destruct (cget requests w) as [n|]; [left|by right].
  by exists n.
Qed.

Lemma asks_err {A E} (e : E) : asks (A := A) (mret (Err e)).
Proof. by intros w. Qed.

Lemma asks_mbind {A B E} (m : M W A) (k : A -> M W (result B E)) :
  keeps (cget requests) m -> (forall a, asks (k a)) -> asks (mbind m k).
Proof. intros Hm Hk w. unfold mbind. specialize (Hm w). destruct (m w) as [a w1]. by rewrite Hk, <- Hm. Qed.

Lemma asks_tbind {A B E} (m : M W (result A E)) (k : A -> M W (result B E)) :
  keeps (cget requests) m -> (forall a, asks (k a)) -> asks (tbind m k).
Proof.
  intros Hm Hk w. unfold tbind. specialize (Hm w). destruct (m w) as [[a|e] w1]; [|done].
  by rewrite Hk, <- Hm.
Qed.

Lemma keeps_requests_execute context s : keeps (cget requests) (execute db db_outside context s).
Proof.
  intros w. unfold execute, mbind. rewrite quiet_fault. unfold cread.
  destruct (run_statement _ _); simpl; [apply db_channel|done].
Qed.

Lemma keeps_requests_fetch {A} context (q : Database -> A) :
  keeps (cget requests) (fetch db db_outside context q).
Proof. intros w. unfold fetch, mbind. by rewrite quiet_fault. Qed.

Lemma keeps_map_each_cell {A B E T} (f : W -> T) (body : A -> M W (result B E)) l :
  (forall a, keeps f (body a)) -> keeps f (map_each body l).
Proof.
  intros Hb. induction l as [|a l IH]; [apply keeps_mret|]. simpl.
  apply keeps_tbind; [done|]. intros b. apply keeps_tbind; [done|]. intros bs. apply keeps_mret.
Qed.

Lemma asks_done {A} (m : M W (OpResult A)) : asks m -> asks (op_done m).
Proof. intros Hm w. unfold op_done, tbind. specialize (Hm w). by destruct (m w) as [[a|e] w1]. Qed.

Section operations.
Context (self : ServerOperations W).
Context (Hrepos : so_repos self = Some repos) (Hsend : so_send_reload self = send_reload).

Lemma asks_reload {A} (v : A) : asks (reload_and_return self v).
Proof.
  intros w. unfold reload_and_return, reload_after_mutation, trigger_reload, mbind, mret.
  rewrite Hsend. destruct (send_reload_cases w) as [(n & Hn & ->)|[Hn ->]]; simpl; rewrite ?cget_cput; by rewrite Hn.
Qed.

Lemma with_repos {A} (k : Repositories W -> M W (OpResult A)) :
  tbind (mlift (op_repos self)) k = k repos.
Proof. unfold op_repos. by rewrite Hrepos. Qed.

Lemma asks_repos {A} (k : Repositories W -> M W (OpResult A)) :
  asks (k repos) -> asks (tbind (mlift (op_repos self)) k).
Proof. by rewrite with_repos. Qed.

Lemma schema_repos {A} (k : Repositories W -> M W (OpResult A)) :
  keeps_schema db (k repos) -> keeps_schema db (tbind (mlift (op_repos self)) k).
Proof. by rewrite with_repos. Qed.

(** Follows an operation to its statements and its request. *)
Ltac asks_step :=
  first
  [ apply asks_err | apply asks_reload | apply asks_repos | apply asks_tbind | apply asks_mbind | apply fresh_channel
  | apply keeps_requests_execute | apply keeps_requests_fetch | apply keeps_mret | apply keeps_mlift
  | apply keeps_map_each_cell | apply keeps_for_each | apply keeps_mmap_err | apply keeps_tbind
  | apply keeps_mbind
  | match goal with
    | |- asks (match ?x with _ => _ end) => destruct x
    | |- keeps _ (match ?x with _ => _ end) => destruct x
    end ].

Lemma operation_asks o : asks (run_operation self o).
Proof.
  destruct o; simpl; apply asks_done.
  1: { intros w. unfold trigger_reload, mbind, mret. rewrite Hsend.
       destruct (send_reload_cases w) as [(n & Hn & ->)|[Hn ->]]; simpl; rewrite ?cget_cput; by rewrite Hn. }
  all: repeat (intros; cbv zeta; asks_step).
Qed.

Lemma send_keeps_db : keeps (cget db) send_reload.
Proof. intros w. destruct (send_reload_cases w) as [(n & _ & ->)|[_ ->]]; [apply channel_db|done]. Qed.

Lemma schema_reload {A} (v : A) : keeps_schema db (reload_and_return self v).
Proof.
  intros w Hw. unfold reload_and_return, reload_after_mutation, trigger_reload, mbind, mret.
  rewrite Hsend. pose proof (send_keeps_db w) as Hk. destruct (send_reload w) as [b w1]. simpl in *.
  by rewrite Hk.
Qed.

Lemma operation_schema o : keeps_schema db (run_operation self o).
Proof.
  pose proof (quiet_cell (db := db) (outside := db_outside)) as Hcell.
  assert (keeps_schema db (db_fault db_outside)) as Hf by (intros w; by rewrite quiet_fault).
  assert (keeps_schema db (new_v4 db_outside)) as Hv by (intros w; by rewrite quiet_v4_keeps).
  destruct o; simpl; unfold op_done; (apply schema_tbind; [|intros; apply schema_mret]).
  1: { apply schema_mbind; [|intros; apply schema_mret]. rewrite Hsend. intros w Hw.
       by rewrite send_keeps_db. }
  all: repeat (intros; cbv zeta; first [apply schema_reload | apply schema_repos | keeps_step]).
Qed.
End operations.

(** ** The configuration is read back *)

#[local] Notation source := (reload_source parse_yaml cached_yaml repos).
#[local] Notation built := (built_from metrics builders heap filtering_enabled repos).

(** The parts that serve requests were built from what the database says. *)
Definition current (d : Daemon W) (w : W) : Prop := exists config, source w config /\ built config d.

Lemma source_unrelated w w' config : schema_ok (cget db w) -> unrelated w w' ->
  source w config -> source w' config.
Proof.
  intros Hok (_ & Hop & Hok') (file & w1 & Hl & Hv & Ha). exists file, w'. split_and!; [done..|].
  rewrite apply_db_config_quiet in Ha by done. rewrite apply_db_config_quiet by auto.
  injection Ha as <- _. do 2 f_equal.
  pose proof (f_equal t_filter_lists Hop) as Ht1. pose proof (f_equal t_filtering_config Hop) as Ht2.
  pose proof (f_equal t_resolver_config Hop) as Ht3. pose proof (f_equal t_bootstrap_resolvers Hop) as Ht4.
  pose proof (f_equal t_upstream_servers Hop) as Ht5. pose proof (f_equal t_zones Hop) as Ht6.
  pose proof (f_equal t_zone_servers Hop) as Ht7. pose proof (f_equal t_zone_discovery Hop) as Ht8.
  pose proof (f_equal t_allowed_types Hop) as Ht9. simpl in *. by rewrite Ht1, Ht2, Ht3, Ht4, Ht5, Ht6, Ht7, Ht8, Ht9.
Qed.

Lemma current_unrelated d w w' : schema_ok (cget db w) -> unrelated w w' -> current d w -> current d w'.
Proof. intros Hok Hun (config & Hs & Hb). exists config. split; [by eapply source_unrelated|done]. Qed.

Lemma unrelated_tbind {A B E} (m : M W (result A E)) (k : A -> M W (result B E)) w :
  unrelated w (snd (m w)) -> (forall a w1, m w = (Ok a, w1) -> unrelated w1 (snd (k a w1))) ->
  unrelated w (snd (tbind m k w)).
Proof.
  intros Hm Hk. unfold tbind. destruct (m w) as [[a|e] w1]; [|done]. etrans; [exact Hm|by apply Hk].
Qed.

Lemma rebuild_unrelated (d : Daemon W) w : schema_ok (cget db w) -> unrelated w (snd (rebuild d w)).
Proof.
  intros Hok. unfold reload_config_from_db_cached, rebuild_from_db.
  apply unrelated_tbind; [done|]. intros file w1 [= _ <-].
  apply unrelated_tbind; [done|]. intros file' w1 [= _ <-].
  apply unrelated_tbind; [by rewrite apply_db_config_quiet|]. intros config w1 _.
  apply unrelated_tbind; [apply upstream_unrelated|]. intros r w2 _.
  apply unrelated_tbind; [apply filter_unrelated|]. intros f w3 _.
  apply unrelated_tbind; [done|]. intros p w4 _.
  unfold mbind. pose proof (blocking_unrelated w4) as Hb. destruct (blocking_failure w4) as [[e|] w5]; [done|].
  etrans; [exact Hb|]. apply unrelated_tbind; [apply zones_unrelated|]. done.
Qed.

(** *** A started daemon *)

#[local] Notation start :=
  (start_daemon metrics db_outside builders heap spawned filtering_enabled query_log_cell send_reload unix_now).

Definition managed (d : Daemon W) : Prop :=
  so_repos (dm_ops d) = Some repos /\ so_send_reload (dm_ops d) = send_reload.

Lemma start_query_log_unrelated config w : unrelated w (snd (start_query_log query_log_cell config w)).
Proof.
  unfold start_query_log. destruct (_ ≫= _) as [ql|]; [|done]. destruct (Schema.ql_enabled ql); [|done].
  apply log_unrelated.
Qed.

Lemma in_context_ok {A} context (m : M W (result A Error)) w a w' :
  in_context context m w = (Ok a, w') -> m w = (Ok a, w').
Proof. unfold in_context, mmap_err. destruct (m w) as [[x|e] w1]; [|done]. by intros [= -> ->]. Qed.

Lemma seed_schema config w : schema_ok (cget db w) ->
  schema_ok (cget db (snd (seed_if_empty db_outside repos config w))).
Proof.
  apply seed_keeps_schema; [apply (quiet_cell (outside := db_outside))|intros w0..].
  - by rewrite quiet_fault.
  - by rewrite quiet_v4_keeps.
Qed.

(** The world a step that succeeded ends in. *)
Lemma unrelated_ok {A} (m : M W A) a w w' : m w = (a, w') -> unrelated w (snd (m w)) -> unrelated w w'.
Proof. by intros ->. Qed.

Lemma started file w0 d w :
  load_config_from_str parse_yaml cached_yaml = Ok file -> validate_dns_config file = Ok file ->
  schema_ok (cget db w0) -> start file repos w0 = (Ok d, w) ->
  schema_ok (cget db w) /\ managed d /\ current d w.
Proof.
  intros Hl Hv Hok0 Hs. unfold start_daemon, start_operational in Hs.
  apply tbind_ok in Hs as (config & w2 & Hop & Hs).
  apply tbind_ok in Hop as (b & w1 & Hseed%in_context_ok & Happly%in_context_ok).
  assert (schema_ok (cget db w1)) as Hok1.
  { pose proof (seed_schema file w0 Hok0) as Hk. by rewrite Hseed in Hk. }
  assert (w2 = w1) as -> by (rewrite apply_db_config_quiet in Happly by done; congruence).
  apply tbind_ok in Hs as (r & w2 & Hr%in_context_ok & Hs).
  apply tbind_ok in Hs as (f & w3 & Hf%in_context_ok & Hs).
  apply tbind_ok in Hs as (p & w4 & Hp%in_context_ok & Hs). injection Hp as Hp <-.
  apply tbind_ok in Hs as (z & w5 & Hz%in_context_ok & Hs).
  unfold mbind, cwrite in Hs. destruct (negb _); [done|].
  destruct (unix_now _) as [t w6] eqn:Ht. destruct (start_query_log _ _ _) as [log w7] eqn:Hq.
  injection Hs as <- <-.
  assert (unrelated w1 w7) as Hun.
  { etrans; [exact (unrelated_ok _ _ _ _ Hr (upstream_unrelated _ _ _))|].
    etrans; [exact (unrelated_ok _ _ _ _ Hf (filter_unrelated _ _ _ _))|].
    etrans; [exact (unrelated_ok _ _ _ _ Hz (zones_unrelated _ _ _))|].
    etrans; [exact (flag_unrelated true w5)|].
    etrans; [exact (unrelated_ok _ _ _ _ Ht (clock_unrelated _))|].
    exact (unrelated_ok _ _ _ _ Hq (start_query_log_unrelated _ _)). }
  split; [by apply Hun|]. split; [done|]. exists config. split; [|by exists r, p, z; repeat eexists].
  eapply source_unrelated; [exact Hok1|exact Hun|]. by exists file, w1.
Qed.

(** ** The invariant *)

(** With no request left and no change unannounced, the task has read the latest change or
    is about to. *)
Definition settled (s : System W) : Prop :=
  schema_ok (cget db (sy_world s)) /\ managed (sy_daemon s)
  /\ (cget requests (sy_world s) = Some 0 -> sy_untold s = false ->
      match sy_task s with
      | Waiting => sy_last s = true -> current (sy_daemon s) (sy_world s)
      | Reading disturbed => disturbed = false
      | Built (Ok parts) => current (installed (Ok parts) (sy_daemon s)) (sy_world s)
      | Built (Err _) => True
      | Stopped => False
      end).

Lemma settled_unrelated d w w' t last untold : unrelated w w' ->
  settled (MkSystem d w t last untold) -> settled (MkSystem d w' t last untold).
Proof.
  intros Hun (Hok & Hm & Hc). simpl in *. pose proof Hun as (Hreq & _ & Hok').
  split; [by apply Hok'|]. split; [done|]. simpl. rewrite Hreq. intros Hz Hu. specialize (Hc Hz Hu).
  destruct t as [|b|[parts|e]|]; [intros Hlast; specialize (Hc Hlast)|done| |done|done];
    eapply current_unrelated; eauto.
Qed.

(** A pending request, or an unannounced change, makes no promise. *)
Lemma settled_asked d w t last untold : schema_ok (cget db w) -> managed d ->
  cget requests w <> Some 0 \/ untold = true -> settled (MkSystem d w t last untold).
Proof. intros Hok Hm Hor. split; [done|]. split; [done|]. simpl. intros. destruct Hor; simplify_eq. Qed.

(** A message in a channel that was not empty before, or is closed. *)
Lemma not_empty (o : option nat) : S <$> o <> Some 0.
Proof. by destruct o. Qed.

Lemma managed_install r d : managed d -> managed (installed r d).
Proof. by destruct r as [[[[x f] p] z]|e]. Qed.

Lemma task_settled s s' : task_step s s' -> settled s -> settled s'.
Proof.
  intros Hs (Hok & Hm & Hc).
  destruct Hs as [d w last u n Hn|d w last u r w' Hr|d w last u r w' Hun|d w last u r|d w t last u]; simpl in *.
  - split; [simpl; by rewrite channel_db|]. by split.
  - pose proof (unrelated_ok _ _ _ _ Hr (rebuild_unrelated d w Hok)) as Hun.
    split; [by apply Hun|]. split; [done|]. intros _ _. simpl. destruct r as [parts|e]; [|done].
    eapply current_unrelated; [exact Hok|exact Hun|]. by eapply rebuilt.
  - destruct Hun as (Hreq & _ & Hok'). split; [by apply Hok'|]. split; [done|]. simpl. rewrite Hreq.
    intros Hz Hu. by specialize (Hc Hz Hu).
  - split; [done|]. split; [by apply managed_install|]. simpl. intros Hz Hu. specialize (Hc Hz Hu).
    by destruct r.
  - apply settled_asked; [by rewrite channel_db|done|]. left. by rewrite cget_cput.
Qed.

(** What any call of management leaves: the schema, and a request if it succeeded. *)
Lemma operation_left d w o r w' : schema_ok (cget db w) -> managed d ->
  run_operation (dm_ops d) o w = (r, w') ->
  schema_ok (cget db w') /\ cget requests w' = if is_ok r then S <$> cget requests w else cget requests w.
Proof.
  intros Hok Hm Ho. pose proof (operation_asks _ (proj1 Hm) (proj2 Hm) o w) as Hasks.
  pose proof (operation_schema _ (proj1 Hm) (proj2 Hm) o w Hok) as Hok'. by rewrite Ho in Hasks, Hok'.
Qed.

Lemma system_settled s s' : system_step s s' -> settled s -> settled s'.
Proof.
  pose proof (quiet_cell (db := db) (outside := db_outside)) as Hcell.
  destruct 1 as [s s' Hs|d w t last u o w' Ho|d w t last u o e w' Ho Hop|d w t last u o e w' Ho|d w t last u d' Hd'
    |d w t last u|d w t last u w' Hun]; [by eapply task_settled|..|by apply settled_unrelated];
    intros Hset; pose proof Hset as (Hok & Hm & Hc).
  - destruct (operation_left _ _ _ _ _ Hok Hm Ho) as [Hok' Hreq].
    apply settled_asked; [done..|]. left. rewrite Hreq. apply not_empty.
  - destruct (operation_left _ _ _ _ _ Hok Hm Ho) as [Hok' Hreq].
    eapply settled_unrelated; [|exact Hset]. by split_and!.
  - destruct (operation_left _ _ _ _ _ Hok Hm Ho) as [Hok' _]. apply settled_asked; auto.
  - apply settled_asked; [by rewrite cget_cput|done|by right].
  - destruct (send_reload_cases w) as [(n & Hn & Hs)|[Hn Hs]]; rewrite Hs; simpl; [|done].
    apply settled_asked; [simpl in *; by rewrite channel_db|done|]. left. by rewrite cget_cput.
Qed.

(** The state a daemon starts in: the reload task waits. *)
Definition started_system (d : Daemon W) (w : W) : System W := MkSystem d w Waiting true false.

Lemma reachable_settled file w0 d w s :
  load_config_from_str parse_yaml cached_yaml = Ok file -> validate_dns_config file = Ok file ->
  schema_ok (cget db w0) -> start file repos w0 = (Ok d, w) ->
  rtc system_step (started_system d w) s -> settled s.
Proof.
  intros Hl Hv Hok Hs. destruct (started _ _ _ _ Hl Hv Hok Hs) as (Hok' & Hm & Hc).
  assert (settled (started_system d w)) as Hset.
  { split; [done|]. split; [done|by intros _ _ _]. }
  revert Hset. generalize (started_system d w). intros s0 Hset Hsteps. revert Hset.
  induction Hsteps as [s0|s0 s1 s2 Hstep _ IH]; [done|]. intros Hset. by eapply IH, system_settled.
Qed.

(** C26. A daemon at rest serves what its database says.  However management calls (also
    those that fail half-way or are still under way), signals, queries, refreshes and the
    steps of the reload task are interleaved, and even when the configuration changes while
    the task is reading it: once the channel is open and empty, the task waits, its last
    reload succeeded and no change has been made since that reload began by a call that did
    not ask for a reload, every part of the pipeline was built from the configuration the
    database holds now, and the lists of its filter are exactly the enabled lists of the
    database.  The channel is open as long as the reload task has not panicked. *)
Theorem settled_daemon_serves_database `{!FilterBuilder builders} (file : DnsFilterConfig)
    (w0 w : W) (d : Daemon W) (s : System W) (name url : rstr) (k : ListKind) :
  load_config_from_str parse_yaml cached_yaml = Ok file -> validate_dns_config file = Ok file ->
  schema_ok (cget db w0) ->
  start_daemon metrics db_outside builders heap spawned filtering_enabled query_log_cell send_reload
    unix_now file repos w0 = (Ok d, w) ->
  rtc system_step (started_system d w) s ->
  sy_task s = Waiting -> cget requests (sy_world s) = Some 0 -> sy_last s = true -> sy_untold s = false ->
  current (sy_daemon s) (sy_world s)
  /\ (Exists (same_list name url k) (e_runtimes (dm_filter (sy_daemon s)))
      <-> exists r, lists_of (cget db (sy_world s)) !! name = Some r
            /\ flr_enabled r = true /\ flr_kind r = kind_text k /\ flr_url r = url).
Proof.
  intros Hl Hv Hok Hs Hsteps Ht Hz Hlast Hu.
  destruct (reachable_settled _ _ _ _ _ Hl Hv Hok Hs Hsteps) as (Hok' & _ & Hc).
  specialize (Hc Hz Hu). rewrite Ht in Hc. specialize (Hc Hlast). split; [done|].
  destruct Hc as (config & Hsrc & Hb). by eapply built_lists_exact.
Qed.

End system.

(** ** Witnesses *)

Module SystemExamples.
(** A machine with a database and a channel; builders without a network. *)
Definition World : Type := Database * option nat.
Definition db : Cell World Database := {| cget := fst; cput := fun x w => (x, snd w) |}.
Definition requests : Cell World (option nat) := {| cget := snd; cput := fun x w => (fst w, x) |}.
Definition heap (_ : nat) : Cell World EngineHeap := {| cget := fun _ => fresh_heap []; cput := fun _ w => w |}.
Definition flag : Cell World bool := {| cget := fun _ => true; cput := fun _ w => w |}.
Definition metrics : Cell World MetricsGlobal := {| cget := fun _ => None; cput := fun _ w => w |}.
Definition spawned : Cell World (list ListRuntime) := {| cget := fun _ => []; cput := fun _ w => w |}.
Definition query_log : Cell World QueryLog := {| cget := fun _ => query_log_new 0; cput := fun _ w => w |}.
Definition db_outside : DbOutside World :=
  {| db_fault := fun w => (None, w); db_message := fun _ => lit "constraint failed";
     new_v4 := fun w => (ex_fresh_id (fst w), w) |}.
#[export] Instance db_quiet : QuietDb db db_outside.
Proof. split; [by split; [|intros []|]|done|done|]. intros w. apply ex_fresh_id_fresh. Qed.

Definition silent : UpstreamResolver World :=
  {| resolve := fun _ => mret (Err URE_Timeout); label := lit "silent" |}.
Definition builders : Builders World :=
  {| b_upstream_resolver := fun _ _ => mret (Ok silent);
     b_domain_filter := fun n config repo w =>
       match config_runtimes (filter_config config) with
       | Ok rts => (Ok {| e_sinkhole_v4 := (0, 0, 0, 0)%N; e_sinkhole_v6 := [];
                          e_runtimes := rts; e_cache_repo := repo |}, w)
       | Err e => (Err e, w)
       end;
     b_zone_entries := fun _ _ => mret (Ok []) |}.
#[export] Instance builders_filter : FilterBuilder builders.
Proof.
  split. intros n config repo w e w'. simpl. destruct (config_runtimes _); [|done]. by intros [= <- _].
Qed.
#[export] Instance channel : Channel builders (mret None) flag query_log (mret None) db db_outside requests.
Proof.
  split; try done.
  - by split; [|intros []|].
  - intros n config repo w. simpl. by destruct (config_runtimes _).
Qed.

#[local] Existing Instance text_names.
Definition codec : DnsCodec := ex_codec [].
#[local] Existing Instance codec.

Definition config : DnsFilterConfig :=
  {| dc_listen := {| lc_dns := Some {| so_enabled := true; so_addresses := default_public_addresses;
                                       so_port := 53 |};
                     lc_dot := None; lc_doh := None; lc_doq := None; lc_admin := None; lc_metrics := None |};
     dc_blocklists := dc_blocklists ex_dns_config; dc_allowlists := []; dc_filtering := None;
     dc_resolvers := dc_resolvers ex_dns_config; dc_plugins := [];
     dc_logging := {| lg_syslog := None; lg_file := None; lg_stdout := None |};
     dc_security := None; dc_api := None; dc_control := None; dc_mcp := None; dc_database := None;
     dc_outbound := None |}.
Definition parse_yaml (_ : rstr) : result DnsFilterConfig YamlError := Ok config.
Definition repos : Repositories World := sqlx_repositories db db_outside.
Definition world0 : World := (initial_database (lit "b1"), Some 0).

Definition engine0 : ListFilterEngine World :=
  {| e_sinkhole_v4 := (0, 0, 0, 0)%N; e_sinkhole_v6 := []; e_runtimes := []; e_cache_repo := None |}.
Definition daemon0 : Daemon World :=
  {| dm_generation := 0; dm_filter := engine0;
     dm_pipeline := build_dns_request_pipeline_full metrics silent (engine_filter (heap 0) engine0)
                      AQP_NotImp [] (Some flag);
     dm_ops := start_ops heap spawned flag (send_reload requests) repos engine0 None 0 {| zones := [] |};
     dm_loops := [] |}.

(** The first start on an empty database. *)
Definition boot : result (Daemon World) Error * World :=
  start_daemon metrics db_outside builders heap spawned flag query_log (send_reload requests) (mret None)
    config repos world0.
Definition d1 : Daemon World := match fst boot with Ok d => d | Err _ => daemon0 end.
Definition w1 : World := snd boot.
Lemma boot_ok :
  start_daemon metrics db_outside builders heap spawned flag query_log (send_reload requests) (mret None)
    config repos world0 = (Ok d1, w1).
Proof.
  assert (is_ok (fst boot) = true) as Hok by (vm_compute; reflexivity). unfold d1, w1.
  fold boot. destruct boot as [[d|e] w]; [done|discriminate Hok].
Qed.
Lemma initial_ok : schema_ok (initial_database (lit "b1")).
Proof. constructor; simpl; repeat (constructor || apply not_elem_of_nil || apply NoDup_singleton). Qed.

(** A list is added and the task reloads. *)
Definition added : OpResult unit * World :=
  run_operation ex_urls db_outside (dm_ops d1) (OpAddFilterList (lit "block") ex_new_list) w1.
Definition w2 : World := snd added.
Definition reread : result (ReloadedConfig World) Error * World :=
  reload_config_from_db_cached parse_yaml builders (mret None) (S (dm_generation d1)) [] repos
    (cput requests (Some 0) w2).
Definition d2 : Daemon World := install metrics heap flag (fst reread) d1.
Definition rested : System World :=
  MkSystem d2 (snd reread) Waiting (is_ok (fst reread)) false.

#[local] Notation step :=
  (system_step metrics parse_yaml ex_urls builders (mret None) heap flag [] db db_outside requests).
Lemma added_ok : run_operation ex_urls db_outside (dm_ops d1) (OpAddFilterList (lit "block") ex_new_list) w1
  = (Ok tt, w2).
Proof.
  assert (is_ok (fst added) = true) as Hok by (vm_compute; reflexivity). unfold w2. fold added.
  destruct added as [[[]|e] w]; [done|discriminate Hok].
Qed.
Lemma changed : step (started_system d1 w1)
  (MkSystem d1 w2 Waiting true false).
Proof. exact (step_operation _ _ _ _ _ _ _ _ _ _ _ d1 w1 Waiting true false _ _ added_ok). Qed.
Lemma reloads : rtc step (started_system d1 w1) rested.
Proof.
  eapply rtc_l; [exact changed|].
  eapply rtc_l; [apply step_task, (task_take _ _ _ _ _ _ _ _ _ _ d1 w2 true false 0); vm_compute; reflexivity|].
  eapply rtc_l; [apply step_task, task_read, surjective_pairing|].
  eapply rtc_l; [apply step_task, task_install|]. apply rtc_refl.
Qed.

Lemma settled_daemon_serves_database_witness :
  Exists (same_list (lit "tracking") (lit "https://lists.example/t.txt") LK_Block)
    (e_runtimes (dm_filter (sy_daemon rested))).
Proof.
  apply (settled_daemon_serves_database metrics parse_yaml ex_urls builders (mret None) heap spawned flag
    query_log (mret None) [] db db_outside requests config world0 w1 d1 rested
    (lit "tracking") (lit "https://lists.example/t.txt") LK_Block eq_refl eq_refl initial_ok boot_ok reloads eq_refl);
    [vm_compute; reflexivity..|].
  exists (new_list_record (lit "block") (ex_fresh_id (fst w1)) (lit "hosts") ex_new_list).
  split_and!; vm_compute; reflexivity.
Defined.

(** Management that fails half-way ([step_half_done]): the zone is in the database, no reload
    is asked for, and the pipeline does not know the zone until another reload begins. *)
Lemma half_done :
  let '(r, w) := run_operation ex_urls db_outside (dm_ops d1) (OpAddZone ex_new_zone) w1 in
  is_ok r = false /\ cget requests w = Some 0 /\ (zw_zone <$> t_zones (fst w)) <> (zw_zone <$> t_zones (fst w1)).
Proof. vm_compute. by split_and!. Qed.
End SystemExamples.
