(* ===== verification/Migrations.v ===== *)
(** * Migrations of the database

    The SQLite migrations [src/migrations/sqlite/001] to [004]: the schema of each version
    as a record of tables, each later migration as a function from one to the next, and
    what an old database says after all of them.  [Repositories.Database] is the last
    version.

    [json_each] is SQLite's: the strings of a JSON array, in order, or nothing when the
    text is rejected or holds something that is not a string.  The identifiers the
    migration draws at random for its rows are given by position. *)

From S2P Require Import Prelude RustStr Repositories.

(** ** Version 1 ([001_initial_schema.sql]) *)

Record UpstreamServerRow1 : Type := {
  u1_id : rstr; u1_enabled : bool; u1_protocol : rstr; u1_address : rstr;
  u1_auth_token : option rstr; u1_auth_username : option rstr; u1_auth_password : option rstr;
  u1_max_hops : option Z; u1_nameserver_ip_family : option rstr;
  u1_root_hints_path : option rstr; u1_root_key_path : option rstr; u1_dnssec : bool;
  u1_sort_order : Z
}.
(** Arrays are JSON texts. *)
Record ResolverConfigRow1 : Type := { rc1_strategy : rstr; rc1_bootstrap_resolvers : rstr }.
Record ZoneDiscoveryRow1 : Type := { zd1_row : ZoneDiscoveryRow; zd1_allowed_types : rstr }.

Record Database1 : Type := {
  m1_filter_lists : list FilterListRecord;
  m1_filter_cache_documents : list FilterCacheDocumentRecord;
  m1_filtering_config : FilteringConfigRecord;
  m1_resolver_config : ResolverConfigRow1;
  m1_upstream_servers : list UpstreamServerRow1;
  m1_zones : list ZoneRow;
  m1_zone_servers : list ZoneServerRecord;
  m1_zone_discovery : list ZoneDiscoveryRow1
}.

(** The default of [bootstrap_resolvers]: the array with the string [1.1.1.1]. *)
Definition default_bootstrap_json : rstr := [ch "["; 34%N] ++ lit "1.1.1.1" ++ [34%N; ch "]"].

Definition initial_schema : Database1 :=
  {| m1_filter_lists := []; m1_filter_cache_documents := [];
     m1_filtering_config := {| fcfg_sinkhole_ipv4 := lit "0.0.0.0"; fcfg_sinkhole_ipv6 := lit "::";
                               fcfg_any_query_policy := lit "notimp" |};
     m1_resolver_config := {| rc1_strategy := lit "round_robin";
                              rc1_bootstrap_resolvers := default_bootstrap_json |};
     m1_upstream_servers := []; m1_zones := []; m1_zone_servers := []; m1_zone_discovery := [] |}.

(** ** Versions 2 and 3 *)

(** [normalized U]: the schema of version 2 with upstream rows of type [U]. *)
Record Normalized (U : Type) : Type := {
  m2_filter_lists : list FilterListRecord;
  m2_filter_cache_documents : list FilterCacheDocumentRecord;
  m2_filtering_config : FilteringConfigRecord;
  m2_strategy : rstr;
  m2_bootstrap_resolvers : list BootstrapResolverRow;
  m2_upstream_servers : list U;
  m2_zones : list ZoneRow;
  m2_zone_servers : list ZoneServerRecord;
  m2_zone_discovery : list ZoneDiscoveryRow;
  m2_allowed_types : list AllowedTypeRow
}.
Arguments m2_filter_lists {U} _.
Arguments m2_filter_cache_documents {U} _.
Arguments m2_filtering_config {U} _.
Arguments m2_strategy {U} _.
Arguments m2_bootstrap_resolvers {U} _.
Arguments m2_upstream_servers {U} _.
Arguments m2_zones {U} _.
Arguments m2_zone_servers {U} _.
Arguments m2_zone_discovery {U} _.
Arguments m2_allowed_types {U} _.

(** [INSERT INTO ... SELECT]: row by row; a violated constraint fails the migration. *)
Fixpoint insert_select {A} (clash : A -> A -> bool) (rows t : list A) : option (list A) :=
  match rows with
  | [] => Some t
  | r :: rest => match insert_row clash r t with
                 | Ok t' => insert_select clash rest t'
                 | Err _ => None
                 end
  end.

Section migrations.
Context (json_each : rstr -> option (list rstr)).
Context (bootstrap_uuid type_uuid : nat -> rstr).

Definition bootstrap_row (i : nat) (address : rstr) : BootstrapResolverRow :=
  {| br_id := bootstrap_uuid i; br_address := address; br_sort_order := Z.of_nat i |}.
Definition allowed_type_row (i : nat) (entry : rstr * rstr) : AllowedTypeRow :=
  {| at_id := type_uuid i; at_zone_discovery_id := entry.1; at_allowed_type := entry.2 |}.

(** [zone_discovery AS zd, json_each(zd.allowed_types) AS j]. *)
Definition discovery_types (rows : list ZoneDiscoveryRow1) : option (list (rstr * rstr)) :=
  mjoin <$> mapM (fun row => fmap (pair (dw_id (zd1_row row))) <$> json_each (zd1_allowed_types row)) rows.

(** [002_normalize_list_columns.sql]. *)
Definition normalize_list_columns (d : Database1) : option (Normalized UpstreamServerRow1) :=
  addresses ← json_each (rc1_bootstrap_resolvers (m1_resolver_config d));
  bootstrap ← insert_select bootstrap_clash (imap bootstrap_row addresses) [];
  types ← discovery_types (m1_zone_discovery d);
  allowed ← insert_select allowed_type_clash (imap allowed_type_row types) [];
  Some {| m2_filter_lists := m1_filter_lists d;
          m2_filter_cache_documents := m1_filter_cache_documents d;
          m2_filtering_config := m1_filtering_config d;
          m2_strategy := rc1_strategy (m1_resolver_config d);
          m2_bootstrap_resolvers := bootstrap;
          m2_upstream_servers := m1_upstream_servers d; m2_zones := m1_zones d;
          m2_zone_servers := m1_zone_servers d;
          m2_zone_discovery := zd1_row <$> m1_zone_discovery d;
          m2_allowed_types := allowed |}.

(** [003_add_outbound_routing.sql]: two columns, NULL in every row. *)
Definition with_outbound (u : UpstreamServerRow1) : UpstreamServerRecord :=
  {| usr_id := u1_id u; usr_enabled := u1_enabled u; usr_protocol := u1_protocol u;
     usr_address := u1_address u; usr_auth_token := u1_auth_token u;
     usr_auth_username := u1_auth_username u; usr_auth_password := u1_auth_password u;
     usr_max_hops := u1_max_hops u; usr_nameserver_ip_family := u1_nameserver_ip_family u;
     usr_root_hints_path := u1_root_hints_path u; usr_root_key_path := u1_root_key_path u;
     usr_dnssec := u1_dnssec u; usr_sort_order := u1_sort_order u; usr_bind_address := None;
     usr_fwmark := None |}.

Definition add_outbound_routing (d : Normalized UpstreamServerRow1) : Normalized UpstreamServerRecord :=
  {| m2_filter_lists := m2_filter_lists d; m2_filter_cache_documents := m2_filter_cache_documents d;
     m2_filtering_config := m2_filtering_config d; m2_strategy := m2_strategy d;
     m2_bootstrap_resolvers := m2_bootstrap_resolvers d;
     m2_upstream_servers := with_outbound <$> m2_upstream_servers d; m2_zones := m2_zones d;
     m2_zone_servers := m2_zone_servers d; m2_zone_discovery := m2_zone_discovery d;
     m2_allowed_types := m2_allowed_types d |}.

(** [004_add_dns_response_cache.sql]: the response cache is on, without bounds. *)
Definition add_dns_response_cache (d : Normalized UpstreamServerRecord) : Database :=
  {| t_filter_lists := m2_filter_lists d; t_filter_cache_documents := m2_filter_cache_documents d;
     t_filtering_config := m2_filtering_config d;
     t_resolver_config := {| rcw_strategy := m2_strategy d; rcw_dns_cache_enabled := true;
                             rcw_dns_cache_min_ttl_seconds := None;
                             rcw_dns_cache_max_ttl_seconds := None |};
     t_bootstrap_resolvers := m2_bootstrap_resolvers d; t_upstream_servers := m2_upstream_servers d;
     t_zones := m2_zones d; t_zone_servers := m2_zone_servers d;
     t_zone_discovery := m2_zone_discovery d; t_allowed_types := m2_allowed_types d |}.

(** The migrations after the first, in the order of their numbers. *)
Definition migrate (d : Database1) : option Database :=
  d2 ← normalize_list_columns d; Some (add_dns_response_cache (add_outbound_routing d2)).
End migrations.

(** ** What the first schema promises *)

Record schema1_ok (d : Database1) : Prop := {
  ok1_list_ids : NoDup (flr_id <$> m1_filter_lists d);
  ok1_list_names : NoDup (flr_name <$> m1_filter_lists d);
  ok1_list_kinds : Forall (fun r => kind_ok r = true) (m1_filter_lists d);
  ok1_document_keys : NoDup (fcd_key <$> m1_filter_cache_documents d);
  ok1_upstream_ids : NoDup (u1_id <$> m1_upstream_servers d);
  ok1_zone_ids : NoDup (zw_id <$> m1_zones d);
  ok1_zone_names : NoDup (zw_zone <$> m1_zones d);
  ok1_server_ids : NoDup (zsr_id <$> m1_zone_servers d);
  ok1_server_zones : Forall (fun s => zsr_zone_id s ∈ zw_id <$> m1_zones d) (m1_zone_servers d);
  ok1_discovery_ids : NoDup ((fun row => dw_id (zd1_row row)) <$> m1_zone_discovery d)
}.

(** ** Rows made by a migration *)

Lemma insert_select_keys {A K} `{EqDecision K} (clash : A -> A -> bool) (id_of : A -> rstr) (key_of : A -> K)
    rows t :
  (forall a b, clash a b = str_eqb (id_of a) (id_of b) || bool_decide (key_of a = key_of b)) ->
  NoDup (id_of <$> t ++ rows) -> NoDup (key_of <$> t) ->
  insert_select clash rows t = if bool_decide (NoDup (key_of <$> t ++ rows)) then Some (t ++ rows) else None.
Proof.
  intros Hc. revert t. induction rows as [|r rows IH]; intros t Hid Hk; simpl.
  { rewrite app_nil_r. by rewrite bool_decide_true. }
  rewrite (insert_row_accepts _ id_of key_of) by (auto || (apply Forall_forall; intros x Hx Heq;
    rewrite fmap_app in Hid; apply NoDup_app in Hid as (_ & Hid & _);
    apply (Hid (id_of x)); [by apply list_elem_of_fmap_2|]; rewrite Heq; simpl; by left)).
  rewrite (assoc_L (++) t [r] rows : t ++ r :: rows = _) in *.
  case_bool_decide as Hr.
  - apply IH; [done|]. rewrite fmap_app. apply NoDup_app. split_and!; [done| |apply NoDup_singleton].
    by intros k Hin ->%list_elem_of_singleton.
  - rewrite bool_decide_false; [done|]. rewrite !fmap_app. intros Hnd.
    apply NoDup_app in Hnd as (Hnd & _ & _). apply NoDup_app in Hnd as (_ & Hnd & _).
    apply (Hnd _ Hr). simpl. by left.
Qed.

Lemma imap_ids {A B} (f : nat -> A -> B) (id_of : B -> rstr) (uuid : nat -> rstr) l :
  (forall i a, id_of (f i a) = uuid i) -> Inj (=) (=) uuid -> NoDup (id_of <$> imap f l).
Proof.
  intros Hf Hinj. rewrite fmap_imap.
  rewrite (imap_ext _ (fun i _ => uuid i)) by (intros; apply Hf). rewrite imap_seq_0.
  apply NoDup_fmap_2; [done|apply NoDup_seq].
Qed.

Lemma imap_items {A B} (f : nat -> A -> B) (g : B -> A) l :
  (forall i a, g (f i a) = a) -> g <$> imap f l = l.
Proof.
  intros Hf. rewrite fmap_imap, (imap_ext _ (fun _ => id)) by (intros; apply Hf).
  rewrite (imap_const id). apply list_fmap_id.
Qed.

Lemma imap_filter {A B C} (f : nat -> A -> B) (P : B -> Prop) (Q : A -> Prop) `{!forall x, Decision (P x)}
    `{!forall x, Decision (Q x)} (g : B -> C) (h : A -> C) l :
  (forall i a, P (f i a) <-> Q a) -> (forall i a, g (f i a) = h a) ->
  g <$> filter P (imap f l) = h <$> filter Q l.
Proof.
  revert f. induction l as [|a l IH]; intros f HP Hg; [done|]. simpl.
  rewrite !filter_cons. rewrite (decide_ext (P (f 0 a)) (Q a)) by apply HP.
  pose proof (IH (f ∘ S) (fun i => HP (S i)) (fun i => Hg (S i))) as IHl.
  case_decide; [|done]. rewrite !fmap_cons. by rewrite Hg, IHl.
Qed.

(** Numbered rows are read in their order. *)
Lemma bootstrap_rows_sorted uuid l : Inj (=) (=) uuid ->
  merge_sort by_bootstrap_order (imap (bootstrap_row uuid) l) = imap (bootstrap_row uuid) l.
Proof.
  intros Hinj. apply merge_sort_sorted; [apply _..| |].
  - intros x y Hx Hy Hxy Hyx. eapply (NoDup_fmap_inj br_id); [|exact Hx|exact Hy|].
    + by apply (imap_ids _ _ uuid).
    + by apply (order_then_id_antisymm br_sort_order br_id).
  - assert (forall k, StronglySorted by_bootstrap_order (imap (fun i => bootstrap_row uuid (k + i)) l)) as Hs.
    { clear. induction l as [|a l IH]; intros k; [constructor|]. simpl.
      rewrite (imap_ext _ (fun i => bootstrap_row uuid (S k + i)))
        by (intros; simpl; by rewrite Nat.add_succ_r).
      constructor; [apply IH|]. apply Forall_forall. intros y (i & b & -> & _)%elem_of_lookup_imap.
      left. simpl. lia. }
    exact (Hs 0).
Qed.

(** ** Discovery entries and their types *)

Section discovery_pairs.
Context (types : rstr -> list rstr).

Definition typed (ids : list rstr) : list (rstr * rstr) :=
  mjoin ((fun id => pair id <$> types id) <$> ids).

Lemma typed_fst ids p : p ∈ typed ids -> p.1 ∈ ids.
Proof.
  unfold typed. intros (l & Hp & (id & -> & Hid)%list_elem_of_fmap)%list_elem_of_join.
  by apply list_elem_of_fmap in Hp as (t & -> & _).
Qed.

Lemma typed_NoDup ids : NoDup ids -> NoDup (typed ids) <-> Forall (fun id => NoDup (types id)) ids.
Proof.
  induction 1 as [|id ids Hid Hnd IH]; [split; constructor|].
  change (typed (id :: ids)) with ((pair id <$> types id) ++ typed ids).
  rewrite NoDup_app, Forall_cons, IH. split; [intros (Ht & _ & Hr)|intros (Ht & Hr)].
  - split; [by eapply NoDup_fmap_1|done].
  - split_and!; [apply NoDup_fmap_2; [by intros ?? [=]|done]| |done].
    intros p (t & -> & _)%list_elem_of_fmap Hin%typed_fst. done.
Qed.

Lemma typed_filter ids id : NoDup ids -> id ∈ ids ->
  snd <$> filter (fun p => p.1 = id) (typed ids) = types id.
Proof.
  induction 1 as [|x ids Hx Hnd IH]; [by intros ?%not_elem_of_nil|].
  change (typed (x :: ids)) with ((pair x <$> types x) ++ typed ids). rewrite filter_app, fmap_app.
  assert (forall l, (forall p, p ∈ l -> p.1 <> id) -> filter (fun p : rstr * rstr => p.1 = id) l = []) as Hnone.
  { intros l Hl. induction l as [|p l IHl]; [done|]. rewrite filter_cons_False; [apply IHl; intros; apply Hl; by right|].
    apply Hl. by left. }
  intros [->|Hin]%elem_of_cons.
  - rewrite (Hnone (typed ids)), app_nil_r by (intros p Hp%typed_fst Heq; by rewrite Heq in Hp).
    rewrite filter_all; [rewrite <- list_fmap_compose; apply list_fmap_id|].
    apply Forall_forall. by intros p (t & -> & _)%list_elem_of_fmap.
  - rewrite Hnone; [by apply IH|]. intros p (t & -> & _)%list_elem_of_fmap. simpl. by intros ->.
Qed.
End discovery_pairs.

Lemma discovery_types_typed json_each types rows :
  Forall (fun row => json_each (zd1_allowed_types row) = Some (types (dw_id (zd1_row row)))) rows ->
  discovery_types json_each rows = Some (typed types ((fun row => dw_id (zd1_row row)) <$> rows)).
Proof.
  intros Hrows. unfold discovery_types.
  rewrite (proj2 (mapM_Some _ _ ((fun row => pair (dw_id (zd1_row row)) <$> types (dw_id (zd1_row row))) <$> rows))).
  - unfold typed. by rewrite <- list_fmap_compose.
  - apply Forall2_fmap_r, Forall2_same_length_lookup_2; [done|]. intros i x y Hx Hy. simplify_eq.
    rewrite Forall_lookup in Hrows. by rewrite (Hrows _ _ Hx).
Qed.

(** ** After the migrations *)

Section migrated.
Context (json_each : rstr -> option (list rstr)) (bootstrap_uuid type_uuid : nat -> rstr).
Context `{!Inj (=) (=) bootstrap_uuid, !Inj (=) (=) type_uuid}.
Context (d1 : Database1) (addresses : list rstr) (types : rstr -> list rstr).

(** The texts of [d1] are arrays of strings. *)
Definition arrays : Prop :=
  json_each (rc1_bootstrap_resolvers (m1_resolver_config d1)) = Some addresses
  /\ Forall (fun row => json_each (zd1_allowed_types row) = Some (types (dw_id (zd1_row row))))
       (m1_zone_discovery d1).

(** No array of [d1] repeats an element. *)
Definition no_repeats : Prop :=
  NoDup addresses /\ Forall (fun row => NoDup (types (dw_id (zd1_row row)))) (m1_zone_discovery d1).

#[local] Notation ids := ((fun row => dw_id (zd1_row row)) <$> m1_zone_discovery d1).
#[local] Notation migrated_database :=
  {| t_filter_lists := m1_filter_lists d1; t_filter_cache_documents := m1_filter_cache_documents d1;
     t_filtering_config := m1_filtering_config d1;
     t_resolver_config := {| rcw_strategy := rc1_strategy (m1_resolver_config d1);
                             rcw_dns_cache_enabled := true; rcw_dns_cache_min_ttl_seconds := None;
                             rcw_dns_cache_max_ttl_seconds := None |};
     t_bootstrap_resolvers := imap (bootstrap_row bootstrap_uuid) addresses;
     t_upstream_servers := with_outbound <$> m1_upstream_servers d1; t_zones := m1_zones d1;
     t_zone_servers := m1_zone_servers d1; t_zone_discovery := zd1_row <$> m1_zone_discovery d1;
     t_allowed_types := imap (allowed_type_row type_uuid) (typed types ids) |}.

Lemma bootstrap_inserted :
  insert_select bootstrap_clash (imap (bootstrap_row bootstrap_uuid) addresses) []
  = if bool_decide (NoDup addresses) then Some (imap (bootstrap_row bootstrap_uuid) addresses) else None.
Proof.
  rewrite (insert_select_keys _ br_id br_address); [|done|by apply (imap_ids _ _ bootstrap_uuid)|apply NoDup_nil_2].
  simpl. by rewrite (imap_items _ br_address).
Qed.

Lemma types_inserted entries :
  insert_select allowed_type_clash (imap (allowed_type_row type_uuid) entries) []
  = if bool_decide (NoDup entries) then Some (imap (allowed_type_row type_uuid) entries) else None.
Proof.
  set (key := fun t => (at_zone_discovery_id t, at_allowed_type t)).
  rewrite (insert_select_keys _ at_id key); [|intros a b|by apply (imap_ids _ _ type_uuid)|apply NoDup_nil_2].
  - simpl. by rewrite (imap_items _ key) by (by intros i []).
  - unfold allowed_type_clash, key, str_eqb. f_equal. rewrite <- bool_decide_and.
    apply bool_decide_ext. split; [by intros [-> ->]|by intros [= -> ->]].
Qed.

Lemma migrate_cases : schema1_ok d1 -> arrays ->
  (no_repeats /\ migrate json_each bootstrap_uuid type_uuid d1 = Some migrated_database)
  \/ (~ no_repeats /\ migrate json_each bootstrap_uuid type_uuid d1 = None).
Proof.
  intros Hok [Hb Ht]. unfold migrate, normalize_list_columns, no_repeats. rewrite Hb.
  cbn [base.mbind option_bind]. rewrite bootstrap_inserted, (discovery_types_typed _ _ _ Ht).
  assert (NoDup (typed types ids) <-> Forall (fun row => NoDup (types (dw_id (zd1_row row)))) (m1_zone_discovery d1))
    as Hty by (by rewrite typed_NoDup, Forall_fmap by apply Hok).
  case_bool_decide; [|right; naive_solver]. cbn [base.mbind option_bind]. rewrite types_inserted.
  case_bool_decide; [left|right]; naive_solver.
Qed.

Lemma migrated_schema : schema1_ok d1 -> no_repeats -> schema_ok migrated_database.
Proof.
  intros [] [Ha Ht]. constructor; simpl; try done.
  - by apply (imap_ids _ _ bootstrap_uuid).
  - by rewrite (imap_items _ br_address).
  - by rewrite <- list_fmap_compose.
  - by rewrite <- list_fmap_compose.
  - by apply (imap_ids _ _ type_uuid).
  - rewrite (imap_items _ (fun t => (at_zone_discovery_id t, at_allowed_type t))) by (by intros i []).
    apply typed_NoDup; [done|]. by rewrite Forall_fmap.
  - apply Forall_forall. intros t (i & e & -> & He)%elem_of_lookup_imap. simpl.
    rewrite <- list_fmap_compose. by eapply typed_fst, list_elem_of_lookup_2.
Qed.

(** C17. Upgrading a database of the first version.  The migrations succeed exactly when no
    list of bootstrap resolvers and no list of allowed types repeats an element; on success
    the result satisfies the present schema, the repositories read back the same strategy,
    the same bootstrap resolvers in the same order (with the response cache on and
    unbounded), the same discovery entries with the same types and the same upstream
    servers without outbound routing, and the other tables are as they were. *)
Theorem migrations_keep_configuration {W} (db : Cell W Database) (outside : DbOutside W)
    `{!QuietDb db outside} (w : W) :
  schema1_ok d1 -> arrays ->
  match migrate json_each bootstrap_uuid type_uuid d1 with
  | None => ~ no_repeats
  | Some d =>
      no_repeats /\ schema_ok d
      /\ (let w := cput db d w in
          upstream_get_resolver_config db outside w
          = (Ok {| rcr_strategy := rc1_strategy (m1_resolver_config d1);
                   rcr_bootstrap_resolvers := addresses; rcr_dns_cache_enabled := true;
                   rcr_dns_cache_min_ttl_seconds := None; rcr_dns_cache_max_ttl_seconds := None |}, w)
          /\ (exists records, discovery_get_all db outside w = (Ok records, w)
               /\ length records = length (m1_zone_discovery d1)
               /\ forall row, row ∈ m1_zone_discovery d1 ->
                    exists ts, ts ≡ₚ types (dw_id (zd1_row row)) /\ discovery_of_row (zd1_row row) ts ∈ records)
          /\ upstream_get_all_servers db outside w
             = (Ok (merge_sort by_upstream_order (with_outbound <$> m1_upstream_servers d1)), w))
      /\ t_filter_lists d = m1_filter_lists d1
      /\ t_filter_cache_documents d = m1_filter_cache_documents d1
      /\ t_filtering_config d = m1_filtering_config d1
      /\ t_zones d = m1_zones d1 /\ t_zone_servers d = m1_zone_servers d1
  end.
Proof.
  intros Hok Har. pose proof (quiet_cell (db := db) (outside := outside)) as Hcell.
  destruct (migrate_cases Hok Har) as [[Hno ->]|[Hno ->]]; [|done].
  pose proof (migrated_schema Hok Hno) as Hs. split; [done|]. split; [done|]. cbv zeta.
  split; [|done]. split_and!.
  - unfold upstream_get_resolver_config, tbind. rewrite !(fetch_quiet db outside). unfold mret. rewrite cget_cput. simpl.
    by rewrite bootstrap_rows_sorted, (imap_items _ br_address).
  - rewrite (discovery_get_all_quiet db outside) by by rewrite cget_cput. rewrite cget_cput. simpl.
    eexists. split; [done|]. split; [by rewrite length_fmap, merge_sort_Permutation, length_fmap|].
    intros row Hrow. eexists. split; [|apply list_elem_of_fmap; exists (zd1_row row); split; [done|];
      rewrite merge_sort_Permutation; by apply list_elem_of_fmap_2].
    rewrite merge_sort_Permutation.
    rewrite (imap_filter _ _ (fun p => p.1 = dw_id (zd1_row row)) _ snd) by done.
    rewrite typed_filter; [done|apply Hok|]. by apply (list_elem_of_fmap_2 (fun row => dw_id (zd1_row row))).
  - unfold upstream_get_all_servers. rewrite (fetch_quiet db outside). by rewrite cget_cput.
Qed.
End migrated.

(** The database a new installation starts with. *)
Lemma initial_schema_migrated json_each bootstrap_uuid type_uuid :
  json_each default_bootstrap_json = Some [lit "1.1.1.1"] ->
  migrate json_each bootstrap_uuid type_uuid initial_schema = Some (initial_database (bootstrap_uuid 0)).
Proof.
  intros Hj. unfold migrate, normalize_list_columns, initial_schema. cbn [m1_resolver_config rc1_bootstrap_resolvers].
  by rewrite Hj.
Qed.

(** ** Witnesses *)

Module MigrationExamples.
Definition array (items : list rstr) : rstr :=
  [ch "["] ++ mjoin ((fun s => [34%N] ++ s ++ [34%N; ch ","]) <$> items) ++ [ch "]"].
Definition known : list (list rstr) :=
  [[lit "9.9.9.9"; lit "1.1.1.1"]; [lit "forward"; lit "reverse"]; [lit "9.9.9.9"; lit "9.9.9.9"]].
(** [json_each] on the texts used here. *)
Definition json_each (s : rstr) : option (list rstr) :=
  snd <$> List.find (fun p => str_eqb p.1 s) ((fun l => (array l, l)) <$> known).
Definition uuid (i : nat) : rstr := replicate i (ch "x").
#[export] Instance uuid_inj : Inj (=) (=) uuid.
Proof. intros i j Heq%(f_equal length). unfold uuid in Heq. by rewrite !length_replicate in Heq. Qed.

Definition discovery : ZoneDiscoveryRow :=
  {| dw_id := lit "d1"; dw_enabled := true; dw_address := lit "https://zones.example/index.json";
     dw_check_interval := None; dw_bypass_filter := false; dw_fallback_to_default_resolvers := false;
     dw_auth_token := None; dw_auth_username := None; dw_auth_password := None |}.
Definition old (bootstrap : list rstr) : Database1 :=
  {| m1_filter_lists := []; m1_filter_cache_documents := [];
     m1_filtering_config := m1_filtering_config initial_schema;
     m1_resolver_config := {| rc1_strategy := lit "failover"; rc1_bootstrap_resolvers := array bootstrap |};
     m1_upstream_servers := []; m1_zones := []; m1_zone_servers := [];
     m1_zone_discovery := [{| zd1_row := discovery;
                              zd1_allowed_types := array [lit "forward"; lit "reverse"] |}] |}.
Lemma old_ok bootstrap : schema1_ok (old bootstrap).
Proof. constructor; simpl; repeat (constructor || apply not_elem_of_nil || apply NoDup_singleton). Qed.

Lemma migrations_keep_configuration_witness :
  exists d, migrate json_each uuid uuid (old [lit "9.9.9.9"; lit "1.1.1.1"]) = Some d
    /\ fst (upstream_get_resolver_config ex_db ex_db_outside d)
       = Ok {| rcr_strategy := lit "failover"; rcr_bootstrap_resolvers := [lit "9.9.9.9"; lit "1.1.1.1"];
               rcr_dns_cache_enabled := true; rcr_dns_cache_min_ttl_seconds := None;
               rcr_dns_cache_max_ttl_seconds := None |}.
Proof.
  pose proof (migrations_keep_configuration json_each uuid uuid (old [lit "9.9.9.9"; lit "1.1.1.1"])
    [lit "9.9.9.9"; lit "1.1.1.1"] (fun _ => [lit "forward"; lit "reverse"]) ex_db ex_db_outside
    (initial_database []) (old_ok _)) as H.
  assert (is_Some (migrate json_each uuid uuid (old [lit "9.9.9.9"; lit "1.1.1.1"]))) as [d Hd]
    by (vm_compute; by eexists).
  rewrite Hd in H. destruct H as (_ & _ & [Hr _] & _); [vm_compute; repeat constructor|].
  exists d. split; [exact Hd|]. exact (f_equal fst Hr).
Defined.

(** A list that repeats an address, which the first version accepted, stops the upgrade. *)
Lemma repeated_address_stops_upgrade : migrate json_each uuid uuid (old [lit "9.9.9.9"; lit "9.9.9.9"]) = None.
Proof. vm_compute. reflexivity. Qed.
End MigrationExamples.
